(** * socket-ipc: a shallow embedding of the message codec, the framed
      transport, the client session and the poll-driven server

    The development follows the C sources file by file:
    - [protocol.h] / [protocol.c]  : wire header, byte order, constructors;
    - [net_common.c]               : [send_message] / [receive_message];
    - [client/client.c]            : [client_connect] / [client_disconnect];
    - [server/server.c]            : connection table, message handling,
                                     event loop and metrics.

    Conventions.  C integers are [Z] with their range or wrap-around written
    out; pointers are handles in [Z] with [NULL = 0], except heap buffers,
    which are [option (list byte)] ([None] is the null pointer).  Calls that
    leave the process (sockets, TLS, [malloc], the clock, the logger) are
    recorded in a trace of [Event]s; what they return is an explicit
    environment argument of the function that makes the call. *)

From Stdlib Require Import ZArith List Bool Lia Ascii String.
From Stdlib Require QArith.
From stdpp Require Import base list.

Local Open Scope Z_scope.

(* ================================================================== *)
(** * C integer types *)
(* ================================================================== *)

Definition UINT32_MAX : Z := 2 ^ 32 - 1.
Definition UINT64_MAX : Z := 2 ^ 64 - 1.
Definition SIZE_MAX : Z := 2 ^ 64 - 1.
Definition PTRDIFF_MAX : Z := 2 ^ 63 - 1.

Definition is_uint32 (x : Z) : Prop := 0 <= x <= UINT32_MAX.
Definition is_uint64 (x : Z) : Prop := 0 <= x <= UINT64_MAX.

(** Unsigned 64-bit wrap-around ([size_t], [uint64_t]). *)
Definition wrap64 (x : Z) : Z := x mod 2 ^ 64.

(** Conversion to a signed type of [w] bits (two's complement), as in the
    casts [(ssize_t)n] and the implicit conversion to the [int] parameter of
    [SSL_read] / [SSL_write]. *)
Definition to_signed (w : Z) (x : Z) : Z :=
  let m := x mod 2 ^ w in
  if m <? 2 ^ (w - 1) then m else m - 2 ^ w.

Definition to_ssize_t : Z -> Z := to_signed 64.
Definition to_int : Z -> Z := to_signed 32.

(** C truth value of an integer or of a pointer handle. *)
Definition truthy (x : Z) : bool := negb (x =? 0).

Definition NULL : Z := 0.

(* ================================================================== *)
(** * Byte order ([htonl], [ntohl], [htobe64], [be64toh]) *)
(* ================================================================== *)

Inductive endianness : Set := LittleEndian | BigEndian.

(** The machine the program runs on. *)
Class Host : Set := { host_endianness : endianness }.

(** Little-endian digits in base 256 of an [n]-byte unsigned value. *)
Fixpoint to_le (n : nat) (x : Z) : list Z :=
  match n with
  | O => []
  | S n' => x mod 256 :: to_le n' (x / 256)
  end.

Fixpoint of_le (bs : list Z) : Z :=
  match bs with
  | [] => 0
  | b :: bs' => b + 256 * of_le bs'
  end.

(** Reversal of the [n] bytes of a value. *)
Definition bswap (n : nat) (x : Z) : Z := of_le (rev (to_le n x)).

(** Bytes of an [n]-byte value as they lie in the memory of the host,
    lowest address first. *)
Definition mem_repr `{Host} (n : nat) (x : Z) : list Z :=
  match host_endianness with
  | LittleEndian => to_le n x
  | BigEndian => rev (to_le n x)
  end.

Definition hton `{Host} (n : nat) (x : Z) : Z :=
  match host_endianness with
  | LittleEndian => bswap n x
  | BigEndian => x
  end.

Definition htonl `{Host} : Z -> Z := hton 4.
Definition ntohl `{Host} : Z -> Z := hton 4.
Definition htobe64 `{Host} : Z -> Z := hton 8.
Definition be64toh `{Host} : Z -> Z := hton 8.

(* ================================================================== *)
(** * protocol.h / protocol.c *)
(* ================================================================== *)

Definition MSG_TYPE_TEXT : Z := 1.
Definition MSG_TYPE_ACK : Z := 3.
Definition MSG_TYPE_ERROR : Z := 4.

Definition MSG_FLAGS_NONE : Z := 0.
Definition MSG_FLAGS_COMPRESSED : Z := 1.
Definition MSG_FLAGS_ENCRYPTED : Z := 2.
Definition MSG_FLAGS_FINAL : Z := 4.

(** [MessageHeader]: packed, 4 + 8 + 4 bytes.  The fields keep the names of
    the C struct with the prefix [h_]. *)
Record MessageHeader : Set := mkHeader {
  h_type : Z;     (* uint32_t type *)
  h_length : Z;   (* uint64_t length *)
  h_flags : Z     (* uint32_t flags *)
}.

Definition sizeof_MessageHeader : Z := 16.

(** A header whose fields are in the range of their C types. *)
Definition header_valid (h : MessageHeader) : Prop :=
  is_uint32 (h_type h) /\ is_uint64 (h_length h) /\ is_uint32 (h_flags h).

(** [Message]: [payload] is the heap buffer ([None] for [NULL]) with its
    current contents. *)
Record Message : Set := mkMessage {
  header : MessageHeader;
  payload : option (list Byte.byte);
  payload_size : Z              (* size_t *)
}.

(** Number of bytes of the buffer a payload pointer refers to. *)
Definition buffer_length (p : option (list Byte.byte)) : Z :=
  match p with
  | None => 0
  | Some b => Z.of_nat (length b)
  end.

Definition message_header_serialize `{Host} (h : MessageHeader) : MessageHeader :=
  {| h_type := htonl (h_type h);
     h_length := htobe64 (h_length h);
     h_flags := htonl (h_flags h) |}.

Definition message_header_deserialize `{Host} (h : MessageHeader) : MessageHeader :=
  {| h_type := ntohl (h_type h);
     h_length := be64toh (h_length h);
     h_flags := ntohl (h_flags h) |}.

(** Memory image of a header struct: the 16 bytes handed to [send]. *)
Definition header_bytes `{Host} (h : MessageHeader) : list Z :=
  mem_repr 4 (h_type h) ++ mem_repr 8 (h_length h) ++ mem_repr 4 (h_flags h).

(** What a call to [malloc] returned: [None] for [NULL], otherwise the fresh
    block with its indeterminate contents. *)
Definition malloc_result : Set := option (list Byte.byte).

(** [memcpy(dst, src, n)] on a block [dst]. *)
Definition memcpy (dst src : list Byte.byte) (n : Z) : list Byte.byte :=
  take (Z.to_nat n) src ++ drop (Z.to_nat n) dst.

Definition message_create_text (alloc : malloc_result)
    (text : list Byte.byte) (text_len : Z) : Message :=
  let hdr := {| h_type := MSG_TYPE_TEXT; h_length := text_len;
                h_flags := MSG_FLAGS_NONE |} in
  if 0 <? text_len then
    match alloc with
    | None => {| header := hdr; payload := None; payload_size := 0 |}
    | Some block =>
        {| header := hdr; payload := Some (memcpy block text text_len);
           payload_size := text_len |}
    end
  else {| header := hdr; payload := None; payload_size := 0 |}.

Definition message_create_ack : Message :=
  {| header := {| h_type := MSG_TYPE_ACK; h_length := 0;
                  h_flags := MSG_FLAGS_NONE |};
     payload := None;
     payload_size := 0 |}.

Definition message_create_error (alloc : malloc_result)
    (error : list Byte.byte) (error_len : Z) : Message :=
  let hdr := {| h_type := MSG_TYPE_ERROR; h_length := error_len;
                h_flags := MSG_FLAGS_NONE |} in
  if 0 <? error_len then
    match alloc with
    | None => {| header := hdr; payload := None; payload_size := 0 |}
    | Some block =>
        {| header := hdr; payload := Some (memcpy block error error_len);
           payload_size := error_len |}
    end
  else {| header := hdr; payload := None; payload_size := 0 |}.

Definition message_free (msg : Message) : Message :=
  match payload msg with
  | Some _ => {| header := header msg; payload := None; payload_size := 0 |}
  | None => msg
  end.

Definition message_total_size (msg : Message) : Z :=
  wrap64 (sizeof_MessageHeader + payload_size msg).

(* ================================================================== *)
(** * Effects: the trace of calls that leave the process *)
(* ================================================================== *)

(** What a write hands to the transport: the memory image of a header struct
    (kept as the struct, see [header_bytes]) or payload bytes. *)
Inductive Buffer : Set :=
| BufHeader (h : MessageHeader)
| BufPayload (p : option (list Byte.byte)).

Inductive LogLevel : Set := LOG_LEVEL_INFO | LOG_LEVEL_WARN | LOG_LEVEL_ERROR.

Inductive Event : Set :=
| Ev_send (fd : Z) (buf : Buffer) (len : Z)      (* send(fd, buf, len, 0) *)
| Ev_SSL_write (ssl : Z) (buf : Buffer) (len : Z)
| Ev_recv (fd : Z) (len : Z)                     (* recv(fd, _, len, MSG_WAITALL) *)
| Ev_SSL_read (ssl : Z) (len : Z)
| Ev_close (fd : Z)
| Ev_SSL_shutdown (ssl : Z)
| Ev_SSL_free (ssl : Z)
| Ev_sleep (seconds : Z)
| Ev_log (level : LogLevel) (text : string)
| Ev_connect_unix_socket
| Ev_parse_address
| Ev_connect_inet_socket
| Ev_set_socket_timeout (fd : Z) (timeout_sec : Z)
| Ev_connect_tls (fd : Z)
| Ev_handler (client_id : Z) (msg : Message)
| Ev_realloc (bytes : Z)
| Ev_poll (fds : list Z) (timeout_ms : Z)
| Ev_accept (fd : Z)
| Ev_accept_tls_connection (fd : Z)
| Ev_free_pollfds.

(** Computations that emit events: a writer over the trace. *)
Definition IO (A : Type) : Type := A * list Event.

Definition ret {A : Type} (a : A) : IO A := (a, []).

Definition bind {A B : Type} (m : IO A) (f : A -> IO B) : IO B :=
  let (a, t1) := m in
  let (b, t2) := f a in
  (b, t1 ++ t2).

Definition emit (e : Event) : IO unit := (tt, [e]).

Definition result {A : Type} (m : IO A) : A := fst m.
Definition trace {A : Type} (m : IO A) : list Event := snd m.

Declare Scope io_scope.
Delimit Scope io_scope with io.
Notation "'call' x <- m ; k" := (bind m (fun x => k))
  (at level 10, x name, m at level 100, k at level 200,
   format "'[v' 'call'  x  <-  m ; '/' k ']'") : io_scope.
Notation "'exec' m ; k" := (bind m (fun _ => k))
  (at level 10, m at level 100, k at level 200,
   format "'[v' 'exec'  m ; '/' k ']'") : io_scope.
Local Open Scope io_scope.

Definition logger_info (text : string) : IO unit := emit (Ev_log LOG_LEVEL_INFO text).
Definition logger_warn (text : string) : IO unit := emit (Ev_log LOG_LEVEL_WARN text).
Definition logger_error (text : string) : IO unit := emit (Ev_log LOG_LEVEL_ERROR text).

(* ================================================================== *)
(** * net_common.c *)
(* ================================================================== *)

(** Return values of the two writes of [send_message]. *)
Record SendEnv : Set := mkSendEnv {
  send_header_ret : Z;
  send_payload_ret : Z
}.

(** [is_ssl && ssl]. *)
Definition use_ssl (ssl is_ssl : Z) : bool := truthy is_ssl && truthy ssl.

(** One write through the transport of the connection. *)
Definition transport_write (fd ssl is_ssl : Z) (buf : Buffer) (len : Z)
    (returned : Z) : IO Z :=
  if use_ssl ssl is_ssl
  then exec emit (Ev_SSL_write ssl buf (to_int len)) ; ret returned
  else exec emit (Ev_send fd buf len) ; ret returned.

Definition send_message `{Host} (env : SendEnv) (fd ssl is_ssl : Z)
    (msg : Message) : IO Z :=
  let hdr := message_header_serialize (header msg) in
  call sent <- transport_write fd ssl is_ssl (BufHeader hdr)
                 sizeof_MessageHeader (send_header_ret env) ;
  if negb (sent =? sizeof_MessageHeader) then ret (-1)
  else if (0 <? h_length (header msg)) && bool_decide (payload msg <> None) then
    call sent <- transport_write fd ssl is_ssl (BufPayload (payload msg))
                   (payload_size msg) (send_payload_ret env) ;
    if negb (sent =? to_ssize_t (payload_size msg)) then ret (-1)
    else ret 0
  else ret 0.

(** What the environment does during one call of [receive_message]. *)
Record RecvEnv : Set := mkRecvEnv {
  recv_header_ret : Z;            (* return value of the header read *)
  recv_header_raw : MessageHeader;(* the header struct after that read *)
  recv_malloc : malloc_result;    (* result of malloc(header.length) *)
  recv_payload_ret : Z;           (* return value of the payload read *)
  recv_payload_data : list Byte.byte (* bytes that read stored in the buffer *)
}.

(** One read through the transport of the connection; the count handed to
    [SSL_read] is an [int]. *)
Definition transport_read (fd ssl is_ssl : Z) (len : Z) (returned : Z) : IO Z :=
  if use_ssl ssl is_ssl
  then exec emit (Ev_SSL_read ssl (to_int len)) ; ret returned
  else exec emit (Ev_recv fd len) ; ret returned.

(** A read that returned [r > 0] stored [data] at the start of [block]. *)
Definition read_into (block data : list Byte.byte) (r : Z) : list Byte.byte :=
  if 0 <? r then memcpy block data r else block.

(** [receive_message]: [msg0] is the caller's [*msg] on entry; the result is
    the return value and [*msg] on exit. *)
Definition receive_message `{Host} (env : RecvEnv) (fd ssl is_ssl : Z)
    (msg0 : Message) : IO (Z * Message) :=
  call received <- transport_read fd ssl is_ssl sizeof_MessageHeader
                     (recv_header_ret env) ;
  if negb (received =? sizeof_MessageHeader) then
    ret (-1, msg0)
  else
    let hdr := message_header_deserialize (recv_header_raw env) in
    let msg := {| header := hdr; payload := None; payload_size := 0 |} in
    if 0 <? h_length hdr then
      match recv_malloc env with
      | None => ret (-1, msg)
      | Some block =>
          call received <- transport_read fd ssl is_ssl (h_length hdr)
                             (recv_payload_ret env) ;
          if negb (received =? to_ssize_t (h_length hdr)) then
            ret (-1, msg)
          else
            ret (0, {| header := hdr;
                       payload := Some (read_into block (recv_payload_data env)
                                          received);
                       payload_size := h_length hdr |})
      end
    else ret (0, msg).

(** [close_tls_connection]. *)
Definition close_tls_connection (ssl : Z) : IO unit :=
  if truthy ssl
  then exec emit (Ev_SSL_shutdown ssl) ; emit (Ev_SSL_free ssl)
  else ret tt.

(** The environment of [receive_message] behaves like the C library:
    [malloc] returns a block of the requested size, which is never larger
    than [PTRDIFF_MAX], and a read stores exactly as many bytes as it
    reports. *)
Definition recv_env_ok `{Host} (env : RecvEnv) : Prop :=
  let len := h_length (message_header_deserialize (recv_header_raw env)) in
  (forall block, recv_malloc env = Some block ->
     Z.of_nat (length block) = len /\ len <= PTRDIFF_MAX) /\
  Z.of_nat (length (recv_payload_data env)) = Z.max 0 (recv_payload_ret env).

(* ================================================================== *)
(** * types.h, utils.c *)
(* ================================================================== *)

Inductive SocketMode : Set := SOCKET_MODE_UNIX | SOCKET_MODE_INET.

(** The part of [address] before the first colon. *)
Fixpoint host_part (address : string) : string :=
  match address with
  | EmptyString => EmptyString
  | String c rest =>
      if Ascii.eqb c ":"%char then EmptyString else String c (host_part rest)
  end.

(** [parse_address]: [NULL] when [strdup] fails, otherwise the host.  The
    port it stores only travels on to [connect], whose outcome is given by
    the environment, and is not tracked. *)
Definition parse_address (strdup_ok : bool) (address : string) : option string :=
  if strdup_ok then Some (host_part address) else None.

(** [set_socket_timeout]: the two [setsockopt] calls and their results. *)
Definition set_socket_timeout (rcvtimeo_ret sndtimeo_ret : Z) (fd timeout_sec : Z)
    : IO Z :=
  exec emit (Ev_set_socket_timeout fd timeout_sec) ;
  if rcvtimeo_ret <? 0 then ret (-1)
  else if sndtimeo_ret <? 0 then ret (-1)
  else ret 0.

(* ================================================================== *)
(** * client/client_net.c, client/client.c *)
(* ================================================================== *)

Module Client.

(** What the environment answers during one connection attempt. *)
Record AttemptEnv : Set := mkAttemptEnv {
  strdup_ok : bool;          (* strdup inside parse_address *)
  socket_ret : Z;            (* socket() *)
  inet_aton_ret : Z;         (* inet_aton() *)
  connect_ret : Z;           (* connect() *)
  rcvtimeo_ret : Z;          (* setsockopt(SO_RCVTIMEO) *)
  sndtimeo_ret : Z;          (* setsockopt(SO_SNDTIMEO) *)
  SSL_new_ret : Z;           (* SSL_new(): the SSL* or NULL *)
  SSL_connect_ret : Z        (* SSL_connect() *)
}.

Definition connect_unix_socket (e : AttemptEnv) : IO Z :=
  exec emit Ev_connect_unix_socket ;
  let fd := socket_ret e in
  if fd <? 0 then
    exec logger_error "Failed to create Unix socket" ; ret (-1)
  else if connect_ret e <? 0 then
    exec emit (Ev_close fd) ;
    exec logger_error "Failed to connect to Unix socket" ; ret (-1)
  else ret fd.

Definition connect_inet_socket (e : AttemptEnv) : IO Z :=
  exec emit Ev_connect_inet_socket ;
  let fd := socket_ret e in
  if fd <? 0 then
    exec logger_error "Failed to create INET socket" ; ret (-1)
  else if inet_aton_ret e =? 0 then
    exec emit (Ev_close fd) ;
    exec logger_error "Invalid IP address" ; ret (-1)
  else if connect_ret e <? 0 then
    exec emit (Ev_close fd) ;
    exec logger_error "Failed to connect to INET socket" ; ret (-1)
  else ret fd.

Definition connect_tls (e : AttemptEnv) (fd : Z) : IO Z :=
  exec emit (Ev_connect_tls fd) ;
  let ssl := SSL_new_ret e in
  if negb (truthy ssl) then ret NULL
  else if SSL_connect_ret e <=? 0 then
    exec emit (Ev_SSL_free ssl) ; ret NULL
  else ret ssl.

Record Client : Set := mkClient {
  mode : SocketMode;
  address : option string;   (* char* address *)
  enable_tls : Z;
  fd : Z;
  ssl : Z;                   (* SSL* *)
  connected : Z;
  timeout_sec : Z;
  ssl_ctx : Z                (* SSL_CTX* *)
}.

Definition set_fd (c : Client) (v : Z) : Client :=
  {| mode := mode c; address := address c; enable_tls := enable_tls c;
     fd := v; ssl := ssl c; connected := connected c;
     timeout_sec := timeout_sec c; ssl_ctx := ssl_ctx c |}.

Definition set_ssl (c : Client) (v : Z) : Client :=
  {| mode := mode c; address := address c; enable_tls := enable_tls c;
     fd := fd c; ssl := v; connected := connected c;
     timeout_sec := timeout_sec c; ssl_ctx := ssl_ctx c |}.

Definition set_connected (c : Client) (v : Z) : Client :=
  {| mode := mode c; address := address c; enable_tls := enable_tls c;
     fd := fd c; ssl := ssl c; connected := v;
     timeout_sec := timeout_sec c; ssl_ctx := ssl_ctx c |}.

Definition set_timeout_sec (c : Client) (v : Z) : Client :=
  {| mode := mode c; address := address c; enable_tls := enable_tls c;
     fd := fd c; ssl := ssl c; connected := connected c;
     timeout_sec := v; ssl_ctx := ssl_ctx c |}.

(** [client_init]: [strdup_address] is the result of [strdup(address)] and
    [init_tls_client_ret] that of [init_tls_client()]. *)
Definition client_init (strdup_address : bool) (init_tls_client_ret : Z)
    (m : SocketMode) (addr : string) (tls : Z) : Z * Client :=
  if negb strdup_address then
    (-1, {| mode := m; address := None; enable_tls := 0; fd := 0; ssl := NULL;
            connected := 0; timeout_sec := 0; ssl_ctx := NULL |})
  else
    let c := {| mode := m; address := Some addr; enable_tls := tls; fd := -1;
                ssl := NULL; connected := 0; timeout_sec := 5;
                ssl_ctx := NULL |} in
    if truthy tls then
      let c' := {| mode := m; address := Some addr; enable_tls := tls; fd := -1;
                   ssl := NULL; connected := 0; timeout_sec := 5;
                   ssl_ctx := init_tls_client_ret |} in
      if negb (truthy init_tls_client_ret) then (-1, c') else (0, c')
    else (0, c).

Definition max_retries : Z := 5.

(** [(int)pow(2, retry_count)]. *)
Definition backoff_of (retry_count : Z) : Z := 2 ^ retry_count.

(** The failure exit that the loop body of [client_connect] repeats at each
    of its four failure points: warn, sleep and [continue] with
    [retry_count + 1] when [retry_count < max_retries - 1], [return -1]
    otherwise.  [next] is the rest of the loop after [continue]. *)
Definition retry_or_fail (next : Client -> IO (Z * Client)) (retry_count : Z)
    (text : string) (c : Client) : IO (Z * Client) :=
  if retry_count <? max_retries - 1 then
    let backoff := backoff_of retry_count in
    exec logger_warn text ;
    exec emit (Ev_sleep backoff) ;
    next c
  else ret (-1, c).

(** The end of a successful iteration. *)
Definition finish_connect (c : Client) : IO (Z * Client) :=
  exec logger_info "Connected to server" ;
  ret (0, set_connected c 1).

(** The loop body from [if (client->fd < 0)] on. *)
Definition after_socket (next : Client -> IO (Z * Client)) (e : AttemptEnv)
    (retry_count : Z) (c : Client) : IO (Z * Client) :=
  if fd c <? 0 then
    retry_or_fail next retry_count "Connection failed, retrying" c
  else
    call r <- set_socket_timeout (rcvtimeo_ret e) (sndtimeo_ret e)
                (fd c) (timeout_sec c) ;
    if r <? 0 then
      exec emit (Ev_close (fd c)) ;
      retry_or_fail next retry_count "Connection failed, retrying"
        (set_fd c (-1))
    else if truthy (enable_tls c) then
      call s <- connect_tls e (fd c) ;
      let c1 := set_ssl c s in
      if negb (truthy s) then
        exec emit (Ev_close (fd c1)) ;
        retry_or_fail next retry_count "TLS connection failed, retrying"
          (set_fd c1 (-1))
      else finish_connect c1
    else finish_connect c.

(** The loop [while (retry_count < max_retries)] of [client_connect];
    [fuel] bounds the number of iterations, [env k] is the environment of
    the iteration with [retry_count = k]. *)
Fixpoint connect_loop (fuel : nat) (env : Z -> AttemptEnv) (retry_count : Z)
    (c : Client) : IO (Z * Client) :=
  match fuel with
  | O => ret (-1, c)
  | S fuel' =>
    if retry_count <? max_retries then
      let e := env retry_count in
      let next := connect_loop fuel' env (retry_count + 1) in
      match mode c with
      | SOCKET_MODE_UNIX =>
          call f <- connect_unix_socket e ;
          after_socket next e retry_count (set_fd c f)
      | SOCKET_MODE_INET =>
          exec emit Ev_parse_address ;
          match parse_address (strdup_ok e) (default EmptyString (address c)) with
          | None =>
              retry_or_fail next retry_count "Connection failed, retrying" c
          | Some host =>
              call f <- connect_inet_socket e ;
              after_socket next e retry_count (set_fd c f)
          end
      end
    else ret (-1, c)
  end.

(** [client_connect] on a non-null client. *)
Definition client_connect (env : Z -> AttemptEnv) (c : Client) (timeout : Z)
    : IO (Z * Client) :=
  connect_loop (Z.to_nat max_retries) env 0 (set_timeout_sec c timeout).

(** [client_disconnect] on a non-null client. *)
Definition client_disconnect (c : Client) : IO Client :=
  if negb (truthy (connected c)) then ret c
  else
    call c1 <- (if truthy (enable_tls c) && truthy (ssl c)
                then exec close_tls_connection (ssl c) ; ret (set_ssl c NULL)
                else ret c) ;
    call c2 <- (if 0 <=? fd c1
                then exec emit (Ev_close (fd c1)) ; ret (set_fd c1 (-1))
                else ret c1) ;
    exec logger_info "Disconnected from server" ;
    ret (set_connected c2 0).

Definition client_is_connected (c : Client) : bool :=
  truthy (connected c) && (0 <=? fd c).

(** [client_set_timeout] on a non-null client. *)
Definition client_set_timeout (rcvtimeo_ret sndtimeo_ret : Z) (c : Client)
    (timeout : Z) : IO Client :=
  let c1 := set_timeout_sec c timeout in
  if 0 <=? fd c1 then
    call _r <- set_socket_timeout rcvtimeo_ret sndtimeo_ret (fd c1)
                 (timeout_sec c1) ;
    ret c1
  else ret c1.

(** [client_send_text]: [alloc] is the result of the [malloc] inside
    [message_create_text], [uninit_ack] the indeterminate initial content of
    the local [ack]. *)
Definition client_send_text `{Host} (alloc : malloc_result) (senv : SendEnv)
    (renv : RecvEnv) (uninit_ack : Message) (c : Client)
    (text : list Byte.byte) (text_len : Z) : IO Z :=
  if negb (client_is_connected c) then
    exec logger_error "Not connected to server" ; ret (-1)
  else
    let msg := message_create_text alloc text text_len in
    call sent <- send_message senv (fd c) (ssl c) (enable_tls c) msg ;
    if sent <? 0 then ret (-1)
    else
      call r <- receive_message renv (fd c) (ssl c) (enable_tls c) uninit_ack ;
      let (status, ack) := r in
      if status <? 0 then ret (-1)
      else if negb (h_type (header ack) =? MSG_TYPE_ACK) then
        exec logger_error "Expected ACK, got different message type" ;
        ret (-1)
      else ret 0.

End Client.

(* ================================================================== *)
(** * The arithmetic of [double] *)
(* ================================================================== *)

(** The server keeps its timestamps and interval statistics in [double].
    The operations the code uses are taken as an interface; the results
    below hold for every arithmetic that implements it, IEEE binary64
    included, and are run on exact rationals ([Q_double]). *)
Class DoubleOps (D : Type) : Type := {
  d_of_Z : Z -> D;            (* conversion of an integer, and the literals *)
  d_add : D -> D -> D;
  d_sub : D -> D -> D;
  d_mul : D -> D -> D;
  d_div : D -> D -> D;
  d_lt : D -> D -> bool       (* a < b; a > b is d_lt b a *)
}.

(** The only facts about the order that the interval statistics rely on. *)
Class DoubleOrder (D : Type) `{DoubleOps D} : Prop := {
  d_lt_irrefl : forall a : D, d_lt a a = false;
  d_lt_trans : forall a b c : D, d_lt a b = true -> d_lt b c = true -> d_lt a c = true
}.

Definition Q_ltb (a b : QArith_base.Q) : bool := negb (QArith_base.Qle_bool b a).

#[export] Instance Q_double : DoubleOps QArith_base.Q := {|
  d_of_Z := QArith_base.inject_Z;
  d_add := QArith_base.Qplus;
  d_sub := QArith_base.Qminus;
  d_mul := QArith_base.Qmult;
  d_div := QArith_base.Qdiv;
  d_lt := Q_ltb
|}.

#[export] Instance little_endian_host : Host := {| host_endianness := LittleEndian |}.

Record timeval : Set := mkTimeval { tv_sec : Z; tv_usec : Z }.

(** [tv.tv_sec + tv.tv_usec / 1000000.0]. *)
Definition timeval_to_double {D} `{DoubleOps D} (tv : timeval) : D :=
  d_add (d_of_Z (tv_sec tv)) (d_div (d_of_Z (tv_usec tv)) (d_of_Z 1000000)).

(* ================================================================== *)
(** * server/server.h, server/server.c *)
(* ================================================================== *)

Definition POLLIN : Z := 1.
Definition POLLERR : Z := 8.
Definition POLLHUP : Z := 16.
Definition EINTR : Z := 4.
Definition EAGAIN : Z := 11.
Definition EWOULDBLOCK : Z := 11.

Definition sizeof_ClientConnection : Z := 24.
Definition sizeof_pollfd : Z := 8.

Module Server.

Record ClientConnection : Set := mkClientConnection {
  fd : Z;
  ssl : Z;      (* SSL* *)
  is_ssl : Z
}.

(** Reading a slot outside the array is undefined in C; the model reads
    this value there.  Every caller checks the index first. *)
#[export] Instance ClientConnection_inhabited : Inhabited ClientConnection :=
  populate {| fd := 0; ssl := NULL; is_ssl := 0 |}.

(** [Server]: [clients] is the whole heap array ([client_capacity] slots,
    the first [client_count] of them live). *)
Record Server (D : Type) : Type := mkServer {
  mode : SocketMode;
  address : option string;
  enable_tls : Z;
  server_fd : Z;
  running : Z;
  ssl_ctx : Z;
  clients : list ClientConnection;
  client_count : Z;            (* size_t *)
  client_capacity : Z;         (* size_t *)
  total_clients : Z;           (* size_t *)
  total_messages : Z;          (* size_t *)
  start_time : D;
  total_bytes : Z;             (* size_t *)
  last_message_time : D;
  total_interval_ms : D;
  min_interval_ms : D;
  max_interval_ms : D;
  interval_count : Z           (* size_t *)
}.

Arguments mkServer {D}.
Arguments mode {D}.
Arguments address {D}.
Arguments enable_tls {D}.
Arguments server_fd {D}.
Arguments running {D}.
Arguments ssl_ctx {D}.
Arguments clients {D}.
Arguments client_count {D}.
Arguments client_capacity {D}.
Arguments total_clients {D}.
Arguments total_messages {D}.
Arguments start_time {D}.
Arguments total_bytes {D}.
Arguments last_message_time {D}.
Arguments total_interval_ms {D}.
Arguments min_interval_ms {D}.
Arguments max_interval_ms {D}.
Arguments interval_count {D}.

(** The connection table: array, count and capacity. *)
Definition set_table {D} (s : Server D) (cl : list ClientConnection)
    (count capacity : Z) : Server D :=
  mkServer (mode s) (address s) (enable_tls s) (server_fd s) (running s)
    (ssl_ctx s) cl count capacity (total_clients s) (total_messages s)
    (start_time s) (total_bytes s) (last_message_time s)
    (total_interval_ms s) (min_interval_ms s) (max_interval_ms s)
    (interval_count s).

Definition set_total_clients {D} (s : Server D) (v : Z) : Server D :=
  mkServer (mode s) (address s) (enable_tls s) (server_fd s) (running s)
    (ssl_ctx s) (clients s) (client_count s) (client_capacity s) v
    (total_messages s) (start_time s) (total_bytes s) (last_message_time s)
    (total_interval_ms s) (min_interval_ms s) (max_interval_ms s)
    (interval_count s).

Definition set_running {D} (s : Server D) (v : Z) : Server D :=
  mkServer (mode s) (address s) (enable_tls s) (server_fd s) v
    (ssl_ctx s) (clients s) (client_count s) (client_capacity s)
    (total_clients s) (total_messages s) (start_time s) (total_bytes s)
    (last_message_time s) (total_interval_ms s) (min_interval_ms s)
    (max_interval_ms s) (interval_count s).

(** The metrics fields written by the message-receipt path. *)
Definition set_metrics {D} (s : Server D) (messages bytes : Z)
    (last total min max : D) (count : Z) : Server D :=
  mkServer (mode s) (address s) (enable_tls s) (server_fd s) (running s)
    (ssl_ctx s) (clients s) (client_count s) (client_capacity s)
    (total_clients s) messages (start_time s) bytes last total min max count.

(** [realloc] of the client array: [None] when it fails, otherwise the
    indeterminate slots that extend the array. *)
Definition realloc_clients_result : Set := option (list ClientConnection).

Definition add_client {D} (alloc : realloc_clients_result) (s : Server D)
    (fd ssl : Z) : IO (Server D) :=
  let store (s1 : Server D) : Server D :=
    let entry := {| fd := fd; ssl := ssl;
                    is_ssl := if truthy ssl then 1 else 0 |} in
    set_total_clients
      (set_table s1 (<[Z.to_nat (client_count s1) := entry]> (clients s1))
         (wrap64 (client_count s1 + 1)) (client_capacity s1))
      (wrap64 (total_clients s1 + 1)) in
  if client_capacity s <=? client_count s then
    let new_capacity :=
      if client_capacity s =? 0 then 8 else wrap64 (client_capacity s * 2) in
    exec emit (Ev_realloc (wrap64 (new_capacity * sizeof_ClientConnection))) ;
    match alloc with
    | None =>
        exec logger_error "Failed to allocate memory for clients" ;
        ret s
    | Some fresh =>
        ret (store (set_table s (clients s ++ fresh) (client_count s)
                      new_capacity))
    end
  else ret (store s).

(** The loop [for (i = index; i < client_count - 1; i++) clients[i] =
    clients[i + 1]] of [remove_client]. *)
Definition shift_clients (index count : Z) (cl : list ClientConnection)
    : list ClientConnection :=
  fold_left (fun (a : list ClientConnection) (i : nat) => <[i := a !!! S i]> a)
    (seq (Z.to_nat index) (Z.to_nat (wrap64 (count - 1) - index))) cl.

Definition remove_client {D} (s : Server D) (index : Z) : IO (Server D) :=
  if client_count s <=? index then ret s
  else
    let client : ClientConnection := clients s !!! Z.to_nat index in
    exec logger_info "Client disconnected" ;
    exec (if truthy (is_ssl client) && truthy (ssl client)
          then close_tls_connection (ssl client) else ret tt) ;
    exec emit (Ev_close (fd client)) ;
    ret (set_table s (shift_clients index (client_count s) (clients s))
           (wrap64 (client_count s - 1)) (client_capacity s)).

(** Answers of the environment to [accept_new_connection]. *)
Record AcceptEnv : Set := mkAcceptEnv {
  accept_ret : Z;
  accept_errno : Z;
  SSL_new_ret : Z;
  SSL_accept_ret : Z;
  add_client_realloc : realloc_clients_result
}.

Definition accept_tls_connection (e : AcceptEnv) (fd : Z) : IO Z :=
  exec emit (Ev_accept_tls_connection fd) ;
  let ssl := SSL_new_ret e in
  if negb (truthy ssl) then ret NULL
  else if SSL_accept_ret e <=? 0 then exec emit (Ev_SSL_free ssl) ; ret NULL
  else ret ssl.

Definition accept_new_connection {D} (e : AcceptEnv) (s : Server D)
    : IO (Server D) :=
  exec emit (Ev_accept (server_fd s)) ;
  let client_fd := accept_ret e in
  if client_fd <? 0 then
    if negb (accept_errno e =? EAGAIN) && negb (accept_errno e =? EWOULDBLOCK)
    then exec logger_error "Accept error" ; ret s
    else ret s
  else
    let finish (ssl : Z) : IO (Server D) :=
      call s1 <- add_client (add_client_realloc e) s client_fd ssl ;
      exec logger_info "New client connected" ;
      ret s1 in
    if truthy (enable_tls s) then
      call ssl <- accept_tls_connection e client_fd ;
      if negb (truthy ssl) then exec emit (Ev_close client_fd) ; ret s
      else finish ssl
    else finish NULL.

(** Answers of the environment to one call of [handle_client_message]:
    [uninit_msg] is the indeterminate initial content of the local [msg]. *)
Record HandleEnv : Set := mkHandleEnv {
  recv_env : RecvEnv;
  uninit_msg : Message;
  gettimeofday_ret : timeval;
  send_env : SendEnv
}.

(** The block under [// Record metrics] of [handle_client_message]. *)
Definition record_metrics {D} `{DoubleOps D} (now : D) (msg_payload_size : Z)
    (s : Server D) : Server D :=
  let measured := d_lt (d_of_Z 0) (last_message_time s) in
  let interval_ms :=
    d_mul (d_sub now (last_message_time s)) (d_of_Z 1000) in
  let total :=
    if measured then d_add (total_interval_ms s) interval_ms
    else total_interval_ms s in
  let min :=
    if measured && ((interval_count s =? 0) || d_lt interval_ms (min_interval_ms s))
    then interval_ms else min_interval_ms s in
  let max :=
    if measured && ((interval_count s =? 0) || d_lt (max_interval_ms s) interval_ms)
    then interval_ms else max_interval_ms s in
  let count :=
    if measured then wrap64 (interval_count s + 1) else interval_count s in
  set_metrics s (wrap64 (total_messages s + 1))
    (wrap64 (total_bytes s + msg_payload_size)) now total min max count.

(** [handler] tells whether the callback pointer is non-null; the call is
    recorded as an event. *)
Definition handle_client_message {D} `{Host} `{DoubleOps D} (e : HandleEnv)
    (handler : bool) (s : Server D) (client_index : Z) : IO (Server D) :=
  let client : ClientConnection := clients s !!! Z.to_nat client_index in
  call r <- receive_message (recv_env e) (fd client) (ssl client)
              (is_ssl client) (uninit_msg e) ;
  let (status, msg) := r in
  if status <? 0 then remove_client s client_index
  else
    let now : D := timeval_to_double (gettimeofday_ret e) in
    let s1 := record_metrics now (payload_size msg) s in
    exec (if handler then emit (Ev_handler (fd client) msg) else ret tt) ;
    exec (if negb (h_type (header msg) =? MSG_TYPE_ACK) then
            let ack := message_create_ack in
            call _sent <- send_message (send_env e) (fd client) (ssl client)
                            (is_ssl client) ack ;
            ret tt
          else ret tt) ;
    ret s1.

(** Answers of the environment to one iteration of the event loop. *)
Record LoopEnv : Set := mkLoopEnv {
  stop_requested : bool;      (* server_stop ran since the last test of running *)
  realloc_pollfds_ok : bool;  (* realloc of the pollfd array *)
  poll_ret : Z;
  poll_errno : Z;
  poll_revents : list Z;      (* revents of pollfds[0], pollfds[1], ... *)
  accept_env : AcceptEnv;
  handle_env : nat -> HandleEnv  (* per step of the loop over client sockets *)
}.

(** The loop [for (size_t i = 1; i < pollfd_count; i++)] over the client
    sockets; [step] counts its iterations.  Each iteration either advances
    [i] or shortens [pollfd_count], so [fuel = pollfd_count] is enough. *)
Fixpoint check_client_sockets {D} `{Host} `{DoubleOps D} (fuel : nat)
    (e : LoopEnv) (handler : bool) (step : nat) (i pollfd_count : Z)
    (s : Server D) : IO (Server D) :=
  match fuel with
  | O => ret s
  | S fuel' =>
    if i <? pollfd_count then
      let client_index := wrap64 (i - 1) in
      if client_count s <=? client_index then
        check_client_sockets fuel' e handler (S step) (wrap64 (i + 1))
          pollfd_count s
      else
        let revents := nth (Z.to_nat i) (poll_revents e) 0 in
        call s1 <- (if truthy (Z.land revents POLLIN)
                    then handle_client_message (handle_env e step) handler s
                           client_index
                    else ret s) ;
        if truthy (Z.land revents (Z.lor POLLHUP POLLERR)) then
          call s2 <- remove_client s1 client_index ;
          check_client_sockets fuel' e handler (S step)
            (wrap64 (wrap64 (i - 1) + 1)) (wrap64 (pollfd_count - 1)) s2
        else
          check_client_sockets fuel' e handler (S step) (wrap64 (i + 1))
            pollfd_count s1
    else ret s
  end.

(** How [run_event_loop] ended. *)
Inductive LoopExit : Set :=
| LoopStopped      (* the test of server->running failed *)
| LoopBroken       (* a break left the loop *)
| LoopRunning.     (* the environment script ended with the loop still running *)

(** [run_event_loop] from the top of its [while]: one element of [script]
    per iteration; [pollfd_capacity] is the local of that name. *)
Fixpoint event_loop {D} `{Host} `{DoubleOps D} (script : list LoopEnv)
    (handler : bool) (pollfd_capacity : Z) (s : Server D)
    : IO (LoopExit * Server D) :=
  match script with
  | [] => ret (LoopRunning, s)
  | e :: script' =>
    let s := if stop_requested e then set_running s 0 else s in
    if negb (truthy (running s)) then
      exec emit Ev_free_pollfds ; ret (LoopStopped, s)
    else
      let needed := wrap64 (1 + client_count s) in
      let polling (pollfd_capacity : Z) : IO (LoopExit * Server D) :=
        let pollfds :=
          server_fd s ::
          map fd (take (Z.to_nat (client_count s)) (clients s)) in
        let pollfd_count := wrap64 (1 + client_count s) in
        exec emit (Ev_poll pollfds 1000) ;
        let poll_result := poll_ret e in
        if poll_result <? 0 then
          if poll_errno e =? EINTR then
            event_loop script' handler pollfd_capacity s
          else
            exec logger_error "Poll error" ;
            exec emit Ev_free_pollfds ; ret (LoopBroken, s)
        else if poll_result =? 0 then
          event_loop script' handler pollfd_capacity s
        else
          call s1 <- (if truthy (Z.land (nth 0 (poll_revents e) 0) POLLIN)
                      then accept_new_connection (accept_env e) s
                      else ret s) ;
          call s2 <- check_client_sockets (Z.to_nat pollfd_count) e handler
                       0%nat 1 pollfd_count s1 ;
          event_loop script' handler pollfd_capacity s2 in
      if pollfd_capacity <? needed then
        let new_capacity := wrap64 (needed + 8) in
        exec emit (Ev_realloc (wrap64 (new_capacity * sizeof_pollfd))) ;
        if negb (realloc_pollfds_ok e) then
          exec logger_error "Failed to allocate memory for pollfds" ;
          exec emit Ev_free_pollfds ; ret (LoopBroken, s)
        else polling new_capacity
      else polling pollfd_capacity
  end.

Definition run_event_loop {D} `{Host} `{DoubleOps D} (script : list LoopEnv)
    (handler : bool) (s : Server D) : IO (LoopExit * Server D) :=
  event_loop script handler 0 s.

(** [server_init]: [strdup_address] and [init_tls_server_ret] are the results
    of [strdup] and [init_tls_server]; [now] is the clock. *)
Definition server_init {D} `{DoubleOps D} (strdup_address : bool)
    (init_tls_server_ret : Z) (now : timeval) (m : SocketMode) (addr : string)
    (tls : Z) : Z * Server D :=
  let zero : D := d_of_Z 0 in
  if negb strdup_address then
    (-1, mkServer m None 0 0 0 NULL [] 0 0 0 0 zero 0 zero zero zero zero 0)
  else
    let s ctx :=
      mkServer m (Some addr) tls (-1) 0 ctx [] 0 0 0 0
        (timeval_to_double now) 0 zero zero zero zero 0 in
    if truthy tls then
      if negb (truthy init_tls_server_ret) then (-1, s init_tls_server_ret)
      else (0, s init_tls_server_ret)
    else (0, s NULL).

(** The values [server_get_metrics] stores through its seven pointers, each
    [None] when the pointer is null. *)
Record Metrics (D : Type) : Type := mkMetrics {
  m_total_clients : option Z;
  m_total_messages : option Z;
  m_uptime : option D;
  m_throughput_mbps : option D;
  m_avg_latency_ms : option D;
  m_min_latency_ms : option D;
  m_max_latency_ms : option D
}.

Arguments mkMetrics {D}.
Arguments m_total_clients {D}.
Arguments m_total_messages {D}.
Arguments m_uptime {D}.
Arguments m_throughput_mbps {D}.
Arguments m_avg_latency_ms {D}.
Arguments m_min_latency_ms {D}.
Arguments m_max_latency_ms {D}.

(** [server_get_metrics] on a non-null server: [out] holds the content of
    the cells the pointers refer to on entry, the result their content on
    exit. *)
Definition server_get_metrics {D} `{DoubleOps D} (now : timeval)
    (s : Server D) (out : Metrics D) : Metrics D :=
  let zero : D := d_of_Z 0 in
  let current_time : D := timeval_to_double now in
  let uptime := (fun _ => d_sub current_time (start_time s)) <$> m_uptime out in
  let throughput :=
    (fun _ =>
       match uptime with
       | Some u =>
           if d_lt zero u then
             let megabytes :=
               d_div (d_of_Z (total_bytes s))
                 (d_mul (d_of_Z 1024) (d_of_Z 1024)) in
             d_div megabytes u
           else zero
       | None => zero
       end) <$> m_throughput_mbps out in
  {| m_total_clients := (fun _ => total_clients s) <$> m_total_clients out;
     m_total_messages := (fun _ => total_messages s) <$> m_total_messages out;
     m_uptime := uptime;
     m_throughput_mbps := throughput;
     m_avg_latency_ms :=
       (fun _ => if 0 <? interval_count s
                 then d_div (total_interval_ms s) (d_of_Z (interval_count s))
                 else zero) <$> m_avg_latency_ms out;
     m_min_latency_ms :=
       (fun _ => if 0 <? interval_count s then min_interval_ms s else zero)
         <$> m_min_latency_ms out;
     m_max_latency_ms :=
       (fun _ => if 0 <? interval_count s then max_interval_ms s else zero)
         <$> m_max_latency_ms out |}.

End Server.

(* ================================================================== *)
(** * Vocabulary of the statements, sample data and proof tactics *)
(* ================================================================== *)

Definition is_byte (b : Z) : Prop := 0 <= b < 256.

Definition hello : list Byte.byte :=
  [Byte.x68; Byte.x65; Byte.x6c; Byte.x6c; Byte.x6f].

(** The length invariant of a message. *)
Definition length_matches (m : Message) : Prop :=
  h_length (header m) = payload_size m.

(** Case analysis on every test a computation in [IO] branches on. *)
Ltac io_cases :=
  repeat (cbv beta iota zeta delta [bind ret emit result trace fst snd];
          match goal with
          | |- context [if ?b then _ else _] => destruct b eqn:?
          | |- context [match ?x with Some _ => _ | None => _ end] =>
              destruct x eqn:?
          end);
  cbv beta iota zeta delta [bind ret emit result trace fst snd].

(** Case analysis on an innermost scrutinee of the goal. *)
Ltac destruct_innermost :=
  match goal with
  | |- context [match ?x with _ => _ end] =>
      lazymatch x with
      | context [match _ with _ => _ end] => fail
      | _ => destruct x eqn:?
      end
  end.

(** A frame with the text ["hello"] arriving whole on a plain socket. *)
Definition hello_header : MessageHeader := mkHeader MSG_TYPE_TEXT 5 MSG_FLAGS_NONE.

Definition recv_hello : RecvEnv :=
  {| recv_header_ret := 16;
     recv_header_raw := message_header_serialize hello_header;
     recv_malloc := Some (repeat Byte.x00 5);
     recv_payload_ret := 5;
     recv_payload_data := hello |}.

(** The same frame when the peer closes after two payload bytes. *)
Definition recv_hello_cut : RecvEnv :=
  {| recv_header_ret := 16;
     recv_header_raw := message_header_serialize hello_header;
     recv_malloc := Some (repeat Byte.x00 5);
     recv_payload_ret := 2;
     recv_payload_data := [Byte.x68; Byte.x65] |}.

Definition no_message : Message :=
  {| header := mkHeader 0 0 0; payload := None; payload_size := 0 |}.

(** ** Vocabulary for [client_connect] *)

(** The attempts and the delays of a trace, in order.  Every iteration of
    the retry loop starts with [connect_unix_socket] (UNIX mode) or with
    [parse_address] (INET mode). *)
Inductive Step : Set := Attempt | Delay (seconds : Z).

Definition step_of (e : Event) : option Step :=
  match e with
  | Ev_connect_unix_socket | Ev_parse_address => Some Attempt
  | Ev_sleep n => Some (Delay n)
  | _ => None
  end.

Definition schedule_of (tr : list Event) : list Step := omap step_of tr.

Definition is_attempt (s : Step) : bool :=
  match s with Attempt => true | Delay _ => false end.

Definition attempts (tr : list Event) : nat :=
  length (List.filter is_attempt (schedule_of tr)).

Definition delays (tr : list Event) : list Z :=
  omap (fun s => match s with Delay n => Some n | Attempt => None end)
    (schedule_of tr).

(** An attempt fails when socket creation, address handling, the connect,
    the timeout application or the TLS handshake fails. *)
Definition attempt_fails (m : SocketMode) (tls : Z) (e : Client.AttemptEnv) : bool :=
  match m with
  | SOCKET_MODE_UNIX =>
      (Client.socket_ret e <? 0) || (Client.connect_ret e <? 0)
  | SOCKET_MODE_INET =>
      negb (Client.strdup_ok e) || (Client.socket_ret e <? 0)
      || (Client.inet_aton_ret e =? 0) || (Client.connect_ret e <? 0)
  end
  || (Client.rcvtimeo_ret e <? 0) || (Client.sndtimeo_ret e <? 0)
  || (truthy tls
      && (negb (truthy (Client.SSL_new_ret e)) || (Client.SSL_connect_ret e <=? 0))).

(** The schedule of [n] failing attempts that start at [retry_count = k]. *)
Fixpoint retry_schedule (n : nat) (k : Z) : list Step :=
  match n with
  | O => []
  | S O => [Attempt]
  | S n' => Attempt :: Delay (2 ^ k) :: retry_schedule n' (k + 1)
  end.

(** Nothing listens: every [connect] is refused. *)
Definition refused : Client.AttemptEnv :=
  {| Client.strdup_ok := true; Client.socket_ret := 3;
     Client.inet_aton_ret := 1; Client.connect_ret := -1;
     Client.rcvtimeo_ret := 0; Client.sndtimeo_ret := 0;
     Client.SSL_new_ret := NULL; Client.SSL_connect_ret := 0 |}.

Definition accepted : Client.AttemptEnv :=
  {| Client.strdup_ok := true; Client.socket_ret := 3;
     Client.inet_aton_ret := 1; Client.connect_ret := 0;
     Client.rcvtimeo_ret := 0; Client.sndtimeo_ret := 0;
     Client.SSL_new_ret := NULL; Client.SSL_connect_ret := 0 |}.

Definition fresh_client : Client.Client :=
  snd (Client.client_init true NULL SOCKET_MODE_UNIX "/tmp/ipc.sock" 0).

(** What a failed attempt leaves behind: the session configuration and the
    [connected] flag are those of [c]; the schedule is [pre], then the
    delay (if a retry follows) and whatever the rest of the loop [next]
    does. *)
Definition failed_attempt (next : Client.Client -> IO (Z * Client.Client))
    (k : Z) (c : Client.Client) (pre : list Step)
    (X : IO (Z * Client.Client)) : Prop :=
  exists c',
    Client.mode c' = Client.mode c /\
    Client.enable_tls c' = Client.enable_tls c /\
    Client.connected c' = Client.connected c /\
    fst X = (if k <? Client.max_retries - 1 then fst (next c') else (-1, c')) /\
    schedule_of (snd X) =
      pre ++ (if k <? Client.max_retries - 1
              then Delay (2 ^ k) :: schedule_of (snd (next c')) else []).

(** The schedule of a call in which all five attempts fail. *)
Definition all_fail_schedule : list Step :=
  [Attempt; Delay 1; Attempt; Delay 2; Attempt; Delay 4; Attempt; Delay 8;
   Attempt].

(** ** Vocabulary for [client_disconnect] *)

(** Sessions built through the interface of client.h: [client_init]
    succeeded, then any sequence of connects, disconnects and timeout
    changes. *)
Inductive session : Client.Client -> Prop :=
| session_init (ctx : Z) (m : SocketMode) (addr : string) (tls : Z)
    (c : Client.Client) :
    Client.client_init true ctx m addr tls = (0, c) -> session c
| session_connect (env : Z -> Client.AttemptEnv) (timeout : Z)
    (c : Client.Client) :
    session c -> session (snd (result (Client.client_connect env c timeout)))
| session_disconnect (c : Client.Client) :
    session c -> session (result (Client.client_disconnect c))
| session_set_timeout (r1 r2 timeout : Z) (c : Client.Client) :
    session c -> session (result (Client.client_set_timeout r1 r2 c timeout)).

(** The invariant of sessions that [client_disconnect] relies on: only a
    TLS-enabled session ever holds an [SSL*], and [fd] is a descriptor or
    -1. *)
Definition client_wf (c : Client.Client) : Prop :=
  (truthy (Client.enable_tls c) = false -> Client.ssl c = NULL) /\
  -1 <= Client.fd c.

(** The trace of the graceful close of a session: the TLS session, if one
    is held, then the socket, if one is open. *)
Definition close_trace (c : Client.Client) : list Event :=
  (if truthy (Client.enable_tls c) && truthy (Client.ssl c)
   then [Ev_SSL_shutdown (Client.ssl c); Ev_SSL_free (Client.ssl c)] else [])
  ++ (if 0 <=? Client.fd c then [Ev_close (Client.fd c)] else [])
  ++ [Ev_log LOG_LEVEL_INFO "Disconnected from server"].

Definition connected_client : Client.Client :=
  snd (result (Client.client_connect (fun _ => accepted) fresh_client 5)).

(** The part of a session that a connection attempt never changes, and the
    invariant on [ssl]. *)
Definition keeps_tls (tls : Z) (c : Client.Client) : Prop :=
  Client.enable_tls c = tls /\ (truthy tls = false -> Client.ssl c = NULL) /\
  -1 <= Client.fd c.

(** ** Vocabulary for the connection table *)

(** The live entries: the first [client_count] slots of the array. *)
Definition live {D} (s : Server.Server D) : list Server.ClientConnection :=
  take (Z.to_nat (Server.client_count s)) (Server.clients s).

(** The representation invariant of the table: the count stays within the
    capacity, which is the number of slots of the array and fits [size_t]. *)
Definition table_ok {D} (s : Server.Server D) : Prop :=
  0 <= Server.client_count s <= Server.client_capacity s /\
  Server.client_capacity s = Z.of_nat (length (Server.clients s)) /\
  Server.client_capacity s <= SIZE_MAX.

(** The entry [add_client] stores for a descriptor and a TLS session. *)
Definition new_entry (fd ssl : Z) : Server.ClientConnection :=
  {| Server.fd := fd; Server.ssl := ssl;
     Server.is_ssl := if truthy ssl then 1 else 0 |}.

(** The capacity [add_client] asks [realloc] for. *)
Definition doubled_capacity {D} (s : Server.Server D) : Z :=
  if Server.client_capacity s =? 0 then 8
  else wrap64 (Server.client_capacity s * 2).

(** Everything in a server except its connection table. *)
Definition same_outside_table {D} (s s' : Server.Server D) : Prop :=
  Server.mode s' = Server.mode s /\ Server.address s' = Server.address s /\
  Server.enable_tls s' = Server.enable_tls s /\
  Server.server_fd s' = Server.server_fd s /\
  Server.running s' = Server.running s /\
  Server.ssl_ctx s' = Server.ssl_ctx s /\
  Server.client_capacity s' = Server.client_capacity s /\
  Server.total_clients s' = Server.total_clients s /\
  Server.total_messages s' = Server.total_messages s /\
  Server.start_time s' = Server.start_time s /\
  Server.total_bytes s' = Server.total_bytes s /\
  Server.last_message_time s' = Server.last_message_time s /\
  Server.total_interval_ms s' = Server.total_interval_ms s /\
  Server.min_interval_ms s' = Server.min_interval_ms s /\
  Server.max_interval_ms s' = Server.max_interval_ms s /\
  Server.interval_count s' = Server.interval_count s.

(** The calls [remove_client] makes for a connection. *)
Definition removal_trace (client : Server.ClientConnection) : list Event :=
  Ev_log LOG_LEVEL_INFO "Client disconnected"
  :: (if truthy (Server.is_ssl client) && truthy (Server.ssl client)
      then [Ev_SSL_shutdown (Server.ssl client); Ev_SSL_free (Server.ssl client)]
      else [])
  ++ [Ev_close (Server.fd client)].

(** A plaintext server with three connections in an array of eight. *)
Definition conn (n : Z) : Server.ClientConnection :=
  {| Server.fd := n; Server.ssl := NULL; Server.is_ssl := 0 |}.

Definition three_clients : Server.Server QArith_base.Q :=
  Server.set_table
    (snd (Server.server_init true NULL (mkTimeval 100 0) SOCKET_MODE_UNIX
            "/tmp/ipc.sock" 0))
    ([conn 4; conn 5; conn 6] ++ repeat (conn 0) 5) 3 8.

(** ** Vocabulary for [handle_client_message] *)

(** The writes of a trace: what the server sends. *)
Definition is_write (e : Event) : bool :=
  match e with
  | Ev_send _ _ _ | Ev_SSL_write _ _ _ => true
  | _ => false
  end.

Definition writes (tr : list Event) : list Event := List.filter is_write tr.

Definition is_close (e : Event) : bool :=
  match e with
  | Ev_close _ | Ev_SSL_shutdown _ | Ev_SSL_free _ => true
  | _ => false
  end.

(** The one write that carries an Ack to a connection: the 16-byte
    serialized header of [message_create_ack], through the transport of
    that connection. *)
Definition ack_write `{Host} (client : Server.ClientConnection) : Event :=
  let buf := BufHeader (message_header_serialize (header message_create_ack)) in
  if use_ssl (Server.ssl client) (Server.is_ssl client)
  then Ev_SSL_write (Server.ssl client) buf 16
  else Ev_send (Server.fd client) buf 16.

(** What [receive_message] returns to [handle_client_message]. *)
Definition received `{Host} (e : Server.HandleEnv)
    (client : Server.ClientConnection) : Z * Message :=
  result (receive_message (Server.recv_env e) (Server.fd client)
            (Server.ssl client) (Server.is_ssl client) (Server.uninit_msg e)).

(** The text ["hello"] arrives whole; the write of the Ack fails. *)
Definition hello_but_send_fails : Server.HandleEnv :=
  {| Server.recv_env := recv_hello;
     Server.uninit_msg := no_message;
     Server.gettimeofday_ret := mkTimeval 101 500000;
     Server.send_env := {| send_header_ret := -1; send_payload_ret := 0 |} |}.

(** An Ack arrives. *)
Definition ack_arrives : Server.HandleEnv :=
  {| Server.recv_env :=
       {| recv_header_ret := 16;
          recv_header_raw := message_header_serialize (header message_create_ack);
          recv_malloc := None;
          recv_payload_ret := 0;
          recv_payload_data := [] |};
     Server.uninit_msg := no_message;
     Server.gettimeofday_ret := mkTimeval 102 0;
     Server.send_env := {| send_header_ret := 16; send_payload_ret := 0 |} |}.

(** ** Vocabulary for the metrics *)

(** The consecutive differences of a list of timestamps, in milliseconds,
    computed as the server does: [(t2 - t1) * 1000.0]. *)
Fixpoint intervals {D} `{DoubleOps D} (ts : list D) : list D :=
  match ts with
  | [] => []
  | t1 :: rest =>
      match rest with
      | [] => []
      | t2 :: _ => d_mul (d_sub t2 t1) (d_of_Z 1000) :: intervals rest
      end
  end.

(** The sum of a list, added up from 0.0 in the order of the list. *)
Definition sum_of {D} `{DoubleOps D} (ds : list D) : D :=
  fold_left d_add ds (d_of_Z 0).

(** [m] is an element of [ds] and no element of [ds] is below it. *)
Definition is_least {D} `{DoubleOps D} (m : D) (ds : list D) : Prop :=
  In m ds /\ forall d, In d ds -> d_lt d m = false.

(** [m] is an element of [ds] and no element of [ds] is above it. *)
Definition is_greatest {D} `{DoubleOps D} (m : D) (ds : list D) : Prop :=
  In m ds /\ forall d, In d ds -> d_lt m d = false.

(** The average of a list as the claim words it: the sum divided by the
    number of elements, and 0 for the empty list. *)
Definition average_of {D} `{DoubleOps D} (ds : list D) : D :=
  match ds with
  | [] => d_of_Z 0
  | _ :: _ => d_div (sum_of ds) (d_of_Z (Z.of_nat (length ds)))
  end.

(** The interval statistics of a server on which no message has arrived,
    as [server_init] leaves them. *)
Definition no_message_yet {D} `{DoubleOps D} (s : Server.Server D) : Prop :=
  Server.last_message_time s = d_of_Z 0 /\
  Server.total_interval_ms s = d_of_Z 0 /\
  Server.interval_count s = 0.

(** The message-receipt path, once per arrival: the index of the ready
    connection and the environment of the call. *)
Definition receive_all {D} `{Host} `{DoubleOps D}
    (arrivals : list (Z * Server.HandleEnv)) (handler : bool)
    (s : Server.Server D) : Server.Server D :=
  fold_left
    (fun s a => result (Server.handle_client_message (snd a) handler s (fst a)))
    arrivals s.

(** The timestamps the clock gave at the arrivals. *)
Definition arrival_times {D} `{DoubleOps D}
    (arrivals : list (Z * Server.HandleEnv)) : list D :=
  map (fun a => timeval_to_double (Server.gettimeofday_ret (snd a))) arrivals.

(** Every receive of the arrivals succeeds, on whichever connection. *)
Definition all_received `{Host} (arrivals : list (Z * Server.HandleEnv)) : Prop :=
  Forall (fun a => forall client, fst (received (snd a) client) = 0) arrivals.

(** A caller that passes seven non-null pointers to [server_get_metrics]. *)
Definition all_pointers {D} `{DoubleOps D} : Server.Metrics D :=
  {| Server.m_total_clients := Some 0; Server.m_total_messages := Some 0;
     Server.m_uptime := Some (d_of_Z 0);
     Server.m_throughput_mbps := Some (d_of_Z 0);
     Server.m_avg_latency_ms := Some (d_of_Z 0);
     Server.m_min_latency_ms := Some (d_of_Z 0);
     Server.m_max_latency_ms := Some (d_of_Z 0) |}.

(** ["hello"] arriving at the given time. *)
Definition hello_at (sec usec : Z) : Z * Server.HandleEnv :=
  (1, {| Server.recv_env := recv_hello;
         Server.uninit_msg := no_message;
         Server.gettimeofday_ret := mkTimeval sec usec;
         Server.send_env := {| send_header_ret := 16; send_payload_ret := 0 |} |}).

(** The interval statistics of [s] are those of the timestamps [ts] seen so
    far. *)
Definition metrics_track {D} `{DoubleOps D} (ts : list D) (s : Server.Server D)
    : Prop :=
  Server.last_message_time s
  = match last ts with Some t => t | None => d_of_Z 0 end /\
  Server.interval_count s = Z.of_nat (length (intervals ts)) /\
  Server.total_interval_ms s = sum_of (intervals ts) /\
  (intervals ts <> [] ->
   is_least (Server.min_interval_ms s) (intervals ts) /\
   is_greatest (Server.max_interval_ms s) (intervals ts)).

(** A timestamp after the epoch. *)
Definition positive_time {D} `{DoubleOps D} (t : D) : Prop :=
  d_lt (d_of_Z 0) t = true.

(** Three messages at 100.0 s, 100.5 s and 102.5 s. *)
Definition three_arrivals : list (Z * Server.HandleEnv) :=
  [hello_at 100 0; hello_at 100 500000; hello_at 102 500000].

(** Two messages, the first at the epoch itself: 0.0 s and 1.0 s. *)
Definition epoch_arrivals : list (Z * Server.HandleEnv) :=
  [hello_at 0 0; hello_at 1 0].

(** ** Vocabulary for the event loop *)

(** A plaintext server that listens on descriptor 3, is running and has an
    empty table with no array yet. *)
Definition listening_server : Server.Server QArith_base.Q :=
  Server.mkServer SOCKET_MODE_UNIX (Some "/tmp/ipc.sock"%string) 0 3 1 NULL
    [] 0 0 0 0 (d_of_Z 100) 0 (d_of_Z 0) (d_of_Z 0) (d_of_Z 0) (d_of_Z 0) 0.

(** An iteration in which a connection arrives on the listening socket and
    the [realloc] of the client array fails. *)
Definition accept_without_memory : Server.LoopEnv :=
  {| Server.stop_requested := false;
     Server.realloc_pollfds_ok := true;
     Server.poll_ret := 1;
     Server.poll_errno := 0;
     Server.poll_revents := [POLLIN];
     Server.accept_env :=
       {| Server.accept_ret := 4; Server.accept_errno := 0;
          Server.SSL_new_ret := NULL; Server.SSL_accept_ret := 0;
          Server.add_client_realloc := None |};
     Server.handle_env := fun _ => hello_but_send_fails |}.

(** An iteration in which [poll] times out. *)
Definition poll_timeout : Server.LoopEnv :=
  {| Server.stop_requested := false;
     Server.realloc_pollfds_ok := true;
     Server.poll_ret := 0;
     Server.poll_errno := 0;
     Server.poll_revents := [];
     Server.accept_env :=
       {| Server.accept_ret := -1; Server.accept_errno := 0;
          Server.SSL_new_ret := NULL; Server.SSL_accept_ret := 0;
          Server.add_client_realloc := None |};
     Server.handle_env := fun _ => hello_but_send_fails |}.

(** An iteration in which the [realloc] of the pollfd array fails. *)
Definition poll_without_memory : Server.LoopEnv :=
  {| Server.stop_requested := false;
     Server.realloc_pollfds_ok := false;
     Server.poll_ret := 1;
     Server.poll_errno := 0;
     Server.poll_revents := [POLLIN];
     Server.accept_env :=
       {| Server.accept_ret := 4; Server.accept_errno := 0;
          Server.SSL_new_ret := NULL; Server.SSL_accept_ret := 0;
          Server.add_client_realloc := Some (repeat (conn 0) 8) |};
     Server.handle_env := fun _ => hello_but_send_fails |}.

(** The capacity of the pollfd array after the growth step of an
    iteration. *)
Definition grown_capacity {D} (pollfd_capacity : Z) (s : Server.Server D) : Z :=
  let needed := wrap64 (1 + Server.client_count s) in
  if pollfd_capacity <? needed then wrap64 (needed + 8) else pollfd_capacity.

Definition is_poll (e : Event) : bool :=
  match e with Ev_poll _ _ => true | _ => false end.

(** [accept_new_connection] gets as far as [add_client]: a connection was
    accepted and, on a TLS server, its handshake succeeded. *)
Definition reaches_add_client {D} (s : Server.Server D) (e : Server.AcceptEnv)
    : Prop :=
  0 <= Server.accept_ret e /\
  (truthy (Server.enable_tls s) = false \/
   (truthy (Server.SSL_new_ret e) = true /\ 0 < Server.SSL_accept_ret e)).

(** ** Vocabulary for the wire format and the framed transport *)

(** The value of a big-endian byte sequence. *)
Definition of_be (bs : list Z) : Z := of_le (rev bs).

(** The event of one write of [len] bytes of [buf] through the transport of
    a connection. *)
Definition write_event (fd ssl is_ssl : Z) (buf : Buffer) (len : Z) : Event :=
  if use_ssl ssl is_ssl then Ev_SSL_write ssl buf (to_int len)
  else Ev_send fd buf len.

(** [send_message] goes on to write a payload. *)
Definition has_payload (msg : Message) : bool :=
  (0 <? h_length (header msg)) && bool_decide (payload msg <> None).

(** What a write event handed to the transport. *)
Definition written (e : Event) : option (Buffer * Z) :=
  match e with
  | Ev_send _ buf len | Ev_SSL_write _ buf len => Some (buf, len)
  | _ => None
  end.

(** The header struct and the payload bytes among the writes of a trace. *)
Definition written_header (tr : list Event) : option MessageHeader :=
  match omap written tr with
  | (BufHeader h, _) :: _ => Some h
  | _ => None
  end.

Definition written_payload (tr : list Event) : list Byte.byte :=
  match omap written tr with
  | _ :: (BufPayload (Some p), len) :: _ => take (Z.to_nat len) p
  | _ => []
  end.

(** The most one TLS record carries, which is the most one [SSL_read]
    returns (SSL3_RT_MAX_PLAIN_LENGTH of OpenSSL). *)
Definition TLS_RECORD_MAX : Z := 16384.

(** The environment of a [receive_message] at the other end of a
    connection on which the bytes written in [tr] arrive and nothing else,
    and where [malloc] succeeds.  The read of the header finds the 16 bytes
    of the first write.  The read of the payload asks for the length the
    header declares and returns what arrived of it: over a plain socket
    ([recv] with [MSG_WAITALL]) all it asks for, as far as it was written;
    over TLS ([tls]) no more than one record, since [SSL_write] cuts what
    it sends into records of at most [TLS_RECORD_MAX] bytes and one
    [SSL_read] returns the content of one record. *)
Definition delivered `{Host} (tls : bool) (tr : list Event) : RecvEnv :=
  match written_header tr with
  | None =>
      {| recv_header_ret := 0; recv_header_raw := mkHeader 0 0 0;
         recv_malloc := None; recv_payload_ret := 0; recv_payload_data := [] |}
  | Some raw =>
      let len := h_length (message_header_deserialize raw) in
      let arrived := Z.min len (Z.of_nat (length (written_payload tr))) in
      let got := if tls then Z.min arrived TLS_RECORD_MAX else arrived in
      {| recv_header_ret := sizeof_MessageHeader;
         recv_header_raw := raw;
         recv_malloc := Some (repeat Byte.x00 (Z.to_nat len));
         recv_payload_ret := got;
         recv_payload_data := take (Z.to_nat got) (written_payload tr) |}
  end.

(** A message as the constructors build it when the allocation succeeds:
    the header is in range and declares the size of the payload buffer,
    which is null exactly when that size is 0. *)
Definition message_ok (m : Message) : Prop :=
  header_valid (header m) /\
  payload_size m = h_length (header m) /\
  buffer_length (payload m) = h_length (header m) /\
  (h_length (header m) = 0 -> payload m = None).

Definition INT_MAX : Z := 2 ^ 31 - 1.


(** The descriptors a trace closes. *)
Definition closed_fds (tr : list Event) : list Z :=
  omap (fun e => match e with Ev_close fd => Some fd | _ => None end) tr.

(** The TLS sessions a trace frees. *)
Definition freed_sessions (tr : list Event) : list Z :=
  omap (fun e => match e with Ev_SSL_free ssl => Some ssl | _ => None end) tr.

(** The calls of the message handler in a trace. *)
Definition handler_calls (tr : list Event) : list (Z * Message) :=
  omap (fun e => match e with Ev_handler id m => Some (id, m) | _ => None end) tr.

(** ** Vocabulary for the outcome of [client_connect] *)

(** The environments of the attempts that fail before the first one that
    does not, among the [n] attempts from [retry_count = k] on. *)
Fixpoint failing_envs (n : nat) (m : SocketMode) (tls : Z)
    (env : Z -> Client.AttemptEnv) (k : Z) : list Client.AttemptEnv :=
  match n with
  | O => []
  | S n' =>
      if attempt_fails m tls (env k)
      then env k :: failing_envs n' m tls env (k + 1)
      else []
  end.

(** The socket an attempt creates, if it gets that far. *)
Definition socket_opened (m : SocketMode) (e : Client.AttemptEnv) : option Z :=
  if match m with
     | SOCKET_MODE_UNIX => true
     | SOCKET_MODE_INET => Client.strdup_ok e
     end && (0 <=? Client.socket_ret e)
  then Some (Client.socket_ret e) else None.

(** The TLS session an attempt creates, if it gets that far: the socket is
    connected, the timeouts are applied, TLS is enabled and [SSL_new]
    succeeds. *)
Definition tls_opened (m : SocketMode) (tls : Z) (e : Client.AttemptEnv)
    : option Z :=
  if negb (attempt_fails m 0 e) && truthy tls && truthy (Client.SSL_new_ret e)
  then Some (Client.SSL_new_ret e) else None.

(** What a call of [client_connect] keeps of a session whatever happens. *)
Definition same_session (c c' : Client.Client) : Prop :=
  Client.mode c' = Client.mode c /\ Client.address c' = Client.address c /\
  Client.enable_tls c' = Client.enable_tls c /\
  Client.timeout_sec c' = Client.timeout_sec c /\
  Client.ssl_ctx c' = Client.ssl_ctx c /\
  Client.connected c' = Client.connected c /\
  (truthy (Client.enable_tls c) = false -> Client.ssl c' = Client.ssl c).

(** The session after the attempt with environment [e] connected. *)
Definition connected_as (c : Client.Client) (e : Client.AttemptEnv)
    : Client.Client :=
  {| Client.mode := Client.mode c; Client.address := Client.address c;
     Client.enable_tls := Client.enable_tls c;
     Client.fd := Client.socket_ret e;
     Client.ssl := if truthy (Client.enable_tls c) then Client.SSL_new_ret e
                   else Client.ssl c;
     Client.connected := 1;
     Client.timeout_sec := Client.timeout_sec c;
     Client.ssl_ctx := Client.ssl_ctx c |}.

(** A failed iteration of the retry loop: it emits [pre], then warns,
    sleeps and goes on with [next] when a retry is left, and returns -1
    otherwise; the session it passes on is that of [c]. *)
Definition failed_with (next : Client.Client -> IO (Z * Client.Client))
    (k : Z) (c : Client.Client) (pre : list Event)
    (X : IO (Z * Client.Client)) : Prop :=
  exists c' text,
    same_session c c' /\
    fst X = (if k <? Client.max_retries - 1 then fst (next c') else (-1, c')) /\
    snd X = pre ++ (if k <? Client.max_retries - 1
                    then Ev_log LOG_LEVEL_WARN text :: Ev_sleep (2 ^ k)
                         :: snd (next c')
                    else []).

(** A server that refuses the TLS handshake. *)
Definition handshake_refused : Client.AttemptEnv :=
  {| Client.strdup_ok := true; Client.socket_ret := 3;
     Client.inet_aton_ret := 1; Client.connect_ret := 0;
     Client.rcvtimeo_ret := 0; Client.sndtimeo_ret := 0;
     Client.SSL_new_ret := 77; Client.SSL_connect_ret := -1 |}.

(** ** Vocabulary for [client_send_text] *)


(** The reads of a trace. *)
Definition is_read (e : Event) : bool :=
  match e with
  | Ev_recv _ _ | Ev_SSL_read _ _ => true
  | _ => false
  end.

(** ** Vocabulary for the loop over the client sockets *)

(** The descriptors of the connections of a server are all accounted for
    after a computation with result [s'] and trace [tr]: each connection
    that was live in [s] is still live in [s'] or its descriptor was closed
    in [tr], not both and not twice; the survivors keep their order; no
    connection appears; capacity and [total_clients] are unchanged. *)
Definition accounted {D} (s s' : Server.Server D) (tr : list Event) : Prop :=
  table_ok s' /\
  map Server.fd (live s) ≡ₚ closed_fds tr ++ map Server.fd (live s') /\
  sublist (live s') (live s) /\
  Server.client_capacity s' = Server.client_capacity s /\
  Server.total_clients s' = Server.total_clients s.

(** [revents] of a descriptor on which nothing happened: nothing to read,
    no hang-up and no error. *)
Definition quiet (revents : Z) : bool :=
  negb (truthy (Z.land revents POLLIN))
  && negb (truthy (Z.land revents (Z.lor POLLHUP POLLERR))).

(** An iteration in which [poll] reports a hang-up on the first of the
    client sockets and nothing else. *)
Definition first_hangs_up : Server.LoopEnv :=
  {| Server.stop_requested := false;
     Server.realloc_pollfds_ok := true;
     Server.poll_ret := 1;
     Server.poll_errno := 0;
     Server.poll_revents := [0; POLLHUP; 0; 0];
     Server.accept_env :=
       {| Server.accept_ret := -1; Server.accept_errno := 0;
          Server.SSL_new_ret := NULL; Server.SSL_accept_ret := 0;
          Server.add_client_realloc := None |};
     Server.handle_env := fun _ => hello_but_send_fails |}.

(** ** Vocabulary for idle iterations of the event loop *)

(** An iteration in which nobody stops the server and [poll] times out or
    is interrupted by a signal. *)
Definition idle (e : Server.LoopEnv) : bool :=
  negb (Server.stop_requested e) && Server.realloc_pollfds_ok e
  && ((Server.poll_ret e =? 0)
      || ((Server.poll_ret e <? 0) && (Server.poll_errno e =? EINTR))).

(** The sizes of the [realloc] calls of a trace. *)
Definition reallocs (tr : list Event) : list Z :=
  omap (fun e => match e with Ev_realloc n => Some n | _ => None end) tr.

(** The one [poll] call of an iteration on the server [s]. *)
Definition poll_of {D} (s : Server.Server D) : Event :=
  Ev_poll (Server.server_fd s :: map Server.fd (live s)) 1000.

(** [server_stop] ran before this iteration. *)
Definition stop_now : Server.LoopEnv :=
  {| Server.stop_requested := true;
     Server.realloc_pollfds_ok := true;
     Server.poll_ret := 0;
     Server.poll_errno := 0;
     Server.poll_revents := [];
     Server.accept_env :=
       {| Server.accept_ret := -1; Server.accept_errno := 0;
          Server.SSL_new_ret := NULL; Server.SSL_accept_ret := 0;
          Server.add_client_realloc := None |};
     Server.handle_env := fun _ => hello_but_send_fails |}.

(** The listening server with three connections in an array of eight. *)
Definition three_clients_running : Server.Server QArith_base.Q :=
  Server.set_table listening_server
    ([conn 4; conn 5; conn 6] ++ repeat (conn 0) 5) 3 8.

(** ** Vocabulary for the message counters *)

(** The payload sizes of the messages of the arrivals. *)
Definition arrived_sizes `{Host} (arrivals : list (Z * Server.HandleEnv))
    : list Z :=
  map (fun a => payload_size (snd (received (snd a) (conn 0)))) arrivals.

Definition total_of (sizes : list Z) : Z := fold_right Z.add 0 sizes.

(* ================================================================== *)
(** * client.c, server.c, net_common.c: the cleanup functions *)
(* ================================================================== *)

(** What the cleanup functions hand back to the system: the calls that
    are [Event]s, and the calls that only they make. *)
Inductive Release : Set :=
| Rel_call (e : Event)
| Rel_SSL_CTX_free (ctx : Z)
| Rel_unlink (path : option string)
| Rel_free_clients
| Rel_free_address (address : option string).

(** [cleanup_tls]. *)
Definition cleanup_tls (ssl_ctx : Z) : list Release :=
  if truthy ssl_ctx then [Rel_SSL_CTX_free ssl_ctx] else [].

(** A [Client] after [memset(client, 0, sizeof(Client))]. *)
Definition zero_client : Client.Client :=
  Client.mkClient SOCKET_MODE_UNIX None 0 0 NULL 0 0 NULL.

(** [client_cleanup] on a non-null client. *)
Definition client_cleanup (c : Client.Client) : Client.Client * list Release :=
  let (c1, calls) := Client.client_disconnect c in
  (zero_client,
   map Rel_call calls
   ++ (if truthy (Client.ssl_ctx c1) then cleanup_tls (Client.ssl_ctx c1) else [])
   ++ [Rel_free_address (Client.address c1)]).

(** A [Server] after [memset(server, 0, sizeof(Server))]. *)
Definition zero_server {D} `{DoubleOps D} : Server.Server D :=
  Server.mkServer SOCKET_MODE_UNIX None 0 0 0 NULL [] 0 0 0 0 (d_of_Z 0) 0
    (d_of_Z 0) (d_of_Z 0) (d_of_Z 0) (d_of_Z 0) 0.

#[local] Existing Instance Server.ClientConnection_inhabited.

(** The loop [for (i = 0; i < client_count; i++)] of [server_cleanup]. *)
Fixpoint close_clients (cl : list Server.ClientConnection) (i : nat) (n : nat)
    : IO unit :=
  match n with
  | O => ret tt
  | S n' =>
      let client : Server.ClientConnection := cl !!! i in
      exec (if truthy (Server.is_ssl client) && truthy (Server.ssl client)
            then close_tls_connection (Server.ssl client) else ret tt) ;
      exec emit (Ev_close (Server.fd client)) ;
      close_clients cl (S i) n'
  end.

(** [server_cleanup] on a non-null server. *)
Definition server_cleanup {D} `{DoubleOps D} (s : Server.Server D)
    : Server.Server D * list Release :=
  (zero_server,
   map Rel_call
     (trace (close_clients (Server.clients s) 0
               (Z.to_nat (Server.client_count s))))
   ++ [Rel_free_clients]
   ++ (if 0 <=? Server.server_fd s
       then Rel_call (Ev_close (Server.server_fd s))
            :: match Server.mode s with
               | SOCKET_MODE_UNIX => [Rel_unlink (Server.address s)]
               | SOCKET_MODE_INET => []
               end
       else [])
   ++ (if truthy (Server.ssl_ctx s) then cleanup_tls (Server.ssl_ctx s) else [])
   ++ [Rel_free_address (Server.address s)]).

(** The [Event]s among the releases. *)
Definition calls_of (rs : list Release) : list Event :=
  omap (fun r => match r with Rel_call e => Some e | _ => None end) rs.

(** The TLS session of a connection, if it holds one. *)
Definition session_of (client : Server.ClientConnection) : option Z :=
  if truthy (Server.is_ssl client) && truthy (Server.ssl client)
  then Some (Server.ssl client) else None.

(* ================================================================== *)
(** * utils.c: parse_address with its port *)
(* ================================================================== *)

Module Utils.

(** [isspace] and [isdigit] in the C locale. *)
Definition isspace (c : ascii) : bool :=
  let n := Z.of_nat (nat_of_ascii c) in (n =? 32) || ((9 <=? n) && (n <=? 13)).

Definition isdigit (c : ascii) : bool :=
  let n := Z.of_nat (nat_of_ascii c) in (48 <=? n) && (n <=? 57).

Fixpoint skip_spaces (s : string) : string :=
  match s with
  | String c rest => if isspace c then skip_spaces rest else s
  | EmptyString => s
  end.

(** The digits at the head of [s], read in base 10 after [acc]. *)
Fixpoint atoi_digits (acc : Z) (s : string) : Z :=
  match s with
  | String c rest =>
      if isdigit c
      then atoi_digits (acc * 10 + (Z.of_nat (nat_of_ascii c) - 48)) rest
      else acc
  | EmptyString => acc
  end.

(** [atoi]: the number read, as an integer.  C defines the result only
    when it fits [int]. *)
Definition atoi (s : string) : Z :=
  match skip_spaces s with
  | String "-" rest => - atoi_digits 0 rest
  | String "+" rest => atoi_digits 0 rest
  | digits => atoi_digits 0 digits
  end.

(** What follows the first colon of [address]: [strchr(addr_copy, ':') + 1]. *)
Fixpoint after_colon (address : string) : option string :=
  match address with
  | EmptyString => None
  | String c rest =>
      if Ascii.eqb c ":"%char then Some rest else after_colon rest
  end.

(** [parse_address]: the host and the content of [*port] after the call,
    [None] when [strdup] fails.  [port] is the content of [*port] before
    the call. *)
Definition parse_address (strdup_ok : bool) (address : string) (port : Z)
    : option (string * Z) :=
  if strdup_ok then
    Some (host_part address,
          match after_colon address with
          | Some port_str => atoi port_str mod 2 ^ 16
          | None => port
          end)
  else None.

End Utils.

(** ** Vocabulary for [parse_address] *)

(** A decimal numeral: its digits, most significant first, as a string and
    as a number. *)
Definition digit_char (d : Z) : ascii := ascii_of_nat (Z.to_nat (48 + d)).

Definition numeral (ds : list Z) : string :=
  fold_right (fun d s => String (digit_char d) s) EmptyString ds.

Definition decimal (ds : list Z) : Z := fold_left (fun a d => a * 10 + d) ds 0.

Definition is_digit (d : Z) : Prop := 0 <= d <= 9.

(** Strings without a colon, and strings that do not go on with a digit. *)
Definition no_colon (s : string) : Prop := host_part s = s.

Definition ends_numeral (tail : string) : Prop :=
  match tail with
  | String c _ => Utils.isdigit c = false
  | EmptyString => True
  end.

(* ================================================================== *)
(** * logger.c *)
(* ================================================================== *)

Module Logger.

(** The values of a non-null [FILE*]: [stdout], or the stream a successful
    [fopen] returned. *)
Inductive File : Set := stdout | opened (stream : Z).

(** The statics [log_file] and [log_level]. *)
Record State : Set := mkState {
  log_file : option File;
  log_level : LogLevel
}.

Definition initial : State :=
  {| log_file := None; log_level := LOG_LEVEL_INFO |}.

(** What the logger does to the outside: it opens a file, writes one line,
    closes a stream. *)
Inductive Output : Set :=
| Out_fopen (path : string)
| Out_line (f : File) (level : LogLevel) (text : string)
| Out_fclose (f : File).

(** The enumerators of [LogLevel] as numbers. *)
Definition rank (l : LogLevel) : Z :=
  match l with
  | LOG_LEVEL_INFO => 0
  | LOG_LEVEL_WARN => 1
  | LOG_LEVEL_ERROR => 2
  end.

(** [logger_init]: [fopen_ret] is the stream [fopen] returns, [None] for
    [NULL]. *)
Definition logger_init (fopen_ret : option Z) (output_file : option string)
    (st : State) : Z * State * list Output :=
  match output_file with
  | Some path =>
      match fopen_ret with
      | Some stream =>
          (0, {| log_file := Some (opened stream); log_level := log_level st |},
           [Out_fopen path])
      | None =>
          (-1, {| log_file := None; log_level := log_level st |},
           [Out_fopen path])
      end
  | None => (0, {| log_file := Some stdout; log_level := log_level st |}, [])
  end.

Definition logger_cleanup (st : State) : State * list Output :=
  ({| log_file := None; log_level := log_level st |},
   match log_file st with
   | Some (opened stream) => [Out_fclose (opened stream)]
   | _ => []
   end).

Definition logger_set_level (level : LogLevel) (st : State) : State :=
  {| log_file := log_file st; log_level := level |}.

(** [vlogger_log]: [text] is the formatted message. *)
Definition vlogger_log (level : LogLevel) (text : string) (st : State)
    : State * list Output :=
  if rank level <? rank (log_level st) then (st, [])
  else
    let f := match log_file st with Some f => f | None => stdout end in
    ({| log_file := Some f; log_level := log_level st |},
     [Out_line f level text]).

(** The calls a program makes to the logger, with the answers of [fopen]. *)
Inductive Call : Set :=
| Call_init (output_file : option string) (fopen_ret : option Z)
| Call_cleanup
| Call_set_level (level : LogLevel)
| Call_log (level : LogLevel) (text : string).

Definition step (st : State) (c : Call) : State * list Output :=
  match c with
  | Call_init output_file fopen_ret =>
      let '(_, st', out) := logger_init fopen_ret output_file st in (st', out)
  | Call_cleanup => logger_cleanup st
  | Call_set_level level => (logger_set_level level st, [])
  | Call_log level text => vlogger_log level text st
  end.

Fixpoint run (calls : list Call) (st : State) : State * list Output :=
  match calls with
  | [] => (st, [])
  | c :: rest =>
      let (st1, out1) := step st c in
      let (st2, out2) := run rest st1 in
      (st2, out1 ++ out2)
  end.

End Logger.

(** ** Vocabulary for the logger *)

(** The messages a sequence of calls asks to log that are not below the
    level in force, which is [level] at first. *)
Fixpoint passing (calls : list Logger.Call) (level : LogLevel)
    : list (LogLevel * string) :=
  match calls with
  | [] => []
  | Logger.Call_set_level l :: rest => passing rest l
  | Logger.Call_log l text :: rest =>
      if Logger.rank level <=? Logger.rank l
      then (l, text) :: passing rest level
      else passing rest level
  | _ :: rest => passing rest level
  end.

(** The lines, the closed streams and the opened streams of a run. *)
Definition lines (out : list Logger.Output) : list (LogLevel * string) :=
  omap (fun o => match o with
                 | Logger.Out_line _ l text => Some (l, text)
                 | _ => None
                 end) out.

Definition fcloses (out : list Logger.Output) : list Logger.File :=
  omap (fun o => match o with Logger.Out_fclose f => Some f | _ => None end) out.

Definition streams_of (calls : list Logger.Call) : list Logger.File :=
  omap (fun c => match c with
                 | Logger.Call_init (Some _) (Some stream) =>
                     Some (Logger.opened stream)
                 | _ => None
                 end) calls.

Definition held (st : Logger.State) : list Logger.File :=
  match Logger.log_file st with
  | Some (Logger.opened stream) => [Logger.opened stream]
  | _ => []
  end.

(** ** Vocabulary for one pass over ready connections *)

(** What the handler is given for the connection at index [k] in a pass of
    the loop over the client sockets: nothing when [poll] reported nothing
    to read, otherwise the descriptor and the message received. *)
Definition served `{Host} {D} (e : Server.LoopEnv) (s : Server.Server D)
    (k : nat) : option (Z * Message) :=
  let client : Server.ClientConnection := Server.clients s !!! k in
  if truthy (Z.land (nth (S k) (Server.poll_revents e) 0) POLLIN)
  then Some (Server.fd client, snd (received (Server.handle_env e k) client))
  else None.

(** [poll] reports no hang-up and no error on the first [n] connections,
    and every receive on a connection with something to read succeeds. *)
Definition all_served `{Host} {D} (e : Server.LoopEnv) (s : Server.Server D)
    (n : nat) : Prop :=
  forall k : nat, (k < n)%nat ->
    truthy (Z.land (nth (S k) (Server.poll_revents e) 0) (Z.lor POLLHUP POLLERR))
    = false /\
    (truthy (Z.land (nth (S k) (Server.poll_revents e) 0) POLLIN) = true ->
     fst (received (Server.handle_env e k) (Server.clients s !!! k)) = 0).

(** An iteration in which the first and the third connection have sent
    ["hello"]. *)
Definition two_ready : Server.LoopEnv :=
  {| Server.stop_requested := false;
     Server.realloc_pollfds_ok := true;
     Server.poll_ret := 2;
     Server.poll_errno := 0;
     Server.poll_revents := [0; POLLIN; 0; POLLIN];
     Server.accept_env :=
       {| Server.accept_ret := -1; Server.accept_errno := 0;
          Server.SSL_new_ret := NULL; Server.SSL_accept_ret := 0;
          Server.add_client_realloc := None |};
     Server.handle_env := fun _ => snd (hello_at 101 0) |}.

(** An iteration in which a connection arrives on the listening socket and
    the client array can be allocated. *)
Definition connection_arrives : Server.LoopEnv :=
  {| Server.stop_requested := false;
     Server.realloc_pollfds_ok := true;
     Server.poll_ret := 1;
     Server.poll_errno := 0;
     Server.poll_revents := [POLLIN];
     Server.accept_env :=
       {| Server.accept_ret := 4; Server.accept_errno := 0;
          Server.SSL_new_ret := NULL; Server.SSL_accept_ret := 0;
          Server.add_client_realloc := Some (repeat (conn 0) 8) |};
     Server.handle_env := fun _ => hello_but_send_fails |}.

(* ================================================================== *)
(** * server_net.c: init_tls_server *)
(* ================================================================== *)

Module ServerTls.

(** The OpenSSL objects [init_tls_server] creates. *)
Inductive Resource : Set := R_ctx | R_pctx | R_pkey | R_x509.

Definition resource_eqb (a b : Resource) : bool :=
  match a, b with
  | R_ctx, R_ctx | R_pctx, R_pctx | R_pkey, R_pkey | R_x509, R_x509 => true
  | _, _ => false
  end.

(** An object came into being, an object was freed, an error was logged. *)
Inductive Call : Set :=
| New (r : Resource)
| Free (r : Resource)
| Log_error (text : string).

(** What the OpenSSL calls return whose result [init_tls_server] tests. *)
Record InitEnv : Set := mkInitEnv {
  SSL_CTX_new_ok : bool;
  EVP_PKEY_CTX_new_id_ok : bool;
  EVP_PKEY_keygen_init_ret : Z;
  EVP_PKEY_CTX_set_rsa_keygen_bits_ret : Z;
  EVP_PKEY_keygen_ret : Z;
  X509_new_ok : bool;
  X509_sign_ret : Z;
  SSL_CTX_use_certificate_ret : Z;
  SSL_CTX_use_PrivateKey_ret : Z
}.

(** [init_tls_server]: whether the returned context is non-null, and the
    calls. *)
Definition init_tls_server (e : InitEnv) : bool * list Call :=
  if negb (SSL_CTX_new_ok e) then
    (false, [Log_error "Failed to create SSL context"])
  else if negb (EVP_PKEY_CTX_new_id_ok e) then
    (false, [New R_ctx; Free R_ctx; Log_error "Failed to create EVP_PKEY_CTX"])
  else if EVP_PKEY_keygen_init_ret e <=? 0 then
    (false, [New R_ctx; New R_pctx; Free R_pctx; Free R_ctx;
             Log_error "EVP_PKEY_keygen_init failed"])
  else if EVP_PKEY_CTX_set_rsa_keygen_bits_ret e <=? 0 then
    (false, [New R_ctx; New R_pctx; Free R_pctx; Free R_ctx;
             Log_error "EVP_PKEY_CTX_set_rsa_keygen_bits failed"])
  else if EVP_PKEY_keygen_ret e <=? 0 then
    (false, [New R_ctx; New R_pctx; Free R_pctx; Free R_ctx;
             Log_error "EVP_PKEY_keygen failed"])
  else
    let keyed := [New R_ctx; New R_pctx; New R_pkey; Free R_pctx] in
    if negb (X509_new_ok e) then
      (false, keyed ++ [Free R_pkey; Free R_ctx;
                        Log_error "Failed to allocate X509"])
    else
      let drop (text : string) : bool * list Call :=
        (false, keyed ++ [New R_x509; Free R_x509; Free R_pkey; Free R_ctx;
                          Log_error text]) in
      if X509_sign_ret e =? 0 then drop "X509_sign failed"%string
      else if negb (SSL_CTX_use_certificate_ret e =? 1) then
        drop "SSL_CTX_use_certificate failed"%string
      else if negb (SSL_CTX_use_PrivateKey_ret e =? 1) then
        drop "SSL_CTX_use_PrivateKey failed"%string
      else (true, keyed ++ [New R_x509; Free R_x509; Free R_pkey]).

End ServerTls.

(** ** Vocabulary for [init_tls_server] *)

(** The objects held after the calls [tr], starting from [held]; [None]
    when an object is freed that is not held, or created while held. *)
Fixpoint holds (tr : list ServerTls.Call) (held : list ServerTls.Resource)
    : option (list ServerTls.Resource) :=
  match tr with
  | [] => Some held
  | ServerTls.New r :: rest =>
      if existsb (ServerTls.resource_eqb r) held then None
      else holds rest (r :: held)
  | ServerTls.Free r :: rest =>
      if existsb (ServerTls.resource_eqb r) held
      then holds rest
             (List.filter (fun x => negb (ServerTls.resource_eqb r x)) held)
      else None
  | ServerTls.Log_error _ :: rest => holds rest held
  end.

Definition error_logs (tr : list ServerTls.Call) : list string :=
  omap (fun c => match c with ServerTls.Log_error t => Some t | _ => None end) tr.

(* ================================================================== *)
(** * server_net.c: setup_unix_socket, setup_inet_socket *)
(* ================================================================== *)

Module ServerNet.

(** The address [setup_inet_socket] binds to. *)
Inductive BindAddr : Set := INADDR_ANY | Parsed (host : string).

Inductive Call : Set :=
| Socket (domain : SocketMode)
| Unlink (path : string)
| Bind_unix (fd : Z) (sun_path : string)
| Bind_inet (fd : Z) (addr : BindAddr) (port : Z)
| Setsockopt_reuse (fd : Z)
| Inet_aton (host : string)
| Close (fd : Z)
| Log_error (text : string).

(** What the system calls return. *)
Record SetupEnv : Set := mkSetupEnv {
  socket_ret : Z;
  bind_ret : Z;
  setsockopt_ret : Z;
  inet_aton_ret : Z
}.

(** [strncpy(addr.sun_path, socket_path, sizeof(addr.sun_path) - 1)] into
    the zeroed 108-byte field. *)
Definition sun_path_of (socket_path : string) : string :=
  String.substring 0 107 socket_path.

(** [set_socket_reuse] of utils.c. *)
Definition set_socket_reuse (e : SetupEnv) (fd : Z) : Z * list Call :=
  (if setsockopt_ret e <? 0 then -1 else 0, [Setsockopt_reuse fd]).

Definition setup_unix_socket (e : SetupEnv) (socket_path : string)
    : Z * list Call :=
  let fd := socket_ret e in
  if fd <? 0 then
    (-1, [Socket SOCKET_MODE_UNIX; Log_error "Failed to create Unix socket"])
  else
    let bound := [Socket SOCKET_MODE_UNIX; Unlink socket_path;
                  Bind_unix fd (sun_path_of socket_path)] in
    if bind_ret e <? 0 then
      (-1, bound ++ [Close fd; Log_error "Failed to bind Unix socket"])
    else
      let (r, calls) := set_socket_reuse e fd in
      if r <? 0 then (-1, bound ++ calls ++ [Close fd])
      else (fd, bound ++ calls).

(** [host] is [None] for a null pointer. *)
Definition setup_inet_socket (e : SetupEnv) (host : option string) (port : Z)
    : Z * list Call :=
  let fd := socket_ret e in
  if fd <? 0 then
    (-1, [Socket SOCKET_MODE_INET; Log_error "Failed to create INET socket"])
  else
    let any :=
      match host with
      | None => true
      | Some h =>
          String.eqb h "" || String.eqb h "localhost" || String.eqb h "127.0.0.1"
      end in
    let resolve : list Call :=
      if any then []
      else [Inet_aton (match host with Some h => h | None => EmptyString end)] in
    if negb any && (inet_aton_ret e =? 0) then
      (-1, [Socket SOCKET_MODE_INET] ++ resolve
           ++ [Close fd; Log_error "Invalid IP address"])
    else
      let addr :=
        if any then INADDR_ANY
        else Parsed (match host with Some h => h | None => EmptyString end) in
      let (r, calls) := set_socket_reuse e fd in
      if r <? 0 then
        (-1, [Socket SOCKET_MODE_INET] ++ resolve ++ calls ++ [Close fd])
      else if bind_ret e <? 0 then
        (-1, [Socket SOCKET_MODE_INET] ++ resolve ++ calls
             ++ [Bind_inet fd addr port; Close fd;
                 Log_error "Failed to bind INET socket"])
      else
        (fd, [Socket SOCKET_MODE_INET] ++ resolve ++ calls
             ++ [Bind_inet fd addr port]).

End ServerNet.

(** ** Vocabulary for the listening socket *)

Definition setup_closes (tr : list ServerNet.Call) : list Z :=
  omap (fun c => match c with ServerNet.Close fd => Some fd | _ => None end) tr.

Definition bound_to (tr : list ServerNet.Call) : list ServerNet.BindAddr :=
  omap (fun c => match c with
                 | ServerNet.Bind_inet _ addr _ => Some addr
                 | _ => None
                 end) tr.

(* ================================================================== *)
(** * server.c: setup_socket, server_start; error.c *)
(* ================================================================== *)

Module ServerStart.

(** The calls of [server_start]: those of the socket setup, those of the
    event loop, and its own. *)
Inductive Call : Set :=
| Setup (c : ServerNet.Call)
| Loop (e : Event)
| Parse_address
| Fcntl_nonblock (fd : Z)
| Listen (fd : Z)
| Log (level : LogLevel) (text : string).

Record StartEnv : Type := mkStartEnv {
  setup_env : ServerNet.SetupEnv;
  strdup_ok : bool;                  (* strdup inside parse_address *)
  listen_ret : Z;
  script : list Server.LoopEnv       (* the iterations of the event loop *)
}.

Definition set_server_fd {D} (s : Server.Server D) (v : Z) : Server.Server D :=
  Server.mkServer (Server.mode s) (Server.address s) (Server.enable_tls s) v
    (Server.running s) (Server.ssl_ctx s) (Server.clients s)
    (Server.client_count s) (Server.client_capacity s) (Server.total_clients s)
    (Server.total_messages s) (Server.start_time s) (Server.total_bytes s)
    (Server.last_message_time s) (Server.total_interval_ms s)
    (Server.min_interval_ms s) (Server.max_interval_ms s)
    (Server.interval_count s).

(** [setup_socket]; [server->address] is not null after a successful
    [server_init]. *)
Definition setup_socket {D} (e : StartEnv) (s : Server.Server D)
    : Server.Server D * list Call :=
  let address := match Server.address s with Some a => a | None => EmptyString end in
  let nonblocking (s1 : Server.Server D) (calls : list Call) :=
    if Server.server_fd s1 <? 0 then (s1, calls)
    else (s1, calls ++ [Fcntl_nonblock (Server.server_fd s1)]) in
  match Server.mode s with
  | SOCKET_MODE_UNIX =>
      let (fd, calls) := ServerNet.setup_unix_socket (setup_env e) address in
      nonblocking (set_server_fd s fd)
        (Log LOG_LEVEL_INFO "Initializing UNIX socket" :: map Setup calls)
  | SOCKET_MODE_INET =>
      match Utils.parse_address (strdup_ok e) address 8080 with
      | None =>
          (s, [Parse_address; Log LOG_LEVEL_ERROR "Failed to parse address"])
      | Some (host, port) =>
          let (fd, calls) :=
            ServerNet.setup_inet_socket (setup_env e) (Some host) port in
          nonblocking (set_server_fd s fd)
            (Parse_address :: Log LOG_LEVEL_INFO "Initializing INET socket"
             :: map Setup calls)
      end
  end.

(** [server_start]: the value returned, [None] while the event loop has
    not left (the script of its iterations ended first). *)
Definition server_start {D} `{Host} `{DoubleOps D} (e : StartEnv)
    (handler : bool) (s : Server.Server D)
    : option Z * Server.Server D * list Call :=
  let (s1, calls) := setup_socket e s in
  if Server.server_fd s1 <? 0 then (Some (-1), s1, calls)
  else if listen_ret e <? 0 then
    (Some (-1), s1,
     calls ++ [Listen (Server.server_fd s1);
               Log LOG_LEVEL_ERROR "Failed to listen"])
  else
    let s2 := Server.set_running s1 1 in
    let listening :=
      match Server.mode s2 with
      | SOCKET_MODE_UNIX => "Server listening (UNIX)"%string
      | SOCKET_MODE_INET => "Server listening (INET)"%string
      end in
    let '(exit, s3, loop) := Server.run_event_loop (script e) handler s2 in
    (match exit with
     | Server.LoopRunning => None
     | _ => Some 0
     end, s3,
     calls ++ [Listen (Server.server_fd s1); Log LOG_LEVEL_INFO listening]
     ++ map Loop loop).

End ServerStart.

(** [ErrorCode] and [error_to_string]. *)
Definition ERROR_SUCCESS : Z := 0.
Definition ERROR_NETWORK : Z := 1.
Definition ERROR_PROTOCOL : Z := 2.
Definition ERROR_TLS : Z := 3.
Definition ERROR_TIMEOUT : Z := 4.
Definition ERROR_CONNECTION : Z := 5.
Definition ERROR_INVALID_ARG : Z := 6.
Definition ERROR_SYSTEM : Z := 7.

Definition error_to_string (code : Z) : string :=
  if code =? ERROR_SUCCESS then "Success"
  else if code =? ERROR_NETWORK then "Network error"
  else if code =? ERROR_PROTOCOL then "Protocol error"
  else if code =? ERROR_TLS then "TLS/SSL error"
  else if code =? ERROR_TIMEOUT then "Operation timeout"
  else if code =? ERROR_CONNECTION then "Connection error"
  else if code =? ERROR_INVALID_ARG then "Invalid argument"
  else if code =? ERROR_SYSTEM then "System error"
  else "Unknown error".

(** ** Vocabulary for [server_start] *)


(** The calls of the event loop among those of [server_start]. *)
Definition loop_calls (tr : list ServerStart.Call) : list Event :=
  omap (fun c => match c with ServerStart.Loop e => Some e | _ => None end) tr.

(** The ports [server_start] binds. *)
Definition bound_ports (tr : list ServerStart.Call) : list Z :=
  omap (fun c => match c with
                 | ServerStart.Setup (ServerNet.Bind_inet _ _ port) => Some port
                 | _ => None
                 end) tr.

(** The descriptors the socket setup closes. *)
Definition start_closes (tr : list ServerStart.Call) : list Z :=
  omap (fun c => match c with
                 | ServerStart.Setup (ServerNet.Close fd) => Some fd
                 | _ => None
                 end) tr.

(** What the operations at the slot [j] do to the table: the connections
    before [j] stay, and the connections from [j] on either stay or are
    closed, in order. *)
Definition from_slot {D} (j : Z) (s s1 : Server.Server D) (tr : list Event)
    : Prop :=
  table_ok s1 /\ j <= Server.client_count s1 <= Server.client_count s /\
  take (Z.to_nat j) (live s1) = take (Z.to_nat j) (live s) /\
  map Server.fd (drop (Z.to_nat j) (live s))
  = closed_fds tr ++ map Server.fd (drop (Z.to_nat j) (live s1)).

(* ================================================================== *)
(** * main.c of the server and of the client: parse_config *)
(* ================================================================== *)

(** What the two [parse_config] share: the stream functions of the C
    library they call and the way they take a line apart. *)
Module ConfigFile.

Definition newline : ascii := ascii_of_nat 10.
Definition nul : ascii := ascii_of_nat 0.

(** [fgets(line, size, f)] with [room = size - 1], on a stream of which
    [f] is left to read: the characters stored in [line] and what is then
    left of the stream.  It reads up to and with a newline, at most [room]
    characters. *)
Fixpoint fgets (room : nat) (f : string) : string * string :=
  match room, f with
  | S room', String c rest =>
      if Ascii.eqb c newline then (String c EmptyString, rest)
      else let (line, left) := fgets room' rest in (String c line, left)
  | _, _ => (EmptyString, f)
  end.

(** The buffers of [while (fgets(line, size, f))]: [fgets] returns NULL at
    the end of the stream.  [fuel] bounds the number of calls. *)
Fixpoint read_lines (fuel size : nat) (f : string) : list string :=
  match fuel, f with
  | S fuel', String _ _ =>
      let (line, left) := fgets (size - 1) f in
      line :: read_lines fuel' size left
  | _, _ => []
  end.

(** A buffer as the string functions see it: up to its first NUL. *)
Fixpoint c_str (buf : string) : string :=
  match buf with
  | String c rest => if Ascii.eqb c nul then EmptyString else String c (c_str rest)
  | EmptyString => EmptyString
  end.

(** [strcspn(s, r)] for a one-character [r], and the offset of
    [strchr(s, c)], [None] for NULL. *)
Fixpoint strcspn (s : string) (reject : ascii) : nat :=
  match s with
  | String c rest => if Ascii.eqb c reject then 0%nat else S (strcspn rest reject)
  | EmptyString => 0%nat
  end.

Fixpoint strchr (s : string) (c : ascii) : option nat :=
  match s with
  | String d rest => if Ascii.eqb d c then Some 0%nat else option_map S (strchr rest c)
  | EmptyString => None
  end.

(** A pointer to a string from [strdup]: NULL, or the block of the [n]-th
    allocation with its content. *)
Definition Ptr : Type := option (nat * string).

Definition strdup (alloc_ok : nat -> bool) (n : nat) (s : string) : Ptr :=
  if alloc_ok n then Some (n, s) else None.

(** The head of the loop body: the newline is cut off, empty lines,
    comments and lines without [=] are skipped ([None]), the others give
    [key] and [value]. *)
Definition key_value (buf : string) : option (string * string) :=
  let line := c_str buf in
  let line := substring 0 (strcspn line newline) line in
  match line with
  | EmptyString => None
  | String c _ =>
      if Ascii.eqb c "#"%char then None
      else
        match strchr line "="%char with
        | None => None
        | Some eq =>
            Some (substring 0 eq line,
                  substring (S eq) (String.length line - S eq) line)
        end
  end.

Definition default_address (mode : SocketMode) : string :=
  match mode with
  | SOCKET_MODE_UNIX => "/tmp/server.sock"%string
  | SOCKET_MODE_INET => "localhost:8080"%string
  end.

End ConfigFile.

(** ** server/main.c *)

Module ServerMain.
Import ConfigFile.

Definition MAX_LINE_LEN : nat := 256.

(** The output parameters of [parse_config]. *)
Record Config : Type := mkConfig {
  mode : SocketMode;
  address : Ptr;
  enable_tls : Z
}.

Section ParseConfig.
(** Whether the [n]-th allocation of the call succeeds. *)
Variable alloc_ok : nat -> bool.

(** The body of the loop on the buffer [buf]; [n] counts the allocations.
    [Utils.atoi] is the number the value starts with, which is what C's
    [atoi] returns when that number fits [int]; the theorems about
    [enable_tls] are for such values. *)
Definition config_line (st : Config * nat) (buf : string) : Config * nat :=
  let (cfg, n) := st in
  match key_value buf with
  | None => st
  | Some (key, value) =>
      if String.eqb key "mode" then
        if String.eqb value "unix" then
          ({| mode := SOCKET_MODE_UNIX; address := address cfg;
              enable_tls := enable_tls cfg |}, n)
        else if String.eqb value "inet" then
          ({| mode := SOCKET_MODE_INET; address := address cfg;
              enable_tls := enable_tls cfg |}, n)
        else st
      else if String.eqb key "address" then
        ({| mode := mode cfg; address := strdup alloc_ok n value;
            enable_tls := enable_tls cfg |}, S n)
      else if String.eqb key "tls" then
        ({| mode := mode cfg; address := address cfg;
            enable_tls := if Utils.atoi value =? 0 then 0 else 1 |}, n)
      else st
  end.

(** [parse_config] on a file of content [f]: the value returned and the
    output parameters, which are [out] before the call. *)
Definition parse_config (fopen_ok : bool) (f : string) (out : Config)
    : Z * Config :=
  if negb fopen_ok then (-1, out)
  else
    let start := ({| mode := SOCKET_MODE_INET; address := None;
                     enable_tls := 0 |}, 0%nat) in
    let (cfg, n) :=
      fold_left config_line (read_lines (String.length f) MAX_LINE_LEN f)
        start in
    (0, match address cfg with
        | Some _ => cfg
        | None => {| mode := mode cfg;
                     address := strdup alloc_ok n (default_address (mode cfg));
                     enable_tls := enable_tls cfg |}
        end).

End ParseConfig.
End ServerMain.

(** ** client/main.c *)

Module ClientMain.
Import ConfigFile.

Definition MAX_LINE_LEN : nat := 1024.
Definition sizeof_char_ptr : Z := 8.

(** The output parameters of [parse_config]; [messages] holds the entries
    of the array written so far. *)
Record Config : Type := mkConfig {
  mode : SocketMode;
  address : Ptr;
  enable_tls : Z;
  free_input : Z;
  messages : list Ptr;
  message_count : Z
}.

(** What [parse_config] asks of the allocator and of the stream. *)
Inductive Call : Type :=
  | Realloc (bytes : Z) (ok : bool)
  | Strdup (p : Ptr)
  | Free (p : Ptr)
  | FreeArray
  | Fclose.

Record State : Type := mkState {
  cfg : Config;
  message_capacity : Z;
  allocs : nat;
  calls : list Call
}.

Definition set_cfg (st : State) (c : Config) : State :=
  {| cfg := c; message_capacity := message_capacity st; allocs := allocs st;
     calls := calls st |}.

Section ParseConfig.
Variable alloc_ok : nat -> bool.

(** The [message] branch, once the array has room. *)
Definition store_message (st : State) (value : string) : State :=
  let c := cfg st in
  let p := strdup alloc_ok (allocs st) value in
  {| cfg := {| mode := mode c; address := address c;
               enable_tls := enable_tls c; free_input := free_input c;
               messages := messages c ++ [p];
               message_count := wrap64 (message_count c + 1) |};
     message_capacity := message_capacity st;
     allocs := S (allocs st);
     calls := calls st ++ [Strdup p] |}.

(** The body of the loop on the buffer [buf]: the state after it, and
    whether the loop goes on ([false] for the [return -1] of the body).
    [Utils.atoi] is the number the value starts with, which is what C's
    [atoi] returns when that number fits [int]; the theorems about
    [enable_tls] and [free_input] are for such values. *)
Definition config_line (st : State) (buf : string) : State * bool :=
  let c := cfg st in
  match key_value buf with
  | None => (st, true)
  | Some (key, value) =>
      if String.eqb key "mode" then
        if String.eqb value "unix" then
          (set_cfg st {| mode := SOCKET_MODE_UNIX; address := address c;
                         enable_tls := enable_tls c;
                         free_input := free_input c; messages := messages c;
                         message_count := message_count c |}, true)
        else if String.eqb value "inet" then
          (set_cfg st {| mode := SOCKET_MODE_INET; address := address c;
                         enable_tls := enable_tls c;
                         free_input := free_input c; messages := messages c;
                         message_count := message_count c |}, true)
        else (st, true)
      else if String.eqb key "address" then
        let p := strdup alloc_ok (allocs st) value in
        ({| cfg := {| mode := mode c; address := p;
                      enable_tls := enable_tls c; free_input := free_input c;
                      messages := messages c;
                      message_count := message_count c |};
            message_capacity := message_capacity st;
            allocs := S (allocs st);
            calls := calls st ++ [Strdup p] |}, true)
      else if String.eqb key "tls" then
        (set_cfg st {| mode := mode c; address := address c;
                       enable_tls := if Utils.atoi value =? 0 then 0 else 1;
                       free_input := free_input c; messages := messages c;
                       message_count := message_count c |}, true)
      else if String.eqb key "free_input" then
        (set_cfg st {| mode := mode c; address := address c;
                       enable_tls := enable_tls c;
                       free_input := if Utils.atoi value =? 0 then 0 else 1;
                       messages := messages c;
                       message_count := message_count c |}, true)
      else if String.eqb key "message" then
        if message_capacity st <=? message_count c then
          let new_capacity :=
            if message_capacity st =? 0 then 8
            else wrap64 (message_capacity st * 2) in
          let bytes := wrap64 (new_capacity * sizeof_char_ptr) in
          if alloc_ok (allocs st) then
            (store_message
               {| cfg := c; message_capacity := new_capacity;
                  allocs := S (allocs st);
                  calls := calls st ++ [Realloc bytes true] |} value, true)
          else
            ({| cfg := c; message_capacity := message_capacity st;
                allocs := S (allocs st);
                calls := calls st ++ [Realloc bytes false]
                         ++ map Free (take (Z.to_nat (message_count c))
                                        (messages c))
                         ++ [FreeArray; Free (address c); Fclose] |}, false)
        else (store_message st value, true)
      else (st, true)
  end.

(** The loop over the buffers read. *)
Fixpoint parse_lines (lines : list string) (st : State) : State * bool :=
  match lines with
  | [] => (st, true)
  | buf :: rest =>
      let (st', goes_on) := config_line st buf in
      if goes_on then parse_lines rest st' else (st', false)
  end.

(** [parse_config] on a file of content [f]: the value returned, the
    output parameters ([out] before the call) and the calls made. *)
Definition parse_config (fopen_ok : bool) (f : string) (out : Config)
    : Z * Config * list Call :=
  if negb fopen_ok then (-1, out, [])
  else
    let start :=
      {| cfg := {| mode := SOCKET_MODE_INET; address := None;
                   enable_tls := 0; free_input := 0; messages := [];
                   message_count := 0 |};
         message_capacity := 0; allocs := 0%nat; calls := [] |} in
    let (st, goes_on) :=
      parse_lines (read_lines (String.length f) MAX_LINE_LEN f) start in
    let c := cfg st in
    if goes_on then
      match address c with
      | Some _ => (0, c, calls st ++ [Fclose])
      | None =>
          let p := strdup alloc_ok (allocs st) (default_address (mode c)) in
          (0, {| mode := mode c; address := p; enable_tls := enable_tls c;
                 free_input := free_input c; messages := messages c;
                 message_count := message_count c |},
           calls st ++ [Fclose; Strdup p])
      end
    else (-1, c, calls st).

End ParseConfig.
End ClientMain.
(** ** Vocabulary for [parse_config] *)

(** The text of a line: the characters of the buffer before its first
    newline or NUL. *)
Fixpoint text_of (buf : string) : string :=
  match buf with
  | String c rest =>
      if Ascii.eqb c ConfigFile.newline || Ascii.eqb c ConfigFile.nul
      then EmptyString
      else String c (text_of rest)
  | EmptyString => EmptyString
  end.

(** [s] without the prefix [p], when it starts with it. *)
Fixpoint strip_prefix (p s : string) : option string :=
  match p, s with
  | EmptyString, _ => Some s
  | String a p', String b s' =>
      if Ascii.eqb a b then strip_prefix p' s' else None
  | String _ _, EmptyString => None
  end.

(** The value a line gives to [key]: what follows [key=] when the text of
    the line starts with it; and the values the lines of a file give. *)
Definition setting (key buf : string) : option string :=
  strip_prefix (String.append key "=") (text_of buf).

Definition settings (key : string) (lines : list string) : list string :=
  omap (setting key) lines.

Definition mode_named (value : string) : option SocketMode :=
  if String.eqb value "unix" then Some SOCKET_MODE_UNIX
  else if String.eqb value "inet" then Some SOCKET_MODE_INET
  else None.

Definition flag_of (value : option string) : Z :=
  match value with
  | Some v => if Utils.atoi v =? 0 then 0 else 1
  | None => 0
  end.

(** The number a value starts with fits [int]: C leaves [atoi] undefined
    outside. *)
Definition INT_MIN : Z := - 2 ^ 31.

Definition fits_int (value : string) : bool :=
  (INT_MIN <=? Utils.atoi value) && (Utils.atoi value <=? INT_MAX).

(** The string a pointer points to. *)
Definition content (p : ConfigFile.Ptr) : option string := option_map snd p.

(** The characters of the buffers, in order. *)
Definition joined (lines : list string) : string :=
  fold_right String.append EmptyString lines.

(** Taking a line apart at its first [=]. *)
Fixpoint split_eq (line : string) : option (string * string) :=
  match line with
  | EmptyString => None
  | String d rest =>
      if Ascii.eqb d "="%char then Some (EmptyString, rest)
      else option_map (fun kv => (String d (fst kv), snd kv)) (split_eq rest)
  end.

(** A key that [key_value] can give: it has no [=] and does not start a
    comment. *)
Definition good_key (key : string) : Prop :=
  split_eq key = None /\
  match key with
  | String c _ => Ascii.eqb c "#"%char = false
  | EmptyString => True
  end.

(** ** Vocabulary for the client's [parse_config] *)

(** The blocks [strdup] returned, the blocks freed, the sizes of the
    successful [realloc]s, and the blocks the output parameters point to. *)
Definition strdups (calls : list ClientMain.Call) : list (nat * string) :=
  omap (fun c => match c with ClientMain.Strdup p => p | _ => None end) calls.

Definition frees (calls : list ClientMain.Call) : list (nat * string) :=
  omap (fun c => match c with ClientMain.Free p => p | _ => None end) calls.

Definition grown (calls : list ClientMain.Call) : list Z :=
  omap (fun c => match c with
                 | ClientMain.Realloc bytes true => Some bytes
                 | _ => None
                 end) calls.

Definition handed_out (c : ClientMain.Config) : list (nat * string) :=
  omap id (ClientMain.address c :: ClientMain.messages c).

(** Calls that release nothing and in which no [realloc] fails. *)
Definition acquires (c : ClientMain.Call) : bool :=
  match c with
  | ClientMain.Realloc _ ok => ok
  | ClientMain.Strdup _ => true
  | _ => false
  end.

(** [p] is what a [strdup] of [v] returned: a block holding [v], or NULL
    after an allocation that failed. *)
Definition copy_of (alloc_ok : nat -> bool) (p : ConfigFile.Ptr)
    (v : string) : Prop :=
  content p = Some v \/ (p = None /\ exists n, alloc_ok n = false).

(** The capacity after [k] successful [realloc]s. *)
Definition capacity_after (k : nat) : Z :=
  match k with
  | O => 0
  | S k' => 8 * 2 ^ Z.of_nat k'
  end.

(** The settings of the lines read so far are in the state. *)
Definition settings_read (alloc_ok : nat -> bool) (lines : list string)
    (st : ClientMain.State) : Prop :=
  let c := ClientMain.cfg st in
  ClientMain.mode c
  = default SOCKET_MODE_INET (last (omap mode_named (settings "mode" lines))) /\
  ClientMain.enable_tls c = flag_of (last (settings "tls" lines)) /\
  ClientMain.free_input c = flag_of (last (settings "free_input" lines)) /\
  Forall2 (copy_of alloc_ok) (ClientMain.messages c) (settings "message" lines) /\
  match last (settings "address" lines) with
  | Some v => copy_of alloc_ok (ClientMain.address c) v
  | None => ClientMain.address c = None
  end.

(** The books of the allocations while the loop goes on: nothing was
    released, every block [strdup] returned is held by the output parameters
    or was lost when a later [address] line replaced it, and the array has
    room for the entries written. *)
Definition memory_kept (lines : list string) (st : ClientMain.State) : Prop :=
  let c := ClientMain.cfg st in
  let n := Z.of_nat (length (ClientMain.messages c)) in
  ClientMain.message_count c = wrap64 n /\
  (length (ClientMain.messages c) <= length lines)%nat /\
  forallb acquires (ClientMain.calls st) = true /\
  (exists lost, strdups (ClientMain.calls st) ≡ₚ lost ++ handed_out c /\
                ((length (settings "address" lines) <= 1)%nat -> lost = [])) /\
  NoDup (map fst (strdups (ClientMain.calls st))) /\
  Forall (fun b => (fst b < ClientMain.allocs st)%nat)
    (strdups (ClientMain.calls st)) /\
  (Z.of_nat (length lines) < 2 ^ 60 ->
   let k := length (grown (ClientMain.calls st)) in
   grown (ClientMain.calls st)
   = map (fun i => 64 * 2 ^ Z.of_nat i) (seq 0 k) /\
   ClientMain.message_capacity st = capacity_after k /\
   n <= capacity_after k).

(** A file of the given lines, each ended by a newline. *)
Definition file_of (lines : list string) : string :=
  joined (map (fun l => String.append l (String ConfigFile.newline EmptyString))
            lines).

Definition sample_config : string :=
  file_of ["# client"; "mode=unix"; "address=/tmp/a.sock"; "tls=0";
           "message=hello"; "message=a=b"; "free_input=0"]%string.

Definition no_client_config : ClientMain.Config :=
  {| ClientMain.mode := SOCKET_MODE_UNIX; ClientMain.address := None;
     ClientMain.enable_tls := 0; ClientMain.free_input := 0;
     ClientMain.messages := []; ClientMain.message_count := 0 |}.

(** A comment line of 264 characters that ends in [mode=unix], the first
    255 of which fill the buffer of the server. *)
Definition long_comment : string :=
  String.append (String "#"%char (string_of_list_ascii (repeat "x"%char 254)))
    "mode=unix".

Definition sample_server_config : string :=
  file_of ["# server"; "mode=unix"; "tls=1"; "address=/tmp/s.sock"]%string.

Definition no_server_config : ServerMain.Config :=
  {| ServerMain.mode := SOCKET_MODE_INET; ServerMain.address := None;
     ServerMain.enable_tls := 0 |}.

(** A configuration with two [address] lines, and allocators that fail at
    the second and at the third allocation. *)
Definition two_addresses : string :=
  file_of ["address=a:1"; "address=b:2"; "message=hello"]%string.

Definition fails_at (k n : nat) : bool := negb (Nat.eqb n k).

(* ================================================================== *)
(** * Facts about the integer conversions *)
(* ================================================================== *)

Lemma wrap64_small (x : Z) : 0 <= x < 2 ^ 64 -> wrap64 x = x.
Proof. intros Hx. unfold wrap64. apply Z.mod_small. exact Hx. Qed.

Lemma to_ssize_t_small (x : Z) : 0 <= x <= PTRDIFF_MAX -> to_ssize_t x = x.
Proof.
  unfold to_ssize_t, to_signed, PTRDIFF_MAX. intros Hx.
  rewrite Z.mod_small by lia.
  destruct (Z.ltb_spec x (2 ^ (64 - 1))) as [_ | Hge]; [reflexivity | ].
  change (2 ^ (64 - 1)) with (2 ^ 63) in Hge. lia.
Qed.

(* ================================================================== *)
(** * Byte order: reversing the bytes twice *)
(* ================================================================== *)

Lemma length_to_le (n : nat) (x : Z) : length (to_le n x) = n.
Proof. revert x. induction n as [| n IH]; intros x; simpl; [ | rewrite IH]; reflexivity. Qed.

Lemma to_le_bytes (n : nat) (x : Z) : Forall is_byte (to_le n x).
Proof.
  revert x. induction n as [| n IH]; intros x; simpl; constructor.
  - unfold is_byte. apply Z.mod_pos_bound. lia.
  - apply IH.
Qed.

Lemma of_le_to_le (n : nat) (x : Z) :
  0 <= x < 256 ^ Z.of_nat n -> of_le (to_le n x) = x.
Proof.
  revert x. induction n as [| n IH]; intros x Hx.
  - simpl in *. lia.
  - cbn [to_le of_le]. rewrite IH.
    + pose proof (Z.div_mod x 256 ltac:(lia)). lia.
    + rewrite Nat2Z.inj_succ, Z.pow_succ_r in Hx by lia.
      split; [apply Z.div_pos; lia | apply Z.div_lt_upper_bound; lia].
Qed.

Lemma to_le_of_le (bs : list Z) :
  Forall is_byte bs -> to_le (length bs) (of_le bs) = bs.
Proof.
  induction 1 as [| b bs Hb _ IH]; [reflexivity | ].
  cbn [length to_le of_le]. unfold is_byte in Hb. f_equal.
  - rewrite (Z.mul_comm 256), Z.mod_add by lia. apply Z.mod_small, Hb.
  - rewrite (Z.mul_comm 256), Z.div_add by lia.
    rewrite (Z.div_small b 256) by exact Hb. exact IH.
Qed.

Lemma of_le_range (bs : list Z) :
  Forall is_byte bs -> 0 <= of_le bs < 256 ^ Z.of_nat (length bs).
Proof.
  induction 1 as [| b bs Hb _ IH]; [simpl; lia | ].
  cbn [length of_le]. unfold is_byte in Hb.
  rewrite Nat2Z.inj_succ, Z.pow_succ_r by lia. lia.
Qed.

Lemma Forall_is_byte_rev (bs : list Z) : Forall is_byte bs -> Forall is_byte (rev bs).
Proof. apply List.Forall_rev. Qed.

Lemma bswap_range (n : nat) (x : Z) : 0 <= bswap n x < 256 ^ Z.of_nat n.
Proof.
  unfold bswap.
  pose proof (of_le_range (rev (to_le n x)) (Forall_is_byte_rev _ (to_le_bytes n x))) as Hr.
  rewrite length_rev, length_to_le in Hr. exact Hr.
Qed.

Lemma bswap_involutive (n : nat) (x : Z) :
  0 <= x < 256 ^ Z.of_nat n -> bswap n (bswap n x) = x.
Proof.
  intros Hx. unfold bswap.
  assert (Hlen : length (rev (to_le n x)) = n) by (rewrite length_rev; apply length_to_le).
  rewrite <- Hlen at 1.
  rewrite to_le_of_le by (apply Forall_is_byte_rev, to_le_bytes).
  rewrite rev_involutive. apply of_le_to_le, Hx.
Qed.

Lemma hton_involutive `{Host} (n : nat) (x : Z) :
  0 <= x < 256 ^ Z.of_nat n -> hton n (hton n x) = x.
Proof.
  intros Hx. unfold hton. destruct host_endianness; [ | reflexivity].
  apply bswap_involutive, Hx.
Qed.

Lemma hton_nonneg `{Host} (n : nat) (x : Z) : 0 <= x -> 0 <= hton n x.
Proof.
  intros Hx. unfold hton. destruct host_endianness; [ | exact Hx].
  apply bswap_range.
Qed.

(** On the wire the bytes of a converted field are big-endian on every
    host: most significant byte first. *)
Lemma mem_repr_hton_big_endian `{Host} (n : nat) (x : Z) :
  0 <= x < 256 ^ Z.of_nat n -> mem_repr n (hton n x) = rev (to_le n x).
Proof.
  intros Hx. unfold mem_repr, hton. destruct host_endianness; [ | reflexivity].
  unfold bswap.
  assert (Hlen : length (rev (to_le n x)) = n) by (rewrite length_rev; apply length_to_le).
  rewrite <- Hlen at 1.
  apply to_le_of_le, Forall_is_byte_rev, to_le_bytes.
Qed.

(* ================================================================== *)
(** * protocol.h: header round trip *)
(* ================================================================== *)

(** C1.  For every header whose three fields are in the range of their C
    types, [message_header_deserialize] applied to the result of
    [message_header_serialize] gives the header back, on a little-endian
    and on a big-endian host alike. *)
Theorem header_roundtrip `{Host} (h : MessageHeader) :
  header_valid h ->
  message_header_deserialize (message_header_serialize h) = h.
Proof.
  intros (Ht & Hl & Hf). destruct h as [t l f].
  unfold is_uint32, is_uint64, UINT32_MAX, UINT64_MAX in *. cbn in *.
  unfold message_header_deserialize, message_header_serialize. cbn.
  unfold ntohl, htonl, be64toh, htobe64.
  assert (E4 : 256 ^ Z.of_nat 4 = 2 ^ 32) by reflexivity.
  assert (E8 : 256 ^ Z.of_nat 8 = 2 ^ 64) by reflexivity.
  rewrite !hton_involutive; [reflexivity | | | ]; rewrite ?E4, ?E8; lia.
Qed.

Lemma header_roundtrip_witness :
  header_valid (mkHeader MSG_TYPE_TEXT 5 MSG_FLAGS_FINAL) /\
  message_header_deserialize
    (message_header_serialize (mkHeader MSG_TYPE_TEXT 5 MSG_FLAGS_FINAL))
  = mkHeader MSG_TYPE_TEXT 5 MSG_FLAGS_FINAL.
Proof.
  assert (Hv : header_valid (mkHeader MSG_TYPE_TEXT 5 MSG_FLAGS_FINAL)).
  { unfold header_valid, is_uint32, is_uint64, UINT32_MAX, UINT64_MAX,
      MSG_TYPE_TEXT, MSG_FLAGS_FINAL; cbn. lia. }
  split; [exact Hv | ].
  apply (@header_roundtrip little_endian_host _ Hv).
Defined.

(** The serialized form of a text header of length 5 on a little-endian
    host, and its 16 bytes in memory. *)
Example serialize_text_5 :
  message_header_serialize (mkHeader MSG_TYPE_TEXT 5 MSG_FLAGS_NONE)
  = mkHeader 16777216 360287970189639680 0
  /\ header_bytes (message_header_serialize (mkHeader MSG_TYPE_TEXT 5 MSG_FLAGS_NONE))
     = [0; 0; 0; 1;  0; 0; 0; 0; 0; 0; 0; 5;  0; 0; 0; 0].
Proof. split; vm_compute; reflexivity. Qed.

(* ================================================================== *)
(** * protocol.c: the constructors *)
(* ================================================================== *)

Lemma message_create_ack_shape :
  h_type (header message_create_ack) = MSG_TYPE_ACK /\
  h_flags (header message_create_ack) = MSG_FLAGS_NONE /\
  h_length (header message_create_ack) = 0 /\
  payload message_create_ack = None /\
  payload_size message_create_ack = 0.
Proof. repeat split. Qed.

(** C6, as the code has it.  [message_create_ack] always has type Ack, flags
    None, a null payload of size 0 and [header.length = payload_size].  A
    text or error message whose payload allocation succeeded, or of length
    0, satisfies [header.length = payload_size]; when [malloc] fails the
    constructor returns a message with a null payload and
    [payload_size = 0]. *)
Theorem constructors_length_invariant (alloc : malloc_result)
    (data : list Byte.byte) (len : Z) :
  0 <= len ->
  let text := message_create_text alloc data len in
  let error := message_create_error alloc data len in
  (h_type (header message_create_ack) = MSG_TYPE_ACK /\
   h_flags (header message_create_ack) = MSG_FLAGS_NONE /\
   payload message_create_ack = None /\
   payload_size message_create_ack = 0 /\
   length_matches message_create_ack) /\
  (h_type (header text) = MSG_TYPE_TEXT /\ h_flags (header text) = MSG_FLAGS_NONE /\
   h_type (header error) = MSG_TYPE_ERROR /\ h_flags (header error) = MSG_FLAGS_NONE) /\
  (alloc <> None \/ len = 0 -> length_matches text /\ length_matches error) /\
  (alloc = None ->
   payload text = None /\ payload_size text = 0 /\
   payload error = None /\ payload_size error = 0).
Proof.
  intros Hlen text error. subst text error.
  unfold message_create_text, message_create_error, length_matches.
  split; [repeat split | ].
  destruct (Z.ltb_spec 0 len) as [Hpos | Hzero].
  - destruct alloc as [block | ]; cbn.
    + repeat split; intros; congruence.
    + repeat split; intros; try congruence; intuition lia.
  - assert (len = 0) by lia. subst len.
    destruct alloc; cbn; repeat split; intros; congruence.
Qed.

Lemma constructors_length_invariant_witness :
  length_matches (message_create_text (Some hello) hello 5) /\
  length_matches (message_create_error (Some hello) hello 5).
Proof.
  apply (constructors_length_invariant (Some hello) hello 5); [lia | ].
  left. discriminate.
Defined.

(** C6 as stated fails when [malloc] returns [NULL]: the text message for
    ["hello"] then has [header.length = 5] and [payload_size = 0]. *)
Lemma constructors_length_invariant_counterexample :
  let m := message_create_text None hello 5 in
  h_length (header m) = 5 /\ payload_size m = 0 /\ ~ length_matches m.
Proof. cbv. repeat split. discriminate. Qed.

(* ================================================================== *)
(** * net_common.c: receive_message *)
(* ================================================================== *)

Lemma transport_read_result (fd ssl is_ssl len returned : Z) :
  result (transport_read fd ssl is_ssl len returned) = returned.
Proof. unfold transport_read. destruct (use_ssl ssl is_ssl); reflexivity. Qed.

Lemma transport_write_result (fd ssl is_ssl : Z) (buf : Buffer) (len returned : Z) :
  result (transport_write fd ssl is_ssl buf len returned) = returned.
Proof. unfold transport_write. destruct (use_ssl ssl is_ssl); reflexivity. Qed.

(** The return value and output message of [receive_message], without the
    trace. *)
Lemma receive_message_result `{Host} (env : RecvEnv) (fd ssl is_ssl : Z)
    (msg0 : Message) :
  result (receive_message env fd ssl is_ssl msg0) =
  let hdr := message_header_deserialize (recv_header_raw env) in
  let empty := {| header := hdr; payload := None; payload_size := 0 |} in
  if negb (recv_header_ret env =? sizeof_MessageHeader) then (-1, msg0)
  else if 0 <? h_length hdr then
    match recv_malloc env with
    | None => (-1, empty)
    | Some block =>
        if negb (recv_payload_ret env =? to_ssize_t (h_length hdr))
        then (-1, empty)
        else (0, {| header := hdr;
                    payload := Some (read_into block (recv_payload_data env)
                                       (recv_payload_ret env));
                    payload_size := h_length hdr |})
    end
  else (0, empty).
Proof.
  unfold receive_message, transport_read. io_cases; reflexivity.
Qed.

Lemma memcpy_whole (block data : list Byte.byte) (n : Z) :
  Z.of_nat (length data) = n -> Z.of_nat (length block) = n ->
  memcpy block data n = data.
Proof.
  intros Hd Hb. unfold memcpy.
  rewrite take_ge by lia. rewrite drop_ge by lia. apply app_nil_r.
Qed.

(** C2.  In an environment that behaves like the C library
    ([recv_env_ok]), the fields of a header that arrived being in the range
    of their types: (1) when [receive_message] returns 0 the whole header
    was read, the output message carries it, its [payload_size] and the size
    of its payload buffer both equal the declared length, and for a
    non-empty payload all declared bytes were read and are the buffer's
    content; (2) when the read of the header does not yield its 16 bytes
    (short read, peer close, error) the call returns -1 and the output
    message is left as it was; (3) when the header arrived and declares
    [L > 0] bytes but the allocation fails or the payload read yields
    anything but [L] bytes (short read, peer close, error), the call returns
    -1 and the output message has a null payload and [payload_size = 0];
    (4) every failure returns -1 and leaves the output message either
    untouched or without payload. *)
Theorem receive_message_exact_length `{Host} (env : RecvEnv)
    (fd ssl is_ssl : Z) (msg0 : Message) :
  (recv_header_ret env = sizeof_MessageHeader ->
   header_valid (recv_header_raw env)) ->
  recv_env_ok env ->
  let out := result (receive_message env fd ssl is_ssl msg0) in
  let declared := h_length (message_header_deserialize (recv_header_raw env)) in
  (fst out = 0 ->
     recv_header_ret env = sizeof_MessageHeader /\
     header (snd out) = message_header_deserialize (recv_header_raw env) /\
     payload_size (snd out) = declared /\
     buffer_length (payload (snd out)) = declared /\
     (0 < declared ->
        recv_payload_ret env = declared /\
        payload (snd out) = Some (recv_payload_data env))) /\
  (recv_header_ret env <> sizeof_MessageHeader ->
     fst out = -1 /\ snd out = msg0) /\
  (recv_header_ret env = sizeof_MessageHeader -> 0 < declared ->
     recv_malloc env = None \/ recv_payload_ret env <> declared ->
     fst out = -1 /\ payload (snd out) = None /\ payload_size (snd out) = 0) /\
  (fst out <> 0 ->
     fst out = -1 /\
     (snd out = msg0 \/
      (payload (snd out) = None /\ payload_size (snd out) = 0))).
Proof.
  intros Hvalid (Hmalloc & Hdata) out declared.
  subst out. rewrite receive_message_result. cbv zeta.
  destruct (Z.eqb_spec (recv_header_ret env) sizeof_MessageHeader) as [H16 | H16];
    cbn [negb].
  2: { cbn. repeat split; intros; try lia; try contradiction; auto. }
  specialize (Hvalid H16).
  assert (Hrange : 0 <= declared).
  { subst declared. destruct Hvalid as (_ & Hl & _).
    unfold message_header_deserialize. cbn [h_length].
    apply hton_nonneg, Hl. }
  set (hdr := message_header_deserialize (recv_header_raw env)) in *.
  clearbody hdr. subst declared. set (declared := h_length hdr) in *.
  clearbody declared.
  destruct (Z.ltb_spec 0 declared) as [Hpos | Hzero].
  2: { cbn. repeat split; intros; try lia; try contradiction. }
  destruct (recv_malloc env) as [block | ] eqn:Hblock.
  2: { cbn. repeat split; intros; try lia; try contradiction; auto. }
  destruct (Hmalloc block eq_refl) as (Hsize & Hmax).
  rewrite (to_ssize_t_small declared) by lia.
  destruct (Z.eqb_spec (recv_payload_ret env) declared) as [Hall | Hshort];
    cbn [negb fst snd header payload payload_size buffer_length].
  - assert (Hcopy : read_into block (recv_payload_data env) (recv_payload_ret env)
                    = recv_payload_data env).
    { unfold read_into. rewrite Hall.
      destruct (Z.ltb_spec 0 declared); [ | lia].
      apply memcpy_whole; [lia | exact Hsize]. }
    rewrite Hcopy.
    repeat split; intros; try lia; try congruence; try contradiction.
    all: match goal with
         | Hc : _ \/ _ |- _ => destruct Hc as [? | ?]; [discriminate | contradiction]
         end.
  - repeat split; intros; try lia; try contradiction; auto.
Qed.

Lemma recv_hello_ok : header_valid (recv_header_raw recv_hello) /\ recv_env_ok recv_hello.
Proof.
  split.
  - vm_compute. repeat split; discriminate.
  - split.
    + intros block Hblock. injection Hblock as <-. vm_compute.
      split; [reflexivity | discriminate].
    + reflexivity.
Qed.

Lemma receive_message_exact_length_witness :
  let out := result (receive_message recv_hello 7 NULL 0 no_message) in
  fst out = 0 /\
  header (snd out) = hello_header /\
  payload_size (snd out) = 5 /\
  buffer_length (payload (snd out)) = 5 /\
  payload (snd out) = Some hello.
Proof.
  destruct recv_hello_ok as (Hvalid & Hok).
  destruct (receive_message_exact_length recv_hello 7 NULL 0 no_message
              (fun _ => Hvalid) Hok)
    as (Hsuccess & _).
  assert (H0 : fst (result (receive_message recv_hello 7 NULL 0 no_message)) = 0)
    by reflexivity.
  destruct (Hsuccess H0) as (_ & Hh & Hs & Hb & Hp).
  cbv zeta. split; [exact H0 | ].
  split; [rewrite Hh; vm_compute; reflexivity | ].
  split; [rewrite Hs; vm_compute; reflexivity | ].
  split; [rewrite Hb; vm_compute; reflexivity | ].
  apply Hp. vm_compute. reflexivity.
Defined.

(** The frame cut after two payload bytes: failure, no payload. *)
Example receive_message_cut :
  result (receive_message recv_hello_cut 7 NULL 0 no_message)
  = (-1, {| header := hello_header; payload := None; payload_size := 0 |}).
Proof. vm_compute. reflexivity. Qed.

(* ================================================================== *)
(** * Running computations in [IO] *)
(* ================================================================== *)

Lemma bind_fst {A B : Type} (m : IO A) (f : A -> IO B) :
  fst (bind m f) = fst (f (fst m)).
Proof. unfold bind. destruct m as [a t1]. cbn. destruct (f a). reflexivity. Qed.

Lemma bind_snd {A B : Type} (m : IO A) (f : A -> IO B) :
  snd (bind m f) = snd m ++ snd (f (fst m)).
Proof. unfold bind. destruct m as [a t1]. cbn. destruct (f a). reflexivity. Qed.

Lemma schedule_of_app (t1 t2 : list Event) :
  schedule_of (t1 ++ t2) = schedule_of t1 ++ schedule_of t2.
Proof. apply omap_app. Qed.

(** Run a computation in [IO] symbolically: split binds, compute the
    projections, and branch where it branches. *)
Ltac io_run :=
  unfold result, trace, logger_info, logger_warn, logger_error in *;
  repeat first
    [ rewrite bind_fst
    | rewrite bind_snd
    | progress cbn [fst snd ret emit app negb andb orb
                    Client.fd Client.ssl Client.connected Client.mode
                    Client.enable_tls Client.timeout_sec Client.address
                    Client.set_fd Client.set_ssl Client.set_connected
                    Client.set_timeout_sec]
    | destruct_innermost ].

(* ================================================================== *)
(** * client.c: client_connect *)
(* ================================================================== *)

Section ClientConnect.
Import Client.

Lemma retry_or_fail_failed next k text c :
  failed_attempt next k c [] (retry_or_fail next k text c).
Proof.
  exists c. unfold retry_or_fail, backoff_of.
  destruct (k <? max_retries - 1); io_run; repeat split.
Qed.

Lemma failed_attempt_same next k c c0 pre X :
  mode c = mode c0 -> enable_tls c = enable_tls c0 ->
  connected c = connected c0 ->
  failed_attempt next k c pre X -> failed_attempt next k c0 pre X.
Proof.
  intros Hm Ht Hc (c' & ? & ? & ? & ? & ?).
  exists c'. repeat split; congruence.
Qed.

Lemma failed_attempt_bind {A : Type} next k c p1 p2 (m : IO A)
    (f : A -> IO (Z * Client)) :
  schedule_of (snd m) = p1 ->
  failed_attempt next k c p2 (f (fst m)) ->
  failed_attempt next k c (p1 ++ p2) (bind m f).
Proof.
  intros Hm (c' & ? & ? & ? & Hr & Hs).
  exists c'. repeat split; try assumption.
  - rewrite bind_fst. exact Hr.
  - rewrite bind_snd, schedule_of_app, Hm, Hs. apply app_assoc.
Qed.

Lemma set_socket_timeout_spec (rcv snd_ fd t : Z) :
  fst (set_socket_timeout rcv snd_ fd t)
  = (if (rcv <? 0) || (snd_ <? 0) then -1 else 0) /\
  schedule_of (snd (set_socket_timeout rcv snd_ fd t)) = [].
Proof. unfold set_socket_timeout. io_run; repeat split. Qed.

Lemma connect_tls_spec (e : AttemptEnv) (fd : Z) :
  fst (connect_tls e fd)
  = (if negb (truthy (SSL_new_ret e)) || (SSL_connect_ret e <=? 0)
     then NULL else SSL_new_ret e) /\
  schedule_of (snd (connect_tls e fd)) = [].
Proof. unfold connect_tls. io_run; repeat split. Qed.

Lemma connect_unix_socket_spec (e : AttemptEnv) :
  fst (connect_unix_socket e)
  = (if (socket_ret e <? 0) || (connect_ret e <? 0) then -1 else socket_ret e) /\
  schedule_of (snd (connect_unix_socket e)) = [Attempt].
Proof. unfold connect_unix_socket. io_run; repeat split. Qed.

Lemma connect_inet_socket_spec (e : AttemptEnv) :
  fst (connect_inet_socket e)
  = (if (socket_ret e <? 0) || (inet_aton_ret e =? 0) || (connect_ret e <? 0)
     then -1 else socket_ret e) /\
  schedule_of (snd (connect_inet_socket e)) = [].
Proof. unfold connect_inet_socket. io_run; repeat split. Qed.

Lemma after_socket_failed next e k c :
  (fd c <? 0) || (rcvtimeo_ret e <? 0) || (sndtimeo_ret e <? 0)
  || (truthy (enable_tls c)
      && (negb (truthy (SSL_new_ret e)) || (SSL_connect_ret e <=? 0))) = true ->
  failed_attempt next k c [] (after_socket next e k c).
Proof.
  intros Hfail. unfold after_socket.
  destruct (fd c <? 0) eqn:Hfd; [apply retry_or_fail_failed | ].
  destruct (set_socket_timeout_spec (rcvtimeo_ret e) (sndtimeo_ret e) (fd c)
              (timeout_sec c)) as (Hr & Hs).
  apply (failed_attempt_bind next k c [] []); [exact Hs | ].
  rewrite Hr. cbn [orb] in Hfail.
  destruct ((rcvtimeo_ret e <? 0) || (sndtimeo_ret e <? 0)) eqn:Htimeout.
  - change (-1 <? 0) with true. cbv iota.
    apply (failed_attempt_bind next k c [] []); [reflexivity | ].
    eapply failed_attempt_same; [ | | | apply retry_or_fail_failed]; reflexivity.
  - change (0 <? 0) with false. cbv iota. cbn [orb] in Hfail.
    destruct (truthy (enable_tls c)); [ | discriminate].
    cbn [andb] in Hfail.
    destruct (connect_tls_spec e (fd c)) as (Ht & Hts).
    apply (failed_attempt_bind next k c [] []); [exact Hts | ].
    rewrite Ht, Hfail. cbv zeta. change (negb (truthy NULL)) with true. cbv iota.
    apply (failed_attempt_bind next k c [] []); [reflexivity | ].
    eapply failed_attempt_same; [ | | | apply retry_or_fail_failed]; reflexivity.
Qed.

Lemma connect_loop_failed_iteration (env : Z -> AttemptEnv) (n : nat) (k : Z)
    (c : Client) :
  (k <? max_retries) = true ->
  attempt_fails (mode c) (enable_tls c) (env k) = true ->
  failed_attempt (connect_loop n env (k + 1)) k c [Attempt]
    (connect_loop (S n) env k c).
Proof.
  intros Hlt Hfail. cbn [connect_loop]. rewrite Hlt. cbv zeta.
  unfold attempt_fails in Hfail.
  destruct (mode c) eqn:Hmode.
  - destruct (connect_unix_socket_spec (env k)) as (Hr & Hs).
    apply (failed_attempt_bind _ k c [Attempt] []); [exact Hs | ].
    eapply failed_attempt_same; [ | | | apply after_socket_failed]; try reflexivity.
    cbn [fd set_fd enable_tls]. rewrite Hr.
    destruct ((socket_ret (env k) <? 0) || (connect_ret (env k) <? 0)) eqn:Hsock.
    + reflexivity.
    + apply orb_false_iff in Hsock as (Hs1 & _). rewrite Hs1. exact Hfail.
  - apply (failed_attempt_bind _ k c [Attempt] []); [reflexivity | ].
    unfold parse_address. destruct (strdup_ok (env k)).
    + destruct (connect_inet_socket_spec (env k)) as (Hr & Hs).
      apply (failed_attempt_bind _ k c [] []); [exact Hs | ].
      eapply failed_attempt_same; [ | | | apply after_socket_failed];
        try reflexivity.
      cbn [fd set_fd enable_tls]. rewrite Hr. cbn [negb orb] in Hfail.
      destruct ((socket_ret (env k) <? 0) || (inet_aton_ret (env k) =? 0)
                || (connect_ret (env k) <? 0)) eqn:Hsock.
      * reflexivity.
      * apply orb_false_iff in Hsock as (Hsock & _).
        apply orb_false_iff in Hsock as (Hs1 & _). rewrite Hs1. exact Hfail.
    + apply retry_or_fail_failed.
Qed.

Lemma connect_loop_all_fail (env : Z -> AttemptEnv) (n : nat) :
  forall (k : Z) (c : Client),
    0 <= k -> k + Z.of_nat n = max_retries ->
    (forall j, k <= j < max_retries ->
       attempt_fails (mode c) (enable_tls c) (env j) = true) ->
    fst (result (connect_loop n env k c)) = -1 /\
    connected (snd (result (connect_loop n env k c))) = connected c /\
    schedule_of (trace (connect_loop n env k c)) = retry_schedule n k.
Proof.
  unfold result, trace.
  induction n as [| n IH]; intros k c Hk Hsum Hfail.
  - repeat split.
  - assert (Hlt : (k <? max_retries) = true) by (apply Z.ltb_lt; lia).
    destruct (connect_loop_failed_iteration env n k c Hlt (Hfail k ltac:(lia)))
      as (c' & Hm & Ht & Hc & Hr & Hs).
    rewrite Hr, Hs.
    destruct (Z.ltb_spec k (max_retries - 1)) as [Hmore | Hlast].
    + destruct (IH (k + 1) c') as (IH1 & IH2 & IH3); [lia | lia | | ].
      { intros j Hj. rewrite Hm, Ht. apply Hfail. lia. }
      rewrite IH1, IH2, IH3. repeat split; [exact Hc | ].
      destruct n as [| n']; [lia | reflexivity].
    + assert (n = O) by lia. subst n. cbn. repeat split. exact Hc.
Qed.

(** [attempt_fails] is exact: an attempt on which it is false connects. *)
Lemma after_socket_connected next e k c :
  (fd c <? 0) || (rcvtimeo_ret e <? 0) || (sndtimeo_ret e <? 0)
  || (truthy (enable_tls c)
      && (negb (truthy (SSL_new_ret e)) || (SSL_connect_ret e <=? 0))) = false ->
  fst (fst (after_socket next e k c)) = 0 /\
  connected (snd (fst (after_socket next e k c))) = 1 /\
  schedule_of (snd (after_socket next e k c)) = [].
Proof.
  intros Hok.
  apply orb_false_iff in Hok as (Hok & Htls).
  apply orb_false_iff in Hok as (Hok & Hsnd).
  apply orb_false_iff in Hok as (Hfd & Hrcv).
  unfold after_socket, finish_connect. rewrite Hfd.
  destruct (set_socket_timeout_spec (rcvtimeo_ret e) (sndtimeo_ret e) (fd c)
              (timeout_sec c)) as (Hr & Hs).
  rewrite bind_fst, bind_snd, schedule_of_app, Hs, Hr, Hrcv, Hsnd.
  cbn [orb app]. change (0 <? 0) with false. cbv iota.
  destruct (truthy (enable_tls c)); cbn [andb] in Htls.
  - destruct (connect_tls_spec e (fd c)) as (Ht & Hts).
    rewrite bind_fst, bind_snd, schedule_of_app, Hts, Ht, Htls. cbv zeta.
    apply orb_false_iff in Htls as (Hnew & _). rewrite Hnew.
    repeat split.
  - repeat split.
Qed.

Lemma connect_loop_successful_iteration (env : Z -> AttemptEnv) (n : nat)
    (k : Z) (c : Client) :
  (k <? max_retries) = true ->
  attempt_fails (mode c) (enable_tls c) (env k) = false ->
  fst (fst (connect_loop (S n) env k c)) = 0 /\
  connected (snd (fst (connect_loop (S n) env k c))) = 1 /\
  schedule_of (snd (connect_loop (S n) env k c)) = [Attempt].
Proof.
  intros Hlt Hok. cbn [connect_loop]. rewrite Hlt. cbv zeta.
  unfold attempt_fails in Hok.
  destruct (mode c) eqn:Hmode.
  - destruct (connect_unix_socket_spec (env k)) as (Hr & Hs).
    rewrite bind_fst, bind_snd, schedule_of_app, Hs, Hr.
    destruct ((socket_ret (env k) <? 0) || (connect_ret (env k) <? 0)) eqn:Hsock;
      [discriminate | ].
    apply orb_false_iff in Hsock as (Hs1 & _).
    destruct (after_socket_connected (connect_loop n env (k + 1)) (env k) k
                (set_fd c (socket_ret (env k)))) as (H1 & H2 & H3).
    { cbn [fd set_fd enable_tls]. rewrite Hs1. exact Hok. }
    rewrite H1, H2, H3. repeat split.
  - rewrite bind_fst, bind_snd, schedule_of_app. cbn [fst snd emit].
    unfold parse_address.
    destruct (strdup_ok (env k)); [ | discriminate]. cbn [negb orb] in Hok.
    destruct (connect_inet_socket_spec (env k)) as (Hr & Hs).
    rewrite bind_fst, bind_snd, schedule_of_app, Hs, Hr.
    destruct ((socket_ret (env k) <? 0) || (inet_aton_ret (env k) =? 0)
              || (connect_ret (env k) <? 0)) eqn:Hsock; [discriminate | ].
    apply orb_false_iff in Hsock as (Hsock & _).
    apply orb_false_iff in Hsock as (Hs1 & _).
    destruct (after_socket_connected (connect_loop n env (k + 1)) (env k) k
                (set_fd c (socket_ret (env k)))) as (H1 & H2 & H3).
    { cbn [fd set_fd enable_tls]. rewrite Hs1. exact Hok. }
    rewrite H1, H2, H3. repeat split.
Qed.

(** C5, as the code has it.  When every one of the five attempts fails,
    [client_connect] returns -1 and its attempts and sleeps are, in order:
    attempt, 1 s, attempt, 2 s, attempt, 4 s, attempt, 8 s, attempt.  So
    exactly five attempts are made, the delay slept before retry [k]
    (for [k = 1..4]) is [2^(k-1)] seconds, nothing is slept after the fifth
    attempt, and the [connected] flag is left as it was. *)
Theorem client_connect_all_attempts_fail (env : Z -> AttemptEnv) (c : Client)
    (timeout : Z) :
  (forall k, 0 <= k < max_retries ->
     attempt_fails (mode c) (enable_tls c) (env k) = true) ->
  fst (result (client_connect env c timeout)) = -1 /\
  connected (snd (result (client_connect env c timeout))) = connected c /\
  schedule_of (trace (client_connect env c timeout)) = all_fail_schedule /\
  attempts (trace (client_connect env c timeout)) = 5%nat /\
  delays (trace (client_connect env c timeout)) = [1; 2; 4; 8].
Proof.
  intros Hfail. unfold client_connect.
  destruct (connect_loop_all_fail env (Z.to_nat max_retries) 0
              (set_timeout_sec c timeout)) as (Hr & Hc & Hs);
    [lia | reflexivity | exact Hfail | ].
  unfold attempts, delays. rewrite Hr, Hc, Hs. repeat split.
Qed.

Lemma client_connect_all_attempts_fail_witness :
  fst (result (client_connect (fun _ => refused) fresh_client 5)) = -1 /\
  delays (trace (client_connect (fun _ => refused) fresh_client 5)) = [1; 2; 4; 8].
Proof.
  destruct (client_connect_all_attempts_fail (fun _ => refused) fresh_client 5)
    as (Hr & _ & _ & _ & Hd).
  - intros k _. reflexivity.
  - split; [exact Hr | exact Hd].
Defined.

(** C5 as stated lists a fifth delay of 16 seconds.  Against an address
    where nothing listens the sleeps are 1, 2, 4 and 8 seconds: four of
    them, 15 seconds in all, and no event of the trace sleeps 16 seconds. *)
Lemma client_connect_delays_counterexample :
  let tr := trace (client_connect (fun _ => refused) fresh_client 5) in
  fst (result (client_connect (fun _ => refused) fresh_client 5)) = -1 /\
  delays tr = [1; 2; 4; 8] /\
  delays tr <> [1; 2; 4; 8; 16] /\
  ~ In (Ev_sleep 16) tr.
Proof.
  vm_compute. repeat split; try discriminate.
  intros H. repeat (destruct H as [H | H]; [discriminate H | ]). exact H.
Qed.

(** An attempt that does not fail connects at once. *)
Example client_connect_first_attempt :
  let out := client_connect (fun _ => accepted) fresh_client 5 in
  fst (result out) = 0 /\ connected (snd (result out)) = 1 /\
  schedule_of (trace out) = [Attempt].
Proof. vm_compute. repeat split. Qed.

End ClientConnect.

(* ================================================================== *)
(** * client.c: client_disconnect *)
(* ================================================================== *)

Section ClientDisconnect.
Import Client.

Lemma retry_or_fail_keeps_tls tls next k text c :
  (forall c', keeps_tls tls c' -> keeps_tls tls (snd (result (next c')))) ->
  keeps_tls tls c ->
  keeps_tls tls (snd (result (retry_or_fail next k text c))).
Proof.
  intros Hnext Hc. unfold retry_or_fail.
  destruct (k <? max_retries - 1); io_run; [apply Hnext | ]; exact Hc.
Qed.

Lemma after_socket_keeps_tls tls next e k c :
  (forall c', keeps_tls tls c' -> keeps_tls tls (snd (result (next c')))) ->
  keeps_tls tls c ->
  keeps_tls tls (snd (result (after_socket next e k c))).
Proof.
  intros Hnext (Htls & Hssl & Hfd). unfold after_socket, finish_connect.
  destruct (Z.ltb_spec (fd c) 0) as [Hneg | Hopen].
  { apply retry_or_fail_keeps_tls; [exact Hnext | repeat split; assumption]. }
  io_run;
    try (apply (retry_or_fail_keeps_tls tls next k _ _ Hnext));
    repeat split; cbn [enable_tls ssl fd set_fd set_ssl set_connected];
    try assumption; try lia;
    intros Hoff; rewrite <- Htls in Hoff; congruence.
Qed.

Lemma connect_socket_ge (e : AttemptEnv) :
  -1 <= fst (connect_unix_socket e) /\ -1 <= fst (connect_inet_socket e).
Proof.
  destruct (connect_unix_socket_spec e) as (Hu & _).
  destruct (connect_inet_socket_spec e) as (Hi & _).
  rewrite Hu, Hi. split.
  - destruct (Z.ltb_spec (socket_ret e) 0); cbn [orb]; [lia | ].
    destruct (connect_ret e <? 0); lia.
  - destruct (Z.ltb_spec (socket_ret e) 0); cbn [orb]; [lia | ].
    destruct ((inet_aton_ret e =? 0) || (connect_ret e <? 0)); lia.
Qed.

Lemma connect_loop_keeps_tls tls env n :
  forall k c, keeps_tls tls c ->
    keeps_tls tls (snd (result (connect_loop n env k c))).
Proof.
  induction n as [| n IH]; intros k c Hc; [exact Hc | ].
  cbn [connect_loop]. cbv zeta.
  destruct (k <? max_retries); [ | exact Hc].
  assert (Hnext : forall c', keeps_tls tls c' ->
            keeps_tls tls (snd (result (connect_loop n env (k + 1) c'))))
    by (intros c'; apply IH).
  destruct (connect_socket_ge (env k)) as (Hunix & Hinet).
  destruct Hc as (Htls & Hssl & Hfd).
  destruct (mode c).
  - unfold result. rewrite bind_fst.
    apply (after_socket_keeps_tls tls _ _ _ _ Hnext).
    repeat split; assumption.
  - unfold result. rewrite bind_fst. cbn [fst emit].
    destruct (parse_address _ _).
    + rewrite bind_fst.
      apply (after_socket_keeps_tls tls _ _ _ _ Hnext).
      repeat split; assumption.
    + apply (retry_or_fail_keeps_tls tls _ _ _ _ Hnext).
      repeat split; assumption.
Qed.

Lemma client_disconnect_result (c : Client) :
  result (client_disconnect c) =
  if negb (truthy (connected c)) then c
  else
    let c1 := if truthy (enable_tls c) && truthy (ssl c) then set_ssl c NULL else c in
    let c2 := if 0 <=? fd c1 then set_fd c1 (-1) else c1 in
    set_connected c2 0.
Proof.
  unfold client_disconnect, close_tls_connection.
  destruct (negb (truthy (connected c))); [reflexivity | ].
  destruct (truthy (enable_tls c) && truthy (ssl c)), (0 <=? fd c) eqn:Hfd;
    io_run; cbv zeta; cbn [fd set_ssl]; rewrite ?Hfd; try reflexivity; congruence.
Qed.

Lemma client_disconnect_trace (c : Client) :
  trace (client_disconnect c) =
  if negb (truthy (connected c)) then [] else close_trace c.
Proof.
  unfold client_disconnect, close_tls_connection, close_trace.
  destruct (negb (truthy (connected c))); [reflexivity | ].
  destruct (truthy (enable_tls c) && truthy (ssl c)) eqn:Htls.
  - apply andb_true_iff in Htls as (_ & Hssl).
    destruct (0 <=? fd c) eqn:Hfd; io_run; cbn [fd set_ssl] in *;
      rewrite ?Hssl in *; try reflexivity; congruence.
  - destruct (0 <=? fd c) eqn:Hfd; io_run; try reflexivity; congruence.
Qed.

(** Every session satisfies the invariant. *)
Lemma session_wf (c : Client) : session c -> client_wf c.
Proof.
  unfold client_wf.
  induction 1 as [ctx m addr tls c Hinit | env timeout c _ IH | c _ IH
                 | r1 r2 timeout c _ IH].
  - unfold client_init in Hinit. cbn [negb] in Hinit.
    destruct (truthy tls); [destruct (negb (truthy ctx)) | ];
      inversion Hinit; subst; cbn; split; intros; (reflexivity || lia).
  - destruct IH as (IHssl & IHfd).
    destruct (connect_loop_keeps_tls (enable_tls c) env (Z.to_nat max_retries) 0
                (set_timeout_sec c timeout)) as (Htls & Hssl & Hfd).
    { repeat split; assumption. }
    unfold client_connect in *. split; [ | exact Hfd].
    intros Hoff. apply Hssl. rewrite <- Htls. exact Hoff.
  - destruct IH as (IHssl & IHfd). rewrite client_disconnect_result.
    destruct (negb (truthy (connected c))); [split; assumption | ].
    cbv zeta.
    destruct (truthy (enable_tls c) && truthy (ssl c)) eqn:Hclose;
      destruct (0 <=? fd _); cbn; split; try lia; intros Hoff;
      try (rewrite Hoff in Hclose; discriminate); auto.
  - unfold client_set_timeout. destruct (0 <=? fd (set_timeout_sec c timeout));
      io_run; exact IH.
Qed.

(** C8.  For every session built through the client interface:
    (1) [client_disconnect] on a session that is already disconnected
    ([connected == 0]) changes nothing and calls nothing; (2) on a session
    whose [connected] flag is set it performs the close of the transport
    (TLS shutdown and free when a TLS session is held, then [close] of the
    socket when one is open, which is the case whenever
    [client_is_connected] holds) and leaves [connected == 0], [fd == -1] and
    [ssl == NULL], the other fields as they were; (3) a second call after
    the first changes nothing and calls nothing. *)
Theorem client_disconnect_idempotent (c : Client) :
  session c ->
  (connected c = 0 -> client_disconnect c = (c, [])) /\
  (truthy (connected c) = true ->
     let c' := result (client_disconnect c) in
     connected c' = 0 /\ fd c' = -1 /\ ssl c' = NULL /\
     trace (client_disconnect c) = close_trace c /\
     (client_is_connected c = true ->
      In (Ev_close (fd c)) (trace (client_disconnect c))) /\
     mode c' = mode c /\ address c' = address c /\
     enable_tls c' = enable_tls c /\ timeout_sec c' = timeout_sec c /\
     ssl_ctx c' = ssl_ctx c) /\
  client_disconnect (result (client_disconnect c))
  = (result (client_disconnect c), []).
Proof.
  intros Hsession. destruct (session_wf c Hsession) as (Hwf & Hfd).
  assert (Hnoop : forall d, connected d = 0 -> client_disconnect d = (d, [])).
  { intros d Hd. unfold client_disconnect. rewrite Hd. reflexivity. }
  split; [apply Hnoop | ]. split.
  - intros Hflag. cbv zeta.
    rewrite client_disconnect_result, client_disconnect_trace.
    rewrite Hflag. cbn [negb]. cbv zeta.
    assert (Hssl : ssl (if truthy (enable_tls c) && truthy (ssl c)
                        then set_ssl c NULL else c) = NULL).
    { destruct (truthy (enable_tls c)) eqn:Htls; cbn [andb].
      - destruct (truthy (ssl c)) eqn:Hs; [reflexivity | ].
        unfold truthy in Hs. apply negb_false_iff, Z.eqb_eq in Hs. exact Hs.
      - apply Hwf. reflexivity. }
    assert (Hsame : forall (b : bool), fd (if b then set_ssl c NULL else c) = fd c)
      by (intros []; reflexivity).
    rewrite Hsame.
    split; [destruct (0 <=? fd c); reflexivity | ].
    split; [destruct (Z.leb_spec 0 (fd c)); cbn [fd set_fd set_connected];
              [reflexivity | rewrite Hsame; lia] | ].
    split; [destruct (0 <=? fd c); cbn [ssl set_fd set_connected]; exact Hssl | ].
    split; [reflexivity | ].
    split.
    { unfold client_is_connected, close_trace. rewrite Hflag. cbn [andb].
      intros Hopen. rewrite Hopen. apply in_or_app. right. left. reflexivity. }
    destruct (truthy (enable_tls c) && truthy (ssl c)), (0 <=? fd c);
      repeat split.
  - apply Hnoop. rewrite client_disconnect_result.
    destruct (negb (truthy (connected c))) eqn:Hflag; [ | reflexivity].
    unfold truthy in Hflag. rewrite negb_involutive in Hflag.
    apply Z.eqb_eq, Hflag.
Qed.

Lemma connected_client_session : session connected_client.
Proof.
  unfold connected_client. apply session_connect.
  apply (session_init NULL SOCKET_MODE_UNIX "/tmp/ipc.sock" 0). reflexivity.
Qed.

Lemma client_disconnect_idempotent_witness :
  let c' := result (client_disconnect connected_client) in
  connected c' = 0 /\ fd c' = -1 /\ ssl c' = NULL /\
  In (Ev_close 3) (trace (client_disconnect connected_client)) /\
  client_disconnect c' = (c', []).
Proof.
  destruct (client_disconnect_idempotent connected_client connected_client_session)
    as (_ & Hclose & Hagain).
  destruct (Hclose eq_refl) as (Hc & Hf & Hs & _ & Hev & _).
  cbv zeta. repeat split; try assumption. apply Hev. reflexivity.
Defined.

(** Outside the sessions the claim on [ssl] would fail: a record with TLS
    disabled that nevertheless holds an [SSL*] keeps it. *)
Example client_disconnect_outside_sessions :
  let c := mkClient SOCKET_MODE_UNIX None 0 3 77 1 5 NULL in
  ssl (result (client_disconnect c)) = 77.
Proof. reflexivity. Qed.

End ClientDisconnect.

(* ================================================================== *)
(** * server.c: remove_client *)
(* ================================================================== *)

Section ConnectionTable.
Import Server.
Context {D : Type}.

(** The shifting loop, slot by slot. *)
Lemma shift_loop_lookup (m : nat) :
  forall (i : nat) (cl : list ClientConnection) (j : nat),
    (i + m < length cl)%nat ->
    fold_left (fun (a : list ClientConnection) (i : nat) => <[i := a !!! S i]> a)
      (seq i m) cl !! j
    = if decide (i <= j < i + m)%nat then cl !! S j else cl !! j.
Proof.
  induction m as [| m IH]; intros i cl j Hlen.
  - cbn. case_decide; [lia | reflexivity].
  - cbn [seq fold_left]. rewrite IH by (rewrite length_insert; lia).
    repeat case_decide; try lia.
    + apply list_lookup_insert_ne. lia.
    + assert (j = i) by lia. subst j.
      rewrite list_lookup_insert_eq by lia.
      symmetry. apply list_lookup_lookup_total_lt. lia.
    + apply list_lookup_insert_ne. lia.
Qed.

Lemma length_shift_loop (m : nat) :
  forall (i : nat) (cl : list ClientConnection),
    length (fold_left (fun (a : list ClientConnection) (i : nat) =>
                         <[i := a !!! S i]> a) (seq i m) cl) = length cl.
Proof.
  induction m as [| m IH]; intros i cl; [reflexivity | ].
  cbn [seq fold_left]. rewrite IH. apply length_insert.
Qed.

(** After the loop the first [count - 1] slots are the old live entries
    without the one at [index]. *)
Lemma shift_clients_live (index count : Z) (cl : list ClientConnection) :
  0 <= index < count -> count <= Z.of_nat (length cl) ->
  Z.of_nat (length cl) <= SIZE_MAX ->
  take (Z.to_nat (count - 1)) (shift_clients index count cl)
  = delete (Z.to_nat index) (take (Z.to_nat count) cl).
Proof.
  intros Hindex Hcount Hsize. unfold shift_clients, SIZE_MAX in *.
  rewrite wrap64_small by lia.
  apply list_eq. intros j.
  destruct (decide (j < Z.to_nat (count - 1))%nat) as [Hj | Hj].
  - rewrite lookup_take_lt by exact Hj.
    rewrite shift_loop_lookup by lia.
    rewrite list_lookup_delete.
    repeat case_decide; try lia; rewrite lookup_take_lt by lia; reflexivity.
  - rewrite lookup_take_ge by lia.
    symmetry. apply lookup_ge_None_2.
    rewrite length_delete.
    + rewrite length_take. lia.
    + apply lookup_lt_is_Some. rewrite length_take. lia.
Qed.

Lemma remove_client_in_range (s : Server D) (index : Z) :
  0 <= index < client_count s ->
  remove_client s index
  = (set_table s (shift_clients index (client_count s) (clients s))
       (wrap64 (client_count s - 1)) (client_capacity s),
     removal_trace (clients s !!! Z.to_nat index)).
Proof.
  intros Hindex. unfold remove_client, removal_trace, close_tls_connection.
  destruct (Z.leb_spec (client_count s) index) as [Hle | _]; [lia | ].
  set (client := clients s !!! Z.to_nat index).
  destruct (truthy (is_ssl client) && truthy (ssl client)) eqn:Htls.
  - apply andb_true_iff in Htls as (_ & Hssl). rewrite Hssl. reflexivity.
  - reflexivity.
Qed.

(** C10.  On a well-formed connection table, for an index below
    [client_count], [remove_client] removes exactly the entry at that index:
    the live entries afterwards are the old ones without it, in the same
    order; [client_count] drops by one; the old live entries are a
    permutation of the removed entry and the survivors, so each survivor
    still appears exactly once (and no duplicate arises); nothing outside
    the table changes.  For an index at or beyond [client_count] the server
    is unchanged and nothing is called. *)
Theorem remove_client_exact (s : Server D) (index : Z) :
  table_ok s -> 0 <= index ->
  (index < client_count s ->
     let s' := result (remove_client s index) in
     let removed := clients s !!! Z.to_nat index in
     live s' = delete (Z.to_nat index) (live s) /\
     client_count s' = client_count s - 1 /\
     live s !! Z.to_nat index = Some removed /\
     live s ≡ₚ removed :: live s' /\
     (NoDup (live s) -> NoDup (live s')) /\
     table_ok s' /\ same_outside_table s s') /\
  (client_count s <= index -> remove_client s index = (s, [])).
Proof.
  intros ((Hlow & Hhigh) & Hcap & Hsize) Hindex. split.
  - intros Hin. cbv zeta. rewrite Hcap in Hhigh, Hsize.
    rewrite remove_client_in_range by lia. unfold result, live.
    cbn [fst set_table clients client_count].
    unfold SIZE_MAX in Hsize. rewrite wrap64_small by lia.
    assert (Hlive : take (Z.to_nat (client_count s - 1))
                      (shift_clients index (client_count s) (clients s))
                    = delete (Z.to_nat index)
                        (take (Z.to_nat (client_count s)) (clients s))).
    { apply shift_clients_live; unfold SIZE_MAX; lia. }
    assert (Hremoved : take (Z.to_nat (client_count s)) (clients s)
                         !! Z.to_nat index
                       = Some (clients s !!! Z.to_nat index)).
    { rewrite lookup_take_lt by lia.
      apply list_lookup_lookup_total_lt. lia. }
    rewrite Hlive. split; [reflexivity | ]. split; [reflexivity | ].
    split; [exact Hremoved | ].
    split; [apply delete_Permutation, Hremoved | ].
    split; [intros Hnd; apply (sublist_NoDup _ _ Hnd), sublist_delete | ].
    split.
    + unfold table_ok, shift_clients.
      cbn [set_table clients client_count client_capacity].
      rewrite length_shift_loop. unfold SIZE_MAX. lia.
    + unfold same_outside_table. cbn. repeat split.
  - intros Hout. unfold remove_client.
    destruct (Z.leb_spec (client_count s) index) as [_ | Hlt]; [reflexivity | lia].
Qed.

(** [add_client] appends: when the array has room, or [realloc] extends
    it by the slots that were asked for, the new entry becomes the last
    live one and the table stays well formed. *)
Lemma add_client_appends (alloc : realloc_clients_result) (s : Server D)
    (fd ssl : Z) :
  table_ok s -> client_capacity s < 2 ^ 63 ->
  (client_capacity s <= client_count s ->
   exists fresh, alloc = Some fresh /\
     Z.of_nat (length fresh) = doubled_capacity s - client_capacity s) ->
  let s' := result (add_client alloc s fd ssl) in
  live s' = live s ++ [new_entry fd ssl] /\
  client_count s' = client_count s + 1 /\
  table_ok s'.
Proof.
  intros ((Hlow & Hhigh) & Hcap & Hsize) Hbound Halloc. cbv zeta.
  unfold SIZE_MAX in Hsize. unfold add_client. fold (new_entry fd ssl).
  fold (doubled_capacity s).
  assert (Hstore : forall cl capacity,
            capacity = Z.of_nat (length cl) -> client_count s < capacity ->
            capacity < 2 ^ 64 ->
            take (Z.to_nat (client_count s)) cl = live s ->
            take (Z.to_nat (client_count s + 1))
              (<[Z.to_nat (client_count s) := new_entry fd ssl]> cl)
            = live s ++ [new_entry fd ssl]).
  { intros cl capacity Hc Hlt _ Hlive.
    replace (Z.to_nat (client_count s + 1)) with (S (Z.to_nat (client_count s)))
      by lia.
    rewrite (take_S_r _ _ (new_entry fd ssl))
      by (apply list_lookup_insert_eq; lia).
    rewrite take_insert_ge by lia. rewrite Hlive. reflexivity. }
  destruct (Z.leb_spec (client_capacity s) (client_count s)) as [Hfull | Hroom].
  - destruct (Halloc Hfull) as (fresh & -> & Hfresh).
    assert (Hgrow : client_capacity s < doubled_capacity s < 2 ^ 64).
    { unfold doubled_capacity.
      destruct (Z.eqb_spec (client_capacity s) 0) as [-> | Hnz]; [lia | ].
      rewrite wrap64_small by lia. lia. }
    unfold result, live in *. rewrite bind_fst.
    cbn [fst ret emit set_total_clients set_table clients client_count
         client_capacity].
    rewrite (wrap64_small (client_count s + 1)) by lia.
    split; [ | split; [reflexivity | ]].
    + apply (Hstore _ (doubled_capacity s)); try lia.
      * rewrite length_app. lia.
      * apply take_app_le. lia.
    + unfold table_ok, SIZE_MAX.
      cbn [set_total_clients set_table clients client_count client_capacity].
      rewrite length_insert, length_app. lia.
  - unfold result, live in *.
    cbn [fst ret set_total_clients set_table clients client_count
         client_capacity].
    rewrite (wrap64_small (client_count s + 1)) by lia.
    split; [ | split; [reflexivity | ]].
    + apply (Hstore _ (client_capacity s)); try lia. reflexivity.
    + unfold table_ok, SIZE_MAX.
      cbn [set_total_clients set_table clients client_count client_capacity].
      rewrite length_insert. lia.
Qed.

End ConnectionTable.

Lemma three_clients_ok : table_ok three_clients.
Proof. unfold table_ok, SIZE_MAX. cbn. lia. Qed.

(** [server_init] creates a well-formed, empty table. *)
Lemma server_init_table_ok {D} `{DoubleOps D} (strdup_address : bool)
    (ctx : Z) (now : timeval) (m : SocketMode) (addr : string) (tls : Z) :
  let s : Server.Server D :=
    snd (Server.server_init strdup_address ctx now m addr tls) in
  table_ok s /\ live s = [] /\ no_message_yet s.
Proof.
  unfold Server.server_init, table_ok, live, no_message_yet, SIZE_MAX.
  destruct strdup_address; cbn [negb];
    [destruct (truthy tls); [destruct (negb (truthy ctx)) | ] | ];
    cbn; repeat split; lia.
Qed.

Lemma remove_client_exact_witness :
  live (result (Server.remove_client three_clients 1)) = [conn 4; conn 6] /\
  Server.remove_client three_clients 3 = (three_clients, []).
Proof.
  destruct (remove_client_exact three_clients 1 three_clients_ok) as (Hin & _);
    [lia | ].
  destruct (remove_client_exact three_clients 3 three_clients_ok) as (_ & Hout);
    [lia | ].
  split.
  - destruct (Hin ltac:(cbn; lia)) as (Hlive & _). rewrite Hlive. reflexivity.
  - apply Hout. cbn. lia.
Defined.

(** Removing the middle connection: the array, slot by slot. *)
Example remove_middle :
  Server.clients (result (Server.remove_client three_clients 1))
  = [conn 4; conn 6; conn 6] ++ repeat (conn 0) 5
  /\ Server.client_count (result (Server.remove_client three_clients 1)) = 2
  /\ trace (Server.remove_client three_clients 1)
     = [Ev_log LOG_LEVEL_INFO "Client disconnected"; Ev_close 5].
Proof. vm_compute. repeat split. Qed.

(* ================================================================== *)
(** * server.c: handle_client_message *)
(* ================================================================== *)

Section HandleClientMessage.
Import Server.
Context {D : Type} `{Host} `{DoubleOps D}.

Lemma send_message_ack_trace (env : SendEnv) (client : ClientConnection) :
  trace (send_message env (fd client) (ssl client) (is_ssl client)
           message_create_ack)
  = [ack_write client].
Proof.
  unfold send_message, transport_write, ack_write, trace.
  rewrite bind_snd.
  destruct (use_ssl (ssl client) (is_ssl client));
    rewrite bind_snd, bind_fst; cbn [fst snd ret emit app];
    destruct (negb (send_header_ret env =? sizeof_MessageHeader)); reflexivity.
Qed.

Lemma receive_message_no_write (env : RecvEnv) (fd ssl is_ssl : Z) (msg0 : Message) :
  writes (trace (receive_message env fd ssl is_ssl msg0)) = [] /\
  List.filter is_close (trace (receive_message env fd ssl is_ssl msg0)) = [].
Proof.
  unfold receive_message, transport_read.
  destruct (use_ssl ssl is_ssl); io_cases; split; reflexivity.
Qed.

(** [handle_client_message] after a successful receive. *)
Lemma handle_client_message_received (e : HandleEnv) (handler : bool)
    (s : Server D) (client_index : Z) :
  let client := clients s !!! Z.to_nat client_index in
  let msg := snd (received e client) in
  fst (received e client) = 0 ->
  result (handle_client_message e handler s client_index)
  = record_metrics (timeval_to_double (gettimeofday_ret e)) (payload_size msg) s
  /\
  trace (handle_client_message e handler s client_index)
  = trace (receive_message (recv_env e) (fd client) (ssl client)
             (is_ssl client) (uninit_msg e))
    ++ (if handler then [Ev_handler (fd client) msg] else [])
    ++ (if h_type (header msg) =? MSG_TYPE_ACK then []
        else [ack_write client]).
Proof.
  intros client msg Hok. subst msg. unfold received in *.
  unfold handle_client_message. fold client.
  unfold result, trace in *. rewrite bind_fst, bind_snd.
  destruct (fst (receive_message (recv_env e) (fd client) (ssl client)
                   (is_ssl client) (uninit_msg e))) as [status msg].
  cbn [fst snd] in *. subst status. change (0 <? 0) with false. cbv iota.
  rewrite !bind_fst, !bind_snd. cbn [fst snd ret].
  split; [reflexivity | ]. f_equal. f_equal.
  - destruct handler; reflexivity.
  - rewrite app_nil_r.
    destruct (h_type (header msg) =? MSG_TYPE_ACK); cbn [negb]; [reflexivity | ].
    rewrite bind_snd. cbn [snd ret]. rewrite app_nil_r.
    apply send_message_ack_trace.
Qed.

(** [handle_client_message] after a failed receive: the connection is
    removed and closed. *)
Lemma handle_client_message_receive_failure (e : HandleEnv) (handler : bool)
    (s : Server D) (client_index : Z) :
  let client := clients s !!! Z.to_nat client_index in
  fst (received e client) < 0 ->
  result (handle_client_message e handler s client_index)
  = result (remove_client s client_index) /\
  trace (handle_client_message e handler s client_index)
  = trace (receive_message (recv_env e) (fd client) (ssl client)
             (is_ssl client) (uninit_msg e))
    ++ trace (remove_client s client_index).
Proof.
  intros client Hfail. unfold received in *.
  unfold handle_client_message. fold client.
  unfold result, trace in *. rewrite bind_fst, bind_snd.
  destruct (fst (receive_message (recv_env e) (fd client) (ssl client)
                   (is_ssl client) (uninit_msg e))) as [status msg].
  cbn [fst snd] in *.
  destruct (Z.ltb_spec status 0) as [_ | Hge]; [ | lia].
  split; reflexivity.
Qed.

(** C3.  When the receive on the connection at [client_index] succeeds:
    if the type of the message is not Ack, the writes of
    [handle_client_message] are exactly one, the serialized header of
    [message_create_ack] through the transport of that same connection;
    if the type is Ack, it writes nothing. *)
Theorem ack_for_every_non_ack (e : HandleEnv) (handler : bool) (s : Server D)
    (client_index : Z) :
  let client := clients s !!! Z.to_nat client_index in
  let msg := snd (received e client) in
  fst (received e client) = 0 ->
  (h_type (header msg) <> MSG_TYPE_ACK ->
     writes (trace (handle_client_message e handler s client_index))
     = [ack_write client]) /\
  (h_type (header msg) = MSG_TYPE_ACK ->
     writes (trace (handle_client_message e handler s client_index)) = []).
Proof.
  intros client msg Hok.
  destruct (handle_client_message_received e handler s client_index Hok)
    as (_ & Htrace).
  fold client in Htrace. fold msg in Htrace. rewrite Htrace.
  unfold writes. rewrite !List.filter_app.
  destruct (receive_message_no_write (recv_env e) (fd client) (ssl client)
              (is_ssl client) (uninit_msg e)) as (Hnow & _).
  unfold writes in Hnow. rewrite Hnow.
  assert (Hh : List.filter is_write
                 (if handler then [Ev_handler (fd client) msg] else []) = [])
    by (destruct handler; reflexivity).
  rewrite Hh. cbn [app].
  split; intros Hty.
  - apply Z.eqb_neq in Hty. rewrite Hty. unfold ack_write.
    destruct (use_ssl (ssl client) (is_ssl client)); reflexivity.
  - apply Z.eqb_eq in Hty. rewrite Hty. reflexivity.
Qed.

(** C4, as the code has it.  After a successful receive
    [handle_client_message] never touches the connection table and closes
    nothing, whatever the write of the Ack returned, a failure included: the
    return value of [send_message] is not looked at.  Only a failed receive
    makes it remove and close the connection, by [remove_client]. *)
Theorem send_failure_keeps_connection (e : HandleEnv) (handler : bool)
    (s : Server D) (client_index : Z) :
  let client := clients s !!! Z.to_nat client_index in
  let s' := result (handle_client_message e handler s client_index) in
  let calls := trace (handle_client_message e handler s client_index) in
  (fst (received e client) = 0 ->
     clients s' = clients s /\
     client_count s' = client_count s /\
     client_capacity s' = client_capacity s /\
     List.filter is_close calls = []) /\
  (fst (received e client) < 0 ->
     s' = result (remove_client s client_index) /\
     calls = trace (receive_message (recv_env e) (fd client) (ssl client)
                      (is_ssl client) (uninit_msg e))
             ++ trace (remove_client s client_index)).
Proof.
  intros client s' calls. subst s' calls. split.
  - intros Hok.
    destruct (handle_client_message_received e handler s client_index Hok)
      as (Hres & Htrace).
    fold client in Htrace. rewrite Hres, Htrace.
    repeat split.
    rewrite !List.filter_app.
    destruct (receive_message_no_write (recv_env e) (fd client) (ssl client)
                (is_ssl client) (uninit_msg e)) as (_ & Hnoclose).
    rewrite Hnoclose. cbn [app].
    destruct handler, (h_type (header (snd (received e client))) =? MSG_TYPE_ACK);
      try reflexivity; unfold ack_write;
      destruct (use_ssl (ssl client) (is_ssl client)); reflexivity.
  - intros Hfail.
    apply (handle_client_message_receive_failure e handler s client_index Hfail).
Qed.

End HandleClientMessage.

Lemma ack_for_every_non_ack_witness :
  writes (trace (Server.handle_client_message hello_but_send_fails true
                   three_clients 1))
  = [Ev_send 5
       (BufHeader (message_header_serialize (header message_create_ack))) 16] /\
  writes (trace (Server.handle_client_message ack_arrives true three_clients 1))
  = [].
Proof.
  split.
  - apply (ack_for_every_non_ack hello_but_send_fails true three_clients 1);
      [reflexivity | discriminate].
  - apply (ack_for_every_non_ack ack_arrives true three_clients 1); reflexivity.
Defined.

Lemma send_failure_keeps_connection_witness :
  live (result (Server.handle_client_message hello_but_send_fails true
                  three_clients 1))
  = [conn 4; conn 5; conn 6].
Proof.
  destruct (send_failure_keeps_connection hello_but_send_fails true
              three_clients 1) as (Hkept & _).
  destruct Hkept as (Hclients & Hcount & _); [reflexivity | ].
  unfold live. rewrite Hclients, Hcount. reflexivity.
Defined.

(** C4 as stated fails: the text ["hello"] arrives on the connection with
    descriptor 5, the write of the Ack returns -1, and the connection is
    still in the table and was not closed; on a receive failure it would
    have been removed. *)
Lemma send_failure_counterexample :
  let sent := send_message (Server.send_env hello_but_send_fails) 5 NULL 0
                message_create_ack in
  let after := Server.handle_client_message hello_but_send_fails true
                 three_clients 1 in
  let removed := Server.remove_client three_clients 1 in
  result sent = -1 /\
  live (result after) = [conn 4; conn 5; conn 6] /\
  live (result removed) = [conn 4; conn 6] /\
  live (result after) <> live (result removed) /\
  ~ In (Ev_close 5) (trace after) /\
  In (Ev_close 5) (trace removed).
Proof.
  vm_compute. repeat split; try discriminate.
  - intros Hin. repeat (destruct Hin as [Hin | Hin]; [discriminate Hin | ]).
    exact Hin.
  - right. left. reflexivity.
Qed.

(* ================================================================== *)
(** * server.c: the inter-arrival metrics *)
(* ================================================================== *)

Section Metrics.
Import Server.
Context {D : Type} `{Host} `{DoubleOps D} `{!DoubleOrder D}.

Lemma intervals_snoc (l : list D) (t : D) :
  intervals (l ++ [t])
  = match last l with
    | Some p => intervals l ++ [d_mul (d_sub t p) (d_of_Z 1000)]
    | None => []
    end.
Proof.
  induction l as [| a l IH]; [reflexivity | ].
  destruct l as [| b l']; [reflexivity | ].
  change (intervals ((a :: b :: l') ++ [t]))
    with (d_mul (d_sub b a) (d_of_Z 1000) :: intervals ((b :: l') ++ [t])).
  rewrite IH. change (last (a :: b :: l')) with (last (b :: l')).
  destruct (last (b :: l')) eqn:Hlast.
  - reflexivity.
  - apply last_None in Hlast. discriminate.
Qed.

Lemma length_intervals (ts : list D) :
  length (intervals ts) = (length ts - 1)%nat.
Proof.
  induction ts as [| a l IH]; [reflexivity | ].
  destruct l as [| b l']; [reflexivity | ].
  change (intervals (a :: b :: l'))
    with (d_mul (d_sub b a) (d_of_Z 1000) :: intervals (b :: l')).
  cbn [length] in *. rewrite IH. lia.
Qed.

Lemma sum_of_snoc (ds : list D) (d : D) :
  sum_of (ds ++ [d]) = d_add (sum_of ds) d.
Proof. unfold sum_of. rewrite fold_left_app. reflexivity. Qed.

Lemma is_least_snoc_new (m d : D) (ds : list D) :
  is_least m ds -> d_lt d m = true -> is_least d (ds ++ [d]).
Proof.
  intros (_ & Hmin) Hlt. split; [apply in_or_app; right; left; reflexivity | ].
  intros x Hx. apply in_app_or in Hx as [Hx | [<- | []]].
  - destruct (d_lt x d) eqn:Hxd; [ | reflexivity].
    rewrite <- (Hmin x Hx). symmetry. exact (d_lt_trans x d m Hxd Hlt).
  - apply d_lt_irrefl.
Qed.

Lemma is_least_snoc_old (m d : D) (ds : list D) :
  is_least m ds -> d_lt d m = false -> is_least m (ds ++ [d]).
Proof.
  intros (Hin & Hmin) Hlt. split; [apply in_or_app; left; exact Hin | ].
  intros x Hx. apply in_app_or in Hx as [Hx | [<- | []]]; [apply Hmin, Hx | exact Hlt].
Qed.

Lemma is_greatest_snoc_new (m d : D) (ds : list D) :
  is_greatest m ds -> d_lt m d = true -> is_greatest d (ds ++ [d]).
Proof.
  intros (_ & Hmax) Hlt. split; [apply in_or_app; right; left; reflexivity | ].
  intros x Hx. apply in_app_or in Hx as [Hx | [<- | []]].
  - destruct (d_lt d x) eqn:Hdx; [ | reflexivity].
    rewrite <- (Hmax x Hx). symmetry. exact (d_lt_trans m d x Hlt Hdx).
  - apply d_lt_irrefl.
Qed.

Lemma is_greatest_snoc_old (m d : D) (ds : list D) :
  is_greatest m ds -> d_lt m d = false -> is_greatest m (ds ++ [d]).
Proof.
  intros (Hin & Hmax) Hlt. split; [apply in_or_app; left; exact Hin | ].
  intros x Hx. apply in_app_or in Hx as [Hx | [<- | []]]; [apply Hmax, Hx | exact Hlt].
Qed.

Lemma is_least_singleton (d : D) : is_least d [d].
Proof.
  split; [left; reflexivity | ]. intros x [<- | []]. apply d_lt_irrefl.
Qed.

Lemma is_greatest_singleton (d : D) : is_greatest d [d].
Proof.
  split; [left; reflexivity | ]. intros x [<- | []]. apply d_lt_irrefl.
Qed.

Lemma no_message_yet_track (s : Server D) : no_message_yet s -> metrics_track [] s.
Proof.
  intros (Hlast & Htotal & Hcount).
  split; [exact Hlast | ]. split; [exact Hcount | ]. split; [exact Htotal | ].
  intros Hne. contradiction Hne. reflexivity.
Qed.

(** One more arrival keeps the statistics in step with the timestamps. *)
Lemma record_metrics_track (ts : list D) (t : D) (size : Z) (s : Server D) :
  metrics_track ts s -> Forall positive_time ts ->
  Z.of_nat (length ts) < 2 ^ 64 ->
  metrics_track (ts ++ [t]) (record_metrics t size s).
Proof.
  intros (Hlast & Hcount & Htotal & Hminmax) Hpos Hlen.
  unfold metrics_track, record_metrics.
  cbn [set_metrics last_message_time interval_count total_interval_ms
       min_interval_ms max_interval_ms].
  rewrite last_snoc, intervals_snoc.
  rewrite Hlast, Hcount, Htotal.
  destruct (last ts) as [p | ] eqn:Hp.
  - assert (Hppos : d_lt (d_of_Z 0) p = true).
    { apply last_Some in Hp as (l' & ->).
      apply Forall_app in Hpos as (_ & Hpos). inversion Hpos. assumption. }
    rewrite Hppos. cbn [andb].
    set (d := d_mul (d_sub t p) (d_of_Z 1000)).
    split; [reflexivity | ]. split.
    { rewrite length_app, Nat2Z.inj_add. cbn [length].
      apply wrap64_small. rewrite length_intervals. lia. }
    split; [symmetry; apply sum_of_snoc | ]. intros _.
    destruct (intervals ts) as [| d0 ds] eqn:Hds.
    + cbn [length Z.of_nat]. change (0 =? 0) with true. cbn [orb app].
      split; [apply is_least_singleton | apply is_greatest_singleton].
    + destruct Hminmax as (Hmin & Hmax); [discriminate | ].
      assert (Hnz : (Z.of_nat (length (d0 :: ds)) =? 0) = false)
        by (apply Z.eqb_neq; cbn [length]; lia).
      rewrite Hnz. cbn [orb]. split.
      * destruct (d_lt d (min_interval_ms s)) eqn:Hlt.
        { eapply is_least_snoc_new; eassumption. }
        { apply is_least_snoc_old; assumption. }
      * destruct (d_lt (max_interval_ms s) d) eqn:Hlt.
        { eapply is_greatest_snoc_new; eassumption. }
        { apply is_greatest_snoc_old; assumption. }
  - rewrite d_lt_irrefl. cbn [andb].
    apply last_None in Hp. subst ts.
    split; [reflexivity | ]. split; [reflexivity | ]. split; [reflexivity | ].
    intros Hne. contradiction Hne. reflexivity.
Qed.

Lemma receive_all_track (arrivals : list (Z * HandleEnv)) (handler : bool)
    (s0 : Server D) :
  all_received arrivals -> no_message_yet s0 ->
  Forall positive_time (arrival_times (D := D) arrivals) ->
  Z.of_nat (length arrivals) <= 2 ^ 64 ->
  metrics_track (arrival_times arrivals) (receive_all arrivals handler s0).
Proof.
  induction arrivals as [| a l IH] using rev_ind; intros Hrecv Hfresh Hpos Hlen.
  - apply no_message_yet_track, Hfresh.
  - unfold all_received, arrival_times, receive_all in *.
    rewrite length_app in Hlen. cbn [length] in Hlen.
    apply Forall_app in Hrecv as (Hrecv & Ha).
    rewrite map_app in Hpos |- *. apply Forall_app in Hpos as (Hpos & _).
    rewrite fold_left_app. cbn [fold_left map].
    inversion Ha as [ | ? ? Hok _ ]; subst.
    destruct (handle_client_message_received (snd a) handler
                (fold_left
                   (fun s a0 => result (handle_client_message (snd a0) handler s (fst a0)))
                   l s0) (fst a) (Hok _)) as (Hres & _).
    rewrite Hres.
    apply record_metrics_track.
    + apply IH; [exact Hrecv | exact Hfresh | exact Hpos | lia].
    + exact Hpos.
    + rewrite length_map. lia.
Qed.

(** C9, as the code has it.  Let [n] messages arrive (at most [2^64], the
    range of the [size_t] counter) at timestamps [t_1 ... t_n] that are all
    greater than 0, on a server that has seen no message before.  Then the
    server has measured exactly [n - 1] intervals (none when [n <= 1]); the
    reported average is the sum of the [n - 1] consecutive differences (in
    milliseconds, added up in order) divided by [n - 1]; the reported minimum
    and maximum are a least and a greatest one of those differences; and all
    three are reported as 0 when no interval has been measured. *)
Theorem interarrival_metrics (arrivals : list (Z * HandleEnv)) (handler : bool)
    (s0 : Server D) (now : timeval) :
  all_received arrivals -> no_message_yet s0 ->
  Forall positive_time (arrival_times (D := D) arrivals) ->
  Z.of_nat (length arrivals) <= 2 ^ 64 ->
  let ts : list D := arrival_times arrivals in
  let s := receive_all arrivals handler s0 in
  let m := server_get_metrics now s all_pointers in
  interval_count s = Z.of_nat (length arrivals - 1) /\
  length (intervals ts) = (length arrivals - 1)%nat /\
  m_avg_latency_ms m = Some (average_of (intervals ts)) /\
  (intervals ts = [] ->
     m_avg_latency_ms m = Some (d_of_Z 0) /\
     m_min_latency_ms m = Some (d_of_Z 0) /\
     m_max_latency_ms m = Some (d_of_Z 0)) /\
  (intervals ts <> [] ->
     exists least greatest,
       m_min_latency_ms m = Some least /\ is_least least (intervals ts) /\
       m_max_latency_ms m = Some greatest /\ is_greatest greatest (intervals ts)).
Proof.
  intros Hrecv Hfresh Hpos Hlen ts s m.
  destruct (receive_all_track arrivals handler s0 Hrecv Hfresh Hpos Hlen)
    as (_ & Hcount & Htotal & Hminmax).
  fold ts in Hcount, Htotal, Hminmax. fold s in Hcount, Htotal, Hminmax.
  assert (Hn : length (intervals ts) = (length arrivals - 1)%nat).
  { rewrite length_intervals. unfold ts, arrival_times. rewrite length_map.
    reflexivity. }
  split; [rewrite Hcount, Hn; reflexivity | ]. split; [exact Hn | ].
  subst m. unfold server_get_metrics, all_pointers.
  cbn [m_avg_latency_ms m_min_latency_ms m_max_latency_ms fmap option_fmap
       option_map].
  rewrite Hcount, Htotal.
  destruct (intervals ts) as [| d ds] eqn:Hds.
  - cbn [length Z.of_nat average_of]. change (0 <? 0) with false. cbv iota.
    repeat split. intros Hne. contradiction Hne. reflexivity.
  - assert (Hnz : (0 <? Z.of_nat (length (d :: ds))) = true)
      by (apply Z.ltb_lt; cbn [length]; lia).
    rewrite Hnz. cbn [average_of].
    split; [reflexivity | ]. split; [discriminate | ]. intros _.
    destruct Hminmax as (Hmin & Hmax); [discriminate | ].
    exists (min_interval_ms s), (max_interval_ms s). repeat split;
      first [apply Hmin | apply Hmax].
Qed.

End Metrics.

#[export] Instance Q_double_order : DoubleOrder QArith_base.Q.
Proof.
  split.
  - intros a. cbn. unfold Q_ltb.
    assert (Hle : QArith_base.Qle_bool a a = true)
      by (apply QArith_base.Qle_bool_iff, QArith_base.Qle_refl).
    rewrite Hle. reflexivity.
  - intros a b c Hab Hbc. cbn in *. unfold Q_ltb in *.
    apply negb_true_iff in Hab, Hbc. apply negb_true_iff.
    destruct (QArith_base.Qle_bool c a) eqn:Hca; [ | reflexivity].
    apply QArith_base.Qle_bool_iff in Hca.
    assert (Hab' : QArith_base.Qlt a b).
    { apply QArith_base.Qnot_le_lt. intros Hle.
      apply QArith_base.Qle_bool_iff in Hle. congruence. }
    assert (Hbc' : QArith_base.Qlt b c).
    { apply QArith_base.Qnot_le_lt. intros Hle.
      apply QArith_base.Qle_bool_iff in Hle. congruence. }
    exfalso. apply (QArith_base.Qlt_not_le a c); [ | exact Hca].
    exact (QArith_base.Qlt_trans a b c Hab' Hbc').
Qed.

Lemma hello_at_received (sec usec : Z) (client : Server.ClientConnection) :
  fst (received (snd (hello_at sec usec)) client) = 0.
Proof. unfold received. rewrite receive_message_result. reflexivity. Qed.

Lemma three_clients_fresh : no_message_yet three_clients.
Proof. repeat split. Qed.

Lemma interarrival_metrics_witness :
  let s := receive_all three_arrivals true three_clients in
  let m := Server.server_get_metrics (mkTimeval 103 0) s all_pointers in
  Server.interval_count s = 2 /\
  Server.m_avg_latency_ms m
  = Some (average_of (intervals (arrival_times three_arrivals))).
Proof.
  destruct (interarrival_metrics three_arrivals true three_clients (mkTimeval 103 0))
    as (Hcount & _ & Havg & _).
  - repeat constructor; intros client; apply hello_at_received.
  - exact three_clients_fresh.
  - repeat constructor.
  - vm_compute. discriminate.
  - split; [exact Hcount | exact Havg].
Defined.

(** The statistics of the three arrivals: intervals of 500 ms and 2000 ms. *)
Example three_arrivals_metrics :
  let s := receive_all three_arrivals true three_clients in
  let m := Server.server_get_metrics (mkTimeval 103 0) s all_pointers in
  QArith_base.Qeq (default (d_of_Z 0) (Server.m_avg_latency_ms m))
    (QArith_base.inject_Z 1250) /\
  QArith_base.Qeq (default (d_of_Z 0) (Server.m_min_latency_ms m))
    (QArith_base.inject_Z 500) /\
  QArith_base.Qeq (default (d_of_Z 0) (Server.m_max_latency_ms m))
    (QArith_base.inject_Z 2000).
Proof. vm_compute. repeat split. Qed.

(** C9 as stated fails for a first arrival at timestamp 0: the code takes
    [last_message_time = 0.0] to mean that no message has arrived, so of the
    two arrivals at 0.0 s and 1.0 s no interval is measured and the
    average is reported as 0, although the one difference is 1000 ms. *)
Lemma interarrival_metrics_counterexample :
  let ts : list QArith_base.Q := arrival_times epoch_arrivals in
  let s := receive_all epoch_arrivals true three_clients in
  let m := Server.server_get_metrics (mkTimeval 103 0) s all_pointers in
  all_received epoch_arrivals /\
  length (intervals ts) = 1%nat /\
  Server.interval_count s = 0 /\
  Server.interval_count s <> Z.of_nat (length epoch_arrivals - 1) /\
  Server.m_avg_latency_ms m = Some (d_of_Z 0) /\
  Server.m_avg_latency_ms m <> Some (average_of (intervals ts)).
Proof.
  cbv zeta. split.
  - repeat constructor; intros client; apply hello_at_received.
  - vm_compute. repeat split; discriminate.
Qed.

(* ================================================================== *)
(** * server.c: allocation failures in the event loop *)
(* ================================================================== *)

Section EventLoop.
Import Server.
Context {D : Type} `{Host} `{DoubleOps D}.

(** [add_client] when the array is full and [realloc] fails: an error is
    logged and the server is returned as it was. *)
Lemma add_client_alloc_failure (s : Server D) (fd ssl : Z) :
  client_capacity s <= client_count s ->
  exists bytes,
    add_client None s fd ssl
    = (s, [Ev_realloc bytes;
           Ev_log LOG_LEVEL_ERROR "Failed to allocate memory for clients"]).
Proof.
  intros Hfull. unfold add_client.
  destruct (Z.leb_spec (client_capacity s) (client_count s)) as [_ | Hlt]; [ | lia].
  eexists. reflexivity.
Qed.

Lemma accept_tls_connection_result (e : AcceptEnv) (fd : Z) :
  fst (accept_tls_connection e fd)
  = if negb (truthy (SSL_new_ret e)) || (SSL_accept_ret e <=? 0)
    then NULL else SSL_new_ret e.
Proof.
  unfold accept_tls_connection. rewrite bind_fst. cbn [fst emit].
  destruct (negb (truthy (SSL_new_ret e))); [reflexivity | ]. cbn [orb].
  destruct (SSL_accept_ret e <=? 0); [rewrite bind_fst | ]; reflexivity.
Qed.

(** [accept_new_connection] in that situation: the server is unchanged. *)
Lemma accept_alloc_failure (e : AcceptEnv) (s : Server D) :
  reaches_add_client s e ->
  client_capacity s <= client_count s -> add_client_realloc e = None ->
  result (accept_new_connection e s) = s.
Proof.
  intros (Hfd & Hshake) Hfull Halloc. unfold accept_new_connection.
  unfold result. rewrite bind_fst. cbn [fst emit].
  destruct (Z.ltb_spec (accept_ret e) 0) as [Hneg | _]; [lia | ].
  rewrite Halloc.
  destruct Hshake as [Hplain | (Hnew & Haccept)].
  - rewrite Hplain.
    destruct (add_client_alloc_failure s (accept_ret e) NULL Hfull) as (bytes & Hadd).
    rewrite Hadd. reflexivity.
  - destruct (truthy (enable_tls s)).
    + rewrite bind_fst, (accept_tls_connection_result e (accept_ret e)), Hnew.
      cbn [negb orb].
      destruct (Z.leb_spec (SSL_accept_ret e) 0) as [Hle | _]; [lia | ].
      rewrite Hnew. cbn [negb].
      destruct (add_client_alloc_failure s (accept_ret e) (SSL_new_ret e) Hfull)
        as (bytes & Hadd).
      rewrite Hadd. reflexivity.
    + destruct (add_client_alloc_failure s (accept_ret e) NULL Hfull)
        as (bytes & Hadd).
      rewrite Hadd. reflexivity.
Qed.

(** The pollfd array: a failed [realloc] leaves the loop at once. *)
Lemma pollfds_alloc_failure (e : LoopEnv) (script : list LoopEnv)
    (handler : bool) (pollfd_capacity : Z) (s : Server D) :
  stop_requested e = false -> truthy (running s) = true ->
  pollfd_capacity < wrap64 (1 + client_count s) ->
  realloc_pollfds_ok e = false ->
  exists bytes,
    event_loop (e :: script) handler pollfd_capacity s
    = ((LoopBroken, s),
       [Ev_realloc bytes;
        Ev_log LOG_LEVEL_ERROR "Failed to allocate memory for pollfds";
        Ev_free_pollfds]).
Proof.
  intros Hstop Hrun Hcap Halloc. cbn [event_loop]. rewrite Hstop, Hrun.
  cbn [negb]. cbv zeta.
  destruct (Z.ltb_spec pollfd_capacity (wrap64 (1 + client_count s)))
    as [_ | Hge]; [ | lia].
  rewrite Halloc. eexists. reflexivity.
Qed.

(** The client array: after a failed [realloc] in [add_client] the
    iteration goes on with the client sockets, on the unchanged server, and
    the loop continues with the next iteration. *)
Lemma clients_alloc_failure (e : LoopEnv) (script : list LoopEnv)
    (handler : bool) (pollfd_capacity : Z) (s : Server D) :
  stop_requested e = false -> truthy (running s) = true ->
  (pollfd_capacity < wrap64 (1 + client_count s) -> realloc_pollfds_ok e = true) ->
  0 < poll_ret e ->
  truthy (Z.land (nth 0 (poll_revents e) 0) POLLIN) = true ->
  reaches_add_client s (accept_env e) ->
  client_capacity s <= client_count s ->
  add_client_realloc (accept_env e) = None ->
  let pollfd_count := wrap64 (1 + client_count s) in
  let s1 := result (check_client_sockets (Z.to_nat pollfd_count) e handler
                      0%nat 1 pollfd_count s) in
  result (event_loop (e :: script) handler pollfd_capacity s)
  = result (event_loop script handler (grown_capacity pollfd_capacity s) s1).
Proof.
  intros Hstop Hrun Hgrow Hpoll Hin Hreach Hfull Halloc pollfd_count s1.
  pose proof (accept_alloc_failure (accept_env e) s Hreach Hfull Halloc) as Hacc.
  cbn [event_loop]. rewrite Hstop, Hrun. cbn [negb]. cbv zeta.
  unfold grown_capacity.
  assert (Hbody : forall cap,
    result
      (exec emit (Ev_poll
                    (server_fd s :: map fd (take (Z.to_nat (client_count s)) (clients s)))
                    1000) ;
       (if poll_ret e <? 0
        then
          if poll_errno e =? EINTR
          then event_loop script handler cap s
          else
            exec logger_error "Poll error" ;
            exec emit Ev_free_pollfds ; ret (LoopBroken, s)
        else
          if poll_ret e =? 0
          then event_loop script handler cap s
          else
            call s1 <- (if truthy (Z.land (nth 0 (poll_revents e) 0) POLLIN)
                        then accept_new_connection (accept_env e) s
                        else ret s) ;
            call s2 <- check_client_sockets
                         (Z.to_nat (wrap64 (1 + client_count s))) e handler 0%nat 1
                         (wrap64 (1 + client_count s)) s1 ;
            event_loop script handler cap s2))
    = result (event_loop script handler cap s1)).
  { intros cap. unfold result. rewrite bind_fst. cbn [fst emit].
    destruct (Z.ltb_spec (poll_ret e) 0) as [Hneg | _]; [lia | ].
    destruct (Z.eqb_spec (poll_ret e) 0) as [Hzero | _]; [lia | ].
    rewrite Hin, !bind_fst. unfold result in Hacc. rewrite Hacc. reflexivity. }
  destruct (Z.ltb_spec pollfd_capacity (wrap64 (1 + client_count s)))
    as [Hlt | Hge].
  - rewrite (Hgrow Hlt). cbn [negb]. unfold result at 1. rewrite bind_fst.
    cbn [fst emit]. apply Hbody.
  - apply Hbody.
Qed.

(** C7, as the code has it.  A failed [realloc] of the pollfd array is fatal
    to the loop: [run_event_loop] logs the error, frees the array and
    returns in that iteration, whatever else is pending.  A failed [realloc]
    of the client array is not: [add_client] logs the error and returns
    with the table unchanged, the accepted connection is not entered, and
    the loop carries on with the client sockets and with its next
    iteration. *)
Theorem allocation_failures (e : LoopEnv) (script : list LoopEnv)
    (handler : bool) (pollfd_capacity : Z) (s : Server D) :
  stop_requested e = false -> truthy (running s) = true ->
  (pollfd_capacity < wrap64 (1 + client_count s) ->
   realloc_pollfds_ok e = false ->
   result (event_loop (e :: script) handler pollfd_capacity s) = (LoopBroken, s) /\
   List.filter is_poll (trace (event_loop (e :: script) handler pollfd_capacity s))
   = [] /\
   In (Ev_log LOG_LEVEL_ERROR "Failed to allocate memory for pollfds")
     (trace (event_loop (e :: script) handler pollfd_capacity s))) /\
  (client_capacity s <= client_count s ->
   forall fd ssl,
     result (add_client None s fd ssl) = s /\
     In (Ev_log LOG_LEVEL_ERROR "Failed to allocate memory for clients")
       (trace (add_client None s fd ssl))) /\
  ((pollfd_capacity < wrap64 (1 + client_count s) -> realloc_pollfds_ok e = true) ->
   0 < poll_ret e ->
   truthy (Z.land (nth 0 (poll_revents e) 0) POLLIN) = true ->
   reaches_add_client s (accept_env e) ->
   client_capacity s <= client_count s ->
   add_client_realloc (accept_env e) = None ->
   let pollfd_count := wrap64 (1 + client_count s) in
   let s1 := result (check_client_sockets (Z.to_nat pollfd_count) e handler
                       0%nat 1 pollfd_count s) in
   result (accept_new_connection (accept_env e) s) = s /\
   result (event_loop (e :: script) handler pollfd_capacity s)
   = result (event_loop script handler (grown_capacity pollfd_capacity s) s1)).
Proof.
  intros Hstop Hrun. split.
  - intros Hcap Halloc.
    destruct (pollfds_alloc_failure e script handler pollfd_capacity s
                Hstop Hrun Hcap Halloc) as (bytes & Heq).
    rewrite Heq. split; [reflexivity | ]. split; [reflexivity | ].
    right. left. reflexivity.
  - split.
    { intros Hfull fd ssl.
      destruct (add_client_alloc_failure s fd ssl Hfull) as (bytes & Hadd).
      rewrite Hadd. split; [reflexivity | right; left; reflexivity]. }
    intros Hgrow Hpoll Hin Hreach Hfull Halloc. cbv zeta. split.
    + apply accept_alloc_failure; assumption.
    + apply clients_alloc_failure; assumption.
Qed.

End EventLoop.

Lemma allocation_failures_witness :
  result (Server.run_event_loop [poll_without_memory; poll_timeout] true
            listening_server)
  = (Server.LoopBroken, listening_server) /\
  result (Server.run_event_loop [accept_without_memory; poll_timeout] true
            listening_server)
  = result (Server.event_loop [poll_timeout] true 9 listening_server).
Proof.
  destruct (allocation_failures poll_without_memory [poll_timeout] true 0
              listening_server eq_refl eq_refl) as (Hfatal & _).
  destruct (allocation_failures accept_without_memory [poll_timeout] true 0
              listening_server eq_refl eq_refl) as (_ & _ & Hgoes_on).
  split.
  - apply Hfatal; [reflexivity | reflexivity].
  - apply Hgoes_on; try reflexivity; try discriminate.
    split; [discriminate | left; reflexivity].
Defined.

(** C7 as stated fails for the client array: a connection arrives, the
    [realloc] in [add_client] fails, and the loop is still running, polls
    again in the next iteration and has not entered the connection. *)
Lemma allocation_failures_counterexample :
  let run := Server.run_event_loop [accept_without_memory; poll_timeout] true
               listening_server in
  In (Ev_log LOG_LEVEL_ERROR "Failed to allocate memory for clients") (trace run) /\
  result run = (Server.LoopRunning, listening_server) /\
  fst (result run) <> Server.LoopBroken /\
  length (List.filter is_poll (trace run)) = 2%nat /\
  ~ In Ev_free_pollfds (trace run).
Proof.
  vm_compute. repeat split; try discriminate.
  - right. right. right. right. left. reflexivity.
  - intros Hfree. repeat (destruct Hfree as [Hfree | Hfree]; [discriminate Hfree | ]).
    exact Hfree.
Qed.

(* ================================================================== *)
(** * protocol.h: the bytes on the wire *)
(* ================================================================== *)

Lemma header_bytes_serialized `{Host} (h : MessageHeader) :
  header_valid h ->
  header_bytes (message_header_serialize h)
  = rev (to_le 4 (h_type h)) ++ rev (to_le 8 (h_length h))
    ++ rev (to_le 4 (h_flags h)).
Proof.
  intros (Ht & Hl & Hf). unfold is_uint32, is_uint64, UINT32_MAX, UINT64_MAX in *.
  assert (E4 : 256 ^ Z.of_nat 4 = 2 ^ 32) by reflexivity.
  assert (E8 : 256 ^ Z.of_nat 8 = 2 ^ 64) by reflexivity.
  unfold header_bytes, message_header_serialize, htonl, htobe64.
  cbn [h_type h_length h_flags].
  rewrite !mem_repr_hton_big_endian by (rewrite ?E4, ?E8; lia).
  reflexivity.
Qed.

(** X1.  On every host the serialized header occupies 16 bytes in memory,
    and these hold the type at offset 0 (4 bytes), the length at offset 4
    (8 bytes) and the flags at offset 12 (4 bytes), each most significant
    byte first. *)
Theorem wire_header_layout `{Host} (h : MessageHeader) :
  header_valid h ->
  let bs := header_bytes (message_header_serialize h) in
  length bs = 16%nat /\
  Forall is_byte bs /\
  of_be (take 4 bs) = h_type h /\
  of_be (take 8 (drop 4 bs)) = h_length h /\
  of_be (drop 12 bs) = h_flags h.
Proof.
  intros Hvalid bs. subst bs. rewrite (header_bytes_serialized h Hvalid).
  destruct Hvalid as (Ht & Hl & Hf).
  unfold is_uint32, is_uint64, UINT32_MAX, UINT64_MAX in *.
  set (t := rev (to_le 4 (h_type h))).
  set (l := rev (to_le 8 (h_length h))).
  set (f := rev (to_le 4 (h_flags h))).
  assert (Lt : length t = 4%nat) by (unfold t; rewrite length_rev; apply length_to_le).
  assert (Ll : length l = 8%nat) by (unfold l; rewrite length_rev; apply length_to_le).
  assert (Lf : length f = 4%nat) by (unfold f; rewrite length_rev; apply length_to_le).
  assert (Hback : forall n x, 0 <= x < 256 ^ Z.of_nat n ->
                    of_be (rev (to_le n x)) = x).
  { intros n x Hx. unfold of_be. rewrite rev_involutive. apply of_le_to_le, Hx. }
  split; [rewrite !length_app; lia | ].
  split.
  { apply Forall_app_2; [ | apply Forall_app_2]; subst t l f;
      apply Forall_is_byte_rev, to_le_bytes. }
  split.
  { rewrite take_app_length' by (symmetry; exact Lt).
    apply Hback. change (256 ^ Z.of_nat 4) with (2 ^ 32). lia. }
  split.
  { rewrite drop_app_length' by (symmetry; exact Lt).
    rewrite take_app_length' by (symmetry; exact Ll).
    apply Hback. change (256 ^ Z.of_nat 8) with (2 ^ 64). lia. }
  rewrite app_assoc, drop_app_length' by (rewrite length_app; lia).
  apply Hback. change (256 ^ Z.of_nat 4) with (2 ^ 32). lia.
Qed.

Lemma wire_header_layout_witness :
  header_bytes (message_header_serialize hello_header)
  = [0; 0; 0; 1;  0; 0; 0; 0; 0; 0; 0; 5;  0; 0; 0; 0] /\
  of_be (take 8 (drop 4 (header_bytes (message_header_serialize hello_header)))) = 5.
Proof.
  assert (Hv : header_valid hello_header).
  { unfold header_valid, is_uint32, is_uint64, UINT32_MAX, UINT64_MAX,
      hello_header, MSG_TYPE_TEXT, MSG_FLAGS_NONE; cbn. lia. }
  split; [reflexivity | ].
  apply (@wire_header_layout little_endian_host hello_header Hv).
Defined.

(* ================================================================== *)
(** * net_common.c: send_message, and send followed by receive *)
(* ================================================================== *)

Lemma send_message_unfold `{Host} (env : SendEnv) (fd ssl is_ssl : Z) (msg : Message) :
  send_message env fd ssl is_ssl msg
  = (if negb (send_header_ret env =? sizeof_MessageHeader) then -1
     else if has_payload msg
          then if negb (send_payload_ret env =? to_ssize_t (payload_size msg))
               then -1 else 0
          else 0,
     write_event fd ssl is_ssl
       (BufHeader (message_header_serialize (header msg))) sizeof_MessageHeader
     :: (if (send_header_ret env =? sizeof_MessageHeader) && has_payload msg
         then [write_event fd ssl is_ssl (BufPayload (payload msg))
                 (payload_size msg)]
         else [])).
Proof.
  unfold send_message, transport_write, write_event, has_payload.
  set (hp := (0 <? h_length (header msg)) && bool_decide (payload msg <> None)).
  destruct (use_ssl ssl is_ssl);
    cbv beta iota zeta delta [bind ret emit];
    set (ok := send_header_ret env =? sizeof_MessageHeader);
    destruct ok; cbn [negb andb]; try reflexivity;
    destruct hp; cbv beta iota zeta delta [bind ret emit]; try reflexivity;
    set (all := send_payload_ret env =? to_ssize_t (payload_size msg));
    destruct all; reflexivity.
Qed.

(** X2.  [send_message] returns 0 or -1, and 0 exactly when the header write
    returned 16 and, if a payload is due (declared length positive and
    payload non-null), the payload write returned [payload_size].  It calls
    nothing but the transport writes: the 16-byte header always and first,
    and the payload once, only after a complete header write.  After a
    short header write no payload is written. *)
Theorem send_message_outcome `{Host} (env : SendEnv) (fd ssl is_ssl : Z)
    (msg : Message) :
  0 <= payload_size msg <= PTRDIFF_MAX ->
  let out := send_message env fd ssl is_ssl msg in
  let header_write :=
    write_event fd ssl is_ssl
      (BufHeader (message_header_serialize (header msg))) 16 in
  let payload_write :=
    write_event fd ssl is_ssl (BufPayload (payload msg)) (payload_size msg) in
  (result out = 0 \/ result out = -1) /\
  (result out = 0 <->
     send_header_ret env = 16 /\
     (has_payload msg = true -> send_payload_ret env = payload_size msg)) /\
  trace out
  = header_write
    :: (if (send_header_ret env =? 16) && has_payload msg
        then [payload_write] else []) /\
  (send_header_ret env <> 16 -> trace out = [header_write]).
Proof.
  intros Hsize. cbv zeta. rewrite send_message_unfold.
  unfold result, trace, sizeof_MessageHeader. cbn [fst snd].
  rewrite (to_ssize_t_small (payload_size msg) Hsize).
  destruct (Z.eqb_spec (send_header_ret env) 16) as [Hh | Hh]; cbn [negb andb].
  - destruct (has_payload msg).
    + destruct (Z.eqb_spec (send_payload_ret env) (payload_size msg)) as [Hp | Hp];
        cbn [negb]; repeat split; auto; try lia; try tauto;
        try (intros (_ & Habs); specialize (Habs eq_refl); lia).
    + repeat split; auto; try lia; try discriminate; try (intros; contradiction).
  - repeat split; auto; try lia; try (intros (Habs & _); lia).
Qed.

Lemma send_message_outcome_witness :
  trace (send_message {| send_header_ret := 3; send_payload_ret := 5 |} 7 NULL 0
           (message_create_text (Some hello) hello 5))
  = [Ev_send 7 (BufHeader (message_header_serialize hello_header)) 16].
Proof.
  destruct (send_message_outcome {| send_header_ret := 3; send_payload_ret := 5 |}
              7 NULL 0 (message_create_text (Some hello) hello 5))
    as (_ & _ & _ & Hshort).
  - vm_compute. split; discriminate.
  - apply Hshort. discriminate.
Defined.

Lemma to_int_small (x : Z) : 0 <= x <= INT_MAX -> to_int x = x.
Proof.
  unfold to_int, to_signed, INT_MAX. intros Hx.
  rewrite Z.mod_small by lia.
  destruct (Z.ltb_spec x (2 ^ (32 - 1))) as [_ | Hge]; [reflexivity | ].
  change (2 ^ (32 - 1)) with (2 ^ 31) in Hge. lia.
Qed.

Lemma deserialize_serialize `{Host} (h : MessageHeader) :
  header_valid h -> message_header_deserialize (message_header_serialize h) = h.
Proof.
  intros (Ht & Hl & Hf). destruct h as [t l f].
  unfold is_uint32, is_uint64, UINT32_MAX, UINT64_MAX in *. cbn in *.
  unfold message_header_deserialize, message_header_serialize. cbn.
  unfold ntohl, htonl, be64toh, htobe64.
  assert (E4 : 256 ^ Z.of_nat 4 = 2 ^ 32) by reflexivity.
  assert (E8 : 256 ^ Z.of_nat 8 = 2 ^ 64) by reflexivity.
  rewrite !hton_involutive; [reflexivity | | | ]; rewrite ?E4, ?E8; lia.
Qed.

Lemma written_write_event (fd ssl is_ssl : Z) (buf : Buffer) (len : Z)
    (rest : list Event) :
  omap written (write_event fd ssl is_ssl buf len :: rest)
  = (buf, if use_ssl ssl is_ssl then to_int len else len) :: omap written rest.
Proof. unfold write_event. destruct (use_ssl ssl is_ssl); reflexivity. Qed.


(** The writes of a [send_message] that succeeds. *)
Lemma send_message_written `{Host} (env : SendEnv) (fd ssl is_ssl : Z)
    (m : Message) :
  message_ok m -> h_length (header m) <= INT_MAX ->
  result (send_message env fd ssl is_ssl m) = 0 ->
  omap written (trace (send_message env fd ssl is_ssl m))
  = (BufHeader (message_header_serialize (header m)),
     if use_ssl ssl is_ssl then to_int sizeof_MessageHeader
     else sizeof_MessageHeader)
    :: (if 0 <? h_length (header m)
        then [(BufPayload (payload m), h_length (header m))] else []).
Proof.
  intros (Hvalid & Hsize & Hbuf & Hnull) Hmax Hsent.
  assert (Hlow : 0 <= h_length (header m)).
  { destruct Hvalid as (_ & (Hl & _) & _). exact Hl. }
  rewrite send_message_unfold in *. unfold result, trace in *. cbn [fst snd] in *.
  destruct (send_header_ret env =? sizeof_MessageHeader); cbn [negb andb] in *;
    [ | discriminate].
  rewrite written_write_event. f_equal.
  unfold has_payload in *.
  destruct (Z.ltb_spec 0 (h_length (header m))) as [Hpos | Hzero]; cbn [andb] in *.
  - destruct (payload m) as [p | ] eqn:Hp; cbn [buffer_length] in Hbuf; [ | lia].
    rewrite bool_decide_eq_true_2 in * by discriminate.
    rewrite written_write_event, Hsize.
    destruct (use_ssl ssl is_ssl); [rewrite to_int_small by lia | ]; reflexivity.
  - reflexivity.
Qed.


Lemma hello_message_ok : message_ok (message_create_text (Some hello) hello 5).
Proof.
  unfold message_ok, header_valid, is_uint32, is_uint64, UINT32_MAX, UINT64_MAX.
  cbn. unfold MSG_TYPE_TEXT, MSG_FLAGS_NONE. repeat split; try lia; try discriminate.
Qed.


Lemma create_text_without_memory (text : list Byte.byte) (text_len : Z) :
  0 < text_len ->
  payload (message_create_text None text text_len) = None
  /\ h_length (header (message_create_text None text text_len)) = text_len.
Proof.
  intros Hpos. unfold message_create_text.
  destruct (Z.ltb_spec 0 text_len); [split; reflexivity | lia].
Qed.

(** X4.  A message whose header declares a payload but whose buffer is
    null (what [message_create_text] and [message_create_error] return when
    [malloc] fails) is sent by [send_message] as its 16 header bytes only,
    and the call reports success; the peer's [receive_message], given
    exactly what was written, fails with -1. *)
Theorem send_null_payload `{Host} (env : SendEnv) (fd ssl is_ssl : Z)
    (fd' ssl' is_ssl' : Z) (m msg0 : Message) :
  header_valid (header m) -> 0 < h_length (header m) -> payload m = None ->
  send_header_ret env = sizeof_MessageHeader ->
  send_message env fd ssl is_ssl m
  = (0, [write_event fd ssl is_ssl
           (BufHeader (message_header_serialize (header m)))
           sizeof_MessageHeader])
  /\ fst (result (receive_message
                    (delivered (use_ssl ssl' is_ssl')
                       (trace (send_message env fd ssl is_ssl m)))
                    fd' ssl' is_ssl' msg0)) = -1.
Proof.
  intros Hvalid Hpos Hnull Hhdr.
  assert (Hsend : send_message env fd ssl is_ssl m
                  = (0, [write_event fd ssl is_ssl
                           (BufHeader (message_header_serialize (header m)))
                           sizeof_MessageHeader])).
  { rewrite send_message_unfold. unfold has_payload. rewrite Hnull, Hhdr.
    rewrite Z.eqb_refl, bool_decide_eq_false_2 by (intros Habs; apply Habs; reflexivity).
    rewrite andb_false_r. reflexivity. }
  split; [exact Hsend | ].
  rewrite receive_message_result, Hsend. unfold trace. cbn [snd].
  unfold delivered, written_header, written_payload.
  rewrite written_write_event.
  cbn [omap recv_header_ret recv_header_raw recv_malloc recv_payload_ret
       recv_payload_data length].
  rewrite (deserialize_serialize _ Hvalid).
  change (negb (sizeof_MessageHeader =? sizeof_MessageHeader)) with false.
  cbv iota zeta.
  destruct (Z.ltb_spec 0 (h_length (header m))) as [_ | Habs]; [ | lia].
  destruct Hvalid as (_ & (_ & Hmax) & _).
  assert (Hne : to_ssize_t (h_length (header m)) <> 0).
  { unfold to_ssize_t, to_signed, UINT64_MAX in *.
    rewrite Z.mod_small by lia.
    destruct (Z.ltb_spec (h_length (header m)) (2 ^ (64 - 1))); lia. }
  cbn [omap list_omap length].
  change (Z.of_nat 0) with 0.
  assert (Hgot : (if use_ssl ssl' is_ssl'
                  then Z.min (Z.min (h_length (header m)) 0) TLS_RECORD_MAX
                  else Z.min (h_length (header m)) 0) = 0)
    by (unfold TLS_RECORD_MAX; destruct (use_ssl ssl' is_ssl'); lia).
  rewrite Hgot.
  destruct (Z.eqb_spec 0 (to_ssize_t (h_length (header m)))) as [E | _];
    [congruence | reflexivity].
Qed.

Lemma send_null_payload_witness :
  send_message {| send_header_ret := 16; send_payload_ret := 0 |} 7 NULL 0
    (message_create_text None hello 5)
  = (0, [write_event 7 NULL 0
           (BufHeader (message_header_serialize
                         (header (message_create_text None hello 5))))
           sizeof_MessageHeader])
  /\ fst (result (receive_message
                    (delivered (use_ssl NULL 0)
                       (trace (send_message
                                 {| send_header_ret := 16;
                                    send_payload_ret := 0 |} 7 NULL 0
                                 (message_create_text None hello 5))))
                    9 NULL 0 no_message)) = -1.
Proof.
  apply (send_null_payload {| send_header_ret := 16; send_payload_ret := 0 |}
           7 NULL 0 9 NULL 0 (message_create_text None hello 5) no_message).
  - unfold header_valid, is_uint32, is_uint64, UINT32_MAX, UINT64_MAX.
    cbn. unfold MSG_TYPE_TEXT, MSG_FLAGS_NONE. lia.
  - rewrite (proj2 (create_text_without_memory hello 5 eq_refl)). reflexivity.
  - exact (proj1 (create_text_without_memory hello 5 eq_refl)).
  - reflexivity.
Defined.

(* ================================================================== *)
(** * client.c: the outcome of client_connect *)
(* ================================================================== *)

Section ClientConnectOutcome.
Import Client.

Lemma same_session_refl (c : Client) : same_session c c.
Proof. repeat split. Qed.

Lemma same_session_trans (a b c : Client) :
  same_session a b -> same_session b c -> same_session a c.
Proof.
  intros (H1 & H2 & H3 & H4 & H5 & H6 & H7) (G1 & G2 & G3 & G4 & G5 & G6 & G7).
  repeat split; try congruence.
  intros Hoff. rewrite G7, H7; [reflexivity | exact Hoff | congruence].
Qed.

Lemma closed_fds_app (t1 t2 : list Event) :
  closed_fds (t1 ++ t2) = closed_fds t1 ++ closed_fds t2.
Proof. apply omap_app. Qed.

Lemma freed_sessions_app (t1 t2 : list Event) :
  freed_sessions (t1 ++ t2) = freed_sessions t1 ++ freed_sessions t2.
Proof. apply omap_app. Qed.

Lemma retry_or_fail_failed_with next k text c :
  failed_with next k c [] (retry_or_fail next k text c).
Proof.
  exists c, text. split; [apply same_session_refl | ].
  unfold retry_or_fail, backoff_of.
  destruct (k <? max_retries - 1); io_run; split; reflexivity.
Qed.

Lemma failed_with_bind {A : Type} next k c p1 p2 (m : IO A)
    (f : A -> IO (Z * Client)) :
  snd m = p1 ->
  failed_with next k c p2 (f (fst m)) ->
  failed_with next k c (p1 ++ p2) (bind m f).
Proof.
  intros Hm (c' & text & Hsame & Hr & Hs).
  exists c', text. split; [exact Hsame | ]. split.
  - rewrite bind_fst. exact Hr.
  - rewrite bind_snd, Hm, Hs. apply app_assoc.
Qed.

Lemma failed_with_from next k c c0 pre X :
  same_session c0 c -> failed_with next k c pre X -> failed_with next k c0 pre X.
Proof.
  intros Hsame (c' & text & Hc & Hr & Hs).
  exists c', text. split; [ | split; assumption].
  apply (same_session_trans c0 c c'); assumption.
Qed.

Lemma set_socket_timeout_trace (rcv snd_ fd t : Z) :
  snd (set_socket_timeout rcv snd_ fd t) = [Ev_set_socket_timeout fd t].
Proof. unfold set_socket_timeout. io_run; reflexivity. Qed.

Lemma connect_tls_trace (e : AttemptEnv) (fd : Z) :
  snd (connect_tls e fd)
  = Ev_connect_tls fd
    :: (if truthy (SSL_new_ret e) && (SSL_connect_ret e <=? 0)
        then [Ev_SSL_free (SSL_new_ret e)] else []).
Proof.
  unfold connect_tls.
  destruct (truthy (SSL_new_ret e)), (SSL_connect_ret e <=? 0); reflexivity.
Qed.

Lemma after_socket_failed_with next e k c :
  (fd c <? 0) || (rcvtimeo_ret e <? 0) || (sndtimeo_ret e <? 0)
  || (truthy (enable_tls c)
      && (negb (truthy (SSL_new_ret e)) || (SSL_connect_ret e <=? 0))) = true ->
  exists pre,
    failed_with next k c pre (after_socket next e k c) /\
    schedule_of pre = [] /\
    closed_fds pre = (if 0 <=? fd c then [fd c] else []) /\
    freed_sessions pre
    = (if (0 <=? fd c) && negb ((rcvtimeo_ret e <? 0) || (sndtimeo_ret e <? 0))
          && truthy (enable_tls c) && truthy (SSL_new_ret e)
       then [SSL_new_ret e] else []).
Proof.
  intros Hfail. unfold after_socket.
  destruct (Z.ltb_spec (fd c) 0) as [Hneg | Hopen].
  { exists []. split; [apply retry_or_fail_failed_with | ].
    destruct (Z.leb_spec 0 (fd c)); [lia | ]. repeat split. }
  destruct (Z.leb_spec 0 (fd c)) as [_ | Habs]; [ | lia].
  destruct (set_socket_timeout_spec (rcvtimeo_ret e) (sndtimeo_ret e) (fd c)
              (timeout_sec c)) as (Hr & _).
  pose proof (set_socket_timeout_trace (rcvtimeo_ret e) (sndtimeo_ret e) (fd c)
                (timeout_sec c)) as Hs.
  cbn [orb andb] in *.
  destruct ((rcvtimeo_ret e <? 0) || (sndtimeo_ret e <? 0)) eqn:Htimeout.
  - exists ([Ev_set_socket_timeout (fd c) (timeout_sec c)] ++ [Ev_close (fd c)] ++ []).
    split; [ | repeat split].
    apply failed_with_bind; [exact Hs | ].
    rewrite Hr. change (-1 <? 0) with true. cbv iota.
    apply failed_with_bind; [reflexivity | ].
    apply (failed_with_from next k (set_fd c (-1)) c); [repeat split | ].
    apply retry_or_fail_failed_with.
  - cbn [orb negb andb] in *.
    destruct (truthy (enable_tls c)) eqn:Htls; [ | discriminate].
    cbn [andb] in Hfail.
    destruct (connect_tls_spec e (fd c)) as (Ht & _).
    pose proof (connect_tls_trace e (fd c)) as Hts.
    exists ([Ev_set_socket_timeout (fd c) (timeout_sec c)]
            ++ (Ev_connect_tls (fd c)
                :: (if truthy (SSL_new_ret e) && (SSL_connect_ret e <=? 0)
                    then [Ev_SSL_free (SSL_new_ret e)] else []))
            ++ [Ev_close (fd c)] ++ []).
    split; [ | ].
    + apply failed_with_bind; [exact Hs | ].
      rewrite Hr. change (0 <? 0) with false. cbv iota.
      apply failed_with_bind; [exact Hts | ].
      rewrite Ht, Hfail. cbv zeta. change (negb (truthy NULL)) with true. cbv iota.
      apply failed_with_bind; [reflexivity | ].
      apply (failed_with_from next k (set_fd (set_ssl c NULL) (-1)) c).
      { repeat split. cbn [enable_tls]. intros Hoff. congruence. }
      apply retry_or_fail_failed_with.
    + destruct (truthy (SSL_new_ret e)) eqn:Hnew; cbn [negb orb andb] in *.
      * rewrite Hfail. repeat split.
      * repeat split.
Qed.

Lemma connect_unix_socket_closes (e : AttemptEnv) :
  closed_fds (snd (connect_unix_socket e))
  = (if (0 <=? socket_ret e) && (connect_ret e <? 0) then [socket_ret e] else [])
  /\ freed_sessions (snd (connect_unix_socket e)) = [].
Proof.
  unfold connect_unix_socket. cbv zeta.
  destruct (Z.ltb_spec (socket_ret e) 0), (Z.leb_spec 0 (socket_ret e));
    try lia; destruct (connect_ret e <? 0); split; reflexivity.
Qed.

Lemma connect_inet_socket_closes (e : AttemptEnv) :
  closed_fds (snd (connect_inet_socket e))
  = (if (0 <=? socket_ret e)
        && ((inet_aton_ret e =? 0) || (connect_ret e <? 0))
     then [socket_ret e] else [])
  /\ freed_sessions (snd (connect_inet_socket e)) = [].
Proof.
  unfold connect_inet_socket. cbv zeta.
  destruct (Z.ltb_spec (socket_ret e) 0), (Z.leb_spec 0 (socket_ret e));
    try lia; destruct (inet_aton_ret e =? 0), (connect_ret e <? 0);
    split; reflexivity.
Qed.

Lemma connect_loop_failed_with (env : Z -> AttemptEnv) (n : nat) (k : Z)
    (c : Client) :
  (k <? max_retries) = true ->
  attempt_fails (mode c) (enable_tls c) (env k) = true ->
  exists pre,
    failed_with (connect_loop n env (k + 1)) k c pre (connect_loop (S n) env k c) /\
    schedule_of pre = [Attempt] /\
    closed_fds pre = omap (socket_opened (mode c)) [env k] /\
    freed_sessions pre = omap (tls_opened (mode c) (enable_tls c)) [env k].
Proof.
  intros Hlt Hfail. cbn [connect_loop]. rewrite Hlt. cbv zeta.
  unfold attempt_fails, socket_opened, tls_opened in *.
  unfold attempt_fails. change (truthy 0) with false.
  set (e := env k) in *.
  assert (Hcases : forall (P : Prop),
            (socket_ret e < 0 -> (socket_ret e <? 0) = true ->
             (0 <=? socket_ret e) = false -> P) ->
            (0 <= socket_ret e -> (socket_ret e <? 0) = false ->
             (0 <=? socket_ret e) = true -> P) -> P).
  { intros P H1 H2.
    destruct (Z.ltb_spec (socket_ret e) 0), (Z.leb_spec 0 (socket_ret e));
      try lia; [apply H1 | apply H2]; auto. }
  destruct (mode c) eqn:Hmode.
  - destruct (connect_unix_socket_spec e) as (Hr & Hs).
    destruct (connect_unix_socket_closes e) as (Hcl & Hfr).
    destruct (after_socket_failed_with (connect_loop n env (k + 1)) e k
                (set_fd c (fst (connect_unix_socket e))))
      as (pre & Hpre & Hsched & Hclosed & Hfreed).
    { cbn [fd set_fd enable_tls]. rewrite Hr.
      destruct ((socket_ret e <? 0) || (connect_ret e <? 0)) eqn:Hsock.
      - reflexivity.
      - apply orb_false_iff in Hsock as (Hs1 & _). rewrite Hs1. exact Hfail. }
    exists (snd (connect_unix_socket e) ++ pre). split; [ | split; [ | split]].
    + apply failed_with_bind; [reflexivity | ].
      eapply failed_with_from; [ | exact Hpre]; repeat split.
    + rewrite schedule_of_app, Hs, Hsched. reflexivity.
    + rewrite closed_fds_app, Hcl, Hclosed. cbn [fd set_fd omap list_omap].
      rewrite Hr.
      apply Hcases; intros _ E1 E2; rewrite ?E1, ?E2;
        destruct (connect_ret e <? 0); cbn [orb andb app];
        rewrite ?E2; reflexivity.
    + rewrite freed_sessions_app, Hfr, Hfreed.
      cbn [fd set_fd enable_tls omap list_omap]. rewrite Hr.
      apply Hcases; intros _ E1 E2; rewrite ?E1, ?E2;
        destruct (connect_ret e <? 0), (rcvtimeo_ret e <? 0),
          (sndtimeo_ret e <? 0), (truthy (enable_tls c)),
          (truthy (SSL_new_ret e));
        cbn [orb andb negb app]; rewrite ?E2; reflexivity.
  - unfold parse_address. destruct (strdup_ok e) eqn:Hdup.
    + destruct (connect_inet_socket_spec e) as (Hr & Hs).
      destruct (connect_inet_socket_closes e) as (Hcl & Hfr).
      destruct (after_socket_failed_with (connect_loop n env (k + 1)) e k
                  (set_fd c (fst (connect_inet_socket e))))
        as (pre & Hpre & Hsched & Hclosed & Hfreed).
      { cbn [fd set_fd enable_tls]. rewrite Hr. cbn [negb orb] in Hfail.
        destruct ((socket_ret e <? 0) || (inet_aton_ret e =? 0)
                  || (connect_ret e <? 0)) eqn:Hsock.
        - reflexivity.
        - apply orb_false_iff in Hsock as (Hsock & _).
          apply orb_false_iff in Hsock as (Hs1 & _). rewrite Hs1. exact Hfail. }
      exists ([Ev_parse_address] ++ snd (connect_inet_socket e) ++ pre).
      split; [ | split; [ | split]].
      * apply failed_with_bind; [reflexivity | ].
        apply failed_with_bind; [reflexivity | ].
        eapply failed_with_from; [ | exact Hpre]; repeat split.
      * rewrite !schedule_of_app, Hs, Hsched. reflexivity.
      * rewrite !closed_fds_app, Hcl, Hclosed. cbn [fd set_fd omap list_omap].
        rewrite Hr, Hdup.
        apply Hcases; intros _ E1 E2; rewrite ?E1, ?E2;
          destruct (inet_aton_ret e =? 0), (connect_ret e <? 0);
          cbn [orb andb app]; rewrite ?E2; reflexivity.
      * rewrite !freed_sessions_app, Hfr, Hfreed.
        cbn [fd set_fd enable_tls omap list_omap]. rewrite Hr, Hdup.
        apply Hcases; intros _ E1 E2; rewrite ?E1, ?E2;
          destruct (inet_aton_ret e =? 0), (connect_ret e <? 0),
            (rcvtimeo_ret e <? 0), (sndtimeo_ret e <? 0),
            (truthy (enable_tls c)), (truthy (SSL_new_ret e));
          cbn [orb andb negb app]; rewrite ?E2; reflexivity.
    + exists ([Ev_parse_address] ++ []). split; [ | split; [ | split]].
      * apply failed_with_bind; [reflexivity | ].
        apply retry_or_fail_failed_with.
      * reflexivity.
      * cbn [omap list_omap]. rewrite Hdup. reflexivity.
      * cbn [omap list_omap]. rewrite Hdup. reflexivity.
Qed.

Lemma after_socket_connects next e k c :
  (fd c <? 0) || (rcvtimeo_ret e <? 0) || (sndtimeo_ret e <? 0)
  || (truthy (enable_tls c)
      && (negb (truthy (SSL_new_ret e)) || (SSL_connect_ret e <=? 0))) = false ->
  fst (after_socket next e k c)
  = (0, set_connected (if truthy (enable_tls c) then set_ssl c (SSL_new_ret e)
                       else c) 1) /\
  closed_fds (snd (after_socket next e k c)) = [] /\
  freed_sessions (snd (after_socket next e k c)) = [].
Proof.
  intros Hok.
  apply orb_false_iff in Hok as (Hok & Htls).
  apply orb_false_iff in Hok as (Hok & Hsnd).
  apply orb_false_iff in Hok as (Hfd & Hrcv).
  unfold after_socket, finish_connect. rewrite Hfd.
  destruct (set_socket_timeout_spec (rcvtimeo_ret e) (sndtimeo_ret e) (fd c)
              (timeout_sec c)) as (Hr & _).
  rewrite bind_fst, bind_snd, closed_fds_app, freed_sessions_app.
  rewrite set_socket_timeout_trace, Hr, Hrcv, Hsnd.
  cbn [orb app]. change (0 <? 0) with false. cbv iota.
  destruct (truthy (enable_tls c)); cbn [andb] in Htls.
  - destruct (connect_tls_spec e (fd c)) as (Ht & _).
    rewrite bind_fst, bind_snd, closed_fds_app, freed_sessions_app.
    rewrite connect_tls_trace, Ht, Htls. cbv zeta.
    apply orb_false_iff in Htls as (Hnew & Hconn). rewrite Hnew, Hconn.
    rewrite andb_false_r. repeat split.
  - repeat split.
Qed.

Lemma connect_loop_connects (env : Z -> AttemptEnv) (n : nat) (k : Z)
    (c : Client) :
  (k <? max_retries) = true ->
  attempt_fails (mode c) (enable_tls c) (env k) = false ->
  fst (connect_loop (S n) env k c) = (0, connected_as c (env k)) /\
  closed_fds (snd (connect_loop (S n) env k c)) = [] /\
  freed_sessions (snd (connect_loop (S n) env k c)) = [] /\
  0 <= socket_ret (env k).
Proof.
  intros Hlt Hok. cbn [connect_loop]. rewrite Hlt. cbv zeta.
  unfold attempt_fails in Hok.
  set (e := env k) in *.
  destruct (mode c) eqn:Hmode.
  - destruct (connect_unix_socket_spec e) as (Hr & _).
    destruct (connect_unix_socket_closes e) as (Hcl & Hfr).
    rewrite bind_fst, bind_snd, closed_fds_app, freed_sessions_app, Hcl, Hfr, Hr.
    destruct ((socket_ret e <? 0) || (connect_ret e <? 0)) eqn:Hsock;
      [discriminate | ].
    apply orb_false_iff in Hsock as (Hs1 & Hs2).
    destruct (after_socket_connects (connect_loop n env (k + 1)) e k
                (set_fd c (socket_ret e))) as (H1 & H2 & H3).
    { cbn [fd set_fd enable_tls]. rewrite Hs1. exact Hok. }
    rewrite H1, H2, H3, Hs2, andb_false_r. cbn [enable_tls set_fd].
    apply Z.ltb_ge in Hs1.
    unfold connected_as.
    destruct (truthy (enable_tls c)); repeat split; exact Hs1.
  - rewrite bind_fst, bind_snd, closed_fds_app, freed_sessions_app.
    cbn [fst snd emit].
    unfold parse_address.
    destruct (strdup_ok e); [ | discriminate]. cbn [negb orb] in Hok.
    destruct (connect_inet_socket_spec e) as (Hr & _).
    destruct (connect_inet_socket_closes e) as (Hcl & Hfr).
    rewrite bind_fst, bind_snd, closed_fds_app, freed_sessions_app, Hcl, Hfr, Hr.
    destruct ((socket_ret e <? 0) || (inet_aton_ret e =? 0)
              || (connect_ret e <? 0)) eqn:Hsock; [discriminate | ].
    apply orb_false_iff in Hsock as (Hsock & Hs3).
    apply orb_false_iff in Hsock as (Hs1 & Hs2).
    destruct (after_socket_connects (connect_loop n env (k + 1)) e k
                (set_fd c (socket_ret e))) as (H1 & H2 & H3).
    { cbn [fd set_fd enable_tls]. rewrite Hs1. exact Hok. }
    rewrite H1, H2, H3, Hs2, Hs3, andb_false_r. cbn [enable_tls set_fd].
    apply Z.ltb_ge in Hs1.
    unfold connected_as.
    destruct (truthy (enable_tls c)); repeat split; exact Hs1.
Qed.

Lemma retry_events_observed (text : string) (k : Z) (rest : list Event) :
  schedule_of (Ev_log LOG_LEVEL_WARN text :: Ev_sleep (2 ^ k) :: rest)
  = Delay (2 ^ k) :: schedule_of rest /\
  closed_fds (Ev_log LOG_LEVEL_WARN text :: Ev_sleep (2 ^ k) :: rest)
  = closed_fds rest /\
  freed_sessions (Ev_log LOG_LEVEL_WARN text :: Ev_sleep (2 ^ k) :: rest)
  = freed_sessions rest.
Proof. repeat split. Qed.

Lemma omap_cons_app {A B : Type} (f : A -> option B) (x : A) (l : list A) :
  omap f (x :: l) = omap f [x] ++ omap f l.
Proof. change (x :: l) with ([x] ++ l). apply omap_app. Qed.

Lemma connect_loop_outcome (env : Z -> AttemptEnv) (n : nat) :
  forall (k : Z) (c : Client),
    0 <= k -> k + Z.of_nat n = max_retries ->
    let failed := failing_envs n (mode c) (enable_tls c) env k in
    let X := connect_loop n env k c in
    schedule_of (snd X) = retry_schedule (Nat.min n (S (length failed))) k /\
    closed_fds (snd X) = omap (socket_opened (mode c)) failed /\
    freed_sessions (snd X) = omap (tls_opened (mode c) (enable_tls c)) failed /\
    ((length failed < n)%nat ->
       exists c0, same_session c c0 /\
         fst X = (0, connected_as c0 (env (k + Z.of_nat (length failed)))) /\
         0 <= socket_ret (env (k + Z.of_nat (length failed)))) /\
    (length failed = n ->
       fst (fst X) = -1 /\ same_session c (snd (fst X))).
Proof.
  induction n as [| n IH]; intros k c Hk Hsum; cbv zeta.
  { cbn. repeat split; try lia. }
  assert (Hlt : (k <? max_retries) = true) by (apply Z.ltb_lt; lia).
  cbn [failing_envs].
  destruct (attempt_fails (mode c) (enable_tls c) (env k)) eqn:Hfails.
  - destruct (connect_loop_failed_with env n k c Hlt Hfails)
      as (pre & (c' & text & Hsame & Hr & Hs) & Hsched & Hclosed & Hfreed).
    pose proof Hsame as (Hm & _ & Ht & _).
    rewrite Hr, Hs, schedule_of_app, closed_fds_app, freed_sessions_app.
    rewrite Hsched, Hclosed, Hfreed.
    unfold max_retries in *.
    destruct (Z.ltb_spec k (5 - 1)) as [Hmore | Hlast].
    + destruct (retry_events_observed text k (snd (connect_loop n env (k + 1) c')))
        as (E1 & E2 & E3).
      rewrite E1, E2, E3.
      destruct (IH (k + 1) c') as (IH1 & IH2 & IH3 & IH4 & IH5); [lia | lia | ].
      rewrite Hm, Ht in *.
      set (failed := failing_envs n (mode c) (enable_tls c) env (k + 1)) in *.
      rewrite IH1, IH2, IH3. cbn [length].
      split; [ | split; [symmetry; apply omap_cons_app
                        | split; [symmetry; apply omap_cons_app | split]]].
      * change (Nat.min (S n) (S (S (length failed))))
          with (S (Nat.min n (S (length failed)))).
        destruct (Nat.min n (S (length failed))) eqn:Hmin; [lia | reflexivity].
      * intros Hshort. destruct IH4 as (c0 & Hc0 & Hres & Hsock); [lia | ].
        exists c0. split; [apply (same_session_trans c c' c0); assumption | ].
        replace (k + Z.of_nat (S (length failed)))
          with (k + 1 + Z.of_nat (length failed)) by lia.
        split; assumption.
      * intros Hall. destruct IH5 as (Hres & Hc0); [lia | ].
        split; [exact Hres | ].
        apply (same_session_trans c c' _); assumption.
    + assert (n = O) by lia. subst n. cbn [failing_envs length fst snd].
      change (closed_fds []) with (@nil Z).
      change (freed_sessions []) with (@nil Z). rewrite !app_nil_r.
      split; [reflexivity | split; [reflexivity | split; [reflexivity | split]]].
      * intros Habs. lia.
      * intros _. split; [reflexivity | exact Hsame].
  - destruct (connect_loop_connects env n k c Hlt Hfails) as (Hr & Hcl & Hfr & Hsock).
    assert (Hok := Hfails).
    apply (connect_loop_successful_iteration env n k c Hlt) in Hok
      as (_ & _ & Hsched).
    rewrite Hr, Hcl, Hfr, Hsched. cbn [length].
    replace (Nat.min (S n) 1) with 1%nat by lia.
    split; [reflexivity | split; [reflexivity | split; [reflexivity | split]]].
    + intros _. exists c. rewrite Z.add_0_r.
      split; [apply same_session_refl | split; [reflexivity | exact Hsock]].
    + intros Habs. discriminate Habs.
Qed.

Lemma connected_as_same (c c0 : Client) (e : AttemptEnv) :
  same_session c c0 -> connected_as c0 e = connected_as c e.
Proof.
  intros (H1 & H2 & H3 & H4 & H5 & _ & H7). unfold connected_as.
  rewrite H1, H2, H3, H4, H5.
  destruct (truthy (enable_tls c)) eqn:Htls; [reflexivity | ].
  rewrite (H7 eq_refl). reflexivity.
Qed.

(** X5.  The outcome of [client_connect] for every behaviour of the
    environment.  With [failed] the attempts that fail before the first one
    that does not (at most five): the attempts and sleeps are those of
    [length failed] failures, followed by one more attempt if fewer than five
    failed; in that case the call returns 0 and leaves the session connected
    on the socket (and TLS session) of that attempt, with the new timeout,
    and [client_is_connected] holds; when all five fail the call returns -1
    and the mode, address, TLS setting, context and [connected] flag are
    unchanged. *)
Theorem client_connect_outcome (env : Z -> AttemptEnv) (c : Client)
    (timeout : Z) :
  let failed := failing_envs 5 (mode c) (enable_tls c) env 0 in
  let out := client_connect env c timeout in
  schedule_of (trace out) = retry_schedule (Nat.min 5 (S (length failed))) 0 /\
  ((length failed < 5)%nat ->
     result out = (0, connected_as (set_timeout_sec c timeout)
                        (env (Z.of_nat (length failed)))) /\
     client_is_connected (snd (result out)) = true) /\
  (length failed = 5%nat ->
     fst (result out) = -1 /\
     same_session (set_timeout_sec c timeout) (snd (result out))).
Proof.
  cbv zeta. unfold client_connect, result, trace.
  destruct (connect_loop_outcome env (Z.to_nat max_retries) 0
              (set_timeout_sec c timeout)) as (Hs & _ & _ & Hok & Hfail);
    [lia | reflexivity | ].
  change (Z.to_nat max_retries) with 5%nat in *.
  cbn [mode enable_tls set_timeout_sec] in *.
  split; [exact Hs | split].
  - intros Hshort. destruct (Hok Hshort) as (c0 & Hsame & Hres & Hsock).
    rewrite Z.add_0_l in *. rewrite Hres, (connected_as_same _ _ _ Hsame).
    split; [reflexivity | ].
    unfold client_is_connected, connected_as. cbn [snd connected fd].
    apply Z.leb_le in Hsock. rewrite Hsock. reflexivity.
  - exact Hfail.
Qed.

(** X6.  [client_connect] releases what its failed attempts acquired and
    nothing else: the descriptors it closes are exactly the sockets created
    by the failed attempts, each once and in order, and the TLS sessions it
    frees are exactly those created by the failed attempts.  The socket and
    the TLS session of the attempt that connects are neither closed nor
    freed. *)
Theorem client_connect_releases (env : Z -> AttemptEnv) (c : Client)
    (timeout : Z) :
  let failed := failing_envs 5 (mode c) (enable_tls c) env 0 in
  let out := client_connect env c timeout in
  closed_fds (trace out) = omap (socket_opened (mode c)) failed /\
  freed_sessions (trace out) = omap (tls_opened (mode c) (enable_tls c)) failed.
Proof.
  cbv zeta. unfold client_connect, trace.
  destruct (connect_loop_outcome env (Z.to_nat max_retries) 0
              (set_timeout_sec c timeout)) as (_ & Hc & Hf & _);
    [lia | reflexivity | ].
  split; [exact Hc | exact Hf].
Qed.

(** Two refused handshakes, then a connection. *)
Example client_connect_third_attempt :
  let env := fun k => if k <? 2 then handshake_refused
                      else mkAttemptEnv true 4 1 0 0 0 78 1 in
  let c := snd (client_init true 55 SOCKET_MODE_INET "127.0.0.1:9000" 1) in
  let out := client_connect env c 5 in
  fst (result out) = 0 /\ fd (snd (result out)) = 4 /\
  ssl (snd (result out)) = 78 /\
  delays (trace out) = [1; 2] /\
  closed_fds (trace out) = [3; 3] /\
  freed_sessions (trace out) = [77; 77].
Proof. vm_compute. repeat split. Qed.

End ClientConnectOutcome.

(* ================================================================== *)
(** * client.c: client_send_text, and the exchange with the server *)
(* ================================================================== *)

Section TextExchange.
Import Server.
Context {D : Type} `{Host} `{DoubleOps D}.

Lemma send_message_status (env : SendEnv) (fd ssl is_ssl : Z) (m : Message) :
  result (send_message env fd ssl is_ssl m) = 0 \/
  result (send_message env fd ssl is_ssl m) = -1.
Proof.
  rewrite send_message_unfold. unfold result. cbn [fst].
  destruct (negb _); [right; reflexivity | ].
  destruct (has_payload m); [ | left; reflexivity].
  destruct (negb _); [right | left]; reflexivity.
Qed.

Lemma receive_message_status (env : RecvEnv) (fd ssl is_ssl : Z) (msg0 : Message) :
  fst (result (receive_message env fd ssl is_ssl msg0)) = 0 \/
  fst (result (receive_message env fd ssl is_ssl msg0)) = -1.
Proof.
  rewrite receive_message_result. cbv zeta.
  destruct (negb _); [right; reflexivity | ].
  destruct (0 <? _); [ | left; reflexivity].
  destruct (recv_malloc env); [ | right; reflexivity].
  destruct (negb _); [right | left]; reflexivity.
Qed.

(** X7.  [client_send_text] returns 0 or -1, and 0 exactly when the session
    is connected, the text message was sent, a message was received in
    return and its type is Ack.  On a session that is not connected it
    neither writes nor reads; when the send fails it does not read. *)
Theorem client_send_text_outcome (alloc : malloc_result) (senv : SendEnv)
    (renv : RecvEnv) (uninit_ack : Message) (c : Client.Client)
    (text : list Byte.byte) (text_len : Z) :
  let msg := message_create_text alloc text text_len in
  let sent := send_message senv (Client.fd c) (Client.ssl c)
                (Client.enable_tls c) msg in
  let reply := receive_message renv (Client.fd c) (Client.ssl c)
                 (Client.enable_tls c) uninit_ack in
  let out := Client.client_send_text alloc senv renv uninit_ack c text text_len in
  (result out = 0 \/ result out = -1) /\
  (result out = 0 <->
     Client.client_is_connected c = true /\ result sent = 0 /\
     fst (result reply) = 0 /\
     h_type (header (snd (result reply))) = MSG_TYPE_ACK) /\
  (Client.client_is_connected c = false ->
     List.filter is_write (trace out) = [] /\
     List.filter is_read (trace out) = []) /\
  (Client.client_is_connected c = true -> result sent <> 0 ->
     trace out = trace sent).
Proof.
  cbv zeta. unfold Client.client_send_text.
  destruct (Client.client_is_connected c).
  - cbn [negb].
    set (sent := send_message senv (Client.fd c) (Client.ssl c)
                   (Client.enable_tls c)
                   (message_create_text alloc text text_len)).
    set (reply := receive_message renv (Client.fd c) (Client.ssl c)
                    (Client.enable_tls c) uninit_ack).
    pose proof (send_message_status senv (Client.fd c) (Client.ssl c)
                  (Client.enable_tls c)
                  (message_create_text alloc text text_len)) as Hsent.
    pose proof (receive_message_status renv (Client.fd c) (Client.ssl c)
                  (Client.enable_tls c) uninit_ack) as Hreply.
    fold sent in Hsent. fold reply in Hreply.
    unfold result, trace in *. rewrite bind_fst, bind_snd.
    destruct Hsent as [Hsent | Hsent]; rewrite Hsent.
    + change (0 <? 0) with false. cbv iota.
      rewrite bind_fst. destruct (fst reply) as [status ack].
      cbn [fst snd] in *.
      destruct Hreply as [Hreply | Hreply]; rewrite Hreply.
      * change (0 <? 0) with false. cbv iota.
        destruct (Z.eqb_spec (h_type (header ack)) MSG_TYPE_ACK) as [Hack | Hack];
          cbn [negb fst ret bind logger_error emit];
          (split; [auto | ]); (split; [ | split; [discriminate | ]]);
          try (intros _ Habs; contradiction); split; auto;
          try discriminate; try tauto.
      * change (-1 <? 0) with true. cbv iota. cbn [fst ret].
        split; [auto | ]. split; [ | split; [discriminate | ]].
        -- split; [discriminate | intros (_ & _ & Habs & _); discriminate].
        -- intros _ Habs. contradiction.
    + change (-1 <? 0) with true. cbv iota. cbn [fst snd ret].
      split; [auto | ]. split; [ | split; [discriminate | ]].
      * split; [discriminate | intros (_ & Habs & _); discriminate].
      * intros _ _. apply app_nil_r.
  - cbn [negb]. unfold result, trace, logger_error. cbn.
    split; [auto | ]. split; [ | split; [ | discriminate]].
    + split; [discriminate | intros (Habs & _); discriminate].
    + intros _. split; reflexivity.
Qed.



Lemma receive_message_unwritten (env : RecvEnv) (fd ssl is_ssl : Z)
    (msg0 : Message) :
  omap written (trace (receive_message env fd ssl is_ssl msg0)) = [] /\
  handler_calls (trace (receive_message env fd ssl is_ssl msg0)) = [].
Proof.
  unfold receive_message, transport_read.
  destruct (use_ssl ssl is_ssl); io_cases; split; reflexivity.
Qed.




End TextExchange.


(* ================================================================== *)
(** * server.c: add_client, accept_new_connection *)
(* ================================================================== *)

Section AcceptConnection.
Import Server.
Context {D : Type}.

Lemma length_live (s : Server D) :
  table_ok s -> length (live s) = Z.to_nat (client_count s).
Proof.
  intros ((Hlow & Hhigh) & Hcap & _). unfold live. rewrite length_take. lia.
Qed.

Lemma removal_trace_closes (client : ClientConnection) :
  closed_fds (removal_trace client) = [fd client] /\
  freed_sessions (removal_trace client)
  = (if truthy (is_ssl client) && truthy (ssl client) then [ssl client] else []).
Proof.
  unfold removal_trace.
  destruct (truthy (is_ssl client) && truthy (ssl client)); split; reflexivity.
Qed.

(** What [add_client] leaves outside the live entries. *)
Lemma add_client_counters (alloc : realloc_clients_result) (s : Server D)
    (fd ssl : Z) :
  (client_capacity s <= client_count s -> alloc <> None) ->
  let s' := result (add_client alloc s fd ssl) in
  total_clients s' = wrap64 (total_clients s + 1) /\
  client_capacity s'
  = (if client_capacity s <=? client_count s then doubled_capacity s
     else client_capacity s) /\
  trace (add_client alloc s fd ssl)
  = (if client_capacity s <=? client_count s
     then [Ev_realloc (wrap64 (doubled_capacity s * sizeof_ClientConnection))]
     else []).
Proof.
  intros Halloc. cbv zeta. unfold add_client. fold (doubled_capacity s).
  destruct (Z.leb_spec (client_capacity s) (client_count s)) as [Hfull | Hroom].
  - destruct alloc as [fresh | ]; [ | destruct (Halloc Hfull eq_refl)].
    repeat split.
  - repeat split.
Qed.

(** X9.  Adding a connection and removing it again.  On a well-formed
    table with room, or whose array [realloc] extends as asked,
    [add_client] appends the entry for [fd] and [ssl] after the live
    entries, marks it as TLS exactly when [ssl] is non-null, counts one more
    client in [total_clients], and keeps the capacity or grows it to 8 from
    0 and to its double otherwise.  [remove_client] at the index of the new
    entry then restores the live entries and their count, closes exactly
    [fd], frees [ssl] exactly when it is non-null, and leaves
    [total_clients] and the capacity as [add_client] set them. *)
Theorem add_then_remove_client (alloc : realloc_clients_result) (s : Server D)
    (fd ssl : Z) :
  table_ok s -> client_capacity s < 2 ^ 63 ->
  (client_capacity s <= client_count s ->
   exists fresh, alloc = Some fresh /\
     Z.of_nat (length fresh) = doubled_capacity s - client_capacity s) ->
  let s1 := result (add_client alloc s fd ssl) in
  let removal := remove_client s1 (client_count s) in
  live s1 = live s ++ [new_entry fd ssl] /\
  total_clients s1 = wrap64 (total_clients s + 1) /\
  client_capacity s1
  = (if client_capacity s <=? client_count s then doubled_capacity s
     else client_capacity s) /\
  live (result removal) = live s /\
  client_count (result removal) = client_count s /\
  closed_fds (trace removal) = [fd] /\
  freed_sessions (trace removal) = (if truthy ssl then [ssl] else []) /\
  total_clients (result removal) = total_clients s1 /\
  client_capacity (result removal) = client_capacity s1 /\
  table_ok (result removal).
Proof.
  intros Hok Hbound Halloc. cbv zeta.
  destruct (add_client_appends alloc s fd ssl Hok Hbound Halloc)
    as (Hlive & Hcount & Hok1).
  destruct (add_client_counters alloc s fd ssl) as (Htotal & Hcapacity & _).
  { intros Hfull. destruct (Halloc Hfull) as (fresh & -> & _). discriminate. }
  set (s1 := result (add_client alloc s fd ssl)) in *.
  pose proof Hok as ((Hlow & Hhigh) & Hcap & Hsize).
  pose proof Hok1 as ((Hlow1 & Hhigh1) & Hcap1 & Hsize1).
  assert (Hentry : clients s1 !!! Z.to_nat (client_count s) = new_entry fd ssl).
  { apply list_lookup_total_correct.
    assert (Hl : live s1 !! Z.to_nat (client_count s) = Some (new_entry fd ssl)).
    { rewrite Hlive, <- (length_live s Hok). apply list_lookup_middle. reflexivity. }
    unfold live in Hl. rewrite lookup_take_lt in Hl by lia. exact Hl. }
  rewrite (remove_client_in_range s1 (client_count s)) by lia.
  unfold result, trace. cbn [fst snd].
  rewrite Hentry.
  destruct (removal_trace_closes (new_entry fd ssl)) as (Hclosed & Hfreed).
  rewrite Hclosed, Hfreed.
  assert (Hwrap : wrap64 (client_count s1 - 1) = client_count s).
  { rewrite Hcount. unfold SIZE_MAX in *. rewrite wrap64_small by lia. lia. }
  split; [exact Hlive | ]. split; [exact Htotal | ]. split; [exact Hcapacity | ].
  split; [ | split; [ | split; [ | split; [ | split; [ | split]]]]].
  - unfold live at 1. cbn [set_table clients client_count]. rewrite Hwrap.
    replace (client_count s) with (client_count s1 - 1) at 1 by lia.
    rewrite shift_clients_live by lia.
    fold (live s1). rewrite Hlive, <- (length_live s Hok).
    rewrite delete_middle. apply app_nil_r.
  - cbn [set_table client_count]. exact Hwrap.
  - reflexivity.
  - unfold new_entry. cbn [is_ssl Server.ssl].
    destruct (truthy ssl); reflexivity.
  - reflexivity.
  - reflexivity.
  - unfold table_ok, shift_clients.
    cbn [set_table clients client_count client_capacity].
    rewrite length_shift_loop, Hwrap. lia.
Qed.

Lemma accept_new_connection_unfold (e : AcceptEnv) (s : Server D) :
  accept_new_connection e s
  = if accept_ret e <? 0 then
      (s, Ev_accept (server_fd s)
          :: (if negb (accept_errno e =? EAGAIN)
                 && negb (accept_errno e =? EWOULDBLOCK)
              then [Ev_log LOG_LEVEL_ERROR "Accept error"] else []))
    else if truthy (enable_tls s) then
      if negb (truthy (SSL_new_ret e)) || (SSL_accept_ret e <=? 0) then
        (s, [Ev_accept (server_fd s); Ev_accept_tls_connection (accept_ret e)]
            ++ (if truthy (SSL_new_ret e) then [Ev_SSL_free (SSL_new_ret e)]
                else [])
            ++ [Ev_close (accept_ret e)])
      else
        (fst (add_client (add_client_realloc e) s (accept_ret e) (SSL_new_ret e)),
         [Ev_accept (server_fd s); Ev_accept_tls_connection (accept_ret e)]
         ++ snd (add_client (add_client_realloc e) s (accept_ret e)
                   (SSL_new_ret e))
         ++ [Ev_log LOG_LEVEL_INFO "New client connected"])
    else
      (fst (add_client (add_client_realloc e) s (accept_ret e) NULL),
       [Ev_accept (server_fd s)]
       ++ snd (add_client (add_client_realloc e) s (accept_ret e) NULL)
       ++ [Ev_log LOG_LEVEL_INFO "New client connected"]).
Proof.
  unfold accept_new_connection, accept_tls_connection, logger_info, logger_error.
  cbv zeta.
  destruct (accept_ret e <? 0).
  { destruct (negb (accept_errno e =? EAGAIN)
              && negb (accept_errno e =? EWOULDBLOCK)); reflexivity. }
  destruct (truthy (enable_tls s)).
  - destruct (truthy (SSL_new_ret e)) eqn:Hnew; cbn [negb orb];
      [destruct (SSL_accept_ret e <=? 0) | ];
      apply injective_projections; cbn [fst snd];
      repeat first [ rewrite bind_fst | rewrite bind_snd | rewrite Hnew
                   | progress cbn [fst snd emit ret negb orb app] ];
      rewrite ?app_nil_r; reflexivity.
  - apply injective_projections; cbn [fst snd];
      repeat first [ rewrite bind_fst | rewrite bind_snd
                   | progress cbn [fst snd emit ret negb orb app] ];
      rewrite ?app_nil_r; reflexivity.
Qed.

(** X10.  What [accept_new_connection] does with the accepted descriptor.
    (1) When [accept] fails the server is unchanged and nothing is closed.
    (2) When the TLS handshake fails the server is unchanged, the accepted
    descriptor is closed and the TLS session, if one was created, is freed.
    (3) When the connection reaches [add_client] and the table has room or
    can grow, the connection becomes the last live entry, one more client is
    counted and nothing is closed.  (4) When it reaches [add_client] and
    the [realloc] of a full table fails, the server is unchanged, but the
    accepted descriptor is not closed and its TLS session is not freed, and
    the call still ends by logging a new client. *)
Theorem accept_new_connection_accounting (e : AcceptEnv) (s : Server D) :
  let out := accept_new_connection e s in
  let session := if truthy (enable_tls s) then SSL_new_ret e else NULL in
  (accept_ret e < 0 ->
     result out = s /\ closed_fds (trace out) = [] /\
     freed_sessions (trace out) = []) /\
  (0 <= accept_ret e -> truthy (enable_tls s) = true ->
   negb (truthy (SSL_new_ret e)) || (SSL_accept_ret e <=? 0) = true ->
     result out = s /\ closed_fds (trace out) = [accept_ret e] /\
     freed_sessions (trace out)
     = (if truthy (SSL_new_ret e) then [SSL_new_ret e] else [])) /\
  (reaches_add_client s e -> table_ok s -> client_capacity s < 2 ^ 63 ->
   (client_capacity s <= client_count s ->
    exists fresh, add_client_realloc e = Some fresh /\
      Z.of_nat (length fresh) = doubled_capacity s - client_capacity s) ->
     live (result out) = live s ++ [new_entry (accept_ret e) session] /\
     total_clients (result out) = wrap64 (total_clients s + 1) /\
     closed_fds (trace out) = [] /\ freed_sessions (trace out) = []) /\
  (reaches_add_client s e -> client_capacity s <= client_count s ->
   add_client_realloc e = None ->
     result out = s /\ closed_fds (trace out) = [] /\
     freed_sessions (trace out) = [] /\
     last (trace out) = Some (Ev_log LOG_LEVEL_INFO "New client connected")).
Proof.
  cbv zeta. rewrite accept_new_connection_unfold. unfold result, trace.
  assert (Hreach : reaches_add_client s e ->
            (accept_ret e <? 0) = false /\
            (truthy (enable_tls s) = true ->
             negb (truthy (SSL_new_ret e)) || (SSL_accept_ret e <=? 0) = false)).
  { intros (Hfd & Hshake). split; [apply Z.ltb_ge; exact Hfd | ].
    intros Htls. destruct Hshake as [Hplain | (Hnew & Haccept)]; [congruence | ].
    rewrite Hnew. cbn [negb orb]. apply Z.leb_gt. exact Haccept. }
  split; [ | split; [ | split]].
  - intros Hneg. apply Z.ltb_lt in Hneg. rewrite Hneg. cbn [fst snd].
    destruct (negb (accept_errno e =? EAGAIN)
              && negb (accept_errno e =? EWOULDBLOCK)); repeat split.
  - intros Hfd Htls Hshake. apply Z.ltb_ge in Hfd.
    rewrite Hfd, Htls, Hshake. cbn [fst snd].
    destruct (truthy (SSL_new_ret e)); repeat split.
  - intros Hr Hok Hbound Halloc. destruct (Hreach Hr) as (Hfd & Hshake).
    rewrite Hfd.
    assert (Hadd : forall ssl,
              let a := add_client (add_client_realloc e) s (accept_ret e) ssl in
              live (fst a) = live s ++ [new_entry (accept_ret e) ssl] /\
              total_clients (fst a) = wrap64 (total_clients s + 1) /\
              closed_fds (snd a) = [] /\ freed_sessions (snd a) = []).
    { intros ssl. cbv zeta.
      destruct (add_client_appends (add_client_realloc e) s (accept_ret e) ssl
                  Hok Hbound Halloc) as (Hlive & _).
      destruct (add_client_counters (add_client_realloc e) s (accept_ret e) ssl)
        as (Htotal & _ & Htrace).
      { intros Hfull. destruct (Halloc Hfull) as (fresh & -> & _). discriminate. }
      unfold result, trace in *. rewrite Htrace.
      split; [exact Hlive | ]. split; [exact Htotal | ].
      destruct (client_capacity s <=? client_count s); split; reflexivity. }
    destruct (truthy (enable_tls s)).
    + rewrite (Hshake eq_refl). cbn [fst snd].
      destruct (Hadd (SSL_new_ret e)) as (H1 & H2 & H3 & H4).
      rewrite !closed_fds_app, !freed_sessions_app, H3, H4.
      repeat split; assumption.
    + cbn [fst snd].
      destruct (Hadd NULL) as (H1 & H2 & H3 & H4).
      rewrite !closed_fds_app, !freed_sessions_app, H3, H4.
      repeat split; assumption.
  - intros Hr Hfull Halloc. destruct (Hreach Hr) as (Hfd & Hshake).
    rewrite Hfd, Halloc.
    assert (Hadd : forall ssl,
              let a := add_client None s (accept_ret e) ssl in
              fst a = s /\ closed_fds (snd a) = [] /\ freed_sessions (snd a) = []).
    { intros ssl. cbv zeta.
      destruct (add_client_alloc_failure s (accept_ret e) ssl Hfull)
        as (bytes & ->).
      repeat split. }
    destruct (truthy (enable_tls s)).
    + rewrite (Hshake eq_refl). cbn [fst snd].
      destruct (Hadd (SSL_new_ret e)) as (H1 & H3 & H4).
      rewrite !closed_fds_app, !freed_sessions_app, H3, H4, !app_assoc, last_snoc.
      repeat split; assumption.
    + cbn [fst snd].
      destruct (Hadd NULL) as (H1 & H3 & H4).
      rewrite !closed_fds_app, !freed_sessions_app, H3, H4, !app_assoc, last_snoc.
      repeat split; assumption.
Qed.

End AcceptConnection.

Lemma add_then_remove_client_witness :
  let s1 := result (Server.add_client (Some (repeat (conn 0) 8)) listening_server
                      7 NULL) in
  live s1 = [conn 7] /\ Server.client_capacity s1 = 8 /\
  live (result (Server.remove_client s1 0)) = [] /\
  closed_fds (trace (Server.remove_client s1 0)) = [7].
Proof.
  destruct (add_then_remove_client (Some (repeat (conn 0) 8)) listening_server
              7 NULL)
    as (Hlive & _ & Hcap & Hback & _ & Hclosed & _).
  - unfold table_ok, SIZE_MAX. cbn. lia.
  - cbn. lia.
  - intros _. exists (repeat (conn 0) 8). split; reflexivity.
  - cbv zeta. repeat split; assumption.
Defined.

Lemma accept_new_connection_accounting_witness :
  let e := Server.accept_env accept_without_memory in
  result (Server.accept_new_connection e listening_server) = listening_server /\
  closed_fds (trace (Server.accept_new_connection e listening_server)) = [] /\
  last (trace (Server.accept_new_connection e listening_server))
  = Some (Ev_log LOG_LEVEL_INFO "New client connected").
Proof.
  destruct (accept_new_connection_accounting
              (Server.accept_env accept_without_memory) listening_server)
    as (_ & _ & _ & Hleak).
  destruct Hleak as (Hres & Hclosed & _ & Hlast).
  - split; [cbn; lia | left; reflexivity].
  - cbn. lia.
  - reflexivity.
  - cbv zeta. repeat split; assumption.
Defined.

(* ================================================================== *)
(** * server.c: the loop over the client sockets *)
(* ================================================================== *)

Section ClientSockets.
Import Server.
Context {D : Type} `{Host} `{DoubleOps D}.

Lemma accounted_refl (s : Server D) : table_ok s -> accounted s s [].
Proof.
  intros Hok. split; [exact Hok | ].
  split; [reflexivity | split; [reflexivity | split; reflexivity]].
Qed.

Lemma accounted_trans (s s1 s2 : Server D) (t1 t2 : list Event) :
  accounted s s1 t1 -> accounted s1 s2 t2 -> accounted s s2 (t1 ++ t2).
Proof.
  intros (_ & Hp1 & Hs1 & Hc1 & Ht1) (Hok & Hp2 & Hs2 & Hc2 & Ht2).
  split; [exact Hok | ]. split; [ | split; [ | split; congruence]].
  - rewrite closed_fds_app, Hp1, Hp2. rewrite app_assoc. reflexivity.
  - transitivity (live s1); assumption.
Qed.

Lemma remove_client_accounted (s : Server D) (index : Z) :
  table_ok s -> 0 <= index ->
  accounted s (result (remove_client s index)) (trace (remove_client s index)).
Proof.
  intros Hok Hindex. pose proof Hok as ((Hlow & Hhigh) & Hcap & Hsize).
  destruct (Z.lt_ge_cases index (client_count s)) as [Hin | Hout].
  - rewrite remove_client_in_range by lia. unfold result, trace. cbn [fst snd].
    unfold SIZE_MAX in *.
    assert (Hlive : live (set_table s
                            (shift_clients index (client_count s) (clients s))
                            (wrap64 (client_count s - 1)) (client_capacity s))
                    = delete (Z.to_nat index) (live s)).
    { unfold live. cbn [set_table clients client_count].
      rewrite wrap64_small by lia.
      apply shift_clients_live; unfold SIZE_MAX; lia. }
    assert (Hremoved : live s !! Z.to_nat index
                       = Some (clients s !!! Z.to_nat index)).
    { unfold live. rewrite lookup_take_lt by lia.
      apply list_lookup_lookup_total_lt. lia. }
    destruct (removal_trace_closes (clients s !!! Z.to_nat index)) as (Hclosed & _).
    split; [ | split; [ | split; [ | split; reflexivity]]].
    + unfold table_ok, shift_clients.
      cbn [set_table clients client_count client_capacity].
      rewrite length_shift_loop, wrap64_small by lia. unfold SIZE_MAX. lia.
    + rewrite Hclosed, Hlive. cbn [app].
      rewrite (delete_Permutation _ _ _ Hremoved) at 1. reflexivity.
    + rewrite Hlive. apply sublist_delete.
  - unfold remove_client.
    destruct (Z.leb_spec (client_count s) index) as [_ | Hlt]; [ | lia].
    apply accounted_refl, Hok.
Qed.

Lemma receive_message_closes_nothing (env : RecvEnv) (fd ssl is_ssl : Z)
    (msg0 : Message) :
  closed_fds (trace (receive_message env fd ssl is_ssl msg0)) = [].
Proof.
  unfold receive_message, transport_read.
  destruct (use_ssl ssl is_ssl); io_cases; reflexivity.
Qed.

Lemma handle_client_message_accounted (e : HandleEnv) (handler : bool)
    (s : Server D) (client_index : Z) :
  table_ok s -> 0 <= client_index ->
  accounted s (result (handle_client_message e handler s client_index))
    (trace (handle_client_message e handler s client_index)).
Proof.
  intros Hok Hindex.
  set (client := clients s !!! Z.to_nat client_index).
  pose proof (receive_message_closes_nothing (recv_env e) (fd client)
                (ssl client) (is_ssl client) (uninit_msg e)) as Hquiet.
  destruct (receive_message_status (recv_env e) (fd client) (ssl client)
              (is_ssl client) (uninit_msg e)) as [Hgood | Hbad].
  - destruct (handle_client_message_received e handler s client_index Hgood)
      as (Hres & Htrace).
    rewrite Hres. cbv zeta in Htrace. fold client in Htrace.
    assert (Hclosed : closed_fds (trace (handle_client_message e handler s
                                           client_index)) = []).
    { rewrite Htrace, !closed_fds_app, Hquiet. cbn [app].
      destruct handler, (h_type _ =? MSG_TYPE_ACK); try reflexivity;
        unfold ack_write; destruct (use_ssl (ssl client) (is_ssl client));
        reflexivity. }
    unfold accounted. rewrite Hclosed.
    repeat split; try apply Hok; reflexivity.
  - destruct (handle_client_message_receive_failure e handler s client_index)
      as (Hres & Htrace).
    { unfold received. fold client. rewrite Hbad. lia. }
    rewrite Hres. cbv zeta in Htrace. fold client in Htrace. rewrite Htrace.
    apply (accounted_trans s s); [ | apply remove_client_accounted; assumption].
    unfold accounted. rewrite Hquiet.
    repeat split; try apply Hok; reflexivity.
Qed.

Lemma check_client_sockets_accounted (e : LoopEnv) (handler : bool)
    (fuel : nat) :
  forall (step : nat) (i pollfd_count : Z) (s : Server D),
    table_ok s ->
    accounted s
      (result (check_client_sockets fuel e handler step i pollfd_count s))
      (trace (check_client_sockets fuel e handler step i pollfd_count s)).
Proof.
  induction fuel as [| fuel IH]; intros step i pollfd_count s Hok;
    [apply accounted_refl, Hok | ].
  cbn [check_client_sockets]. cbv zeta.
  destruct (i <? pollfd_count); [ | apply accounted_refl, Hok].
  destruct (client_count s <=? wrap64 (i - 1)); [apply IH, Hok | ].
  assert (Hindex : 0 <= wrap64 (i - 1)).
  { unfold wrap64. apply Z.mod_pos_bound. lia. }
  set (revents := nth (Z.to_nat i) (poll_revents e) 0).
  set (first := if truthy (Z.land revents POLLIN)
                then handle_client_message (handle_env e step) handler s
                       (wrap64 (i - 1))
                else ret s).
  assert (Hfirst : accounted s (fst first) (snd first)).
  { subst first. destruct (truthy (Z.land revents POLLIN)).
    - apply handle_client_message_accounted; assumption.
    - apply accounted_refl, Hok. }
  unfold result, trace in *. rewrite bind_fst, bind_snd.
  apply (accounted_trans s (fst first)); [exact Hfirst | ].
  pose proof Hfirst as (Hok1 & _).
  destruct (truthy (Z.land revents (Z.lor POLLHUP POLLERR))).
  - rewrite bind_fst, bind_snd.
    pose proof (remove_client_accounted (fst first) (wrap64 (i - 1)) Hok1 Hindex)
      as Hremove.
    apply (accounted_trans _ _ _ _ _ Hremove).
    apply IH. apply Hremove.
  - apply IH, Hok1.
Qed.

(** X11.  The loop over the client sockets of [run_event_loop] accounts for
    every descriptor on a well-formed table, from every index on and for
    every number of descriptors polled (the table is one entry longer than
    the poll set when a connection was accepted in the same iteration),
    whatever [poll] reported and whatever the receives and sends returned:
    each connection that was live before the loop is either still live
    after it or was closed during it, exactly once; the survivors keep
    their order, no connection appears, and the capacity and
    [total_clients] are unchanged. *)
Theorem check_client_sockets_accounts (e : LoopEnv) (handler : bool)
    (fuel step : nat) (i pollfd_count : Z) (s : Server D) :
  table_ok s ->
  let out := check_client_sockets fuel e handler step i pollfd_count s in
  table_ok (result out) /\
  map fd (live s) ≡ₚ closed_fds (trace out) ++ map fd (live (result out)) /\
  sublist (live (result out)) (live s) /\
  client_capacity (result out) = client_capacity s /\
  total_clients (result out) = total_clients s.
Proof.
  intros Hok. cbv zeta.
  apply (check_client_sockets_accounted e handler fuel step i pollfd_count s Hok).
Qed.

Lemma bind_ret_l {A B : Type} (a : A) (f : A -> IO B) : bind (ret a) f = f a.
Proof. unfold bind, ret. destruct (f a). reflexivity. Qed.

(** The loop passes over sockets on which nothing happened. *)
Lemma check_quiet_sockets (e : LoopEnv) (handler : bool) (d : nat) :
  forall (fuel step : nat) (i pollfd_count : Z) (s : Server D),
    1 <= i -> i + Z.of_nat d <= pollfd_count -> pollfd_count < 2 ^ 64 ->
    i - 1 + Z.of_nat d <= client_count s ->
    (forall k, i <= k < i + Z.of_nat d ->
       quiet (nth (Z.to_nat k) (poll_revents e) 0) = true) ->
    check_client_sockets (d + fuel) e handler step i pollfd_count s
    = check_client_sockets fuel e handler (d + step) (i + Z.of_nat d)
        pollfd_count s.
Proof.
  induction d as [| d IH]; intros fuel step i pollfd_count s Hi Hpc Hmax Hcount Hq.
  - cbn [Nat.add]. rewrite Z.add_0_r. reflexivity.
  - cbn [Nat.add check_client_sockets]. cbv zeta.
    destruct (Z.ltb_spec i pollfd_count) as [_ | Habs]; [ | lia].
    rewrite (wrap64_small (i - 1)) by lia.
    destruct (Z.leb_spec (client_count s) (i - 1)) as [Habs | _]; [lia | ].
    pose proof (Hq i ltac:(lia)) as Hquiet. unfold quiet in Hquiet.
    apply andb_true_iff in Hquiet as (Hin & Hup).
    apply negb_true_iff in Hin. apply negb_true_iff in Hup.
    rewrite Hin, Hup, bind_ret_l.
    rewrite (wrap64_small (i + 1)) by lia.
    rewrite IH by (try lia; intros k Hk; apply Hq; lia).
    rewrite Nat.add_succ_r. f_equal. lia.
Qed.

Lemma remove_client_live (s : Server D) (index : Z) :
  table_ok s -> 0 <= index < client_count s ->
  let client := clients s !!! Z.to_nat index in
  live (fst (remove_client s index)) = delete (Z.to_nat index) (live s) /\
  snd (remove_client s index) = removal_trace client /\
  live s !! Z.to_nat index = Some client /\
  client_count (fst (remove_client s index)) = client_count s - 1 /\
  table_ok (fst (remove_client s index)).
Proof.
  intros ((Hlow & Hhigh) & Hcap & Hsize) Hindex. cbv zeta.
  rewrite remove_client_in_range by lia. cbn [fst snd].
  unfold SIZE_MAX in *.
  split; [ | split; [reflexivity | split; [ | split]]].
  - unfold live. cbn [set_table clients client_count].
    rewrite wrap64_small by lia.
    apply shift_clients_live; unfold SIZE_MAX; lia.
  - unfold live. rewrite lookup_take_lt by lia.
    apply list_lookup_lookup_total_lt. lia.
  - cbn [set_table client_count]. apply wrap64_small. lia.
  - unfold table_ok, shift_clients.
    cbn [set_table clients client_count client_capacity].
    rewrite length_shift_loop, wrap64_small by lia. unfold SIZE_MAX. lia.
Qed.

Lemma from_slot_refl (j : Z) (s : Server D) :
  table_ok s -> j <= client_count s -> from_slot j s s [].
Proof. intros Hok Hj. split; [exact Hok | ]. repeat split; lia. Qed.

Lemma from_slot_trans (j : Z) (s s1 s2 : Server D) (t1 t2 : list Event) :
  from_slot j s s1 t1 -> from_slot j s1 s2 t2 -> from_slot j s s2 (t1 ++ t2).
Proof.
  intros (_ & Hc1 & Ht1 & Hd1) (Hok & Hc2 & Ht2 & Hd2).
  split; [exact Hok | ]. split; [lia | ]. split; [congruence | ].
  rewrite closed_fds_app, Hd1, Hd2. apply app_assoc.
Qed.

Lemma remove_client_from_slot (j : Z) (s : Server D) :
  table_ok s -> 0 <= j <= client_count s ->
  from_slot j s (fst (remove_client s j)) (snd (remove_client s j)) /\
  (j < client_count s ->
   client_count (fst (remove_client s j)) = client_count s - 1).
Proof.
  intros Hok Hj.
  destruct (Z.lt_ge_cases j (client_count s)) as [Hin | Hout].
  - destruct (remove_client_live s j Hok ltac:(lia))
      as (Hlive & Htrace & Hremoved & Hcount & Hok').
    split; [ | intros _; exact Hcount].
    split; [exact Hok' | ]. split; [rewrite Hcount; lia | ].
    rewrite Hlive, Htrace.
    destruct (removal_trace_closes (clients s !!! Z.to_nat j)) as (Hclosed & _).
    rewrite Hclosed.
    assert (Hlen : (Z.to_nat j < length (live s))%nat)
      by (rewrite (length_live s Hok); lia).
    rewrite delete_take_drop.
    rewrite take_app_length' by (rewrite length_take; lia).
    rewrite drop_app_length' by (rewrite length_take; lia).
    rewrite (drop_S _ _ _ Hremoved). split; reflexivity.
  - split; [ | intros Habs; lia].
    unfold remove_client.
    destruct (Z.leb_spec (client_count s) j) as [_ | Hlt]; [ | lia].
    cbn [fst snd ret]. apply from_slot_refl; [exact Hok | lia].
Qed.

Lemma handle_client_message_from_slot (e : HandleEnv) (handler : bool) (j : Z)
    (s : Server D) :
  table_ok s -> 0 <= j < client_count s ->
  from_slot j s (fst (handle_client_message e handler s j))
    (snd (handle_client_message e handler s j)).
Proof.
  intros Hok Hj.
  set (client := clients s !!! Z.to_nat j).
  pose proof (receive_message_closes_nothing (recv_env e) (fd client)
                (ssl client) (is_ssl client) (uninit_msg e)) as Hquiet.
  destruct (receive_message_status (recv_env e) (fd client) (ssl client)
              (is_ssl client) (uninit_msg e)) as [Hgood | Hbad].
  - destruct (handle_client_message_received e handler s j Hgood)
      as (Hres & Htrace).
    unfold result, trace in *. rewrite Hres.
    cbv zeta in Htrace. fold client in Htrace.
    assert (Hclosed : closed_fds (snd (handle_client_message e handler s j)) = []).
    { rewrite Htrace, !closed_fds_app, Hquiet. cbn [app].
      destruct handler, (h_type _ =? MSG_TYPE_ACK); try reflexivity;
        unfold ack_write; destruct (use_ssl (ssl client) (is_ssl client));
        reflexivity. }
    unfold from_slot. rewrite Hclosed.
    split; [exact Hok | ]. repeat split; cbn; lia.
  - destruct (handle_client_message_receive_failure e handler s j)
      as (Hres & Htrace).
    { unfold received. fold client. rewrite Hbad. lia. }
    unfold result, trace in *. rewrite Hres.
    cbv zeta in Htrace. fold client in Htrace. rewrite Htrace.
    apply (from_slot_trans j s s).
    + unfold from_slot. rewrite Hquiet.
      split; [exact Hok | ]. repeat split; lia.
    + apply remove_client_from_slot; [exact Hok | lia].
Qed.

(** Past the live connections the loop does nothing. *)
Lemma check_past_the_table (e : LoopEnv) (handler : bool) (fuel : nat) :
  forall (step : nat) (i pollfd_count : Z) (s : Server D),
    1 <= i -> pollfd_count < 2 ^ 64 -> client_count s <= i - 1 ->
    check_client_sockets fuel e handler step i pollfd_count s = ret s.
Proof.
  induction fuel as [| fuel IH]; intros step i pollfd_count s Hi Hmax Hpast;
    [reflexivity | ].
  cbn [check_client_sockets].
  destruct (Z.ltb_spec i pollfd_count) as [Hlt | _]; [ | reflexivity].
  rewrite (wrap64_small (i - 1)) by lia.
  destruct (Z.leb_spec (client_count s) (i - 1)) as [_ | Habs]; [ | lia].
  rewrite (wrap64_small (i + 1)) by lia.
  apply IH; lia.
Qed.

(** The loop at a socket in hang-up or error: [i] and [pollfd_count] are
    stepped back together after each removal, so the same [revents] is read
    for the connection that moved into the freed slot. *)
Lemma check_hung_up_socket (e : LoopEnv) (handler : bool) (j : Z) (p : nat) :
  forall (fuel step : nat) (s : Server D),
    table_ok s -> 0 <= j <= client_count s ->
    client_count s <= j + Z.of_nat p -> j + Z.of_nat p + 1 < 2 ^ 64 ->
    truthy (Z.land (nth (Z.to_nat (j + 1)) (poll_revents e) 0)
              (Z.lor POLLHUP POLLERR)) = true ->
    (p <= fuel)%nat ->
    let out := check_client_sockets fuel e handler step (j + 1)
                 (1 + j + Z.of_nat p) s in
    from_slot j s (fst out) (snd out) /\ client_count (fst out) = j.
Proof.
  induction p as [| p IH]; intros fuel step s Hok Hj Hcount Hmax Hup Hfuel;
    cbv zeta.
  - assert (Hret : check_client_sockets fuel e handler step (j + 1)
                     (1 + j + Z.of_nat 0) s = ret s).
    { destruct fuel as [| fuel]; [reflexivity | ]. cbn [check_client_sockets].
      destruct (Z.ltb_spec (j + 1) (1 + j + Z.of_nat 0)); [lia | reflexivity]. }
    rewrite Hret. cbn [fst snd ret].
    split; [apply from_slot_refl; [exact Hok | lia] | lia].
  - destruct fuel as [| fuel]; [lia | ].
    destruct (Z.eq_dec (client_count s) j) as [Hend | Hmore].
    { rewrite check_past_the_table by lia. cbn [fst snd ret].
      split; [apply from_slot_refl; [exact Hok | lia] | exact Hend]. }
    cbn [check_client_sockets]. cbv zeta.
    destruct (Z.ltb_spec (j + 1) (1 + j + Z.of_nat (S p))) as [_ | Habs]; [ | lia].
    replace (j + 1 - 1) with j by lia.
    rewrite (wrap64_small j) by lia.
    destruct (Z.leb_spec (client_count s) j) as [Habs | _]; [lia | ].
    rewrite Hup.
    set (first := if truthy (Z.land (nth (Z.to_nat (j + 1)) (poll_revents e) 0)
                               POLLIN)
                  then handle_client_message (handle_env e step) handler s j
                  else ret s).
    assert (Hfirst : from_slot j s (fst first) (snd first)).
    { subst first.
      destruct (truthy (Z.land (nth (Z.to_nat (j + 1)) (poll_revents e) 0)
                          POLLIN)).
      - apply handle_client_message_from_slot; [exact Hok | lia].
      - cbn [fst snd ret]. apply from_slot_refl; [exact Hok | lia]. }
    rewrite !bind_fst, !bind_snd.
    pose proof Hfirst as (Hok1 & Hcount1 & _).
    destruct (remove_client_from_slot j (fst first) Hok1 ltac:(lia))
      as (Hsecond & Hless).
    pose proof Hsecond as (Hok2 & Hcount2 & _).
    rewrite (wrap64_small (j + 1)) by lia.
    replace (wrap64 (1 + j + Z.of_nat (S p) - 1)) with (1 + j + Z.of_nat p)
      by (rewrite wrap64_small; lia).
    assert (Hbound : client_count (fst (remove_client (fst first) j))
                     <= j + Z.of_nat p).
    { destruct (Z.lt_ge_cases j (client_count (fst first))) as [Hin | Hout].
      - rewrite (Hless Hin). lia.
      - lia. }
    destruct (IH fuel (S step) (fst (remove_client (fst first) j)) Hok2
                ltac:(lia) Hbound ltac:(lia) Hup ltac:(lia)) as (Hrest & Hfinal).
    split; [ | exact Hfinal].
    apply (from_slot_trans j s (fst first)); [exact Hfirst | ].
    apply (from_slot_trans j _ (fst (remove_client (fst first) j)));
      [exact Hsecond | exact Hrest].
Qed.

(** X12.  A hang-up cascades.  When [poll] reports a hang-up or an error
    on the connection at index [j] (with or without something to read) and
    nothing on the connections before it, the loop over the client sockets
    removes that connection and every live connection after it, whatever
    [poll] reported for those and whatever the receives returned: only the
    first [j] connections stay, and the descriptors of all the others are
    closed, in order. *)
Theorem hangup_closes_later_connections (e : LoopEnv) (handler : bool)
    (s : Server D) (j : Z) :
  table_ok s -> 0 <= j < client_count s -> client_count s + 1 < 2 ^ 64 ->
  (forall k, 1 <= k <= j ->
     quiet (nth (Z.to_nat k) (poll_revents e) 0) = true) ->
  truthy (Z.land (nth (Z.to_nat (j + 1)) (poll_revents e) 0)
            (Z.lor POLLHUP POLLERR)) = true ->
  let pollfd_count := wrap64 (1 + client_count s) in
  let out := check_client_sockets (Z.to_nat pollfd_count) e handler 0%nat 1
               pollfd_count s in
  live (result out) = take (Z.to_nat j) (live s) /\
  closed_fds (trace out) = map fd (drop (Z.to_nat j) (live s)) /\
  client_count (result out) = j.
Proof.
  intros Hok Hj Hmax Hquiet Hup. cbv zeta. unfold result, trace.
  rewrite wrap64_small by lia.
  set (p := Z.to_nat (client_count s - j)).
  replace (Z.to_nat (1 + client_count s)) with (Z.to_nat j + S p)%nat by lia.
  rewrite check_quiet_sockets; try lia.
  2: { intros k Hk. apply Hquiet. lia. }
  replace (1 + Z.of_nat (Z.to_nat j)) with (j + 1) by lia.
  replace (1 + client_count s) with (1 + j + Z.of_nat p) by lia.
  destruct (check_hung_up_socket e handler j p (S p) (Z.to_nat j + 0) s Hok
              ltac:(lia) ltac:(lia) ltac:(lia) Hup ltac:(lia))
    as ((Hok' & _ & Htake & Hdrop) & Hcount).
  set (out := check_client_sockets (S p) e handler (Z.to_nat j + 0) (j + 1)
                (1 + j + Z.of_nat p) s) in *.
  assert (Hlen : length (live (fst out)) = Z.to_nat j)
    by (rewrite (length_live _ Hok'); lia).
  rewrite (drop_ge (live (fst out))), app_nil_r in Hdrop by lia.
  rewrite (take_ge (live (fst out))) in Htake by lia.
  split; [exact Htake | ]. split; [symmetry; exact Hdrop | exact Hcount].
Qed.

End ClientSockets.

Lemma check_client_sockets_accounts_witness :
  let out := Server.check_client_sockets 3 first_hangs_up true 0%nat 1 3
               three_clients in
  [4; 5; 6] ≡ₚ closed_fds (trace out) ++ map Server.fd (live (result out)).
Proof.
  destruct (check_client_sockets_accounts first_hangs_up true 3 0 1 3
              three_clients three_clients_ok) as (_ & Hperm & _).
  exact Hperm.
Defined.

Lemma hangup_closes_later_connections_witness :
  let out := Server.check_client_sockets 4 first_hangs_up true 0%nat 1 4
               three_clients in
  live (result out) = [] /\ closed_fds (trace out) = [4; 5; 6].
Proof.
  destruct (hangup_closes_later_connections first_hangs_up true three_clients 0
              three_clients_ok) as (Hlive & Hclosed & _).
  - cbn. lia.
  - cbn. lia.
  - intros k Hk. lia.
  - reflexivity.
  - split; [exact Hlive | exact Hclosed].
Defined.

(* ================================================================== *)
(** * server.c: run_event_loop while nothing happens *)
(* ================================================================== *)

Section IdleLoop.
Import Server.
Context {D : Type} `{Host} `{DoubleOps D}.

Lemma idle_iteration (e : LoopEnv) (rest : list LoopEnv) (handler : bool)
    (pollfd_capacity : Z) (s : Server D) :
  idle e = true -> truthy (running s) = true ->
  fst (event_loop (e :: rest) handler pollfd_capacity s)
  = fst (event_loop rest handler (grown_capacity pollfd_capacity s) s) /\
  snd (event_loop (e :: rest) handler pollfd_capacity s)
  = (if pollfd_capacity <? wrap64 (1 + client_count s)
     then [Ev_realloc (wrap64 (wrap64 (wrap64 (1 + client_count s) + 8)
                               * sizeof_pollfd))]
     else [])
    ++ poll_of s
    :: snd (event_loop rest handler (grown_capacity pollfd_capacity s) s).
Proof.
  intros Hidle Hrun. unfold idle in Hidle.
  apply andb_true_iff in Hidle as (Hidle & Hpoll).
  apply andb_true_iff in Hidle as (Hstop & Halloc).
  apply negb_true_iff in Hstop.
  cbn [event_loop]. rewrite Hstop, Hrun. cbn [negb]. cbv zeta.
  unfold grown_capacity, poll_of, live.
  assert (Hbody : forall cap,
    (exec emit (Ev_poll
                  (server_fd s :: map fd (take (Z.to_nat (client_count s)) (clients s)))
                  1000) ;
     (if poll_ret e <? 0
      then
        if poll_errno e =? EINTR
        then event_loop rest handler cap s
        else
          exec logger_error "Poll error" ;
          exec emit Ev_free_pollfds ; ret (LoopBroken, s)
      else
        if poll_ret e =? 0
        then event_loop rest handler cap s
        else
          call s1 <- (if truthy (Z.land (nth 0 (poll_revents e) 0) POLLIN)
                      then accept_new_connection (accept_env e) s
                      else ret s) ;
          call s2 <- check_client_sockets
                       (Z.to_nat (wrap64 (1 + client_count s))) e handler 0%nat 1
                       (wrap64 (1 + client_count s)) s1 ;
          event_loop rest handler cap s2))
    = bind (emit (Ev_poll
                    (server_fd s
                     :: map fd (take (Z.to_nat (client_count s)) (clients s)))
                    1000))
        (fun _ => event_loop rest handler cap s)).
  { intros cap. f_equal.
    destruct (Z.ltb_spec (poll_ret e) 0) as [Hneg | Hpos].
    - destruct (Z.eqb_spec (poll_ret e) 0) as [Hz | _]; [lia | ].
      cbn [orb andb] in Hpoll. rewrite Hpoll. reflexivity.
    - cbn [orb andb] in Hpoll. rewrite orb_false_r in Hpoll. rewrite Hpoll.
      reflexivity. }
  destruct (pollfd_capacity <? wrap64 (1 + client_count s)).
  - rewrite Halloc. cbn [negb]. rewrite bind_fst, bind_snd, Hbody.
    rewrite bind_fst, bind_snd. split; reflexivity.
  - rewrite Hbody, bind_fst, bind_snd. split; reflexivity.
Qed.

Lemma idle_loop_from (script : list LoopEnv) (e_stop : LoopEnv)
    (rest : list LoopEnv) (handler : bool) (s : Server D) :
  Forall (fun e => idle e = true) script -> stop_requested e_stop = true ->
  truthy (running s) = true -> 0 <= client_count s < 2 ^ 64 - 9 ->
  forall pollfd_capacity,
    let out := event_loop (script ++ e_stop :: rest) handler pollfd_capacity s in
    fst out = (LoopStopped, set_running s 0) /\
    List.filter is_poll (snd out) = repeat (poll_of s) (length script) /\
    reallocs (snd out)
    = (if bool_decide (script <> [])
          && (pollfd_capacity <? wrap64 (1 + client_count s))
       then [wrap64 (wrap64 (wrap64 (1 + client_count s) + 8) * sizeof_pollfd)]
       else []) /\
    last (snd out) = Some Ev_free_pollfds.
Proof.
  intros Hidle Hstop Hrun Hcount.
  induction Hidle as [| e script He _ IH]; intros pollfd_capacity; cbv zeta.
  - cbn [app event_loop]. rewrite Hstop. cbn. repeat split.
  - cbn [app length repeat].
    destruct (idle_iteration e (script ++ e_stop :: rest) handler
                pollfd_capacity s He Hrun) as (Hr & Ht).
    rewrite Hr, Ht.
    destruct (IH (grown_capacity pollfd_capacity s)) as (IH1 & IH2 & IH3 & IH4).
    assert (Hgrown : (grown_capacity pollfd_capacity s
                      <? wrap64 (1 + client_count s)) = false).
    { unfold grown_capacity. cbv zeta.
      rewrite (wrap64_small (1 + client_count s)) by lia.
      destruct (Z.ltb_spec pollfd_capacity (1 + client_count s)).
      - rewrite wrap64_small by lia. apply Z.ltb_ge. lia.
      - apply Z.ltb_ge. lia. }
    rewrite Hgrown, andb_false_r in IH3.
    split; [exact IH1 | ]. split; [ | split].
    + rewrite List.filter_app. cbn [List.filter is_poll poll_of].
      rewrite IH2.
      destruct (pollfd_capacity <? wrap64 (1 + client_count s)); reflexivity.
    + unfold reallocs in *. rewrite omap_app.
      change (omap _ (poll_of s :: ?l)) with (omap
        (fun e => match e with Ev_realloc n => Some n | _ => None end) l).
      rewrite IH3, app_nil_r.
      rewrite bool_decide_eq_true_2 by discriminate. cbn [andb].
      destruct (pollfd_capacity <? wrap64 (1 + client_count s)); reflexivity.
    + rewrite last_app, last_cons, IH4. reflexivity.
Qed.

(** X13.  [run_event_loop] while nothing happens.  When every iteration
    times out in [poll] or is interrupted by a signal, until [server_stop]
    is seen, the loop leaves the server as it was apart from [running = 0],
    calls [poll] once per iteration, each time on the listening socket
    followed by the descriptors of the live connections, with a timeout of
    1000 ms, allocates the pollfd array once, in the first iteration, and
    ends by freeing it. *)
Theorem run_event_loop_idle (script : list LoopEnv) (e_stop : LoopEnv)
    (rest : list LoopEnv) (handler : bool) (s : Server D) :
  Forall (fun e => idle e = true) script -> stop_requested e_stop = true ->
  truthy (running s) = true -> 0 <= client_count s < 2 ^ 64 - 9 ->
  let out := run_event_loop (script ++ e_stop :: rest) handler s in
  result out = (LoopStopped, set_running s 0) /\
  List.filter is_poll (trace out) = repeat (poll_of s) (length script) /\
  reallocs (trace out)
  = (if bool_decide (script <> [])
     then [wrap64 (wrap64 (wrap64 (1 + client_count s) + 8) * sizeof_pollfd)]
     else []) /\
  last (trace out) = Some Ev_free_pollfds.
Proof.
  intros Hidle Hstop Hrun Hcount. cbv zeta. unfold run_event_loop, result, trace.
  destruct (idle_loop_from script e_stop rest handler s Hidle Hstop Hrun Hcount 0)
    as (H1 & H2 & H3 & H4).
  rewrite H1, H2, H3, H4.
  assert (Hcap : (0 <? wrap64 (1 + client_count s)) = true).
  { rewrite wrap64_small by lia. apply Z.ltb_lt. lia. }
  rewrite Hcap, andb_true_r. repeat split.
Qed.

End IdleLoop.

Lemma run_event_loop_idle_witness :
  let out := Server.run_event_loop [poll_timeout; poll_timeout; stop_now] true
               three_clients_running in
  result out = (Server.LoopStopped, Server.set_running three_clients_running 0) /\
  List.filter is_poll (trace out)
  = [Ev_poll [3; 4; 5; 6] 1000; Ev_poll [3; 4; 5; 6] 1000] /\
  reallocs (trace out) = [96].
Proof.
  destruct (run_event_loop_idle [poll_timeout; poll_timeout] stop_now [] true
              three_clients_running) as (H1 & H2 & H3 & _).
  - repeat constructor.
  - reflexivity.
  - reflexivity.
  - cbn. lia.
  - cbv zeta. split; [exact H1 | split; [exact H2 | exact H3]].
Defined.

(* ================================================================== *)
(** * server.c: the message and byte counters *)
(* ================================================================== *)

Section Counters.
Import Server.
Context {D : Type} `{Host} `{DoubleOps D}.

Lemma received_any_client (e : HandleEnv) (c1 c2 : ClientConnection) :
  received e c1 = received e c2.
Proof. unfold received. rewrite !receive_message_result. reflexivity. Qed.

Lemma wrap64_add_l (a b : Z) : wrap64 (wrap64 a + b) = wrap64 (a + b).
Proof. unfold wrap64. apply Zplus_mod_idemp_l. Qed.

Lemma receive_all_counters (arrivals : list (Z * HandleEnv)) (handler : bool) :
  forall s0 : Server D,
    all_received arrivals ->
    let s := receive_all arrivals handler s0 in
    total_messages s
    = (if arrivals is [] then total_messages s0
       else wrap64 (total_messages s0 + Z.of_nat (length arrivals))) /\
    total_bytes s
    = (if arrivals is [] then total_bytes s0
       else wrap64 (total_bytes s0 + total_of (arrived_sizes arrivals))) /\
    clients s = clients s0 /\ client_count s = client_count s0 /\
    client_capacity s = client_capacity s0 /\
    total_clients s = total_clients s0.
Proof.
  induction arrivals as [| a rest IH]; intros s0 Hrecv; cbv zeta.
  - repeat split.
  - apply Forall_cons in Hrecv as (Ha & Hrecv).
    unfold receive_all in *. cbn [fold_left].
    destruct (handle_client_message_received (snd a) handler s0 (fst a)
                (Ha _)) as (Hres & _).
    rewrite Hres.
    set (s1 := record_metrics _ _ s0).
    destruct (IH s1 Hrecv) as (IH1 & IH2 & IH3 & IH4 & IH5 & IH6).
    rewrite IH1, IH2, IH3, IH4, IH5, IH6.
    split; [ | split; [ | repeat split]].
    + destruct rest as [| b rest]; [cbn; f_equal; lia | ].
      subst s1. cbn [record_metrics set_metrics total_messages].
      rewrite wrap64_add_l. f_equal. cbn [length]. lia.
    + cbn [arrived_sizes map total_of fold_right].
      rewrite (received_any_client (snd a) (conn 0)
                 (clients s0 !!! Z.to_nat (fst a))).
      destruct rest as [| b rest]; [cbn; f_equal; lia | ].
      subst s1. cbn [record_metrics set_metrics total_bytes].
      rewrite wrap64_add_l. f_equal.
      fold (arrived_sizes (b :: rest)). fold (total_of (arrived_sizes (b :: rest))).
      lia.
Qed.

(** X14.  The counters of the message path.  After [n >= 1] messages were
    received with success, on whichever connections, [total_messages] has
    grown by [n] and [total_bytes] by the sum of the payload sizes of the
    messages, both modulo [2^64]; [server_get_metrics] reports this count of
    messages and the unchanged [total_clients] through non-null pointers;
    and the connection table is as it was. *)
Theorem message_counters (arrivals : list (Z * HandleEnv)) (handler : bool)
    (s0 : Server D) (now : timeval) :
  all_received arrivals -> arrivals <> [] ->
  let s := receive_all arrivals handler s0 in
  let m := server_get_metrics now s all_pointers in
  total_messages s = wrap64 (total_messages s0 + Z.of_nat (length arrivals)) /\
  total_bytes s = wrap64 (total_bytes s0 + total_of (arrived_sizes arrivals)) /\
  m_total_messages m
  = Some (wrap64 (total_messages s0 + Z.of_nat (length arrivals))) /\
  m_total_clients m = Some (total_clients s0) /\
  clients s = clients s0 /\ client_count s = client_count s0.
Proof.
  intros Hrecv Hne. cbv zeta.
  destruct (receive_all_counters arrivals handler s0 Hrecv)
    as (H1 & H2 & H3 & H4 & _ & H6).
  destruct arrivals as [| a rest]; [contradiction Hne; reflexivity | ].
  unfold server_get_metrics, all_pointers.
  cbn [m_total_messages m_total_clients fmap option_fmap option_map].
  rewrite H1, H2, H3, H4, H6. repeat split.
Qed.

End Counters.

Lemma message_counters_witness :
  let s := receive_all three_arrivals true three_clients in
  Server.total_messages s = 3 /\ Server.total_bytes s = 15.
Proof.
  destruct (message_counters three_arrivals true three_clients (mkTimeval 103 0))
    as (H1 & H2 & _).
  - repeat constructor; intros client; apply hello_at_received.
  - discriminate.
  - split; [exact H1 | exact H2].
Defined.

(* ================================================================== *)
(** * client.c, server.c: client_cleanup, server_cleanup *)
(* ================================================================== *)

Section Cleanup.
Import Server.
Context {D : Type} `{DoubleOps D}.

Lemma calls_of_app (r1 r2 : list Release) :
  calls_of (r1 ++ r2) = calls_of r1 ++ calls_of r2.
Proof. apply omap_app. Qed.

Lemma calls_of_calls (tr : list Event) : calls_of (map Rel_call tr) = tr.
Proof.
  induction tr as [| e tr IH]; [reflexivity | ].
  cbn [map]. unfold calls_of in *. cbn [omap list_omap]. rewrite IH. reflexivity.
Qed.

Lemma calls_unlink_nothing (tr : list Event) :
  omap (fun r => match r with Rel_unlink p => Some p | _ => None end)
    (map Rel_call tr) = [].
Proof. induction tr as [| e tr IH]; [reflexivity | exact IH]. Qed.

Lemma close_clients_trace (cl : list ClientConnection) (n : nat) :
  forall i : nat,
    (i + n <= length cl)%nat ->
    closed_fds (snd (close_clients cl i n)) = map fd (take n (drop i cl)) /\
    freed_sessions (snd (close_clients cl i n))
    = omap session_of (take n (drop i cl)).
Proof.
  induction n as [| n IH]; intros i Hlen; [split; reflexivity | ].
  cbn [close_clients]. set (client := cl !!! i).
  assert (Hclient : cl !! i = Some client)
    by (apply list_lookup_lookup_total_lt; lia).
  rewrite (drop_S _ _ _ Hclient). cbn [take map].
  rewrite !bind_snd, !closed_fds_app, !freed_sessions_app.
  destruct (IH (S i)) as (IH1 & IH2); [lia | ]. rewrite IH1, IH2.
  rewrite (omap_cons_app session_of).
  assert (Hone : omap session_of [client]
                 = if truthy (is_ssl client) && truthy (ssl client)
                   then [ssl client] else []).
  { cbn [omap list_omap]. unfold session_of.
    destruct (truthy (is_ssl client) && truthy (ssl client)); reflexivity. }
  rewrite Hone. unfold close_tls_connection.
  destruct (truthy (is_ssl client) && truthy (ssl client)) eqn:Htls.
  - apply andb_true_iff in Htls as (_ & Hssl). rewrite Hssl.
    split; reflexivity.
  - split; reflexivity.
Qed.

(** X15.  [server_cleanup] on a well-formed table closes the descriptor of
    every live connection, once each and in order, then the listening socket
    if it is open; it shuts down and frees exactly the TLS sessions of the
    live connections that hold one; it unlinks the socket path exactly when
    the listening socket is open in UNIX mode; and it leaves the server
    zeroed. *)
Theorem server_cleanup_releases (s : Server D) :
  table_ok s ->
  let out := server_cleanup s in
  fst out = zero_server /\
  closed_fds (calls_of (snd out))
  = map fd (live s) ++ (if 0 <=? server_fd s then [server_fd s] else []) /\
  freed_sessions (calls_of (snd out)) = omap session_of (live s) /\
  omap (fun r => match r with Rel_unlink p => Some p | _ => None end) (snd out)
  = match mode s with
    | SOCKET_MODE_UNIX => if 0 <=? server_fd s then [address s] else []
    | SOCKET_MODE_INET => []
    end.
Proof.
  intros ((Hlow & Hhigh) & Hcap & _). cbv zeta. unfold server_cleanup.
  cbn [fst snd]. split; [reflexivity | ].
  destruct (close_clients_trace (clients s) (Z.to_nat (client_count s)) 0)
    as (Hclosed & Hfreed); [lia | ].
  rewrite drop_0 in Hclosed, Hfreed. fold (live s) in Hclosed, Hfreed.
  unfold trace, cleanup_tls.
  rewrite !calls_of_app, !omap_app, calls_of_calls, calls_unlink_nothing.
  rewrite !closed_fds_app, !freed_sessions_app, Hclosed, Hfreed.
  destruct (0 <=? server_fd s), (mode s), (truthy (ssl_ctx s));
    cbn; rewrite ?app_nil_r; repeat split.
Qed.

(** X16.  Cleaning up twice.  Whatever the session, a second
    [client_cleanup] releases nothing: it only passes the null address to
    [free], and the zeroed session is not connected.  A second
    [server_cleanup] is not harmless: on the zeroed server [server_fd] is 0,
    which passes the test [server_fd >= 0], so it closes descriptor 0 and
    unlinks the null path. *)
Theorem cleanup_twice (c : Client.Client) (s : Server D) :
  client_cleanup (fst (client_cleanup c)) = (zero_client, [Rel_free_address None])
  /\ Client.client_is_connected (fst (client_cleanup c)) = false
  /\ server_cleanup (fst (server_cleanup s))
     = (zero_server,
        [Rel_free_clients; Rel_call (Ev_close 0); Rel_unlink None;
         Rel_free_address None]).
Proof.
  unfold client_cleanup. destruct (Client.client_disconnect c) as [c1 calls].
  cbn [fst]. repeat split.
Qed.

End Cleanup.

Lemma server_cleanup_releases_witness :
  closed_fds (calls_of (snd (server_cleanup three_clients_running)))
  = [4; 5; 6; 3].
Proof.
  destruct (server_cleanup_releases three_clients_running) as (_ & Hclosed & _).
  - unfold table_ok, SIZE_MAX. cbn. lia.
  - exact Hclosed.
Defined.

(* ================================================================== *)
(** * utils.c: parse_address *)
(* ================================================================== *)

Section ParseAddress.

Lemma no_colon_cons (c : ascii) (s : string) :
  no_colon (String c s) -> Ascii.eqb c ":"%char = false /\ no_colon s.
Proof.
  unfold no_colon. cbn [host_part].
  destruct (Ascii.eqb c ":"%char); [discriminate | ].
  intros Heq. injection Heq as Heq. split; [reflexivity | exact Heq].
Qed.

Lemma split_at_colon (host rest : string) :
  no_colon host ->
  host_part (String.append host (String ":"%char rest)) = host /\
  Utils.after_colon (String.append host (String ":"%char rest)) = Some rest /\
  Utils.after_colon host = None.
Proof.
  induction host as [| c host IH]; intros Hhost.
  - repeat split.
  - apply no_colon_cons in Hhost as (Hc & Hhost).
    destruct (IH Hhost) as (IH1 & IH2 & IH3).
    cbn [String.append host_part Utils.after_colon].
    rewrite Hc, IH1, IH2, IH3. repeat split.
Qed.

Lemma digit_char_cases (d : Z) (P : Z -> Prop) :
  is_digit d ->
  P 0 -> P 1 -> P 2 -> P 3 -> P 4 -> P 5 -> P 6 -> P 7 -> P 8 -> P 9 -> P d.
Proof.
  unfold is_digit. intros Hd.
  assert (Hcases : d = 0 \/ d = 1 \/ d = 2 \/ d = 3 \/ d = 4 \/ d = 5 \/ d = 6
                   \/ d = 7 \/ d = 8 \/ d = 9) by lia.
  intros; repeat (destruct Hcases as [-> | Hcases]; [assumption | ]).
  subst d. assumption.
Qed.

Lemma atoi_digits_numeral (ds : list Z) (tail : string) :
  Forall is_digit ds -> ends_numeral tail ->
  forall acc,
    Utils.atoi_digits acc (String.append (numeral ds) tail)
    = fold_left (fun a d => a * 10 + d) ds acc.
Proof.
  intros Hds Htail. induction Hds as [| d ds Hd _ IH]; intros acc.
  - cbn [numeral fold_right String.append fold_left].
    destruct tail as [| c tail]; [reflexivity | ].
    cbn [ends_numeral] in Htail. cbn [Utils.atoi_digits]. rewrite Htail.
    reflexivity.
  - cbn [numeral fold_right String.append fold_left Utils.atoi_digits].
    fold (numeral ds).
    assert (Hdigit : Utils.isdigit (digit_char d) = true /\
                     Z.of_nat (nat_of_ascii (digit_char d)) - 48 = d).
    { apply (digit_char_cases d
               (fun d => Utils.isdigit (digit_char d) = true /\
                         Z.of_nat (nat_of_ascii (digit_char d)) - 48 = d) Hd);
        split; reflexivity. }
    destruct Hdigit as (Hisdigit & Hvalue). rewrite Hisdigit, Hvalue.
    apply IH.
Qed.

Lemma atoi_numeral (ds : list Z) (tail : string) :
  ds <> [] -> Forall is_digit ds -> ends_numeral tail ->
  Utils.atoi (String.append (numeral ds) tail) = decimal ds.
Proof.
  intros Hne Hds Htail.
  pose proof (atoi_digits_numeral ds tail Hds Htail 0) as Hdigits.
  destruct ds as [| d ds]; [contradiction Hne; reflexivity | ].
  apply Forall_cons in Hds as (Hd & _).
  unfold decimal. rewrite <- Hdigits.
  cbn [numeral fold_right String.append]. fold (numeral ds).
  unfold Utils.atoi.
  apply (digit_char_cases d
           (fun d => match Utils.skip_spaces
                             (String (digit_char d)
                                (String.append (numeral ds) tail)) with
                     | String "-"%char rest => - Utils.atoi_digits 0 rest
                     | String "+"%char rest => Utils.atoi_digits 0 rest
                     | digits => Utils.atoi_digits 0 digits
                     end
                     = Utils.atoi_digits 0
                         (String (digit_char d)
                            (String.append (numeral ds) tail))) Hd);
    reflexivity.
Qed.

Lemma decimal_nonneg (ds : list Z) : Forall is_digit ds -> 0 <= decimal ds.
Proof.
  unfold decimal. intros Hds.
  assert (Hgen : forall acc, 0 <= acc ->
            0 <= fold_left (fun a d => a * 10 + d) ds acc).
  { induction Hds as [| d ds Hd _ IH]; intros acc Hacc; [exact Hacc | ].
    cbn [fold_left]. apply IH. unfold is_digit in Hd. lia. }
  apply Hgen. lia.
Qed.

(** X17.  [parse_address] splits ["host:port"].  For a host without a
    colon followed by a colon and a decimal numeral (one digit or more, then
    the end of the string or anything that is not a digit), it returns the
    host and stores the number the numeral denotes, reduced modulo [2^16] by
    the cast to [uint16_t]: the port itself when it is at most 65535.  For
    an address without a colon it returns the address and leaves the port as
    it was.  It returns [NULL] exactly when [strdup] fails.  (The numeral
    is to fit [int], outside of which C leaves [atoi] undefined.) *)
Theorem parse_address_host_port (host : string) (ds : list Z) (tail : string)
    (port : Z) :
  no_colon host -> ds <> [] -> Forall is_digit ds -> ends_numeral tail ->
  decimal ds <= INT_MAX ->
  let address := String.append host (String ":"%char
                                       (String.append (numeral ds) tail)) in
  Utils.parse_address true address port = Some (host, decimal ds mod 2 ^ 16) /\
  (decimal ds <= 65535 ->
   Utils.parse_address true address port = Some (host, decimal ds)) /\
  Utils.parse_address true host port = Some (host, port) /\
  Utils.parse_address false address port = None /\
  parse_address true address = Some host.
Proof.
  intros Hhost Hne Hds Htail _. cbv zeta.
  destruct (split_at_colon host (String.append (numeral ds) tail) Hhost)
    as (Hpart & Hafter & Hnone).
  unfold Utils.parse_address, parse_address.
  rewrite Hpart, Hafter, Hnone, (atoi_numeral ds tail Hne Hds Htail).
  assert (Hlow : 0 <= decimal ds) by (apply decimal_nonneg; exact Hds).
  repeat split.
  - intros Hport. rewrite Z.mod_small by lia. reflexivity.
  - unfold no_colon in Hhost. rewrite Hhost. reflexivity.
Qed.

End ParseAddress.

Lemma parse_address_host_port_witness :
  Utils.parse_address true "127.0.0.1:8080" 0 = Some ("127.0.0.1"%string, 8080).
Proof.
  destruct (parse_address_host_port "127.0.0.1" [8; 0; 8; 0] "" 0)
    as (_ & Hport & _).
  - reflexivity.
  - discriminate.
  - repeat constructor; unfold is_digit; lia.
  - exact I.
  - unfold INT_MAX. cbn. lia.
  - apply Hport. cbn. lia.
Defined.

(** A port beyond 65535 is not rejected but reduced; a port that is not a
    number is read as 0. *)
Example parse_address_odd_ports :
  Utils.parse_address true "localhost:70000" 0 = Some ("localhost"%string, 4464)
  /\ Utils.parse_address true "localhost:http" 8080 = Some ("localhost"%string, 0)
  /\ Utils.parse_address true "localhost: 42" 8080 = Some ("localhost"%string, 42)
  /\ Utils.parse_address true "localhost:-1" 8080 = Some ("localhost"%string, 65535).
Proof. repeat split. Qed.

(* ================================================================== *)
(** * logger.c: level filter and stream discipline *)
(* ================================================================== *)

Section LoggerDiscipline.
Import Logger.

Lemma lines_app (o1 o2 : list Output) : lines (o1 ++ o2) = lines o1 ++ lines o2.
Proof. apply omap_app. Qed.

Lemma fcloses_app (o1 o2 : list Output) :
  fcloses (o1 ++ o2) = fcloses o1 ++ fcloses o2.
Proof. apply omap_app. Qed.

Lemma run_cons (c : Call) (rest : list Call) (st : State) :
  snd (run (c :: rest) st) = snd (step st c) ++ snd (run rest (fst (step st c)))
  /\ fst (run (c :: rest) st) = fst (run rest (fst (step st c))).
Proof.
  cbn [run]. destruct (step st c) as [st1 out1]. cbn [fst snd].
  destruct (run rest st1) as [st2 out2]. split; reflexivity.
Qed.

(** One call: the line it writes, the stream it closes, the stream the
    logger holds afterwards. *)
Lemma step_discipline (c : Call) (st : State) :
  lines (snd (step st c)) = passing [c] (log_level st) /\
  log_level (fst (step st c))
  = match c with Call_set_level l => l | _ => log_level st end /\
  fcloses (snd (step st c))
  = match c with Call_cleanup => held st | _ => [] end /\
  held (fst (step st c))
  = match c with
    | Call_init _ _ => streams_of [c]
    | Call_cleanup => []
    | _ => held st
    end.
Proof.
  destruct c as [[path | ] [stream | ] | | level | level text];
    cbn [step logger_init logger_cleanup logger_set_level fst snd];
    try (repeat split; reflexivity).
  - unfold held. destruct (log_file st) as [[| stream] | ]; repeat split.
  - unfold vlogger_log, passing.
    rewrite Z.leb_antisym.
    destruct (rank level <? rank (log_level st)); cbn [negb fst snd];
      [repeat split | ].
    unfold held. destruct (log_file st) as [[| stream] | ]; repeat split.
Qed.

Lemma passing_cons (c : Call) (rest : list Call) (level : LogLevel) :
  passing (c :: rest) level
  = passing [c] level
    ++ passing rest (match c with Call_set_level l => l | _ => level end).
Proof.
  destruct c as [path fopen_ret | | l | l text]; cbn [passing]; try reflexivity.
  destruct (rank level <=? rank l); reflexivity.
Qed.

Lemma run_discipline (calls : list Call) :
  forall st : State,
    lines (snd (run calls st)) = passing calls (log_level st) /\
    sublist (fcloses (snd (run calls st))) (held st ++ streams_of calls) /\
    Forall (fun f => f <> stdout) (fcloses (snd (run calls st))).
Proof.
  induction calls as [| c rest IH]; intros st.
  - cbn. split; [reflexivity | ]. split; [apply sublist_nil_l | constructor].
  - destruct (run_cons c rest st) as (Hout & _). rewrite Hout.
    destruct (step_discipline c st) as (Hline & Hlevel & Hclose & Hheld).
    destruct (IH (fst (step st c))) as (IH1 & IH2 & IH3).
    rewrite lines_app, fcloses_app, Hline, Hclose, IH1, Hlevel.
    rewrite Hheld in IH2.
    split; [symmetry; apply passing_cons | ].
    unfold streams_of in *. rewrite (omap_cons_app _ c rest).
    fold (streams_of [c]). fold (streams_of rest).
    fold (streams_of rest) in IH2. fold (streams_of [c]) in IH2.
    split.
    + destruct c as [path fopen_ret | | l | l text]; cbn [app].
      * apply sublist_inserts_l. exact IH2.
      * change (streams_of [Call_cleanup]) with (@nil File). cbn [app].
        apply sublist_app; [reflexivity | exact IH2].
      * change (streams_of [Call_set_level l]) with (@nil File). exact IH2.
      * change (streams_of [Call_log l text]) with (@nil File). exact IH2.
    + apply Forall_app. split; [ | exact IH3].
      destruct c as [path fopen_ret | | l | l text]; try constructor.
      unfold held. destruct (log_file st) as [[| stream] | ];
        repeat constructor. discriminate.
Qed.

(** X18.  The logger, for every sequence of calls to [logger_init],
    [logger_cleanup], [logger_set_level] and the logging functions, from
    every state.  (1) The lines written are exactly the messages whose
    level is not below the level in force when they are logged, in order:
    none is lost or written twice, whatever happens to the output file.
    (2) Every [fclose] closes a stream that the logger held at the start or
    that an [fopen] of [logger_init] returned during the run, each at most
    once and in the order of opening; [stdout] is never closed. *)
Theorem logger_discipline (calls : list Call) (st : State) :
  let out := snd (run calls st) in
  lines out = passing calls (log_level st) /\
  sublist (fcloses out) (held st ++ streams_of calls) /\
  ~ In (Out_fclose stdout) out.
Proof.
  cbv zeta. destruct (run_discipline calls st) as (H1 & H2 & H3).
  split; [exact H1 | ]. split; [exact H2 | ].
  intros Hin. rewrite Forall_forall in H3.
  apply (H3 stdout); [ | reflexivity].
  unfold fcloses. apply list_elem_of_omap.
  exists (Out_fclose stdout). split; [ | reflexivity].
  apply list_elem_of_In. exact Hin.
Qed.

(** A second [logger_init] drops the first stream without closing it, and
    after [logger_cleanup] a message still goes out, to [stdout]. *)
Example logger_reinit :
  let calls := [Call_init (Some "a.log"%string) (Some 7);
                Call_log LOG_LEVEL_INFO "one"%string;
                Call_set_level LOG_LEVEL_ERROR;
                Call_log LOG_LEVEL_WARN "two"%string;
                Call_init (Some "b.log"%string) (Some 8);
                Call_log LOG_LEVEL_ERROR "three"%string;
                Call_cleanup;
                Call_log LOG_LEVEL_ERROR "four"%string;
                Call_cleanup] in
  snd (run calls initial)
  = [Out_fopen "a.log"; Out_line (opened 7) LOG_LEVEL_INFO "one";
     Out_fopen "b.log"; Out_line (opened 8) LOG_LEVEL_ERROR "three";
     Out_fclose (opened 8); Out_line stdout LOG_LEVEL_ERROR "four"].
Proof. reflexivity. Qed.

End LoggerDiscipline.

(* ================================================================== *)
(** * protocol.h, protocol.c: message_total_size, message_free *)
(* ================================================================== *)

(** X19.  [message_total_size] is the size of a message on the wire: a
    well-formed message of at most [INT_MAX] payload bytes that
    [send_message] sent with success was handed to the transport in writes
    whose lengths add up to [message_total_size].  [message_free] leaves the
    header as it is, brings the total size down to the 16 bytes of the
    header, and does nothing when applied again. *)
Theorem message_total_size_on_wire `{Host} (env : SendEnv) (fd ssl is_ssl : Z)
    (m : Message) :
  message_ok m -> h_length (header m) <= INT_MAX ->
  result (send_message env fd ssl is_ssl m) = 0 ->
  total_of (map snd (omap written (trace (send_message env fd ssl is_ssl m))))
  = message_total_size m /\
  header (message_free m) = header m /\
  message_total_size (message_free m) = sizeof_MessageHeader /\
  message_free (message_free m) = message_free m.
Proof.
  intros Hok Hmax Hsent.
  rewrite (send_message_written env fd ssl is_ssl m Hok Hmax Hsent).
  destruct Hok as (Hvalid & Hsize & Hbuf & Hnull).
  destruct Hvalid as (_ & (Hlow & _) & _).
  unfold message_total_size, message_free, INT_MAX in *.
  split.
  2: { destruct (payload m) eqn:Hp; cbn [header payload payload_size buffer_length] in *;
         rewrite ?Hp; repeat split.
       rewrite Hsize, <- Hbuf. reflexivity. }
  rewrite Hsize, wrap64_small by (unfold sizeof_MessageHeader; lia).
  assert (Hhdr : (if use_ssl ssl is_ssl then to_int sizeof_MessageHeader
                  else sizeof_MessageHeader) = sizeof_MessageHeader)
    by (destruct (use_ssl ssl is_ssl); reflexivity).
  rewrite Hhdr.
  destruct (Z.ltb_spec 0 (h_length (header m)));
    cbn [map snd total_of fold_right]; lia.
Qed.

Lemma message_total_size_on_wire_witness :
  let m := message_create_text (Some hello) hello 5 in
  total_of (map snd (omap written
                       (trace (send_message
                                 {| send_header_ret := 16; send_payload_ret := 5 |}
                                 7 NULL 0 m))))
  = 21 /\
  message_total_size (message_free m) = 16.
Proof.
  destruct (message_total_size_on_wire
              {| send_header_ret := 16; send_payload_ret := 5 |} 7 NULL 0
              (message_create_text (Some hello) hello 5) hello_message_ok)
    as (Hwire & _ & Hfree & _).
  - vm_compute. discriminate.
  - reflexivity.
  - split; [exact Hwire | exact Hfree].
Defined.

(* ================================================================== *)
(** * client.c: a whole session, client_connect then client_disconnect *)
(* ================================================================== *)

Section ClientSession.
Import Client.

Lemma failing_envs_stop (m : SocketMode) (tls : Z) (env : Z -> AttemptEnv)
    (n : nat) :
  forall k : Z,
    (length (failing_envs n m tls env k) < n)%nat ->
    attempt_fails m tls (env (k + Z.of_nat (length (failing_envs n m tls env k))))
    = false.
Proof.
  induction n as [| n IH]; intros k Hshort; [cbn in Hshort; lia | ].
  cbn [failing_envs] in *.
  destruct (attempt_fails m tls (env k)) eqn:Hfails.
  - cbn [length] in *.
    replace (k + Z.of_nat (S (length (failing_envs n m tls env (k + 1)))))
      with (k + 1 + Z.of_nat (length (failing_envs n m tls env (k + 1)))) by lia.
    apply IH. lia.
  - cbn [length]. rewrite Z.add_0_r. exact Hfails.
Qed.

(** What the attempt that connects acquires, and what closing the session
    it leaves releases. *)
Lemma winning_attempt (c : Client) (e : AttemptEnv) :
  attempt_fails (mode c) (enable_tls c) e = false ->
  omap (socket_opened (mode c)) [e] = [socket_ret e] /\
  omap (tls_opened (mode c) (enable_tls c)) [e]
  = (if truthy (enable_tls c) then [SSL_new_ret e] else []) /\
  closed_fds (close_trace (connected_as c e)) = [socket_ret e] /\
  freed_sessions (close_trace (connected_as c e))
  = (if truthy (enable_tls c) then [SSL_new_ret e] else []).
Proof.
  intros Hok. cbn [omap list_omap].
  unfold socket_opened, tls_opened, close_trace, connected_as, attempt_fails in *.
  cbn [mode enable_tls fd ssl]. change (truthy 0) with false.
  assert (Hsock : (socket_ret e <? 0) = false).
  { destruct (mode c), (strdup_ok e), (socket_ret e <? 0); cbn in Hok;
      congruence. }
  assert (Hfd : (0 <=? socket_ret e) = true).
  { apply Z.ltb_ge in Hsock. apply Z.leb_le. exact Hsock. }
  rewrite Hfd, Hsock in *.
  destruct (mode c), (strdup_ok e), (inet_aton_ret e =? 0), (connect_ret e <? 0),
    (rcvtimeo_ret e <? 0), (sndtimeo_ret e <? 0), (truthy (enable_tls c)),
    (truthy (SSL_new_ret e)), (SSL_connect_ret e <=? 0);
    cbn in Hok; try discriminate Hok; repeat split.
Qed.

(** X20.  A session releases everything it acquired.  When
    [client_connect] succeeds, possibly after failed attempts, and the
    session is then closed with [client_disconnect], the descriptors closed
    over the two calls are exactly the sockets that the attempts created,
    each once and in order, the last being the socket of the connection; the
    TLS sessions freed are exactly those the attempts created; and the
    session ends disconnected with [fd = -1]. *)
Theorem session_releases_everything (env : Z -> AttemptEnv) (c : Client)
    (timeout : Z) :
  let failed := failing_envs 5 (mode c) (enable_tls c) env 0 in
  (length failed < 5)%nat ->
  let won := env (Z.of_nat (length failed)) in
  let out := client_connect env c timeout in
  let bye := client_disconnect (snd (result out)) in
  fst (result out) = 0 /\
  closed_fds (trace out ++ trace bye)
  = omap (socket_opened (mode c)) (failed ++ [won]) /\
  freed_sessions (trace out ++ trace bye)
  = omap (tls_opened (mode c) (enable_tls c)) (failed ++ [won]) /\
  client_is_connected (result bye) = false /\ fd (result bye) = -1.
Proof.
  cbv zeta. intros Hshort. unfold client_connect, result, trace.
  destruct (connect_loop_outcome env (Z.to_nat max_retries) 0
              (set_timeout_sec c timeout)) as (_ & Hclosed & Hfreed & Hok & _);
    [lia | reflexivity | ].
  change (Z.to_nat max_retries) with 5%nat in *.
  cbn [mode enable_tls set_timeout_sec] in *.
  destruct (Hok Hshort) as (c0 & Hsame & Hres & Hsock).
  rewrite Z.add_0_l in Hres, Hsock.
  rewrite (connected_as_same _ _ _ Hsame) in Hres.
  pose proof (failing_envs_stop (mode c) (enable_tls c) env 5 0 Hshort) as Hwon.
  rewrite Z.add_0_l in Hwon.
  set (won := env (Z.of_nat (length (failing_envs 5 (mode c) (enable_tls c)
                                       env 0)))) in *.
  destruct (winning_attempt (set_timeout_sec c timeout) won Hwon)
    as (Hsocket & Hsession & Hbye_closed & Hbye_freed).
  cbn [mode enable_tls set_timeout_sec] in Hsocket, Hsession, Hbye_freed.
  rewrite Hres. cbn [fst snd].
  pose proof (client_disconnect_trace (connected_as (set_timeout_sec c timeout) won))
    as Htrace.
  pose proof (client_disconnect_result (connected_as (set_timeout_sec c timeout) won))
    as Hresult.
  unfold result, trace in Htrace, Hresult. rewrite Htrace, Hresult.
  change (negb (truthy (connected (connected_as (set_timeout_sec c timeout) won))))
    with false.
  cbv iota.
  rewrite closed_fds_app, freed_sessions_app, Hclosed, Hfreed, !omap_app.
  rewrite Hbye_closed, Hbye_freed, Hsocket, Hsession.
  split; [reflexivity | ]. split; [reflexivity | ]. split; [reflexivity | ].
  cbv zeta. split; [reflexivity | ].
  assert (Hfd : forall b : bool,
            fd (if b then set_ssl (connected_as (set_timeout_sec c timeout) won) NULL
                else connected_as (set_timeout_sec c timeout) won)
            = socket_ret won) by (intros []; reflexivity).
  rewrite Hfd. apply Z.leb_le in Hsock. rewrite Hsock. reflexivity.
Qed.

End ClientSession.

Lemma session_releases_everything_witness :
  let env := fun k => if k <? 2 then handshake_refused
                      else Client.mkAttemptEnv true 4 1 0 0 0 78 1 in
  let c := snd (Client.client_init true 55 SOCKET_MODE_INET "127.0.0.1:9000" 1) in
  let out := Client.client_connect env c 5 in
  let bye := Client.client_disconnect (snd (result out)) in
  closed_fds (trace out ++ trace bye) = [3; 3; 4] /\
  freed_sessions (trace out ++ trace bye) = [77; 77; 78].
Proof.
  destruct (session_releases_everything
              (fun k => if k <? 2 then handshake_refused
                        else Client.mkAttemptEnv true 4 1 0 0 0 78 1)
              (snd (Client.client_init true 55 SOCKET_MODE_INET "127.0.0.1:9000" 1))
              5) as (_ & Hclosed & Hfreed & _).
  - vm_compute. lia.
  - split; [exact Hclosed | exact Hfreed].
Defined.

(* ================================================================== *)
(** * server.c: one pass over the ready connections *)
(* ================================================================== *)

Section ReadyClients.
Import Server.
Context {D : Type} `{Host} `{DoubleOps D}.

Lemma handle_client_message_calls (e : HandleEnv) (s : Server D)
    (client_index : Z) :
  let client := clients s !!! Z.to_nat client_index in
  fst (received e client) = 0 ->
  handler_calls (trace (handle_client_message e true s client_index))
  = [(fd client, snd (received e client))] /\
  closed_fds (trace (handle_client_message e true s client_index)) = [] /\
  clients (result (handle_client_message e true s client_index)) = clients s /\
  client_count (result (handle_client_message e true s client_index))
  = client_count s.
Proof.
  intros client Hok.
  destruct (handle_client_message_received e true s client_index Hok)
    as (Hres & Htrace).
  cbv zeta in Htrace. fold client in Htrace. rewrite Hres, Htrace.
  destruct (receive_message_unwritten (recv_env e) (fd client) (ssl client)
              (is_ssl client) (uninit_msg e)) as (_ & Hnocall).
  pose proof (receive_message_closes_nothing (recv_env e) (fd client)
                (ssl client) (is_ssl client) (uninit_msg e)) as Hnoclose.
  unfold handler_calls in *. rewrite !omap_app, !closed_fds_app, Hnocall, Hnoclose.
  cbn [app omap list_omap].
  destruct (h_type _ =? MSG_TYPE_ACK); unfold ack_write;
    destruct (use_ssl (ssl client) (is_ssl client)); repeat split.
Qed.

Lemma serve_from (e : LoopEnv) (s : Server D) (d : nat) :
  forall (fuel : nat) (k : nat) (s' : Server D),
    clients s' = clients s -> client_count s' = client_count s ->
    Z.of_nat (k + d) = client_count s -> client_count s + 1 < 2 ^ 64 ->
    all_served e s (k + d) -> (d <= fuel)%nat ->
    let out := check_client_sockets fuel e true k (Z.of_nat k + 1)
                 (1 + client_count s) s' in
    handler_calls (snd out) = omap (served e s) (seq k d) /\
    closed_fds (snd out) = [] /\
    clients (fst out) = clients s /\ client_count (fst out) = client_count s.
Proof.
  induction d as [| d IH]; intros fuel k s' Hclients Hcount Hlen Hmax Hserved Hfuel;
    cbv zeta.
  - assert (Hret : check_client_sockets fuel e true k (Z.of_nat k + 1)
                     (1 + client_count s) s' = ret s').
    { destruct fuel as [| fuel]; [reflexivity | ]. cbn [check_client_sockets].
      destruct (Z.ltb_spec (Z.of_nat k + 1) (1 + client_count s));
        [lia | reflexivity]. }
    rewrite Hret. cbn. repeat split; assumption.
  - destruct fuel as [| fuel]; [lia | ].
    cbn [check_client_sockets]. cbv zeta.
    destruct (Z.ltb_spec (Z.of_nat k + 1) (1 + client_count s)) as [_ | Habs];
      [ | lia].
    replace (Z.of_nat k + 1 - 1) with (Z.of_nat k) by lia.
    rewrite (wrap64_small (Z.of_nat k)) by lia.
    rewrite Hcount.
    destruct (Z.leb_spec (client_count s) (Z.of_nat k)) as [Habs | _]; [lia | ].
    replace (Z.to_nat (Z.of_nat k + 1)) with (S k) by lia.
    destruct (Hserved k ltac:(lia)) as (Hnohup & Hrecv).
    rewrite Hnohup.
    rewrite (wrap64_small (Z.of_nat k + 1 + 1)) by lia.
    replace (Z.of_nat k + 1 + 1) with (Z.of_nat (S k) + 1) by lia.
    cbn [seq]. rewrite (omap_cons_app (served e s)).
    assert (Hone : omap (served e s) [k]
                   = if truthy (Z.land (nth (S k) (poll_revents e) 0) POLLIN)
                     then [(fd (clients s !!! k),
                            snd (received (handle_env e k) (clients s !!! k)))]
                     else []).
    { cbn [omap list_omap]. unfold served.
      destruct (truthy (Z.land (nth (S k) (poll_revents e) 0) POLLIN));
        reflexivity. }
    rewrite Hone. rewrite bind_fst, bind_snd.
    unfold handler_calls in *. rewrite omap_app, closed_fds_app.
    destruct (truthy (Z.land (nth (S k) (poll_revents e) 0) POLLIN)) eqn:Hin.
    + destruct (handle_client_message_calls (handle_env e k) s' (Z.of_nat k))
        as (Hcalls & Hnoclose & Hsame & Hsamecount).
      { rewrite Nat2Z.id, Hclients. apply Hrecv. reflexivity. }
      rewrite Nat2Z.id, Hclients in Hcalls.
      unfold result, trace, handler_calls in *.
      rewrite Hcalls, Hnoclose.
      destruct (IH fuel (S k) (fst (handle_client_message (handle_env e k) true
                                      s' (Z.of_nat k))))
        as (IH1 & IH2 & IH3 & IH4); try lia; try congruence.
      { replace (S k + d)%nat with (k + S d)%nat by lia. exact Hserved. }
      rewrite IH1, IH2. repeat split; assumption.
    + cbn [ret fst snd].
      destruct (IH fuel (S k) s') as (IH1 & IH2 & IH3 & IH4); try lia;
        try assumption.
      { replace (S k + d)%nat with (k + S d)%nat by lia. exact Hserved. }
      rewrite IH1, IH2. repeat split; assumption.
Qed.

(** X21.  Every ready connection is served once per pass.  When [poll]
    reports no hang-up or error, and every receive on a connection with
    something to read succeeds, one pass of the loop over the client sockets
    gives the handler exactly one call for each connection that has
    something to read, in the order of the table, with the descriptor of
    that connection and the message received on it, and none for the
    others; it closes nothing and leaves the connection table as it was. *)
Theorem ready_clients_served_once (e : LoopEnv) (s : Server D) :
  table_ok s -> client_count s + 1 < 2 ^ 64 ->
  all_served e s (Z.to_nat (client_count s)) ->
  let pollfd_count := wrap64 (1 + client_count s) in
  let out := check_client_sockets (Z.to_nat pollfd_count) e true 0%nat 1
               pollfd_count s in
  handler_calls (trace out)
  = omap (served e s) (seq 0 (Z.to_nat (client_count s))) /\
  closed_fds (trace out) = [] /\
  clients (result out) = clients s /\ client_count (result out) = client_count s.
Proof.
  intros ((Hlow & _) & _) Hmax Hserved. cbv zeta. unfold result, trace.
  rewrite wrap64_small by lia.
  apply (serve_from e s (Z.to_nat (client_count s)) _ 0%nat s); try reflexivity;
    try lia; assumption.
Qed.

End ReadyClients.

Lemma ready_clients_served_once_witness :
  handler_calls
    (trace (Server.check_client_sockets 4 two_ready true 0%nat 1 4 three_clients))
  = [(4, message_create_text (Some (repeat Byte.x00 5)) hello 5);
     (6, message_create_text (Some (repeat Byte.x00 5)) hello 5)].
Proof.
  destruct (ready_clients_served_once two_ready three_clients three_clients_ok)
    as (Hcalls & _).
  - cbn. lia.
  - intros k Hk. split; [ | intros _; apply hello_at_received].
    change (Z.to_nat (Server.client_count three_clients)) with 3%nat in Hk.
    destruct k as [| [| [| k]]]; try reflexivity. lia.
  - exact Hcalls.
Defined.

(* ================================================================== *)
(** * server.c: an accepted connection joins the poll set *)
(* ================================================================== *)

Section AcceptThenPoll.
Import Server.
Context {D : Type} `{Host} `{DoubleOps D}.

Lemma add_client_frame (alloc : realloc_clients_result) (s : Server D)
    (fd ssl : Z) :
  server_fd (fst (add_client alloc s fd ssl)) = server_fd s /\
  running (fst (add_client alloc s fd ssl)) = running s /\
  List.filter is_poll (snd (add_client alloc s fd ssl)) = [].
Proof.
  unfold add_client.
  destruct (client_capacity s <=? client_count s); [ | repeat split].
  destruct alloc; repeat split.
Qed.

Lemma accept_new_connection_frame (e : AcceptEnv) (s : Server D) :
  server_fd (fst (accept_new_connection e s)) = server_fd s /\
  running (fst (accept_new_connection e s)) = running s /\
  List.filter is_poll (snd (accept_new_connection e s)) = [].
Proof.
  rewrite accept_new_connection_unfold.
  destruct (add_client_frame (add_client_realloc e) s (accept_ret e)
              (SSL_new_ret e)) as (A1 & A2 & A3).
  destruct (add_client_frame (add_client_realloc e) s (accept_ret e) NULL)
    as (B1 & B2 & B3).
  destruct (accept_ret e <? 0).
  { destruct (negb _ && negb _); repeat split. }
  destruct (truthy (enable_tls s)).
  - destruct (negb (truthy (SSL_new_ret e)) || (SSL_accept_ret e <=? 0)).
    + destruct (truthy (SSL_new_ret e)); repeat split.
    + cbn [fst snd]. rewrite !List.filter_app, A3. repeat split; assumption.
  - cbn [fst snd]. rewrite !List.filter_app, B3. repeat split; assumption.
Qed.

(** An iteration that gets as far as [poll]. *)
Lemma polling_iteration (e : LoopEnv) (rest : list LoopEnv) (handler : bool)
    (pollfd_capacity : Z) (s : Server D) :
  stop_requested e = false -> truthy (running s) = true ->
  realloc_pollfds_ok e = true ->
  exists tail,
    List.filter is_poll (snd (event_loop (e :: rest) handler pollfd_capacity s))
    = poll_of s :: tail.
Proof.
  intros Hstop Hrun Halloc. cbn [event_loop]. rewrite Hstop, Hrun, Halloc.
  cbn [negb]. cbv zeta. unfold poll_of, live.
  destruct (pollfd_capacity <? wrap64 (1 + client_count s)).
  - rewrite !bind_snd, !List.filter_app. cbn [snd emit List.filter is_poll app].
    eexists. reflexivity.
  - rewrite !bind_snd, !List.filter_app. cbn [snd emit List.filter is_poll app].
    eexists. reflexivity.
Qed.

(** X22.  An accepted connection joins the poll set.  In an iteration in
    which [poll] reports a connection on the listening socket and nothing on
    the client sockets, and [accept_new_connection] gets as far as
    [add_client], which has room or can grow the table: the new connection
    becomes the last live entry; it is not examined in this iteration, whose
    loop over the client sockets changes nothing; and the [poll] of the next
    iteration is on the listening socket, the descriptors of the old live
    connections and the accepted descriptor, in this order. *)
Theorem accepted_connection_is_polled (e e_next : LoopEnv)
    (rest : list LoopEnv) (handler : bool) (pollfd_capacity : Z) (s : Server D) :
  table_ok s -> client_capacity s < 2 ^ 63 ->
  stop_requested e = false -> realloc_pollfds_ok e = true ->
  truthy (running s) = true -> 0 < poll_ret e ->
  truthy (Z.land (nth 0 (poll_revents e) 0) POLLIN) = true ->
  (forall k, 1 <= k <= client_count s ->
     quiet (nth (Z.to_nat k) (poll_revents e) 0) = true) ->
  reaches_add_client s (accept_env e) ->
  (client_capacity s <= client_count s ->
   exists fresh, add_client_realloc (accept_env e) = Some fresh /\
     Z.of_nat (length fresh) = doubled_capacity s - client_capacity s) ->
  stop_requested e_next = false -> realloc_pollfds_ok e_next = true ->
  let s1 := result (accept_new_connection (accept_env e) s) in
  let session := if truthy (enable_tls s) then SSL_new_ret (accept_env e)
                 else NULL in
  live s1 = live s ++ [new_entry (accept_ret (accept_env e)) session] /\
  exists later,
    List.filter is_poll
      (trace (event_loop (e :: e_next :: rest) handler pollfd_capacity s))
    = Ev_poll (server_fd s :: map fd (live s)) 1000
      :: Ev_poll (server_fd s :: map fd (live s) ++ [accept_ret (accept_env e)])
           1000
      :: later.
Proof.
  intros Hok Hbound Hstop Halloc Hrun Hpoll Hin Hquiet Hreach Hgrow Hstop2 Halloc2.
  cbv zeta.
  pose proof Hok as ((Hlow & Hhigh) & Hcap & Hsize).
  set (s1 := fst (accept_new_connection (accept_env e) s)).
  assert (Hlive : live s1
                  = live s ++ [new_entry (accept_ret (accept_env e))
                                 (if truthy (enable_tls s)
                                  then SSL_new_ret (accept_env e) else NULL)]
                  /\ client_count s1 = client_count s + 1).
  { subst s1. rewrite accept_new_connection_unfold.
    destruct Hreach as (Hfd & Hshake).
    destruct (Z.ltb_spec (accept_ret (accept_env e)) 0) as [Hneg | _]; [lia | ].
    destruct (truthy (enable_tls s)) eqn:Htls.
    - destruct Hshake as [Hplain | (Hnew & Haccept)]; [discriminate | ].
      rewrite Hnew. cbn [negb orb].
      destruct (Z.leb_spec (SSL_accept_ret (accept_env e)) 0); [lia | ].
      cbn [fst].
      destruct (add_client_appends (add_client_realloc (accept_env e)) s
                  (accept_ret (accept_env e)) (SSL_new_ret (accept_env e))
                  Hok Hbound Hgrow) as (Happ & Hcnt & _).
      split; assumption.
    - cbn [fst].
      destruct (add_client_appends (add_client_realloc (accept_env e)) s
                  (accept_ret (accept_env e)) NULL Hok Hbound Hgrow)
        as (Happ & Hcnt & _).
      split; assumption. }
  destruct Hlive as (Hlive & Hcount1).
  split; [exact Hlive | ].
  destruct (accept_new_connection_frame (accept_env e) s) as (Hfd1 & Hrun1 & Hnopoll).
  fold s1 in Hfd1, Hrun1.
  unfold SIZE_MAX in Hsize.
  assert (Hpass : check_client_sockets (Z.to_nat (wrap64 (1 + client_count s))) e
                    handler 0%nat 1 (wrap64 (1 + client_count s)) s1 = ret s1).
  { rewrite wrap64_small by lia.
    replace (Z.to_nat (1 + client_count s))
      with (Z.to_nat (client_count s) + 1)%nat by lia.
    rewrite check_quiet_sockets; try lia.
    - cbn [check_client_sockets].
      destruct (Z.ltb_spec (1 + Z.of_nat (Z.to_nat (client_count s)))
                  (1 + client_count s)); [lia | reflexivity].
    - intros k Hk. apply Hquiet. lia. }
  unfold trace. cbn [event_loop]. rewrite Hstop, Hrun, Halloc. cbn [negb].
  cbv zeta.
  assert (Hbody : forall cap,
    exists later,
      List.filter is_poll
        (snd (exec emit (Ev_poll
                      (server_fd s
                       :: map fd (take (Z.to_nat (client_count s)) (clients s)))
                      1000) ;
         (if poll_ret e <? 0
          then
            if poll_errno e =? EINTR
            then event_loop (e_next :: rest) handler cap s
            else
              exec logger_error "Poll error" ;
              exec emit Ev_free_pollfds ; ret (LoopBroken, s)
          else
            if poll_ret e =? 0
            then event_loop (e_next :: rest) handler cap s
            else
              call s1 <- (if truthy (Z.land (nth 0 (poll_revents e) 0) POLLIN)
                          then accept_new_connection (accept_env e) s
                          else ret s) ;
              call s2 <- check_client_sockets
                           (Z.to_nat (wrap64 (1 + client_count s))) e handler
                           0%nat 1 (wrap64 (1 + client_count s)) s1 ;
              event_loop (e_next :: rest) handler cap s2)))
      = Ev_poll (server_fd s :: map fd (live s)) 1000
        :: Ev_poll (server_fd s
                    :: map fd (live s) ++ [accept_ret (accept_env e)]) 1000
        :: later).
  { intros cap.
    destruct (Z.ltb_spec (poll_ret e) 0) as [Hneg | _]; [lia | ].
    destruct (Z.eqb_spec (poll_ret e) 0) as [Hzero | _]; [lia | ].
    rewrite Hin. repeat (rewrite bind_snd || rewrite bind_fst). fold s1.
    rewrite Hpass. cbn [fst snd ret emit app].
    destruct (polling_iteration e_next rest handler cap s1 Hstop2) as (tail & Htail);
      [congruence | exact Halloc2 | ].
    cbn [List.filter is_poll].
    rewrite !List.filter_app, Hnopoll, Htail. cbn [app].
    unfold poll_of. rewrite Hfd1, Hlive, map_app. cbn [map new_entry fd].
    exists tail. reflexivity. }
  destruct (pollfd_capacity <? wrap64 (1 + client_count s)).
  - destruct (Hbody (wrap64 (wrap64 (1 + client_count s) + 8))) as (later & Hl).
    exists later. rewrite bind_snd, List.filter_app. cbn [snd emit List.filter is_poll app].
    exact Hl.
  - apply Hbody.
Qed.

End AcceptThenPoll.

Lemma accepted_connection_is_polled_witness :
  exists later,
    List.filter is_poll
      (trace (Server.event_loop [connection_arrives; poll_timeout] true 0
                listening_server))
    = Ev_poll [3] 1000 :: Ev_poll [3; 4] 1000 :: later.
Proof.
  destruct (accepted_connection_is_polled connection_arrives poll_timeout []
              true 0 listening_server) as (_ & later & Hpolls).
  - unfold table_ok, SIZE_MAX. cbn. lia.
  - cbn. lia.
  - reflexivity.
  - reflexivity.
  - reflexivity.
  - cbn. lia.
  - reflexivity.
  - intros k Hk. cbn in Hk. lia.
  - split; [cbn; lia | left; reflexivity].
  - intros _. exists (repeat (conn 0) 8). split; reflexivity.
  - reflexivity.
  - reflexivity.
  - exists later. exact Hpolls.
Defined.

(* ================================================================== *)
(** * net_common.c: payloads of more than INT_MAX bytes over TLS *)
(* ================================================================== *)

Lemma to_int_range (x : Z) : - 2 ^ 31 <= to_int x <= INT_MAX.
Proof.
  unfold to_int, to_signed, INT_MAX.
  pose proof (Z.mod_pos_bound x (2 ^ 32) ltac:(lia)) as Hmod.
  change (2 ^ (32 - 1)) with (2 ^ 31).
  destruct (Z.ltb_spec (x mod 2 ^ 32) (2 ^ 31)); lia.
Qed.

(** X23.  Over TLS a payload of more than [INT_MAX] bytes never gets
    through.  [SSL_write] and [SSL_read] take the length as an [int] and
    return an [int]; [send_message] and [receive_message] pass them the
    [size_t] length and compare the result with that length.  So for a
    message with such a payload [send_message] returns -1, after writing
    the header and asking [SSL_write] for a number of bytes that is not the
    payload size; and [receive_message] returns -1 for a header that
    declares such a length. *)
Theorem tls_large_payload_rejected `{Host} (senv : SendEnv) (renv : RecvEnv)
    (fd ssl is_ssl : Z) (m msg0 : Message) :
  use_ssl ssl is_ssl = true ->
  has_payload m = true -> INT_MAX < payload_size m <= PTRDIFF_MAX ->
  send_payload_ret senv <= INT_MAX ->
  INT_MAX < h_length (message_header_deserialize (recv_header_raw renv))
  <= PTRDIFF_MAX ->
  recv_payload_ret renv <= INT_MAX ->
  result (send_message senv fd ssl is_ssl m) = -1 /\
  (send_header_ret senv = sizeof_MessageHeader ->
   last (trace (send_message senv fd ssl is_ssl m))
   = Some (Ev_SSL_write ssl (BufPayload (payload m)) (to_int (payload_size m)))) /\
  to_int (payload_size m) <> payload_size m /\
  fst (result (receive_message renv fd ssl is_ssl msg0)) = -1.
Proof.
  intros Htls Hpay Hsize Hwrite Hlen Hread.
  rewrite send_message_unfold, receive_message_result. unfold result, trace.
  cbn [fst snd]. rewrite Hpay.
  unfold write_event. rewrite Htls.
  split; [ | split; [ | split]].
  - destruct (negb (send_header_ret senv =? sizeof_MessageHeader));
      [reflexivity | ].
    rewrite to_ssize_t_small by (unfold INT_MAX in *; lia).
    destruct (Z.eqb_spec (send_payload_ret senv) (payload_size m)); [lia | ].
    reflexivity.
  - intros Hhdr. rewrite Hhdr, Z.eqb_refl. reflexivity.
  - pose proof (to_int_range (payload_size m)). lia.
  - cbv zeta.
    destruct (negb (recv_header_ret renv =? sizeof_MessageHeader));
      [reflexivity | ].
    destruct (Z.ltb_spec 0 (h_length (message_header_deserialize
                                        (recv_header_raw renv))));
      [ | unfold INT_MAX in *; lia].
    destruct (recv_malloc renv); [ | reflexivity].
    rewrite to_ssize_t_small by (unfold INT_MAX in *; lia).
    destruct (Z.eqb_spec (recv_payload_ret renv)
                (h_length (message_header_deserialize (recv_header_raw renv))));
      [lia | reflexivity].
Qed.

Lemma tls_large_payload_rejected_witness :
  let m := {| header := mkHeader MSG_TYPE_TEXT (2 ^ 31) MSG_FLAGS_NONE;
              payload := Some []; payload_size := 2 ^ 31 |} in
  let renv := {| recv_header_ret := 16;
                 recv_header_raw := message_header_serialize (header m);
                 recv_malloc := Some [];
                 recv_payload_ret := INT_MAX;
                 recv_payload_data := [] |} in
  result (send_message {| send_header_ret := 16; send_payload_ret := INT_MAX |}
            5 77 1 m) = -1 /\
  fst (result (receive_message renv 5 77 1 no_message)) = -1.
Proof.
  destruct (tls_large_payload_rejected
              {| send_header_ret := 16; send_payload_ret := INT_MAX |}
              {| recv_header_ret := 16;
                 recv_header_raw :=
                   message_header_serialize
                     (mkHeader MSG_TYPE_TEXT (2 ^ 31) MSG_FLAGS_NONE);
                 recv_malloc := Some [];
                 recv_payload_ret := INT_MAX;
                 recv_payload_data := [] |}
              5 77 1
              {| header := mkHeader MSG_TYPE_TEXT (2 ^ 31) MSG_FLAGS_NONE;
                 payload := Some []; payload_size := 2 ^ 31 |} no_message)
    as (Hsend & _ & _ & Hrecv).
  - reflexivity.
  - reflexivity.
  - vm_compute. split; [reflexivity | discriminate].
  - vm_compute. discriminate.
  - vm_compute. split; [reflexivity | discriminate].
  - vm_compute. discriminate.
  - split; [exact Hsend | exact Hrecv].
Defined.

(* ================================================================== *)
(** * server_net.c: init_tls_server frees what it creates *)
(* ================================================================== *)

(** X24.  [init_tls_server] keeps its books on every path, whatever the
    nine calls whose results it tests return.  It never frees an object it
    does not hold and never leaks one: when it returns a context, the
    context is the only object still held (the key context, the key and the
    certificate were freed, each once), and when it returns [NULL] nothing
    is held.  It logs an error exactly when it returns [NULL], and then
    exactly one.  (The calls that fill in the certificate, from
    [X509_set_version] to [X509_set_issuer_name], create and free none of
    these objects and their results are not looked at.) *)
Theorem init_tls_server_balanced (e : ServerTls.InitEnv) :
  let out := ServerTls.init_tls_server e in
  holds (snd out) [] = Some (if fst out then [ServerTls.R_ctx] else []) /\
  length (error_logs (snd out)) = (if fst out then 0%nat else 1%nat).
Proof.
  cbv zeta. unfold ServerTls.init_tls_server.
  destruct e as [ctx pctx init bits keygen x509 sign cert key].
  cbn [ServerTls.SSL_CTX_new_ok ServerTls.EVP_PKEY_CTX_new_id_ok
       ServerTls.EVP_PKEY_keygen_init_ret
       ServerTls.EVP_PKEY_CTX_set_rsa_keygen_bits_ret
       ServerTls.EVP_PKEY_keygen_ret ServerTls.X509_new_ok
       ServerTls.X509_sign_ret ServerTls.SSL_CTX_use_certificate_ret
       ServerTls.SSL_CTX_use_PrivateKey_ret].
  destruct ctx, pctx, (init <=? 0), (bits <=? 0), (keygen <=? 0), x509,
    (sign =? 0), (cert =? 1), (key =? 1); repeat split.
Qed.

(* ================================================================== *)
(** * server_net.c: the listening socket *)
(* ================================================================== *)

Section ListeningSocket.
Import ServerNet.

(** X25.  [setup_unix_socket] and [setup_inet_socket] return -1 or the
    descriptor [socket] gave them, which is then not negative; a socket
    that was created is closed, once, exactly when the call fails, and
    nothing else is closed.  [setup_unix_socket] unlinks the path whenever
    the socket was created, before [bind] and whether or not [bind] then
    succeeds.  [setup_inet_socket] binds to [INADDR_ANY], that is to every
    interface, when the host is null, empty, ["localhost"] or
    ["127.0.0.1"], without calling [inet_aton]. *)
Theorem setup_socket_descriptors (e : SetupEnv) (socket_path : string)
    (host : option string) (port : Z) :
  let u := setup_unix_socket e socket_path in
  let i := setup_inet_socket e host port in
  (fst u = -1 \/ (fst u = socket_ret e /\ 0 <= socket_ret e)) /\
  (fst i = -1 \/ (fst i = socket_ret e /\ 0 <= socket_ret e)) /\
  setup_closes (snd u)
  = (if (0 <=? socket_ret e) && (fst u =? -1) then [socket_ret e] else []) /\
  setup_closes (snd i)
  = (if (0 <=? socket_ret e) && (fst i =? -1) then [socket_ret e] else []) /\
  (0 <= socket_ret e ->
   exists after, snd u = Socket SOCKET_MODE_UNIX :: Unlink socket_path :: after) /\
  (In host [None; Some ""%string; Some "localhost"%string;
            Some "127.0.0.1"%string] ->
   0 <= fst i ->
   bound_to (snd i) = [INADDR_ANY] /\
   forall h, ~ In (Inet_aton h) (snd i)).
Proof.
  cbv zeta. unfold setup_unix_socket, setup_inet_socket, set_socket_reuse.
  cbv zeta.
  assert (Hminus : forall x, 0 <= x -> (x =? -1) = false)
    by (intros x Hx; apply Z.eqb_neq; lia).
  destruct (Z.ltb_spec (socket_ret e) 0) as [Hneg | Hpos].
  - destruct (Z.leb_spec 0 (socket_ret e)) as [Habs | _]; [lia | ].
    cbn [fst snd andb]. repeat split; auto; try lia.
    all: intros; lia.
  - destruct (Z.leb_spec 0 (socket_ret e)) as [_ | Habs]; [ | lia].
    assert (Hany : In host [None; Some ""%string; Some "localhost"%string;
                            Some "127.0.0.1"%string] ->
                   match host with
                   | None => true
                   | Some h => String.eqb h "" || String.eqb h "localhost"
                               || String.eqb h "127.0.0.1"
                   end = true).
    { intros Hhost.
      repeat (destruct Hhost as [<- | Hhost]; [reflexivity | ]).
      destruct Hhost. }
    set (any := match host with
                | None => true
                | Some h => String.eqb h "" || String.eqb h "localhost"
                            || String.eqb h "127.0.0.1"
                end) in *.
    destruct any, (inet_aton_ret e =? 0), (bind_ret e <? 0),
      (setsockopt_ret e <? 0);
      change (0 <? 0) with false; change (-1 <? 0) with true;
      cbn [negb andb fst snd app]; rewrite ?(Hminus _ Hpos);
      (split; [auto | ]); (split; [auto | ]); (split; [reflexivity | ]);
      (split; [reflexivity | ]); (split; [intros _; eexists; reflexivity | ]);
      intros Hhost Hok; try lia; try (specialize (Hany Hhost); discriminate);
      (split; [reflexivity | ]);
      intros h Hin; repeat (destruct Hin as [Hin | Hin]; [discriminate Hin | ]);
      exact Hin.
Qed.

End ListeningSocket.

Lemma setup_socket_descriptors_witness :
  bound_to (snd (ServerNet.setup_inet_socket (ServerNet.mkSetupEnv 3 0 0 1)
                   (Some "127.0.0.1"%string) 8080))
  = [ServerNet.INADDR_ANY].
Proof.
  destruct (setup_socket_descriptors (ServerNet.mkSetupEnv 3 0 0 1)
              "/tmp/ipc.sock" (Some "127.0.0.1"%string) 8080)
    as (_ & _ & _ & _ & _ & Hany).
  destruct Hany as (Hbound & _).
  - right. right. right. left. reflexivity.
  - cbn. lia.
  - exact Hbound.
Defined.

Lemma client_connect_outcome_witness :
  let env := fun k => if k <? 2 then handshake_refused
                      else Client.mkAttemptEnv true 4 1 0 0 0 78 1 in
  let c := snd (Client.client_init true 55 SOCKET_MODE_INET "127.0.0.1:9000" 1) in
  fst (result (Client.client_connect env c 5)) = 0 /\
  Client.client_is_connected (snd (result (Client.client_connect env c 5))) = true.
Proof.
  destruct (client_connect_outcome
              (fun k => if k <? 2 then handshake_refused
                        else Client.mkAttemptEnv true 4 1 0 0 0 78 1)
              (snd (Client.client_init true 55 SOCKET_MODE_INET "127.0.0.1:9000" 1))
              5) as (_ & Hok & _).
  destruct Hok as (Hres & Hconn).
  - vm_compute. lia.
  - cbv zeta. split; [ | exact Hconn].
    exact (f_equal fst Hres).
Defined.

Lemma client_send_text_outcome_witness :
  result (Client.client_send_text (Some (repeat Byte.x00 5))
            {| send_header_ret := 16; send_payload_ret := 5 |}
            (Server.recv_env ack_arrives) no_message connected_client hello 5) = 0.
Proof.
  destruct (client_send_text_outcome (Some (repeat Byte.x00 5))
              {| send_header_ret := 16; send_payload_ret := 5 |}
              (Server.recv_env ack_arrives) no_message connected_client hello 5)
    as (_ & Hiff & _).
  apply Hiff. repeat split.
Defined.

(* ================================================================== *)
(** * error.c: error_to_string *)
(* ================================================================== *)

(** X26.  [error_to_string] names every error code of [ErrorCode] with a
    text of its own: two codes in the range of the enumeration that get the
    same text are the same code; and the text is ["Unknown error"] exactly
    for the values outside that range. *)
Theorem error_to_string_distinct (a b : Z) :
  (ERROR_SUCCESS <= a <= ERROR_SYSTEM -> ERROR_SUCCESS <= b <= ERROR_SYSTEM ->
   error_to_string a = error_to_string b -> a = b) /\
  (error_to_string a = "Unknown error"%string
   <-> ~ ERROR_SUCCESS <= a <= ERROR_SYSTEM).
Proof.
  unfold ERROR_SUCCESS, ERROR_SYSTEM. split.
  - intros Ha Hb.
    assert (Hcases : forall x, 0 <= x <= 7 ->
              x = 0 \/ x = 1 \/ x = 2 \/ x = 3 \/ x = 4 \/ x = 5 \/ x = 6 \/ x = 7)
      by (intros; lia).
    destruct (Hcases a Ha) as [-> | [-> | [-> | [-> | [-> | [-> | [-> | ->]]]]]]];
      destruct (Hcases b Hb) as [-> | [-> | [-> | [-> | [-> | [-> | [-> | ->]]]]]]];
      cbn; intros Heq; try reflexivity; discriminate Heq.
  - unfold error_to_string, ERROR_SUCCESS, ERROR_NETWORK, ERROR_PROTOCOL, ERROR_TLS,
      ERROR_TIMEOUT, ERROR_CONNECTION, ERROR_INVALID_ARG, ERROR_SYSTEM.
    repeat (match goal with
            | |- context [?x =? ?y] =>
                destruct (Z.eqb_spec x y);
                [subst; split; [discriminate | intros Hout; lia] | ]
            end).
    split; [intros _; lia | reflexivity].
Qed.

(* ================================================================== *)
(** * server.c: server_start, and server_cleanup after it *)
(* ================================================================== *)

Section ServerStartOutcome.
Import Server.
Context {D : Type} `{Host} `{DoubleOps D}.

Lemma server_cleanup_closed (s : Server D) :
  table_ok s ->
  closed_fds (calls_of (snd (server_cleanup s)))
  = map fd (live s) ++ (if 0 <=? server_fd s then [server_fd s] else []).
Proof.
  intros ((Hlow & Hhigh) & Hcap & _). unfold server_cleanup. cbn [snd].
  destruct (close_clients_trace (clients s) (Z.to_nat (client_count s)) 0)
    as (Hclosed & _); [lia | ].
  rewrite drop_0 in Hclosed. fold (live s) in Hclosed.
  unfold trace, cleanup_tls.
  rewrite !calls_of_app, calls_of_calls, !closed_fds_app, Hclosed.
  destruct (0 <=? server_fd s), (mode s), (truthy (ssl_ctx s)); reflexivity.
Qed.

Lemma start_closes_setup (calls : list ServerNet.Call) :
  start_closes (map ServerStart.Setup calls) = setup_closes calls.
Proof.
  induction calls as [| c calls IH]; [reflexivity | ].
  unfold start_closes, setup_closes in *. cbn [map omap list_omap].
  rewrite IH. destruct c; reflexivity.
Qed.

Lemma loop_calls_setup (calls : list ServerNet.Call) :
  loop_calls (map ServerStart.Setup calls) = [].
Proof. induction calls as [| c calls IH]; [reflexivity | exact IH]. Qed.

Lemma loop_calls_loop (tr : list Event) :
  loop_calls (map ServerStart.Loop tr) = tr.
Proof.
  induction tr as [| e tr IH]; [reflexivity | ].
  unfold loop_calls in *. cbn [map omap list_omap]. rewrite IH. reflexivity.
Qed.

(** What [setup_socket] leaves: the descriptor of a created socket is
    either stored in [server_fd] or closed, and nothing of the event loop
    is called. *)
Lemma setup_socket_outcome (e : ServerStart.StartEnv) (s : Server D) :
  server_fd s = -1 ->
  let out := ServerStart.setup_socket e s in
  let created :=
    (0 <=? ServerNet.socket_ret (ServerStart.setup_env e))
    && match mode s with
       | SOCKET_MODE_UNIX => true
       | SOCKET_MODE_INET => ServerStart.strdup_ok e
       end in
  loop_calls (snd out) = [] /\
  clients (fst out) = clients s /\ client_count (fst out) = client_count s /\
  client_capacity (fst out) = client_capacity s /\
  running (fst out) = running s /\
  (server_fd (fst out) = -1 \/
   (server_fd (fst out) = ServerNet.socket_ret (ServerStart.setup_env e) /\
    0 <= server_fd (fst out))) /\
  start_closes (snd out)
  = (if created && (server_fd (fst out) =? -1)
     then [ServerNet.socket_ret (ServerStart.setup_env e)] else []) /\
  (0 <= server_fd (fst out) -> created = true).
Proof.
  intros Hfresh. cbv zeta.
  unfold ServerStart.setup_socket, ServerNet.setup_unix_socket,
    ServerNet.setup_inet_socket, ServerNet.set_socket_reuse, Utils.parse_address.
  cbv zeta.
  set (env := ServerStart.setup_env e).
  assert (Hminus : forall x, 0 <= x -> (x =? -1) = false)
    by (intros x Hx; apply Z.eqb_neq; lia).
  assert (Hneg : forall x, 0 <= x -> (x <? 0) = false)
    by (intros x Hx; apply Z.ltb_ge; lia).
  destruct (mode s).
  - destruct (Z.ltb_spec (ServerNet.socket_ret env) 0) as [Hbad | Hgood].
    + destruct (Z.leb_spec 0 (ServerNet.socket_ret env)) as [Habs | _]; [lia | ].
      cbn. repeat split; auto; intros; lia.
    + destruct (Z.leb_spec 0 (ServerNet.socket_ret env)) as [_ | Habs]; [ | lia].
      destruct (ServerNet.bind_ret env <? 0), (ServerNet.setsockopt_ret env <? 0);
        change (0 <? 0) with false; change (-1 <? 0) with true;
        cbn [fst snd ServerStart.set_server_fd server_fd andb];
        rewrite ?(Hneg _ Hgood), ?(Hminus _ Hgood);
        cbn [fst snd ServerStart.set_server_fd server_fd clients client_count
             client_capacity running andb];
        rewrite ?(Hneg _ Hgood), ?(Hminus _ Hgood);
        repeat split; auto; intros; lia.
  - destruct (ServerStart.strdup_ok e).
    + set (any := String.eqb _ "" || String.eqb _ "localhost"
                  || String.eqb _ "127.0.0.1").
      destruct (Z.ltb_spec (ServerNet.socket_ret env) 0) as [Hbad | Hgood].
      * destruct (Z.leb_spec 0 (ServerNet.socket_ret env)) as [Habs | _];
          [lia | ].
        cbn. repeat split; auto; intros; lia.
      * destruct (Z.leb_spec 0 (ServerNet.socket_ret env)) as [_ | Habs];
          [ | lia].
        destruct any, (ServerNet.inet_aton_ret env =? 0),
          (ServerNet.bind_ret env <? 0), (ServerNet.setsockopt_ret env <? 0);
          change (0 <? 0) with false; change (-1 <? 0) with true;
          cbn [negb andb fst snd ServerStart.set_server_fd server_fd app];
          rewrite ?(Hneg _ Hgood), ?(Hminus _ Hgood);
          cbn [fst snd ServerStart.set_server_fd server_fd clients client_count
               client_capacity running andb];
          rewrite ?(Hneg _ Hgood), ?(Hminus _ Hgood);
          repeat split; auto; intros; lia.
    + rewrite andb_false_r. cbn [fst snd]. repeat split; auto; intros; lia.
Qed.

(** X27.  [server_start] on an initialised server ([server_fd = -1]) with a
    well-formed table.  (1) When no listening socket results, or [listen]
    fails, it returns -1 without running the event loop and with [running]
    as it was; the socket it created, if any, is closed by the setup when
    the setup fails, and is otherwise left in [server_fd], where a
    following [server_cleanup] closes it: over [server_start] and
    [server_cleanup] together every descriptor, that of the created socket
    and those of the live connections, is closed exactly once.  (2) When
    the socket listens it sets [running = 1], runs the event loop on that
    server, and returns 0 when the loop leaves, whether the loop was stopped
    or broke off after an error. *)
Theorem server_start_outcome (e : ServerStart.StartEnv) (handler : bool)
    (s : Server D) :
  server_fd s = -1 -> table_ok s ->
  let out := ServerStart.server_start e handler s in
  let code := fst (fst out) in
  let s' := snd (fst out) in
  let s1 := fst (ServerStart.setup_socket e s) in
  let created :=
    (0 <=? ServerNet.socket_ret (ServerStart.setup_env e))
    && match mode s with
       | SOCKET_MODE_UNIX => true
       | SOCKET_MODE_INET => ServerStart.strdup_ok e
       end in
  (server_fd s1 < 0 \/ ServerStart.listen_ret e < 0 ->
   code = Some (-1) /\ loop_calls (snd out) = [] /\ running s' = running s /\
   start_closes (snd out) ++ closed_fds (calls_of (snd (server_cleanup s')))
   ≡ₚ map fd (live s)
      ++ (if created then [ServerNet.socket_ret (ServerStart.setup_env e)]
          else [])) /\
  (0 <= server_fd s1 -> 0 <= ServerStart.listen_ret e ->
   let loop := run_event_loop (ServerStart.script e) handler (set_running s1 1) in
   loop_calls (snd out) = trace loop /\ s' = snd (result loop) /\
   code = match fst (result loop) with
          | LoopRunning => None
          | _ => Some 0
          end).
Proof.
  intros Hfresh Hok. cbv zeta.
  destruct (setup_socket_outcome e s Hfresh)
    as (Hnoloop & Hclients & Hcount & Hcapacity & Hrunning & Hfd & Hcloses
        & Hcreated).
  unfold ServerStart.server_start.
  destruct (ServerStart.setup_socket e s) as [s1 calls] eqn:Hsetup.
  cbn [fst snd] in *.
  assert (Hlive : live s1 = live s) by (unfold live; congruence).
  assert (Hok1 : table_ok s1).
  { unfold table_ok in *. rewrite Hclients, Hcount, Hcapacity. exact Hok. }
  split.
  - intros Hfail.
    destruct (Z.ltb_spec (server_fd s1) 0) as [Hnone | Hsome].
    + cbn [fst snd]. destruct Hfd as [Hminus | (_ & Habs)]; [ | lia].
      rewrite Hcloses, Hminus, (server_cleanup_closed s1 Hok1), Hminus, Hlive.
      cbn [Z.eqb]. rewrite andb_true_r.
      change (0 <=? -1) with false. rewrite app_nil_r.
      repeat split; try assumption. apply Permutation_app_comm.
    + destruct Hfail as [Habs | Hlisten]; [lia | ].
      destruct (Z.ltb_spec (ServerStart.listen_ret e) 0) as [_ | Habs]; [ | lia].
      cbn [fst snd].
      unfold loop_calls, start_closes in *.
      rewrite !omap_app, Hnoloop, Hcloses.
      rewrite (server_cleanup_closed s1 Hok1), Hlive, (Hcreated Hsome).
      destruct Hfd as [Hminus | (Hsock & _)]; [lia | ].
      assert (Hne : (server_fd s1 =? -1) = false) by (apply Z.eqb_neq; lia).
      rewrite Hne. cbn [andb app omap list_omap].
      destruct (Z.leb_spec 0 (server_fd s1)) as [_ | Habs]; [ | lia].
      rewrite Hsock. repeat split; [assumption | reflexivity].
  - intros Hsome Hlisten. cbv zeta.
    destruct (Z.ltb_spec (server_fd s1) 0) as [Habs | _]; [lia | ].
    destruct (Z.ltb_spec (ServerStart.listen_ret e) 0) as [Habs | _]; [lia | ].
    unfold result, trace.
    destruct (run_event_loop (ServerStart.script e) handler (set_running s1 1))
      as [[exit s3] loop].
    cbn [fst snd]. unfold loop_calls in *.
    rewrite !omap_app, Hnoloop. cbn [app omap list_omap].
    fold (loop_calls (map ServerStart.Loop loop)). rewrite loop_calls_loop.
    repeat split.
Qed.

End ServerStartOutcome.

Lemma server_start_outcome_witness :
  let s : Server.Server QArith_base.Q :=
    snd (Server.server_init true NULL (mkTimeval 100 0) SOCKET_MODE_UNIX
           "/tmp/ipc.sock" 0) in
  let e := ServerStart.mkStartEnv (ServerNet.mkSetupEnv 3 0 0 1) true (-1) [] in
  let out := ServerStart.server_start e true s in
  fst (fst out) = Some (-1) /\
  start_closes (snd out)
  ++ closed_fds (calls_of (snd (server_cleanup (snd (fst out))))) ≡ₚ [3].
Proof.
  destruct (server_start_outcome
              (ServerStart.mkStartEnv (ServerNet.mkSetupEnv 3 0 0 1) true (-1) [])
              true
              (snd (Server.server_init true NULL (mkTimeval 100 0)
                      SOCKET_MODE_UNIX "/tmp/ipc.sock" 0)
               : Server.Server QArith_base.Q))
    as (Hfail & _).
  - reflexivity.
  - unfold table_ok, SIZE_MAX. cbn. lia.
  - destruct Hfail as (Hcode & _ & _ & Hperm).
    + right. cbn. lia.
    + split; [exact Hcode | exact Hperm].
Defined.

(* ================================================================== *)
(** * main.c: what parse_config reads from a file *)
(* ================================================================== *)

Section ConfigLines.
Import ConfigFile.

Lemma fgets_splits (room : nat) (f : string) :
  String.append (fst (fgets room f)) (snd (fgets room f)) = f.
Proof.
  revert f. induction room as [ | room IH]; intros f; [reflexivity | ].
  destruct f as [ | c rest]; [reflexivity | ]. cbn [fgets].
  destruct (Ascii.eqb c newline); [reflexivity | ].
  specialize (IH rest). destruct (fgets room rest) as [line left].
  cbn [fst snd] in *. cbn. now rewrite IH.
Qed.

Lemma fgets_left (room : nat) (f : string) :
  (String.length (snd (fgets room f)) <= String.length f)%nat.
Proof.
  revert f. induction room as [ | room IH]; intros f; [cbn; lia | ].
  destruct f as [ | c rest]; [cbn; lia | ]. cbn [fgets].
  destruct (Ascii.eqb c newline); [cbn; lia | ].
  specialize (IH rest). destruct (fgets room rest) as [line left].
  cbn [fst snd String.length] in *. lia.
Qed.

Lemma fgets_reads (room : nat) (c : ascii) (rest : string) :
  (String.length (snd (fgets (S room) (String c rest)))
   <= String.length rest)%nat.
Proof.
  cbn [fgets]. destruct (Ascii.eqb c newline); [cbn; lia | ].
  pose proof (fgets_left room rest) as Hleft.
  destruct (fgets room rest) as [line left]. exact Hleft.
Qed.

(** With a buffer of two characters or more, [String.length f] calls of
    [fgets] read the whole of [f]. *)
Lemma read_lines_joined (fuel size : nat) (f : string) :
  (2 <= size)%nat -> (String.length f <= fuel)%nat ->
  joined (read_lines fuel size f) = f.
Proof.
  intros Hsize. revert f.
  induction fuel as [ | fuel IH]; intros f Hfuel.
  - destruct f; [reflexivity | cbn in Hfuel; lia].
  - destruct f as [ | c rest]; [reflexivity | ]. cbn [read_lines].
    destruct (size - 1)%nat as [ | room] eqn:Hroom; [lia | ].
    pose proof (fgets_splits (S room) (String c rest)) as Hsplit.
    pose proof (fgets_reads room c rest) as Hreads.
    destruct (fgets (S room) (String c rest)) as [line left].
    cbn [fst snd] in *. cbn [joined fold_right].
    change (String.append line (joined (read_lines fuel size left)) = String c rest).
    rewrite IH by (cbn in Hfuel; lia). exact Hsplit.
Qed.

Lemma fgets_length (room : nat) (f : string) :
  (String.length (fst (fgets room f)) <= room)%nat.
Proof.
  revert f. induction room as [ | room IH]; intros f; [cbn; lia | ].
  destruct f as [ | c rest]; [cbn; lia | ]. cbn [fgets].
  destruct (Ascii.eqb c newline); [cbn; lia | ].
  specialize (IH rest). destruct (fgets room rest) as [line left].
  cbn [fst snd String.length] in *. lia.
Qed.

Lemma read_lines_bounded (fuel size : nat) (f : string) :
  Forall (fun line => (String.length line <= size - 1)%nat)
    (read_lines fuel size f).
Proof.
  revert f. induction fuel as [ | fuel IH]; intros f; [constructor | ].
  destruct f as [ | c rest]; [constructor | ]. cbn [read_lines].
  pose proof (fgets_length (size - 1) (String c rest)) as Hlength.
  destruct (fgets (size - 1) (String c rest)) as [line left].
  constructor; [exact Hlength | apply IH].
Qed.

(** The line [key_value] works on is the text of the buffer. *)
Lemma chomp_text (buf : string) :
  substring 0 (strcspn (c_str buf) newline) (c_str buf) = text_of buf.
Proof.
  induction buf as [ | c rest IH]; [reflexivity | ]. cbn [c_str text_of].
  destruct (Ascii.eqb c nul) eqn:Hnul.
  - rewrite orb_true_r. reflexivity.
  - rewrite orb_false_r. cbn [strcspn].
    destruct (Ascii.eqb c newline); [reflexivity | ].
    cbn [substring]. now rewrite IH.
Qed.

Lemma substring_whole (s : string) : substring 0 (String.length s) s = s.
Proof. induction s as [ | c s IH]; [reflexivity | cbn; now rewrite IH]. Qed.

Lemma split_eq_strchr (line : string) :
  match strchr line "="%char with
  | None => None
  | Some eq => Some (substring 0 eq line,
                     substring (S eq) (String.length line - S eq) line)
  end = split_eq line.
Proof.
  induction line as [ | d rest IH]; [reflexivity | ]. cbn [strchr split_eq].
  destruct (Ascii.eqb d "="%char).
  - cbn. now rewrite Nat.sub_0_r, substring_whole.
  - rewrite <- IH. destruct (strchr rest "="%char) as [eq | ]; reflexivity.
Qed.

Lemma key_value_text (buf : string) :
  key_value buf
  = match text_of buf with
    | EmptyString => None
    | String c _ =>
        if Ascii.eqb c "#"%char then None else split_eq (text_of buf)
    end.
Proof.
  unfold key_value. rewrite chomp_text.
  destruct (text_of buf) as [ | c rest]; [reflexivity | ].
  destruct (Ascii.eqb c "#"%char); [reflexivity | ]. apply split_eq_strchr.
Qed.

Lemma split_eq_append (line k v : string) :
  split_eq line = Some (k, v) -> line = String.append k (String "="%char v).
Proof.
  revert k. induction line as [ | d rest IH]; intros k; [discriminate | ].
  cbn [split_eq]. destruct (Ascii.eqb_spec d "="%char) as [-> | _].
  - intros [= <- <-]. reflexivity.
  - destruct (split_eq rest) as [[k' v'] | ]; [ | discriminate].
    cbn. intros [= <- <-]. now rewrite (IH k' eq_refl).
Qed.

Lemma split_eq_key (k v : string) :
  split_eq k = None -> split_eq (String.append k (String "="%char v)) = Some (k, v).
Proof.
  induction k as [ | d k IH]; [reflexivity | ]. cbn [split_eq String.append].
  destruct (Ascii.eqb d "="%char); [discriminate | ].
  destruct (split_eq k) as [kv | ]; [discriminate | ].
  intros _. now rewrite IH.
Qed.

Lemma strip_prefix_append (p s v : string) :
  strip_prefix p s = Some v <-> s = String.append p v.
Proof.
  revert s. induction p as [ | a p IH]; intros s.
  - cbn. split; [intros [= ->] | intros ->]; reflexivity.
  - destruct s as [ | b s]; cbn; [split; discriminate | ].
    destruct (Ascii.eqb_spec a b) as [-> | Hne].
    + rewrite IH. split; [intros ->; reflexivity | intros [= ->]; reflexivity].
    + split; [discriminate | intros [= Hab _]; now destruct Hne].
Qed.

Lemma append_key_eq (k v : string) :
  String.append (String.append k "=") v = String.append k (String "="%char v).
Proof. induction k as [ | d k IH]; [reflexivity | cbn; now rewrite IH]. Qed.

Lemma setting_text (key buf v : string) :
  setting key buf = Some v
  <-> text_of buf = String.append key (String "="%char v).
Proof. unfold setting. now rewrite strip_prefix_append, append_key_eq. Qed.

(** A line gives a value to [key] exactly when [key_value] splits it into
    [key] and that value. *)
Lemma setting_key_value (key buf : string) :
  good_key key ->
  setting key buf
  = match key_value buf with
    | Some (k, v) => if String.eqb k key then Some v else None
    | None => None
    end.
Proof.
  intros [Hkey Hhash].
  assert (Hset : forall v, setting key buf = Some v ->
                           key_value buf = Some (key, v)).
  { intros v Hv. apply setting_text in Hv. rewrite key_value_text, Hv.
    rewrite (split_eq_key key v Hkey).
    destruct key as [ | c key']; [reflexivity | ]. cbn. now rewrite Hhash. }
  destruct (key_value buf) as [[k v] | ] eqn:Hkv.
  - destruct (String.eqb_spec k key) as [-> | Hne].
    + rewrite key_value_text in Hkv.
      destruct (text_of buf) as [ | c rest] eqn:Htext; [discriminate | ].
      destruct (Ascii.eqb c "#"%char); [discriminate | ].
      apply split_eq_append in Hkv. apply setting_text. congruence.
    + destruct (setting key buf) as [v' | ] eqn:Hv; [ | reflexivity].
      specialize (Hset v' eq_refl). congruence.
  - destruct (setting key buf) as [v' | ] eqn:Hv; [ | reflexivity].
    specialize (Hset v' eq_refl). discriminate.
Qed.

Lemma settings_snoc (key : string) (lines : list string) (buf : string) :
  settings key (lines ++ [buf])
  = settings key lines ++ match setting key buf with
                          | Some v => [v]
                          | None => []
                          end.
Proof.
  unfold settings. rewrite omap_app. cbn.
  destruct (setting key buf); reflexivity.
Qed.

End ConfigLines.

(* ================================================================== *)
(** * server/main.c: parse_config *)
(* ================================================================== *)

Section ServerParseConfig.
Import ConfigFile ServerMain.
Variable alloc_ok : nat -> bool.

Lemma last_settings_snoc {A : Type} (l : list A) (o : option A) :
  last (l ++ match o with Some v => [v] | None => [] end)
  = match o with Some v => Some v | None => last l end.
Proof. destruct o; [apply last_snoc | now rewrite app_nil_r]. Qed.

Lemma modes_snoc (l : list string) (o : option string) :
  last (omap mode_named (l ++ match o with Some v => [v] | None => [] end))
  = match o ≫= mode_named with
    | Some m => Some m
    | None => last (omap mode_named l)
    end.
Proof.
  rewrite omap_app. destruct o as [v | ]; cbn; [ | now rewrite app_nil_r].
  destruct (mode_named v); [apply last_snoc | now rewrite app_nil_r].
Qed.

Lemma server_lines_settings (lines : list string) :
  let st := fold_left (config_line alloc_ok) lines
              ({| mode := SOCKET_MODE_INET; address := None;
                  enable_tls := 0 |}, 0%nat) in
  let addresses := settings "address" lines in
  mode (fst st)
  = default SOCKET_MODE_INET (last (omap mode_named (settings "mode" lines))) /\
  enable_tls (fst st) = flag_of (last (settings "tls" lines)) /\
  snd st = length addresses /\
  address (fst st)
  = match last addresses with
    | Some v => strdup alloc_ok (length addresses - 1) v
    | None => None
    end.
Proof.
  induction lines as [ | buf lines IH] using rev_ind; [now cbn | ].
  cbv zeta in *. rewrite fold_left_app. cbn [fold_left].
  destruct (fold_left _ lines _) as [cfg n]. cbn [fst snd] in IH.
  destruct IH as (Hmode & Htls & Hn & Haddress).
  rewrite !settings_snoc, modes_snoc, !last_settings_snoc, length_app.
  rewrite !setting_key_value by (split; reflexivity).
  unfold config_line.
  destruct (key_value buf) as [[key value] | ]; cbn [fst snd].
  2: { cbn. rewrite Nat.add_0_r. now repeat split. }
  destruct (String.eqb_spec key "mode") as [-> | _].
  { cbn [String.eqb Ascii.eqb Bool.eqb]. cbn [mbind option_bind].
    unfold mode_named.
    destruct (String.eqb value "unix"), (String.eqb value "inet");
      cbn; rewrite Nat.add_0_r; now repeat split. }
  destruct (String.eqb_spec key "address") as [-> | _].
  { cbn. replace (length (settings "address" lines) + 1 - 1)%nat with n by lia.
    repeat split; try assumption. lia. }
  destruct (String.eqb_spec key "tls") as [-> | _].
  { cbn. rewrite Nat.add_0_r. now repeat split. }
  cbn. rewrite Nat.add_0_r. now repeat split.
Qed.

(** X28.  What the server's [parse_config] reads from a file that opens
    and whose [tls=] values start with numbers that fit [int].  Every
    character of the file is read, in buffers of at most 255 characters, and
    the call returns 0.  A buffer sets a key when its text (up to the
    newline) starts with the key and [=]; the last one that does wins.  The
    mode is that of the last buffer [mode=unix] or [mode=inet] (internet
    when there is none, other values being ignored), TLS is on when the
    number the last [tls=] value starts with is not 0, and the address is a
    copy of the value of the last [address=] buffer.  When there is none, or
    when the copy of the last one failed, the address is what [strdup] gives
    for the default of the mode read. *)
Theorem server_parse_config_settings (f : string) (out : Config) :
  forallb fits_int
    (settings "tls" (read_lines (String.length f) MAX_LINE_LEN f)) = true ->
  let lines := read_lines (String.length f) MAX_LINE_LEN f in
  let r := parse_config alloc_ok true f out in
  let addresses := settings "address" lines in
  let fallback :=
    strdup alloc_ok (length addresses) (default_address (mode (snd r))) in
  joined lines = f /\
  Forall (fun buf => (String.length buf <= 255)%nat) lines /\
  fst r = 0 /\
  mode (snd r)
  = default SOCKET_MODE_INET (last (omap mode_named (settings "mode" lines))) /\
  enable_tls (snd r) = flag_of (last (settings "tls" lines)) /\
  address (snd r)
  = match last addresses with
    | Some v =>
        if alloc_ok (length addresses - 1)
        then Some ((length addresses - 1)%nat, v)
        else fallback
    | None => fallback
    end.
Proof.
  intros _. cbv zeta. split.
  { apply read_lines_joined; [unfold MAX_LINE_LEN; lia | lia]. }
  split; [apply (read_lines_bounded _ MAX_LINE_LEN) | ].
  unfold parse_config. cbn [negb].
  destruct (server_lines_settings (read_lines (String.length f) MAX_LINE_LEN f))
    as (Hmode & Htls & Hn & Haddress).
  destruct (fold_left _ _ _) as [cfg n]. cbn [fst snd] in *.
  set (lines := read_lines (String.length f) MAX_LINE_LEN f) in *.
  split; [reflexivity | ]. subst n.
  destruct (last (settings "address" lines)) as [v | ].
  - unfold strdup in Haddress.
    destruct (alloc_ok (length (settings "address" lines) - 1));
      rewrite Haddress; cbn; now repeat split.
  - rewrite Haddress. cbn. now repeat split.
Qed.

End ServerParseConfig.

Lemma server_parse_config_settings_witness :
  let r := ServerMain.parse_config (fun _ => true) true sample_server_config
             no_server_config in
  fst r = 0 /\ ServerMain.mode (snd r) = SOCKET_MODE_UNIX /\
  ServerMain.enable_tls (snd r) = 1 /\
  ServerMain.address (snd r) = Some (0%nat, "/tmp/s.sock"%string).
Proof.
  destruct (server_parse_config_settings (fun _ => true) sample_server_config
              no_server_config)
    as (_ & _ & Hret & Hmode & Htls & Haddress).
  - vm_compute. reflexivity.
  - cbv zeta. split; [exact Hret | ]. split; [rewrite Hmode; reflexivity | ].
    split; [rewrite Htls; reflexivity | rewrite Haddress; reflexivity].
Defined.

(** A comment longer than the buffer: its tail is read as a line of its
    own. *)
Example long_comment_tail_is_read :
  ConfigFile.key_value long_comment = None /\
  ServerMain.mode
    (snd (ServerMain.parse_config (fun _ => true) true
            (file_of [long_comment]) no_server_config))
  = SOCKET_MODE_UNIX.
Proof. split; vm_compute; reflexivity. Qed.

(* ================================================================== *)
(** * client/main.c: parse_config *)
(* ================================================================== *)

Section ClientParseConfig.
Import ConfigFile ClientMain.
Variable alloc_ok : nat -> bool.

Lemma copy_of_strdup (n : nat) (v : string) :
  copy_of alloc_ok (strdup alloc_ok n v) v.
Proof.
  unfold copy_of, strdup. destruct (alloc_ok n) eqn:Hn; [now left | right].
  split; [reflexivity | now exists n].
Qed.

Lemma copies_snoc (ps : list Ptr) (vs : list string) (n : nat) (v : string) :
  Forall2 (copy_of alloc_ok) ps vs ->
  Forall2 (copy_of alloc_ok) (ps ++ [strdup alloc_ok n v]) (vs ++ [v]).
Proof.
  intros Hcopies. apply Forall2_app; [exact Hcopies | ].
  constructor; [apply copy_of_strdup | constructor].
Qed.

Lemma config_line_settings (prefix : list string) (buf : string)
    (st st' : State) :
  settings_read alloc_ok prefix st ->
  config_line alloc_ok st buf = (st', true) ->
  settings_read alloc_ok (prefix ++ [buf]) st'.
Proof.
  intros (Hmode & Htls & Hfree & Hmessages & Haddress). unfold settings_read.
  rewrite !settings_snoc, modes_snoc, !last_settings_snoc.
  rewrite !setting_key_value by (split; reflexivity).
  unfold config_line.
  destruct (key_value buf) as [[key value] | ].
  2: { intros [= <-]. cbn. rewrite app_nil_r. now repeat split. }
  destruct (String.eqb_spec key "mode") as [-> | _].
  { cbn [String.eqb Ascii.eqb Bool.eqb]. cbn [mbind option_bind].
    unfold mode_named.
    destruct (String.eqb value "unix"), (String.eqb value "inet");
      intros [= <-]; cbn; rewrite app_nil_r; now repeat split. }
  destruct (String.eqb_spec key "address") as [-> | _].
  { intros [= <-]. cbn. rewrite app_nil_r. repeat split; try assumption.
    apply copy_of_strdup. }
  destruct (String.eqb_spec key "tls") as [-> | _].
  { intros [= <-]. cbn. rewrite app_nil_r. now repeat split. }
  destruct (String.eqb_spec key "free_input") as [-> | _].
  { intros [= <-]. cbn. rewrite app_nil_r. now repeat split. }
  destruct (String.eqb_spec key "message") as [-> | _].
  { cbn [String.eqb Ascii.eqb Bool.eqb]. cbn [mbind option_bind].
    destruct (message_capacity st <=? message_count (cfg st)).
    - destruct (alloc_ok (allocs st)); [ | discriminate].
      intros [= <-]. cbn. repeat split; try assumption.
      now apply copies_snoc.
    - intros [= <-]. cbn. repeat split; try assumption.
      now apply copies_snoc. }
  intros [= <-]. cbn. rewrite app_nil_r. now repeat split.
Qed.

Lemma strdups_app (a b : list Call) : strdups (a ++ b) = strdups a ++ strdups b.
Proof. apply omap_app. Qed.

Lemma frees_app (a b : list Call) : frees (a ++ b) = frees a ++ frees b.
Proof. apply omap_app. Qed.

Lemma grown_app (a b : list Call) : grown (a ++ b) = grown a ++ grown b.
Proof. apply omap_app. Qed.

Lemma handed_out_snoc (c : Config) (p : Ptr) (ps : list Ptr) :
  omap id (address c :: ps ++ [p]) = omap id (address c :: ps) ++ omap id [p].
Proof. now rewrite app_comm_cons, omap_app. Qed.

(** The [message] branch once the array has room. *)
Lemma store_message_memory (prefix : list string) (buf value : string)
    (st : State) :
  setting "message" buf = Some value ->
  setting "address" buf = None ->
  memory_kept prefix st ->
  (Z.of_nat (length (prefix ++ [buf])) < 2 ^ 60 ->
   Z.of_nat (length (messages (cfg st))) < message_capacity st) ->
  memory_kept (prefix ++ [buf]) (store_message alloc_ok st value).
Proof.
  intros Hmessage Haddress
    (Hcount & Hlen & Hcalls & (lost & Hlost & Hnone) & Hdup & Hfresh & Hroom)
    Hstrict.
  unfold memory_kept, store_message. cbn [cfg calls allocs message_capacity
    messages message_count address].
  rewrite !length_app, strdups_app, grown_app, forallb_app. cbn [length].
  set (p := strdup alloc_ok (allocs st) value).
  assert (Hp : strdups [Strdup p] = omap id [p]) by reflexivity.
  assert (Hnew : forall b, In b (omap id [p]) -> fst b = allocs st).
  { intros b. unfold p, strdup. destruct (alloc_ok (allocs st)); cbn.
    - intros [<- | []]. reflexivity.
    - intros []. }
  rewrite Hp. repeat split.
  - rewrite Hcount. unfold wrap64. rewrite Zplus_mod_idemp_l.
    f_equal. lia.
  - lia.
  - now rewrite Hcalls.
  - exists lost. split.
    + unfold handed_out. cbn [messages address]. rewrite handed_out_snoc.
      rewrite Hlost. unfold handed_out. now rewrite app_assoc.
    + rewrite settings_snoc, Haddress, app_nil_r. exact Hnone.
  - rewrite map_app. apply NoDup_app. split; [exact Hdup | ]. split.
    + intros i Hi Hi'. apply list_elem_of_In, in_map_iff in Hi, Hi'.
      destruct Hi as (b & <- & Hb), Hi' as (b' & Heq & Hb').
      rewrite Forall_forall in Hfresh.
      specialize (Hfresh b ltac:(now apply list_elem_of_In)).
      specialize (Hnew b' Hb'). lia.
    + destruct (omap id [p]) as [ | b [ | b' l]] eqn:Hq.
      * constructor.
      * cbn. apply NoDup_singleton.
      * unfold p, strdup in Hq. destruct (alloc_ok (allocs st)); discriminate.
  - apply Forall_app. split.
    + eapply Forall_impl; [exact Hfresh | ]. cbn. intros b Hb. lia.
    + apply Forall_forall. intros b Hb. apply list_elem_of_In in Hb.
      specialize (Hnew b Hb). lia.
  - destruct Hroom as (Hgrown & _); [lia | ].
    cbn [grown omap]. rewrite app_nil_r. exact Hgrown.
  - destruct Hroom as (_ & Hcapacity & _); [lia | ].
    cbn [grown omap]. rewrite app_nil_r. exact Hcapacity.
  - destruct Hroom as (_ & Hcapacity & _); [lia | ].
    cbn [grown omap]. rewrite app_nil_r. rewrite <- Hcapacity.
    specialize (Hstrict ltac:(rewrite length_app; cbn [length]; lia)). lia.
Qed.

Lemma capacity_after_pos (k : nat) : 0 < capacity_after (S k).
Proof. cbn [capacity_after]. lia. Qed.

Lemma seq_snoc (k : nat) : seq 0 (S k) = seq 0 k ++ [k].
Proof. now rewrite seq_S. Qed.

(** The [message] branch when the array is full and [realloc] succeeds. *)
Lemma realloc_memory (prefix : list string) (st : State) :
  memory_kept prefix st ->
  (message_capacity st <=? message_count (cfg st)) = true ->
  let new_capacity :=
    if message_capacity st =? 0 then 8 else wrap64 (message_capacity st * 2) in
  let st' :=
    {| cfg := cfg st; message_capacity := new_capacity;
       allocs := S (allocs st);
       calls := calls st
                ++ [Realloc (wrap64 (new_capacity * sizeof_char_ptr)) true] |} in
  memory_kept prefix st' /\
  (Z.of_nat (length prefix) < 2 ^ 60 ->
   Z.of_nat (length (messages (cfg st))) < message_capacity st').
Proof.
  intros (Hcount & Hlen & Hcalls & (lost & Hlost & Hnone) & Hdup & Hfresh & Hroom)
    Hfull. cbv zeta. apply Z.leb_le in Hfull.
  assert (Hgrows : Z.of_nat (length prefix) < 2 ^ 60 ->
            let k := length (grown (calls st)) in
            (if message_capacity st =? 0 then 8
             else wrap64 (message_capacity st * 2)) = capacity_after (S k) /\
            wrap64 (capacity_after (S k) * sizeof_char_ptr)
            = 64 * 2 ^ Z.of_nat k /\
            Z.of_nat (length (messages (cfg st))) < capacity_after (S k)).
  { intros Hbound. destruct (Hroom Hbound) as (_ & Hcapacity & Hle).
    cbv zeta in *. rewrite Hcount in Hfull.
    unfold wrap64 in Hfull. rewrite Z.mod_small in Hfull by lia.
    clear Hroom. remember (length (grown (calls st))) as k eqn:Hk. clear Hk.
    rewrite Hcapacity.
    unfold sizeof_char_ptr, wrap64.
    destruct k as [ | k].
    - cbn [capacity_after] in *. change (Z.of_nat 0) with 0.
      rewrite Z.pow_0_r. repeat split; (reflexivity || lia).
    - pose proof (capacity_after_pos k) as Hpos.
      destruct (Z.eqb_spec (capacity_after (S k)) 0) as [Hzero | _]; [lia | ].
      assert (Hdouble : capacity_after (S (S k)) = capacity_after (S k) * 2).
      { cbn [capacity_after]. rewrite Nat2Z.inj_succ, Z.pow_succ_r by lia. lia. }
      rewrite Z.mod_small by lia. rewrite Hdouble.
      rewrite Z.mod_small by lia.
      repeat split; try lia.
      cbn [capacity_after]. rewrite Nat2Z.inj_succ, Z.pow_succ_r by lia. lia. }
  split.
  - unfold memory_kept. cbn [cfg calls allocs message_capacity].
    rewrite strdups_app, grown_app, forallb_app, Hcalls.
    cbn [strdups grown omap list_omap forallb acquires andb length].
    rewrite !app_nil_r, length_app. cbn [length].
    repeat split; try assumption.
    + now exists lost.
    + eapply Forall_impl; [exact Hfresh | ]. cbn. intros b Hb. lia.
    + destruct (Hroom H) as (Hgrown & _). destruct (Hgrows H) as (Hnew & Hbytes & _).
      cbv zeta in *. rewrite Hnew, Hbytes.
      replace (length (grown (calls st)) + 1)%nat
        with (S (length (grown (calls st)))) by lia.
      rewrite seq_snoc, map_app. cbn [map]. now rewrite <- Hgrown.
    + destruct (Hgrows H) as (Hnew & _). cbv zeta in Hnew. rewrite Hnew.
      f_equal. lia.
    + destruct (Hgrows H) as (_ & _ & Hlt). cbv zeta in Hlt.
      replace (length (grown (calls st)) + 1)%nat
        with (S (length (grown (calls st)))) by lia. lia.
  - intros Hbound. cbn [message_capacity].
    destruct (Hgrows Hbound) as (Hnew & _ & Hlt). cbv zeta in *.
    now rewrite Hnew.
Qed.

(** A line that leaves the messages, the address and the calls alone. *)
Lemma memory_kept_frame (prefix : list string) (buf : string) (st st' : State) :
  memory_kept prefix st ->
  setting "address" buf = None ->
  messages (cfg st') = messages (cfg st) ->
  address (cfg st') = address (cfg st) ->
  message_count (cfg st') = message_count (cfg st) ->
  calls st' = calls st -> allocs st' = allocs st ->
  message_capacity st' = message_capacity st ->
  memory_kept (prefix ++ [buf]) st'.
Proof.
  intros (Hcount & Hlen & Hcalls & (lost & Hlost & Hnone) & Hdup & Hfresh & Hroom)
    Haddress Hm Ha Hc Hcalls' Hallocs Hcapacity.
  unfold memory_kept, handed_out.
  rewrite Hm, Ha, Hc, Hcalls', Hallocs, Hcapacity, settings_snoc, Haddress,
    app_nil_r, length_app.
  cbn [length]. split; [exact Hcount | ]. split; [lia | ].
  split; [exact Hcalls | ]. split; [now exists lost | ].
  split; [exact Hdup | ]. split; [exact Hfresh | ].
  intros Hbound. apply Hroom. lia.
Qed.

(** An [address] line: the block the address pointed to is lost. *)
Lemma address_memory (prefix : list string) (buf value : string) (st : State) :
  settings_read alloc_ok prefix st ->
  memory_kept prefix st ->
  setting "address" buf = Some value ->
  let c := cfg st in
  let p := strdup alloc_ok (allocs st) value in
  memory_kept (prefix ++ [buf])
    {| cfg := {| mode := mode c; address := p; enable_tls := enable_tls c;
                 free_input := free_input c; messages := messages c;
                 message_count := message_count c |};
       message_capacity := message_capacity st;
       allocs := S (allocs st);
       calls := calls st ++ [Strdup p] |}.
Proof.
  intros (_ & _ & _ & _ & Hheld)
    (Hcount & Hlen & Hcalls & (lost & Hlost & Hnone) & Hdup & Hfresh & Hroom)
    Haddress. cbv zeta.
  set (p := strdup alloc_ok (allocs st) value).
  unfold memory_kept, handed_out.
  cbn [cfg calls allocs message_capacity messages message_count address].
  rewrite length_app, strdups_app, grown_app, forallb_app, settings_snoc,
    Haddress.
  cbn [length]. change (grown [Strdup p]) with (@nil Z). rewrite app_nil_r.
  assert (Hp : strdups [Strdup p] = omap id [p]) by reflexivity.
  assert (Hnew : forall b, In b (omap id [p]) -> fst b = allocs st).
  { intros b. unfold p, strdup. destruct (alloc_ok (allocs st)); cbn.
    - intros [<- | []]. reflexivity.
    - intros []. }
  rewrite Hp.
  split; [exact Hcount | ]. split; [lia | ].
  split; [now rewrite Hcalls | ]. split.
  { exists (lost ++ omap id [address (cfg st)]). split.
    - rewrite Hlost. unfold handed_out.
      assert (Hcons : forall (q : Ptr) l, omap id (q :: l) = omap id [q] ++ omap id l)
        by (intros q l; apply (omap_app id [q] l)).
      rewrite (Hcons (address (cfg st)) (messages (cfg st))),
        (Hcons p (messages (cfg st))).
      rewrite <- !app_assoc. do 2 apply Permutation_app_head.
      apply Permutation_app_comm.
    - rewrite length_app. cbn [length]. intros Hone.
      assert (Hnil : settings "address" prefix = [])
        by (destruct (settings "address" prefix); [reflexivity | cbn in Hone; lia]).
      rewrite Hnil in Hheld, Hnone. cbn in Hheld. rewrite Hheld.
      rewrite Hnone by (cbn; lia). reflexivity. }
  split.
  { rewrite map_app. apply NoDup_app. split; [exact Hdup | ]. split.
    + intros i Hi Hi'. apply list_elem_of_In, in_map_iff in Hi, Hi'.
      destruct Hi as (b & <- & Hb), Hi' as (b' & Heq & Hb').
      rewrite Forall_forall in Hfresh.
      specialize (Hfresh b ltac:(now apply list_elem_of_In)).
      specialize (Hnew b' Hb'). lia.
    + destruct (omap id [p]) as [ | b [ | b' l]] eqn:Hq.
      * constructor.
      * cbn. apply NoDup_singleton.
      * unfold p, strdup in Hq. destruct (alloc_ok (allocs st)); discriminate. }
  split.
  { apply Forall_app. split.
    + eapply Forall_impl; [exact Hfresh | ]. cbn. intros b Hb. lia.
    + apply Forall_forall. intros b Hb. apply list_elem_of_In in Hb.
      specialize (Hnew b Hb). lia. }
  intros Hbound. apply Hroom. lia.
Qed.

Lemma config_line_memory (prefix : list string) (buf : string)
    (st st' : State) :
  settings_read alloc_ok prefix st ->
  memory_kept prefix st ->
  config_line alloc_ok st buf = (st', true) ->
  memory_kept (prefix ++ [buf]) st'.
Proof.
  intros Hread Hkept.
  pose proof (setting_key_value "address" buf ltac:(split; reflexivity))
    as Haddress.
  pose proof (setting_key_value "message" buf ltac:(split; reflexivity))
    as Hmessage.
  unfold config_line.
  destruct (key_value buf) as [[key value] | ].
  2: { intros [= <-]. now apply memory_kept_frame with (st := st). }
  destruct (String.eqb_spec key "mode") as [-> | _].
  { destruct (String.eqb value "unix"), (String.eqb value "inet");
      intros [= <-]; now apply memory_kept_frame with (st := st). }
  destruct (String.eqb_spec key "address") as [-> | _].
  { intros [= <-]. now apply address_memory. }
  destruct (String.eqb_spec key "tls") as [-> | _].
  { intros [= <-]. now apply memory_kept_frame with (st := st). }
  destruct (String.eqb_spec key "free_input") as [-> | _].
  { intros [= <-]. now apply memory_kept_frame with (st := st). }
  destruct (String.eqb_spec key "message") as [-> | _].
  { cbn in Haddress, Hmessage.
    destruct (message_capacity st <=? message_count (cfg st)) eqn:Hfull.
    - destruct (alloc_ok (allocs st)); [ | discriminate]. intros [= <-].
      destruct (realloc_memory prefix st Hkept Hfull) as (Hkept' & Hstrict).
      apply store_message_memory; try assumption.
      intros Hbound. apply Hstrict. rewrite length_app in Hbound. lia.
    - intros [= <-]. apply store_message_memory; try assumption.
      intros Hbound. apply Z.leb_gt in Hfull.
      destruct Hkept as (Hcount & Hlen & _). rewrite Hcount in Hfull.
      unfold wrap64 in Hfull. rewrite length_app in Hbound.
      rewrite Z.mod_small in Hfull by lia. exact Hfull. }
  intros [= <-]. apply memory_kept_frame with (st := st); try assumption;
    reflexivity.
Qed.

(** The [return -1] of the loop body. *)
Lemma config_line_fails (buf : string) (st st' : State) :
  config_line alloc_ok st buf = (st', false) ->
  cfg st' = cfg st /\
  exists bytes,
    calls st' = calls st ++ [Realloc bytes false]
                ++ map Free (take (Z.to_nat (message_count (cfg st)))
                               (messages (cfg st)))
                ++ [FreeArray; Free (address (cfg st)); Fclose].
Proof.
  unfold config_line.
  destruct (key_value buf) as [[key value] | ]; [ | discriminate].
  repeat match goal with
         | |- context [if String.eqb ?a ?b then _ else _] =>
             destruct (String.eqb a b)
         end; try discriminate.
  destruct (message_capacity st <=? message_count (cfg st));
    [ | discriminate].
  destruct (alloc_ok (allocs st)); [discriminate | ].
  intros [= <-]. split; [reflexivity | ]. eexists. reflexivity.
Qed.

(** The loop: the invariant holds while it goes on, and where it breaks
    off it held before the line that failed. *)
Lemma parse_lines_kept (rest prefix : list string) (st : State) :
  settings_read alloc_ok prefix st -> memory_kept prefix st ->
  let out := parse_lines alloc_ok rest st in
  if snd out
  then settings_read alloc_ok (prefix ++ rest) (fst out)
       /\ memory_kept (prefix ++ rest) (fst out)
  else exists before buf st0,
         (length before < length (prefix ++ rest))%nat /\
         (length (settings "address" before)
          <= length (settings "address" (prefix ++ rest)))%nat /\
         settings_read alloc_ok before st0 /\ memory_kept before st0 /\
         config_line alloc_ok st0 buf = (fst out, false).
Proof.
  revert prefix st. induction rest as [ | buf rest IH]; intros prefix st Hread Hkept.
  - cbn. rewrite app_nil_r. now split.
  - cbn [parse_lines]. cbv zeta.
    destruct (config_line alloc_ok st buf) as [st' goes_on] eqn:Hline.
    replace (prefix ++ buf :: rest) with ((prefix ++ [buf]) ++ rest)
      by now rewrite <- app_assoc.
    destruct goes_on.
    + apply IH.
      * now apply config_line_settings with (st := st).
      * now apply config_line_memory with (st := st).
    + cbn [fst snd]. exists prefix, buf, st.
      split; [rewrite !length_app; cbn [length]; lia | ].
      split; [ | split; [exact Hread | split; [exact Hkept | exact Hline]]].
      unfold settings. rewrite <- app_assoc, omap_app, length_app. lia.
Qed.

Lemma read_lines_length (fuel size : nat) (f : string) :
  (length (read_lines fuel size f) <= fuel)%nat.
Proof.
  revert f. induction fuel as [ | fuel IH]; intros f; [cbn; lia | ].
  destruct f as [ | c rest]; [cbn; lia | ]. cbn [read_lines].
  destruct (fgets (size - 1) (String c rest)) as [line left].
  cbn [length]. specialize (IH left). lia.
Qed.

Lemma start_kept :
  let start :=
    {| cfg := {| mode := SOCKET_MODE_INET; address := None; enable_tls := 0;
                 free_input := 0; messages := []; message_count := 0 |};
       message_capacity := 0; allocs := 0%nat; calls := [] |} in
  settings_read alloc_ok [] start /\ memory_kept [] start.
Proof.
  cbv zeta. split.
  - unfold settings_read. cbn. repeat split; constructor.
  - unfold memory_kept. cbn. repeat split; try constructor; try lia.
    exists []. now split.
Qed.

Lemma acquires_frees (l : list Call) : forallb acquires l = true -> frees l = [].
Proof.
  induction l as [ | c l IH]; [reflexivity | ]. cbn [forallb].
  intros (Hc & Hl)%andb_prop. unfold frees in *. cbn [omap list_omap].
  destruct c; try discriminate; now apply IH.
Qed.

Lemma acquires_no_failure (l : list Call) (bytes : Z) :
  forallb acquires l = true -> ~ In (Realloc bytes false) l.
Proof.
  intros Hl Hin. rewrite forallb_forall in Hl. now specialize (Hl _ Hin).
Qed.

Lemma frees_map_Free (ps : list Ptr) : frees (map Free ps) = omap id ps.
Proof.
  induction ps as [ | p ps IH]; [reflexivity | ].
  unfold frees in *. cbn [map omap list_omap]. now rewrite IH.
Qed.

Lemma strdups_map_Free (ps : list Ptr) : strdups (map Free ps) = [].
Proof. induction ps as [ | p ps IH]; [reflexivity | exact IH]. Qed.

Lemma grown_map_Free (ps : list Ptr) : grown (map Free ps) = [].
Proof. induction ps as [ | p ps IH]; [reflexivity | exact IH]. Qed.






(** X30.  The books of the client's [parse_config], for a file of less
    than 2^60 characters with at most one [address=] line.  It returns 0 or
    -1, and -1 exactly when a [realloc] failed.  The successful [realloc]s
    ask for 64, 128, 256, ... bytes, and the array never holds more entries
    than the last of them made room for.  When it returns 0 it released
    nothing, closed the file once, and every block [strdup] returned is
    held by the output parameters.  When it returns -1, the failed
    [realloc] is followed by a [free] of every entry of the array, of the
    array, and of the address, and by the [fclose], and by nothing else:
    every block [strdup] returned is freed, once. *)
Theorem client_parse_config_memory (f : string) (out : Config) :
  Z.of_nat (String.length f) < 2 ^ 60 ->
  (length (settings "address" (read_lines (String.length f) MAX_LINE_LEN f))
   <= 1)%nat ->
  let r := parse_config alloc_ok true f out in
  let ret := fst (fst r) in
  let c := snd (fst r) in
  let k := length (grown (snd r)) in
  (ret = 0 \/ ret = -1) /\
  (ret = -1 <-> exists bytes, In (Realloc bytes false) (snd r)) /\
  grown (snd r) = map (fun i => 64 * 2 ^ Z.of_nat i) (seq 0 k) /\
  Z.of_nat (length (messages c)) <= capacity_after k /\
  (ret = 0 ->
   (exists before after,
      snd r = before ++ Fclose :: after /\
      forallb acquires before = true /\ forallb acquires after = true) /\
   strdups (snd r) ≡ₚ handed_out c) /\
  (ret = -1 ->
   (exists before bytes,
      snd r = before ++ [Realloc bytes false] ++ map Free (messages c)
              ++ [FreeArray; Free (address c); Fclose] /\
      forallb acquires before = true) /\
   frees (snd r) ≡ₚ strdups (snd r) /\ NoDup (frees (snd r))).
Proof.
  intros Hbound Hone. cbv zeta. unfold parse_config. cbn [negb].
  pose proof (read_lines_length (String.length f) MAX_LINE_LEN f) as Hlines.
  set (lines := read_lines (String.length f) MAX_LINE_LEN f) in *.
  destruct start_kept as (Hread0 & Hkept0).
  pose proof (parse_lines_kept lines [] _ Hread0 Hkept0) as Hloop.
  cbv zeta in Hloop. cbn [app] in Hloop.
  destruct (parse_lines alloc_ok lines _) as [st goes_on].
  cbn [fst snd] in Hloop. destruct goes_on.
  - destruct Hloop as ((_ & _ & _ & _ & Haddress)
                       & (_ & _ & Hcalls & (lost & Hlost & Hnone) & _ & _ & Hroom)).
    destruct (Hroom ltac:(lia)) as (Hgrown & _ & Hle). cbv zeta in Hgrown.
    rewrite (Hnone Hone) in Hlost. cbn [app] in Hlost.
    set (p := strdup alloc_ok (allocs st) (default_address (mode (cfg st)))).
    assert (Hcases :
      exists c after,
        messages c = messages (cfg st) /\ forallb acquires after = true /\
        grown after = [] /\ strdups (calls st ++ Fclose :: after) ≡ₚ handed_out c /\
        match address (cfg st) with
        | Some _ => (0, cfg st, calls st ++ [Fclose])
        | None =>
            (0, {| mode := mode (cfg st); address := p;
                   enable_tls := enable_tls (cfg st);
                   free_input := free_input (cfg st);
                   messages := messages (cfg st);
                   message_count := message_count (cfg st) |},
             calls st ++ [Fclose; Strdup p])
        end = (0, c, calls st ++ Fclose :: after)).
    { destruct (address (cfg st)) as [block | ] eqn:Hblock.
      - exists (cfg st), []. repeat split.
        rewrite strdups_app. cbn. now rewrite app_nil_r.
      - exists {| mode := mode (cfg st); address := p;
                  enable_tls := enable_tls (cfg st);
                  free_input := free_input (cfg st);
                  messages := messages (cfg st);
                  message_count := message_count (cfg st) |}, [Strdup p].
        repeat split.
        rewrite strdups_app, Hlost. unfold handed_out.
        cbn [address messages]. rewrite Hblock.
        change (strdups [Fclose; Strdup p]) with (omap id [p]).
        change (omap id (None :: messages (cfg st)))
          with (omap id (messages (cfg st))).
        rewrite (omap_app id [p] (messages (cfg st)) : omap id (p :: _) = _).
        apply Permutation_app_comm. }
    destruct Hcases as (c & after & Hm & Hafter & Hquiet & Hheld & ->).
    cbn [fst snd]. rewrite Hm.
    assert (Hsame : grown (calls st ++ Fclose :: after) = grown (calls st)).
    { rewrite grown_app.
      change (grown (Fclose :: after)) with (grown after).
      now rewrite Hquiet, app_nil_r. }
    rewrite Hsame.
    split; [now left | ]. split.
    { split; [discriminate | ]. intros (bytes & Hin).
      apply in_app_iff in Hin. destruct Hin as [Hin | [Hin | Hin]].
      - now apply acquires_no_failure in Hin.
      - discriminate.
      - now apply acquires_no_failure in Hin. }
    split; [exact Hgrown | ]. split; [exact Hle | ].
    split; [ | discriminate]. intros _. split; [ | exact Hheld].
    now exists (calls st), after.
  - destruct Hloop as (before & buf & st0 & Hshort & Hfewer
                       & (_ & _ & _ & _ & Haddress)
                       & (Hcount & Hlen & Hcalls & (lost & Hlost & Hnone) & Hdup
                          & _ & Hroom) & Hfail).
    destruct (config_line_fails buf st0 st Hfail) as (Hcfg & bytes & Htrace).
    destruct (Hroom ltac:(lia)) as (Hgrown & _ & Hle). cbv zeta in Hgrown.
    rewrite (Hnone ltac:(lia)) in Hlost. cbn [app] in Hlost.
    rewrite Hcount in Htrace. unfold wrap64 in Htrace.
    rewrite Z.mod_small, Nat2Z.id, firstn_all in Htrace by lia.
    cbn [fst snd]. rewrite Htrace, Hcfg.
    assert (Hsame : grown (calls st0 ++ [Realloc bytes false]
                           ++ map Free (messages (cfg st0))
                           ++ [FreeArray; Free (address (cfg st0)); Fclose])
                    = grown (calls st0)).
    { rewrite !grown_app, grown_map_Free. cbn. now rewrite app_nil_r. }
    assert (Hstrdups : strdups (calls st0 ++ [Realloc bytes false]
                                ++ map Free (messages (cfg st0))
                                ++ [FreeArray; Free (address (cfg st0)); Fclose])
                       = strdups (calls st0)).
    { rewrite !strdups_app, strdups_map_Free. cbn. now rewrite app_nil_r. }
    assert (Hfrees : frees (calls st0 ++ [Realloc bytes false]
                            ++ map Free (messages (cfg st0))
                            ++ [FreeArray; Free (address (cfg st0)); Fclose])
                     ≡ₚ handed_out (cfg st0)).
    { rewrite !frees_app, frees_map_Free, (acquires_frees _ Hcalls).
      unfold handed_out.
      rewrite (omap_app id [address (cfg st0)] (messages (cfg st0))
               : omap id (address (cfg st0) :: _) = _).
      cbn [app]. change (frees [Realloc bytes false]) with (@nil (nat * string)).
      cbn [app].
      change (frees [FreeArray; Free (address (cfg st0)); Fclose])
        with (omap id [address (cfg st0)]).
      apply Permutation_app_comm. }
    rewrite Hsame, Hstrdups.
    split; [now right | ]. split.
    { split; [ | reflexivity]. intros _. exists bytes.
      apply in_app_iff. right. now left. }
    split; [exact Hgrown | ]. split; [exact Hle | ].
    split; [discriminate | ]. intros _. split; [now exists (calls st0), bytes | ].
    split; [now rewrite Hfrees, Hlost | ].
    rewrite Hfrees, <- Hlost. now apply NoDup_fmap_1 in Hdup.
Qed.
End ClientParseConfig.


(** When the [strdup] of a message fails, its entry is NULL, it is counted,
    and [parse_config] returns 0. *)
Example failed_strdup_leaves_null_entry :
  let r := ClientMain.parse_config (fails_at 3) true sample_config
             no_client_config in
  fst (fst r) = 0 /\
  ClientMain.messages (snd (fst r)) = [Some (2%nat, "hello"%string); None] /\
  ClientMain.message_count (snd (fst r)) = 2.
Proof. vm_compute. repeat split; reflexivity. Qed.

Lemma client_parse_config_memory_witness :
  let r := ClientMain.parse_config (fails_at 1) true sample_config
             no_client_config in
  fst (fst r) = -1 /\ frees (snd r) ≡ₚ strdups (snd r).
Proof.
  destruct (client_parse_config_memory (fails_at 1) sample_config
              no_client_config)
    as (_ & _ & _ & _ & _ & Hfailed).
  - vm_compute. reflexivity.
  - vm_compute. lia.
  - cbv zeta. split; [reflexivity | ].
    destruct (Hfailed eq_refl) as (_ & Hfreed & _). exact Hfreed.
Defined.

(** With two [address] lines the copy of the first is lost: it is not
    freed when [parse_config] gives up, and no output points to it when
    [parse_config] returns 0. *)
Example overwritten_address_leaks :
  let r := ClientMain.parse_config (fails_at 2) true two_addresses
             no_client_config in
  let r' := ClientMain.parse_config (fun _ => true) true two_addresses
              no_client_config in
  fst (fst r) = -1 /\
  strdups (snd r) = [(0%nat, "a:1"); (1%nat, "b:2")]%string /\
  frees (snd r) = [(1%nat, "b:2")]%string /\
  fst (fst r') = 0 /\
  strdups (snd r')
  = [(0%nat, "a:1"); (1%nat, "b:2"); (3%nat, "hello")]%string /\
  handed_out (snd (fst r')) = [(1%nat, "b:2"); (3%nat, "hello")]%string.
Proof. vm_compute. repeat split; reflexivity. Qed.

